(** * PAUTA-JRT2: the docket scraper of LabsAtivai/boaventura

    A shallow embedding of [src/PAUTA-JRT2.js].  The file holds two
    variants of one workflow: the first one drives a calendar-grid date
    picker, the second one a previous/next stepper (and adds the MySQL,
    XLSX and mail sinks).  Helpers that are textually the same in both
    variants live in the top-level modules; the two date-selection
    mechanisms live in [CalendarGrid] and [LinearStepper]. *)

From Stdlib Require Import ZArith List Lia Bool String Ascii Decimal DecimalZ Sorted.
From stdpp Require Import base list gmap.

Local Open Scope Z_scope.

(** ** JavaScript strings

    A JavaScript string is a sequence of UTF-16 code units.  The program
    depends on code units outside ASCII (U+00A0, U+FEFF, the c-cedilla of
    the month table), so strings are lists of code units and not byte
    strings. *)

Module JsString.

Definition jsstring := list N.

(** ASCII literals of the source, written as Rocq strings. *)
Definition lit (s : string) : jsstring :=
  List.map N_of_ascii (list_ascii_of_string s).

(** [a === b] on strings. *)
Definition eqb (a b : jsstring) : bool := bool_decide (a = b).

(** Named code units. *)
Definition cTAB : N := 9.
Definition cLF : N := 10.
Definition cCR : N := 13.
Definition cSPACE : N := 32.
Definition cQUOTE : N := 34.
Definition cMINUS : N := 45.
Definition cPLUS : N := 43.
Definition cSLASH : N := 47.
Definition cZERO : N := 48.
Definition cSEMI : N := 59.
Definition cUNDERSCORE : N := 95.
Definition cNBSP : N := 160.
Definition cBOM : N := 65279.

(** ECMAScript WhiteSpace and LineTerminator code points: the set that
    [String.prototype.trim] strips. *)
Definition isWhiteSpace (c : N) : bool :=
  ((9 <=? c) && (c <=? 13))%N
  || (c =? 32)%N || (c =? 160)%N || (c =? 5760)%N
  || ((8192 <=? c) && (c <=? 8202))%N
  || (c =? 8232)%N || (c =? 8233)%N || (c =? 8239)%N
  || (c =? 8287)%N || (c =? 12288)%N || (c =? 65279)%N.

Fixpoint trimStart (s : jsstring) : jsstring :=
  match s with
  | c :: r => if isWhiteSpace c then trimStart r else s
  | [] => []
  end.

Definition trimEnd (s : jsstring) : jsstring := rev (trimStart (rev s)).

(** [s.trim()] *)
Definition trim (s : jsstring) : jsstring := trimEnd (trimStart s).

(** [/[0-9]/], which is what [\d] means without the unicode flag. *)
Definition isDigit (c : N) : bool := ((48 <=? c) && (c <=? 57))%N.

(** The word characters of [\b] and [\w]: [A-Za-z0-9_]. *)
Definition isWordChar (c : N) : bool :=
  isDigit c || ((65 <=? c) && (c <=? 90))%N
  || ((97 <=? c) && (c <=? 122))%N || (c =? 95)%N.

Fixpoint startsWith (p s : jsstring) : bool :=
  match p, s with
  | [], _ => true
  | _ :: _, [] => false
  | a :: p', b :: s' => (a =? b)%N && startsWith p' s'
  end.

(** [s.includes(p)] *)
Fixpoint includes (s p : jsstring) : bool :=
  startsWith p s ||
  match s with
  | [] => false
  | _ :: r => includes r p
  end.

(** [s.split(sep)] for a one-code-unit separator; the result is never
    empty ([''.split('/')] is [['']]). *)
Fixpoint split (sep : N) (s : jsstring) : list jsstring :=
  match s with
  | [] => [[]]
  | c :: r =>
      if (c =? sep)%N then [] :: split sep r
      else match split sep r with
           | h :: t => (c :: h) :: t
           | [] => [[c]]
           end
  end.

(** [parts.join(sep)] *)
Fixpoint join (sep : jsstring) (parts : list jsstring) : jsstring :=
  match parts with
  | [] => []
  | [p] => p
  | p :: rest => p ++ sep ++ join sep rest
  end.

(** [s.padStart(n, c)] for a one-code-unit filler. *)
Definition padStart (n : nat) (c : N) (s : jsstring) : jsstring :=
  repeat c (n - length s)%nat ++ s.

(** [s.toLowerCase()] on Basic Latin and Latin-1; code units above
    U+00FF are left as they are (the month labels the program looks for
    are Latin-1). *)
Definition toLowerUnit (c : N) : N :=
  if ((65 <=? c) && (c <=? 90))%N then (c + 32)%N
  else if ((192 <=? c) && (c <=? 222) && negb (c =? 215))%N then (c + 32)%N
  else c.

Definition toLowerCase (s : jsstring) : jsstring := List.map toLowerUnit s.

(** JavaScript truthiness of a string: non-empty. *)
Definition truthy (s : jsstring) : bool :=
  match s with [] => false | _ :: _ => true end.

(** *** Decimal numerals *)

Fixpoint uint_units (u : uint) : jsstring :=
  match u with
  | Nil => []
  | D0 r => 48%N :: uint_units r
  | D1 r => 49%N :: uint_units r
  | D2 r => 50%N :: uint_units r
  | D3 r => 51%N :: uint_units r
  | D4 r => 52%N :: uint_units r
  | D5 r => 53%N :: uint_units r
  | D6 r => 54%N :: uint_units r
  | D7 r => 55%N :: uint_units r
  | D8 r => 56%N :: uint_units r
  | D9 r => 57%N :: uint_units r
  end.

Fixpoint units_uint (s : jsstring) : option uint :=
  match s with
  | [] => Some Nil
  | c :: r =>
      match units_uint r with
      | None => None
      | Some u =>
          match c with
          | 48%N => Some (D0 u) | 49%N => Some (D1 u) | 50%N => Some (D2 u)
          | 51%N => Some (D3 u) | 52%N => Some (D4 u) | 53%N => Some (D5 u)
          | 54%N => Some (D6 u) | 55%N => Some (D7 u) | 56%N => Some (D8 u)
          | 57%N => Some (D9 u)
          | _ => None
          end
      end
  end.

(** [String(n)] for an integer [n] (Number::toString, radix 10). *)
Definition ofZ (n : Z) : jsstring :=
  match Z.to_int n with
  | Pos u => uint_units u
  | Neg u => cMINUS :: uint_units u
  end.

(** [Number(s)] on the integer fragment of StringNumericLiteral: white
    space is trimmed, the empty string is [0], an optional sign is
    followed by decimal digits.  [None] is NaN.  Literals with a
    fraction, an exponent, a radix prefix or [Infinity] are outside the
    fragment and also give [None]; no string the program builds or
    extracts has that form. *)
Definition toNumber (s : jsstring) : option Z :=
  match trim s with
  | [] => Some 0
  | c :: r =>
      if (c =? cMINUS)%N then
        match r with
        | [] => None
        | _ => option_map (fun u => Z.of_int (Neg u)) (units_uint r)
        end
      else if (c =? cPLUS)%N then
        match r with
        | [] => None
        | _ => option_map (fun u => Z.of_int (Pos u)) (units_uint r)
        end
      else option_map (fun u => Z.of_int (Pos u)) (units_uint (c :: r))
  end.

End JsString.

Import JsString.

(** ** JavaScript dates

    A time value is a number of milliseconds.  A Date object holds an
    instant; its local-time methods go through the local time value
    [LocalTime] of that instant and back through [UTC], both given by
    the time zone.  For the objects the program only makes with the
    local-time constructor and reads with the local-time accessors
    ([parseBRDate] and its callers) the model keeps the local time
    value the constructor is given: the accessors give its components
    back in every zone in which the local time value of the instant of
    a local midnight is on the same day.  The range generator compares
    two Date objects, that is, their instants; there the model keeps
    the instants and goes through the zone as the methods do.  All
    time values stay far inside the TimeClip range. *)

Module JsDate.

Definition msPerDay : Z := 86400000.

Definition Day (t : Z) : Z := t / msPerDay.
Definition TimeWithinDay (t : Z) : Z := t mod msPerDay.

(** Day number (days since 1970-01-01) of a proleptic Gregorian date,
    [m] in 1..12. *)
Definition days_from_civil (y m d : Z) : Z :=
  let y := if m <=? 2 then y - 1 else y in
  let era := y / 400 in
  let yoe := y mod 400 in
  let mp := if 2 <? m then m - 3 else m + 9 in
  let doy := (153 * mp + 2) / 5 + d - 1 in
  let doe := yoe * 365 + yoe / 4 - yoe / 100 + doy in
  era * 146097 + doe - 719468.

(** Year, month (1..12) and day of month of a day number: a closed
    form of ECMAScript's YearFromTime, MonthFromTime and
    DateFromTime. *)
Definition civil_from_days (n : Z) : Z * Z * Z :=
  let z := n + 719468 in
  let era := z / 146097 in
  let doe := z mod 146097 in
  let yoe := (doe - doe / 1460 + doe / 36524 - doe / 146096) / 365 in
  let y := yoe + era * 400 in
  let doy := doe - (365 * yoe + yoe / 4 - yoe / 100) in
  let mp := (5 * doy + 2) / 153 in
  let d := doy - (153 * mp + 2) / 5 + 1 in
  let m := if mp <? 10 then mp + 3 else mp - 9 in
  (if m <=? 2 then y + 1 else y, m, d).

Definition YearFromTime (t : Z) : Z := fst (fst (civil_from_days (Day t))).
(** 0 is January. *)
Definition MonthFromTime (t : Z) : Z := snd (fst (civil_from_days (Day t))) - 1.
Definition DateFromTime (t : Z) : Z := snd (civil_from_days (Day t)).
(** 0 is Sunday; day 0 was a Thursday. *)
Definition WeekDay (t : Z) : Z := (Day t + 4) mod 7.

(** MakeDay(year, month, date): months beyond 0..11 carry into the
    year, dates beyond the month carry into the following days. *)
Definition MakeDay (year month date : Z) : Z :=
  let ym := year + month / 12 in
  let mn := month mod 12 in
  days_from_civil ym (mn + 1) 1 + date - 1.

Definition MakeDate (day time : Z) : Z := day * msPerDay + time.

(** A Date object: [None] is the invalid date (time value NaN). *)
Definition Date := option Z.

(** [new Date(year, month, date)]; [None] arguments are NaN.  Years
    0..99 mean 1900..1999. *)
Definition newDate (year month date : option Z) : Date :=
  match year, month, date with
  | Some y, Some m, Some dt =>
      let yr := if (0 <=? y) && (y <=? 99) then 1900 + y else y in
      Some (MakeDate (MakeDay yr m dt) 0)
  | _, _, _ => None
  end.

Definition getTime (d : Date) : option Z := d.
Definition getFullYear (d : Date) : option Z := option_map YearFromTime d.
Definition getMonth (d : Date) : option Z := option_map MonthFromTime d.
Definition getDate (d : Date) : option Z := option_map DateFromTime d.
Definition getDay (d : Date) : option Z := option_map WeekDay d.

(** [d.setDate(dt)] and [d.setMonth(m)] on a valid date. *)
Definition setDate (t dt : Z) : Z :=
  MakeDate (MakeDay (YearFromTime t) (MonthFromTime t) dt) (TimeWithinDay t).
Definition setMonth (t m : Z) : Z :=
  MakeDate (MakeDay (YearFromTime t) m (DateFromTime t)) (TimeWithinDay t).

(** A time zone, as far as the Date methods see it: the offset of
    local time from UTC at an instant ([LocalTZA(t, true)] of
    ECMAScript) and at a local time value ([LocalTZA(t, false)]; a
    local time that a change of the clocks skips or repeats is read
    with the offset before the change). *)
Record Zone : Type := {
  tza_utc : Z -> Z;
  tza_local : Z -> Z
}.

Definition LocalTime (z : Zone) (t : Z) : Z := t + tza_utc z t.
Definition UTC (z : Zone) (l : Z) : Z := l - tza_local z l.

(** A zone with the one offset at all times. *)
Definition zonaFixa (offset : Z) : Zone :=
  {| tza_utc := fun _ => offset; tza_local := fun _ => offset |}.

(** The offsets of America/Sao_Paulo from March 2018 on: UTC-3, and
    UTC-2 during its last daylight saving time, from Sunday 4 November
    2018, when the clocks went from 00:00 to 01:00 (03:00 UTC), to
    Sunday 17 February 2019, when they went from 00:00 back to 23:00
    (02:00 UTC). *)
Definition saoPaulo : Zone :=
  {| tza_utc := fun t =>
       if (1541300400000 <=? t) && (t <? 1550368800000) then -7200000
       else -10800000;
     tza_local := fun l =>
       if (1541289600000 + 3600000 <=? l) && (l <? 1550361600000) then -7200000
       else -10800000 |}.

(** [a > b] on numbers: false when either side is NaN. *)
Definition num_gt (a b : option Z) : bool :=
  match a, b with
  | Some x, Some y => y <? x
  | _, _ => false
  end.

(** [a === b] on numbers: false when either side is NaN. *)
Definition num_eq (a b : option Z) : bool :=
  match a, b with
  | Some x, Some y => x =? y
  | _, _ => false
  end.

(** The calendar, for stating what a date string denotes. *)
Definition is_leap (y : Z) : bool :=
  ((y mod 4 =? 0) && negb (y mod 100 =? 0)) || (y mod 400 =? 0).

Definition days_in_month (y m : Z) : Z :=
  if m =? 2 then (if is_leap y then 29 else 28)
  else if (m =? 4) || (m =? 6) || (m =? 9) || (m =? 11) then 30
  else 31.

Definition valid_civil (y m d : Z) : bool :=
  (1 <=? m) && (m <=? 12) && (1 <=? d) && (d <=? days_in_month y m).

End JsDate.

Import JsDate.

(** ** The session facade

    The page is an external collaborator.  Its state is a value of an
    arbitrary type [W]; a [Session W] says what each Playwright call the
    program makes observes of that state and does to it.  Observations
    (text, visibility, counts, DOM queries inside [page.evaluate]) read
    the state and leave it alone; actions (clicks, key presses, waits)
    change it.  Every call may reject, as a Playwright promise may. *)

Module Page.

(** The value carried by a rejection: [err.message]. *)
Definition Exn := jsstring.

Inductive Settled (A : Type) : Type :=
| Fulfilled (a : A)
| Rejected (e : Exn).
Arguments Fulfilled {A} a.
Arguments Rejected {A} e.

(** The Playwright locators of the modelled functions. *)
Inductive Locator : Type :=
| LBackdrop        (* .cdk-overlay-backdrop *)
| LIonSpinner      (* ion-spinner, first *)
| LMatSpinner      (* .mat-mdc-progress-spinner, first *)
| LMatBar          (* .mat-mdc-progress-bar, first *)
| LDateButton      (* getByTestId('pautaButtonData') *)
| LMatCalendar     (* mat-calendar *)
| LPeriodButton    (* mat-calendar button.mat-calendar-period-button *)
| LCalNext         (* mat-calendar button.mat-calendar-next-button *)
| LCalPrev         (* mat-calendar button.mat-calendar-previous-button *)
| LItems.          (* ion-list ion-item *)

Inductive ElState : Type := Visible | Hidden | Detached.

(** The ion-button hosts the stepper variant reaches through
    [page.evaluate]: BTN_NEXT_CSS, BTN_PREV_CSS and
    BTN_DATE_DISPLAY_XPATH. *)
Inductive IonButton : Type := IonNext | IonPrev | IonDateDisplay.

(** What [page.evaluate] sees of an ion-button host: its inner
    [button] (shadow root first, then light DOM) with that button's
    [innerText] and [textContent], and the host's own two texts. *)
Record IonHost : Type := {
  host_button : option (jsstring * jsstring);
  host_innerText : jsstring;
  host_textContent : jsstring
}.

(** A [td.mat-calendar-body-cell] of the month grid, with the first
    [button] inside it if there is one. *)
Record CellButton : Type := {
  btn_aria : option jsstring;     (* aria-label, when the attribute is present *)
  btn_text : jsstring             (* textContent *)
}.

Record Cell : Type := {
  cell_aria : option jsstring;    (* aria-label, when the attribute is present *)
  cell_text : jsstring;           (* textContent *)
  cell_disabled : bool;           (* class mat-calendar-body-disabled *)
  cell_button : option CellButton
}.

(** An [ion-list ion-item]: the text of the first descendant matching
    each of the three selectors, if any, and the texts of all
    [.item-desc-small.item-text-wrap] descendants in document order. *)
Record Item : Type := {
  item_sessao : option jsstring;          (* .sessao *)
  item_palavrasRight : option jsstring;   (* .palavrasRight *)
  item_negrito : option jsstring;         (* .JT-item-texto-negrito *)
  item_descs : list jsstring
}.

(** What an [element.click()] inside [page.evaluate] lands on. *)
Inductive DomTarget : Type :=
| DomCalTd (i : nat)        (* the i-th body cell of the grid *)
| DomCalButton (i : nat)    (* the button inside the i-th body cell *)
| DomIon (b : IonButton).   (* an ion-button host or its inner button *)

Record Session (W : Type) : Type := {
  keyboard_press_escape : W -> Settled unit * W;
  (** [page.waitForTimeout]: the state the wait leaves, and whether the
      promise is fulfilled (it is rejected once the page, its context
      or the browser has been closed). *)
  wait_for_timeout : Z -> W -> W;
  timeout_gate : Z -> W -> Settled unit;
  date_now : W -> Z;
  is_visible : Locator -> W -> Settled bool;
  click : Locator -> W -> Settled unit * W;
  wait_for : Locator -> ElState -> W -> Settled unit * W;
  text_content : Locator -> W -> Settled (option jsstring);
  inner_text : Locator -> W -> Settled jsstring;
  count : Locator -> W -> Settled nat;
  (** [page.evaluate]: whether the call can run at all, and what the
      script then finds in the document. *)
  evaluate_gate : W -> Settled unit;
  dom_calendar : W -> option (list Cell);
  dom_items : W -> list Item;
  dom_ion : IonButton -> W -> option IonHost;
  dom_click : DomTarget -> W -> W
}.
Arguments keyboard_press_escape {W}.
Arguments wait_for_timeout {W}.
Arguments timeout_gate {W}.
Arguments date_now {W}.
Arguments is_visible {W}.
Arguments click {W}.
Arguments wait_for {W}.
Arguments text_content {W}.
Arguments inner_text {W}.
Arguments count {W}.
Arguments evaluate_gate {W}.
Arguments dom_calendar {W}.
Arguments dom_items {W}.
Arguments dom_ion {W}.
Arguments dom_click {W}.

(** The calls made, in order. *)
Inductive Event : Type :=
| EvKeyEscape
| EvWait (ms : Z)
| EvNow
| EvIsVisible (l : Locator)
| EvClick (l : Locator)
| EvWaitFor (l : Locator) (st : ElState)
| EvText (l : Locator)
| EvCount (l : Locator)
| EvEvaluate
| EvDomClick (t : DomTarget).

End Page.

Import Page.

(** ** Asynchronous code as a state-and-exception monad

    An [async] function is a computation over the page state and the log
    of calls.  It returns, throws, or -- for the one loop of the program
    that is bounded by the wall clock only -- runs out of the fuel it was
    given. *)

Module Async.

Inductive Out (A : Type) : Type :=
| Val (a : A)
| Exc (e : Exn)
| NoFuel.
Arguments Val {A} a.
Arguments Exc {A} e.
Arguments NoFuel {A}.

Section Monad.
Context {W : Type}.

Record St : Type := mkSt { world : W; trace : list Event }.

Definition M (A : Type) : Type := St -> Out A * St.

Definition ret {A} (a : A) : M A := fun s => (Val a, s).

Definition bind {A B} (m : M A) (k : A -> M B) : M B :=
  fun s =>
    match m s with
    | (Val a, s') => k a s'
    | (Exc e, s') => (Exc e, s')
    | (NoFuel, s') => (NoFuel, s')
    end.

Definition throw {A} (e : Exn) : M A := fun s => (Exc e, s).

Definition no_fuel {A} : M A := fun s => (NoFuel, s).

(** [try { m } catch (e) { h e }] *)
Definition try_catch {A} (m : M A) (h : Exn -> M A) : M A :=
  fun s =>
    match m s with
    | (Exc e, s') => h e s'
    | r => r
    end.

(** [m.catch(() => d)] *)
Definition catch_with {A} (m : M A) (d : A) : M A :=
  try_catch m (fun _ => ret d).

Definition emit (e : Event) (s : St) : St :=
  mkSt (world s) (trace s ++ [e]).

Definition settle {A} (r : Settled A) : Out A :=
  match r with
  | Fulfilled a => Val a
  | Rejected e => Exc e
  end.

(** An observation: logged, the page state is left alone. *)
Definition observe {A} (e : Event) (f : W -> Settled A) : M A :=
  fun s => (settle (f (world s)), emit e s).

(** An action: logged, the page state moves on. *)
Definition perform (e : Event) (f : W -> Settled unit * W) : M unit :=
  fun s =>
    let '(r, w') := f (world s) in
    (settle r, mkSt w' (trace s ++ [e])).

End Monad.
Arguments St : clear implicits.
Arguments M : clear implicits.

Declare Scope async_scope.
Delimit Scope async_scope with async.
Notation "x <- m ;; k" := (bind m (fun x => k))
  (at level 100, m at next level, right associativity) : async_scope.
Notation "m ;; k" := (bind m (fun _ => k))
  (at level 100, right associativity) : async_scope.
Open Scope async_scope.

Section Loops.
Context {W : Type}.

(** A counted [for] loop that threads the variables the body
    assigns ([X]) and may leave the function with a value ([A]):
    the body answers [inl x'] to go on (also for [continue]) and
    [inr a] for [return a]. *)
Fixpoint for_range {X A} (n : nat) (i : Z) (x : X)
    (body : Z -> X -> M W (X + A)) : M W (X + A) :=
  match n with
  | O => ret (inl x)
  | S n' =>
      r <- body i x ;;
      match r with
      | inr a => ret (inr a)
      | inl x' => for_range n' (i + 1) x' body
      end
  end.

(** [for (let i = a; i <= b; i++)] *)
Definition for_le {X A} (a b : Z) (x : X) (body : Z -> X -> M W (X + A)) :=
  for_range (Z.to_nat (b - a + 1)) a x body.

(** [for (let i = a; i < b; i++)] *)
Definition for_lt {X A} (a b : Z) (x : X) (body : Z -> X -> M W (X + A)) :=
  for_range (Z.to_nat (b - a)) a x body.

End Loops.

(** The facade calls as computations. *)
Section Calls.
Context {W : Type} (page : Session W).

Definition keyboardPressEscape : M W unit :=
  perform EvKeyEscape (keyboard_press_escape page).

Definition waitForTimeout (ms : Z) : M W unit :=
  perform (EvWait ms) (fun w => (timeout_gate page ms w, wait_for_timeout page ms w)).

Definition dateNow : M W Z :=
  observe EvNow (fun w => Fulfilled (date_now page w)).

Definition isVisible (l : Locator) : M W bool :=
  observe (EvIsVisible l) (is_visible page l).

Definition locatorClick (l : Locator) : M W unit :=
  perform (EvClick l) (click page l).

Definition waitFor (l : Locator) (st : ElState) : M W unit :=
  perform (EvWaitFor l st) (wait_for page l st).

Definition textContent (l : Locator) : M W (option jsstring) :=
  observe (EvText l) (text_content page l).

Definition innerText (l : Locator) : M W jsstring :=
  observe (EvText l) (inner_text page l).

Definition locatorCount (l : Locator) : M W nat :=
  observe (EvCount l) (count page l).

(** [page.evaluate(script)]: the script runs in the page unless the
    call rejects. *)
Definition evaluate {A} (script : M W A) : M W A :=
  observe EvEvaluate (evaluate_gate page) ;; script.

(** [element.click()] inside a script. *)
Definition domClick (t : DomTarget) : M W unit :=
  perform (EvDomClick t) (fun w => (Fulfilled tt, dom_click page t w)).

(** A DOM query inside a script. *)
Definition domQuery {A} (f : W -> A) : M W A :=
  fun s => (Val (f (world s)), s).

End Calls.

End Async.

Import Async.

(** ** CSV helpers (the same in both variants) *)

Module Csv.

(** The values a row holds: the program stores strings; a property
    that is missing reads as [undefined]. *)
Inductive JsVal : Type :=
| VUndefined
| VNull
| VStr (s : jsstring).

(** A row object, keyed by column name: the map holds its own
    properties.  The rows of the program are plain objects (object
    literals, and the records [page.evaluate] hands back), so their
    prototype is [Object.prototype]. *)
Abbreviation Row := (gmap jsstring JsVal).

(** The members a plain object inherits from [Object.prototype].  They
    are functions, but for [__proto__], which is the prototype object
    itself; the program only ever turns what it reads from a row into a
    string, so each member is kept as the text [String] gives for it
    (in V8, the engine of Node.js). *)
Definition nativeCode (name : jsstring) : jsstring :=
  lit "function " ++ name ++ lit "() { [native code] }".

Definition objectPrototype : list (jsstring * jsstring) :=
  [(lit "constructor", nativeCode (lit "Object"));
   (lit "__defineGetter__", nativeCode (lit "__defineGetter__"));
   (lit "__defineSetter__", nativeCode (lit "__defineSetter__"));
   (lit "hasOwnProperty", nativeCode (lit "hasOwnProperty"));
   (lit "__lookupGetter__", nativeCode (lit "__lookupGetter__"));
   (lit "__lookupSetter__", nativeCode (lit "__lookupSetter__"));
   (lit "isPrototypeOf", nativeCode (lit "isPrototypeOf"));
   (lit "propertyIsEnumerable", nativeCode (lit "propertyIsEnumerable"));
   (lit "toString", nativeCode (lit "toString"));
   (lit "valueOf", nativeCode (lit "valueOf"));
   (lit "__proto__", lit "[object Object]");
   (lit "toLocaleString", nativeCode (lit "toLocaleString"))].

(** The inherited member named [h], if there is one. *)
Definition herdado (h : jsstring) : option jsstring :=
  option_map snd (List.find (fun p => eqb (fst p) h) objectPrototype).

(** [row[h]]: the own property, or else the inherited one, or else
    [undefined]. *)
Definition get (row : Row) (h : jsstring) : JsVal :=
  match row !! h with
  | Some v => v
  | None =>
      match herdado h with
      | Some t => VStr t
      | None => VUndefined
      end
  end.

(** The files written, by path. *)
Abbreviation FileSystem := (gmap jsstring jsstring).

(** The test of the character class of csvEscape: a semicolon, a
    quote mark, a line feed or a carriage return occurs in [s]. *)
Definition needsQuoting (s : jsstring) : bool :=
  existsb (fun c => (c =? cSEMI)%N || (c =? cQUOTE)%N
                    || (c =? cLF)%N || (c =? cCR)%N) s.

(** The global replace of csvEscape: every quote mark becomes two. *)
Definition doubleQuotes (s : jsstring) : jsstring :=
  flat_map (fun c => if (c =? cQUOTE)%N then [cQUOTE; cQUOTE] else [c]) s.

Definition csvEscape (value : JsVal) : jsstring :=
  match value with
  | VNull | VUndefined => []
  | VStr s =>
      if needsQuoting s then [cQUOTE] ++ doubleQuotes s ++ [cQUOTE]
      else s
  end.

Definition writeCsv (filePath : jsstring) (headers : list jsstring)
    (rows : list Row) (fs : FileSystem) : FileSystem :=
  let bom := [cBOM] in
  let lines :=
    [join [cSEMI] (List.map (fun h => csvEscape (VStr h)) headers)]
    ++ List.map (fun row =>
                   join [cSEMI] (List.map (fun h => csvEscape (get row h)) headers))
                rows in
  <[filePath := bom ++ join [cLF] lines]> fs.

End Csv.

(** ** Date helpers (the same in both variants; [brToIsoDateString] is
    in the second one only) *)

Module Dates.

(** [String(x)] of a number, NaN included. *)
Definition numToString (x : option Z) : jsstring :=
  match x with
  | Some n => ofZ n
  | None => lit "NaN"
  end.

(** An element of a destructured array: reading past the end gives
    [undefined], which is NaN as a number. *)
Definition numAt (parts : list (option Z)) (i : nat) : option Z :=
  default None (parts !! i).

Definition parseBRDate (br : jsstring) : Date :=
  let parts := List.map toNumber (split cSLASH br) in
  let dd := numAt parts 0 in
  let mm := numAt parts 1 in
  let yyyy := numAt parts 2 in
  newDate yyyy (option_map (fun m => m - 1) mm) dd.

(** [day !== k] on a number that may be NaN. *)
Definition num_neq (a : option Z) (k : Z) : bool :=
  match a with
  | Some x => negb (x =? k)
  | None => true
  end.

Definition isWeekdayBR (dataBR : jsstring) : bool :=
  let d := parseBRDate dataBR in
  let day := getDay d in
  num_neq day 0 && num_neq day 6.

(** [hoje] is the time value of [new Date()]. *)
Definition getTodayBR (hoje : Z) : jsstring :=
  let dd := padStart 2 cZERO (ofZ (DateFromTime hoje)) in
  let mm := padStart 2 cZERO (ofZ (MonthFromTime hoje + 1)) in
  let yyyy := YearFromTime hoje in
  dd ++ [cSLASH] ++ mm ++ [cSLASH] ++ ofZ yyyy.

(** The [while (current <= fim)] loop, in the zone [z]; [current] and
    [fim] are the instants the two Date objects hold, which is what
    [<=] compares; [fuel] bounds the number of times the condition is
    evaluated. *)
Fixpoint gerarDatas_loop (fuel : nat) (z : Zone) (current fim : Z)
    (datas : list jsstring) : option (list jsstring) :=
  match fuel with
  | O => None
  | S fuel' =>
      if current <=? fim then
        let t := LocalTime z current in
        let dd := padStart 2 cZERO (ofZ (DateFromTime t)) in
        let mm := padStart 2 cZERO (ofZ (MonthFromTime t + 1)) in
        let yyyy := YearFromTime t in
        let dataBR := dd ++ [cSLASH] ++ mm ++ [cSLASH] ++ ofZ yyyy in
        let datas' := if isWeekdayBR dataBR then datas ++ [dataBR] else datas in
        gerarDatas_loop fuel' z (UTC z (setDate t (DateFromTime t + 1))) fim datas'
      else Some datas
  end.

(** The instant [current] starts from; [hoje] is the local time value
    of [new Date()]. *)
Definition gerarDatas_inicio (z : Zone) (hoje : Z) : Z :=
  UTC z (setDate hoje (DateFromTime hoje + 7)).

(** The instant of [fim], after its [setMonth] and its [setDate]. *)
Definition gerarDatas_fim (z : Zone) (hoje : Z) : Z :=
  let fim := UTC z (setMonth hoje (MonthFromTime hoje + 2)) in
  let t := LocalTime z fim in
  UTC z (setDate t (DateFromTime t + 10)).

(** [z] is the time zone of the process and [hoje] the local time
    value of [new Date()]. *)
Definition gerarDatasProximosDoisMeses (fuel : nat) (z : Zone) (hoje : Z)
    : option (list jsstring) :=
  let datas := [] in
  let current := gerarDatas_inicio z hoje in
  let fim := gerarDatas_fim z hoje in
  gerarDatas_loop fuel z current fim datas.

Definition brToIsoDateString (br : jsstring) : jsstring :=
  let d := parseBRDate br in
  let yyyy := getFullYear d in
  let mm := padStart 2 cZERO (numToString (option_map (fun m => m + 1) (getMonth d))) in
  let dd := padStart 2 cZERO (numToString (getDate d)) in
  numToString yyyy ++ [cMINUS] ++ mm ++ [cMINUS] ++ dd.

(** The canonical strings of a calendar date, for stating what the
    functions above are expected to read and write. *)
Definition canonicalBR (y m d : Z) : jsstring :=
  padStart 2 cZERO (ofZ d) ++ [cSLASH] ++ padStart 2 cZERO (ofZ m)
  ++ [cSLASH] ++ padStart 4 cZERO (ofZ y).


(** The canonical string of the day with number [n]. *)
Definition brOfDay (n : Z) : jsstring :=
  let '(y, m, d) := civil_from_days n in canonicalBR y m d.

End Dates.

(** ** Overlay guard and retry envelope (the same in both variants) *)

Module Overlay.
Section WithPage.
Context {W : Type} (page : Session W).

Definition fecharOverlays : M W unit :=
  try_catch
    (let backdrop := LBackdrop in
     catch_with (keyboardPressEscape page) tt ;;
     waitForTimeout page 200 ;;
     visible <- catch_with (isVisible page backdrop) false ;;
     (if visible : bool then catch_with (locatorClick page backdrop) tt
      else ret tt) ;;
     catch_with (waitFor page backdrop Detached) tt)
    (fun _ => ret tt).

(** [None] is [undefined], what the function gives when the loop
    ends without an attempt. *)
Definition retryOperation {A} (operation : M W A) (maxRetries delayMs : Z)
    : M W (option A) :=
  r <- for_le 1 maxRetries tt (fun attempt _ =>
         try_catch
           (a <- operation ;; ret (inr a))
           (fun err =>
              if attempt =? maxRetries then throw err
              else
                fecharOverlays ;;
                waitForTimeout page delayMs ;;
                ret (inl tt))) ;;
  match r with
  | inr a => ret (Some a)
  | inl _ => ret None
  end.

End WithPage.
End Overlay.

(** ** Stabilization and extraction (the same in both variants) *)

Module Pauta.

(** One extracted entry. *)
Record Processo : Type := {
  numeroProcesso : jsstring;
  sessao : jsstring;
  juiz : jsstring;
  reclamante : jsstring;
  reclamada : jsstring
}.

(** The replace of every U+00A0 by a space, then [trim]. *)
Definition normalizar (t : jsstring) : jsstring :=
  trim (List.map (fun c => if (c =? cNBSP)%N then cSPACE else c) t).

(** [getText(sel)] of the mapper, on the text of the first element
    matching [sel], if there is one. *)
Definition getText (el : option jsstring) : jsstring :=
  match el with
  | Some t => normalizar t
  | None => []
  end.

(** [partes[i] || ''] *)
Definition parteOuVazio (partes : list jsstring) (i : nat) : jsstring :=
  match partes !! i with
  | Some p => if truthy p then p else []
  | None => []
  end.

(** The function mapped over the items inside [page.evaluate]. *)
Definition mapItem (item : Item) : Processo :=
  let hora := getText (item_sessao item) in
  let status := getText (item_palavrasRight item) in
  let numero := getText (item_negrito item) in
  let partes := List.filter truthy (List.map normalizar (item_descs item)) in
  {| numeroProcesso := numero;
     sessao := join (lit " - ") (List.filter truthy [hora; status]);
     juiz := parteOuVazio partes 0;
     reclamante := parteOuVazio partes 1;
     reclamada := parteOuVazio partes 2 |}.

Section WithPage.
Context {W : Type} (page : Session W).

Definition spinners : list Locator := [LIonSpinner; LMatSpinner; LMatBar].

Fixpoint esperarSpinners (sps : list Locator) : M W unit :=
  match sps with
  | [] => ret tt
  | sp :: rest =>
      visible <- catch_with (isVisible page sp) false ;;
      (if visible : bool then catch_with (waitFor page sp Hidden) tt
       else ret tt) ;;
      esperarSpinners rest
  end.

(** [page.locator('ion-list ion-item').count().catch(() => 0)] *)
Definition contarItens : M W Z :=
  catch_with (n <- locatorCount page LItems ;; ret (Z.of_nat n)) 0.

(** The body of the polling loop; [last] is the variable it
    assigns, [inr tt] is the [return]. *)
Definition estabilizar_passo (i : Z) (last : Z) : M W (Z + unit) :=
  count <- contarItens ;;
  r <- (if count =? last then
          waitForTimeout page 600 ;;
          count2 <- contarItens ;;
          ret (count2 =? count)
        else ret false) ;;
  if r : bool then ret (inr tt)
  else
    waitForTimeout page 250 ;;
    ret (inl count).

Definition esperarPautaEstabilizar : M W unit :=
  esperarSpinners spinners ;;
  let last := -1 in
  _ <- for_lt 0 20 last estabilizar_passo ;;
  ret tt.

Definition extrairProcessosDaPauta : M W (list Processo) :=
  count <- contarItens ;;
  if count =? 0 then ret []
  else
    processos <- evaluate page
      (items <- domQuery (dom_items page) ;;
       ret (List.map mapItem items)) ;;
    ret processos.

End WithPage.
End Pauta.

(** ** Date selection, first variant: the calendar grid *)

Module CalendarGrid.
Import Dates Overlay.

(** [a === b] on two numbers that may be NaN. *)
Definition sameMonthYear (a b : Date) : bool :=
  num_eq (getFullYear a) (getFullYear b) && num_eq (getMonth a) (getMonth b).

(** The first match of the year pattern of the header: 19 or 20
    followed by two digits. *)
Fixpoint matchYear (s : jsstring) : option jsstring :=
  match s with
  | [] => None
  | c :: r =>
      match s with
      | a :: b :: d1 :: d2 :: _ =>
          if (startsWith (lit "19") s || startsWith (lit "20") s)
             && isDigit d1 && isDigit d2
          then Some [a; b; d1; d2]
          else matchYear r
      | _ => matchYear r
      end
  end.

(** The c-cedilla, U+00E7. *)
Definition cCEDILLA : N := 231.

Definition monthMap : list (Z * list jsstring) :=
  [ (0, [lit "jan"; lit "janeiro"; lit "january"]);
    (1, [lit "fev"; lit "fevereiro"; lit "feb"; lit "february"]);
    (2, [lit "mar"; lit "mar" ++ [cCEDILLA] ++ lit "o"; lit "marco"; lit "march"]);
    (3, [lit "abr"; lit "abril"; lit "apr"; lit "april"]);
    (4, [lit "mai"; lit "maio"; lit "may"]);
    (5, [lit "jun"; lit "junho"; lit "june"]);
    (6, [lit "jul"; lit "julho"; lit "july"]);
    (7, [lit "ago"; lit "agosto"; lit "aug"; lit "august"]);
    (8, [lit "set"; lit "setembro"; lit "sep"; lit "september"]);
    (9, [lit "out"; lit "outubro"; lit "oct"; lit "october"]);
    (10, [lit "nov"; lit "novembro"; lit "november"]);
    (11, [lit "dez"; lit "dezembro"; lit "dec"; lit "december"]) ].

(** The pure part of getCalendarHeaderDateApprox: from the text of
    the period button to a date, [None] being [null]. *)
Definition headerDateApprox (text : jsstring) : option Date :=
  let header := toLowerCase (trim text) in
  match matchYear header with
  | None => None
  | Some mYear =>
      let year := toNumber mYear in
      match List.find (fun m => existsb (fun k => includes header k) (snd m))
                      monthMap with
      | None => None
      | Some found => Some (newDate year (Some (fst found)) (Some 1))
      end
  end.

(** [y * 12 + m] on numbers that may be NaN. *)
Definition monthKey (d : Date) : option Z :=
  match getFullYear d, getMonth d with
  | Some y, Some m => Some (y * 12 + m)
  | _, _ => None
  end.

(** The index of the first element that satisfies [p]. *)
Fixpoint findIndex {A} (p : A -> bool) (l : list A) : option nat :=
  match l with
  | [] => None
  | x :: r => if p x then Some O else option_map S (findIndex p r)
  end.

Definition ariaOrEmpty (a : option jsstring) : jsstring :=
  trim (default [] a).

Section WithPage.
Context {W : Type} (page : Session W).

Definition getCalendarHeaderDateApprox : M W (option Date) :=
  t <- catch_with (t <- textContent page LPeriodButton ;;
                   ret (default [] t)) [] ;;
  ret (headerDateApprox t).

Definition navegarParaMes_passo (targetDate : Date) (i : Z) (_ : unit)
    : M W (unit + bool) :=
  approx <- getCalendarHeaderDateApprox ;;
  match approx with
  | None =>
      catch_with (locatorClick page LCalNext) tt ;;
      waitForTimeout page 120 ;;
      ret (inl tt)
  | Some approx =>
      if sameMonthYear approx targetDate then ret (inr true)
      else
        let curKey := monthKey approx in
        let tgtKey := monthKey targetDate in
        (if num_gt tgtKey curKey then locatorClick page LCalNext
         else locatorClick page LCalPrev) ;;
        waitForTimeout page 120 ;;
        ret (inl tt)
  end.

Definition navegarParaMes (targetDate : Date) (maxSteps : Z) : M W bool :=
  r <- for_lt 0 maxSteps tt (navegarParaMes_passo targetDate) ;;
  match r with
  | inr b => ret b
  | inl _ => ret false
  end.

(** The script of clicarDiaNoCalendario. *)
Definition clicarDia_script (day year : option Z) : M W bool :=
  cal <- domQuery (dom_calendar page) ;;
  match cal with
  | None => ret false
  | Some cells =>
      let sday := numToString day in
      let syear := numToString year in
      (* 1) td with aria-label *)
      match findIndex (fun td =>
              match cell_aria td with
              | Some aria =>
                  includes (trim aria) syear && eqb (trim (cell_text td)) sday
              | None => false
              end) cells with
      | Some i =>
          (match cells !! i ≫= cell_button with
           | Some _ => domClick page (DomCalButton i)
           | None => domClick page (DomCalTd i)
           end) ;;
          ret true
      | None =>
      (* 2) button with aria-label *)
      match findIndex (fun td =>
              match cell_button td with
              | Some btn =>
                  match btn_aria btn with
                  | Some aria =>
                      includes (trim aria) syear && eqb (trim (btn_text btn)) sday
                  | None => false
                  end
              | None => false
              end) cells with
      | Some i => domClick page (DomCalButton i) ;; ret true
      | None =>
      (* 3) any enabled cell that shows the day *)
      match findIndex (fun td =>
              negb (cell_disabled td) && eqb (trim (cell_text td)) sday) cells with
      | Some i =>
          (match cells !! i ≫= cell_button with
           | Some _ => domClick page (DomCalButton i)
           | None => domClick page (DomCalTd i)
           end) ;;
          ret true
      | None => ret false
      end end end
  end.

Definition clicarDiaNoCalendario (targetDate : Date) : M W bool :=
  let day := getDate targetDate in
  let year := getFullYear targetDate in
  ok <- evaluate page (clicarDia_script day year) ;;
  ret ok.

Definition selecionarDataNoCalendario (dataBR : jsstring) : M W bool :=
  fecharOverlays page ;;
  let targetDate := parseBRDate dataBR in
  let botaoData := LDateButton in
  waitFor page botaoData Visible ;;
  locatorClick page botaoData ;;
  waitFor page LMatCalendar Visible ;;
  okMes <- navegarParaMes targetDate 36 ;;
  okDia <- clicarDiaNoCalendario targetDate ;;
  waitForTimeout page 250 ;;
  fecharOverlays page ;;
  ret okDia.

(** The text of the date button as the function reads it. *)
Definition lerDataVisivel : M W jsstring :=
  t <- catch_with (innerText page LDateButton) [] ;;
  ret (trim t).

(** The body of the loop of selecionarDataComConfirmacao. *)
Definition confirmacao_passo (dataBR : jsstring) (t : Z) (_ : unit)
    : M W (unit + bool) :=
  okClique <- selecionarDataNoCalendario dataBR ;;
  if negb okClique then
    waitForTimeout page 500 ;;
    ret (inl tt)
  else
    dataVisivel <- lerDataVisivel ;;
    if eqb dataVisivel dataBR then ret (inr true)
    else
      waitForTimeout page 700 ;;
      ret (inl tt).

Definition selecionarDataComConfirmacao (dataBR : jsstring) (maxTentativas : Z)
    : M W bool :=
  r <- for_le 1 maxTentativas tt (confirmacao_passo dataBR) ;;
  match r with
  | inr b => ret b
  | inl _ => ret false
  end.

End WithPage.
End CalendarGrid.

(** ** Date selection, second variant: the previous/next stepper *)

Module LinearStepper.
Import Dates Overlay.

(** Whether [s] begins with two digits, a slash, two digits, a slash
    and four digits, and a word boundary follows. *)
Definition dateTokenAt (s : jsstring) : option jsstring :=
  match s with
  | d1 :: d2 :: s1 :: m1 :: m2 :: s2 :: y1 :: y2 :: y3 :: y4 :: rest =>
      if isDigit d1 && isDigit d2 && (s1 =? cSLASH)%N
         && isDigit m1 && isDigit m2 && (s2 =? cSLASH)%N
         && isDigit y1 && isDigit y2 && isDigit y3 && isDigit y4
         && match rest with
            | [] => true
            | c :: _ => negb (isWordChar c)
            end
      then Some [d1; d2; s1; m1; m2; s2; y1; y2; y3; y4]
      else None
  | _ => None
  end.

(** The first match of the date pattern of extrairDataBR; [prevWord]
    says whether the code unit before [s] is a word character, in
    which case no word boundary precedes [s]. *)
Fixpoint matchDateToken (prevWord : bool) (s : jsstring) : option jsstring :=
  match s with
  | [] => None
  | c :: r =>
      match (if prevWord then None else dateTokenAt s) with
      | Some tok => Some tok
      | None => matchDateToken (isWordChar c) r
      end
  end.

Definition extrairDataBR (texto : jsstring) : jsstring :=
  let raw := trim texto in
  let m := matchDateToken false raw in
  default [] m.

(** [a || b || c || d || ''] on strings. *)
Fixpoint firstTruthy (l : list jsstring) : jsstring :=
  match l with
  | [] => []
  | x :: r => if truthy x then x else firstTruthy r
  end.

(** The choice of direction of one step of irAteDataPorBotoes. *)
Definition direcao (hasPrev : bool) (alvoDate : option Z) (raw : jsstring) : Z :=
  let atualBR := extrairDataBR raw in
  if truthy atualBR then
    let atualDate := getTime (parseBRDate atualBR) in
    if hasPrev && num_gt atualDate alvoDate then -1 else 1
  else 1.

Section WithPage.
Context {W : Type} (page : Session W).

Definition clickIonButtonByCss (b : IonButton) : M W bool :=
  try_catch
    (evaluate page
       (host <- domQuery (dom_ion page b) ;;
        match host with
        | None => ret false
        | Some _ => domClick page (DomIon b) ;; ret true
        end))
    (fun _ => ret false).

Definition readIonButtonTextByXpath (b : IonButton) : M W jsstring :=
  try_catch
    (evaluate page
       (node <- domQuery (dom_ion page b) ;;
        match node with
        | None => ret []
        | Some h =>
            let txt :=
              trim (firstTruthy
                      (match host_button h with
                       | Some (it, tc) => [it; tc]
                       | None => []
                       end ++ [host_innerText h; host_textContent h])) in
            ret txt
        end))
    (fun _ => ret []).

Definition ionExistsByCss (b : IonButton) : M W bool :=
  try_catch
    (evaluate page
       (host <- domQuery (dom_ion page b) ;;
        ret (match host with Some _ => true | None => false end)))
    (fun _ => ret false).

Definition lerTextoDataExibida : M W jsstring :=
  raw <- readIonButtonTextByXpath IonDateDisplay ;;
  if truthy raw then ret raw
  else
    try_catch
      (t <- catch_with (innerText page LDateButton) [] ;;
       if truthy t && truthy (trim t) then ret (trim t)
       else ret [])
      (fun _ => ret []).

(** The [while (Date.now() - start < timeoutMs)] loop; [fuel] bounds
    the number of times the condition is evaluated.  [Some atual]
    is the [return atual] inside the loop. *)
Fixpoint esperarTextoMudar_loop (fuel : nat) (start timeoutMs : Z)
    (anterior : jsstring) : M W (option jsstring) :=
  match fuel with
  | O => no_fuel
  | S fuel' =>
      now <- dateNow page ;;
      if now - start <? timeoutMs then
        atual <- lerTextoDataExibida ;;
        if truthy atual && negb (eqb atual anterior) then ret (Some atual)
        else
          waitForTimeout page 80 ;;
          esperarTextoMudar_loop fuel' start timeoutMs anterior
      else ret None
  end.

Definition esperarTextoMudar (fuel : nat) (anterior : jsstring) (timeoutMs : Z)
    : M W jsstring :=
  start <- dateNow page ;;
  r <- esperarTextoMudar_loop fuel start timeoutMs anterior ;;
  match r with
  | Some atual => ret atual
  | None => lerTextoDataExibida
  end.

Definition irAte_passo (fuel : nat) (alvoBR : jsstring) (alvoDate : option Z)
    (hasPrev : bool) (step : Z) (_ : unit) : M W (unit + bool) :=
  raw <- lerTextoDataExibida ;;
  if truthy raw && includes raw alvoBR then ret (inr true)
  else
    let direction := direcao hasPrev alvoDate raw in
    let antes := raw in
    clicked <- (if direction =? -1 then clickIonButtonByCss IonPrev
                else clickIonButtonByCss IonNext) ;;
    if negb clicked then
      waitForTimeout page 150 ;;
      ret (inl tt)
    else
      depois <- esperarTextoMudar fuel antes 2500 ;;
      if truthy depois && includes depois alvoBR then ret (inr true)
      else
        waitForTimeout page 120 ;;
        ret (inl tt).

Definition irAteDataPorBotoes (fuel : nat) (alvoBR : jsstring) (maxSteps : Z)
    : M W bool :=
  fecharOverlays page ;;
  let alvoDate := getTime (parseBRDate alvoBR) in
  hasPrev <- ionExistsByCss IonPrev ;;
  hasNext <- ionExistsByCss IonNext ;;
  if negb hasNext && negb hasPrev then ret false
  else
    raw <- lerTextoDataExibida ;;
    if truthy raw && includes raw alvoBR then ret true
    else
      r <- for_le 1 maxSteps tt (irAte_passo fuel alvoBR alvoDate hasPrev) ;;
      match r with
      | inr b => ret b
      | inl _ => ret false
      end.

(** The body of the loop of selecionarDataComConfirmacao. *)
Definition confirmacao_passo (fuel : nat) (dataBR : jsstring) (t : Z) (_ : unit)
    : M W (unit + bool) :=
  rawAntes <- lerTextoDataExibida ;;
  ok <- irAteDataPorBotoes fuel dataBR 220 ;;
  rawDepois <- lerTextoDataExibida ;;
  if ok : bool then ret (inr true)
  else
    fecharOverlays page ;;
    waitForTimeout page 600 ;;
    ret (inl tt).

Definition selecionarDataComConfirmacao (fuel : nat) (dataBR : jsstring)
    (maxTentativas : Z) : M W bool :=
  r <- for_le 1 maxTentativas tt (confirmacao_passo fuel dataBR) ;;
  match r with
  | inr b => ret b
  | inl _ => ret false
  end.

End WithPage.
End LinearStepper.

(** ** Environment and mail helpers (second variant) *)

Module Config.
Import Csv.

(** [process.env]: a variable holds a string or is not set. *)
Abbreviation Env := (gmap jsstring jsstring).

Definition getEnv (env : Env) (name : jsstring) (fallback : JsVal) : JsVal :=
  match env !! name with
  | None => fallback
  | Some v => if eqb v [] then fallback else VStr v
  end.

(** [String(v ?? '')] *)
Definition stringOrEmpty (v : JsVal) : jsstring :=
  match v with
  | VStr s => s
  | VNull | VUndefined => []
  end.

(** [toLowerCase] is the Latin-1 one of [JsString]: no code unit
    outside Basic Latin has a lower case among the letters of
    [true]. *)
Definition isTrue (v : JsVal) : bool :=
  eqb (toLowerCase (trim (stringOrEmpty v))) (lit "true")
  || eqb (trim (stringOrEmpty v)) (lit "1").

Definition cCOMMA : N := 44.
Definition cBACKSLASH : N := 92.

(** [s.split(re)] for a regular expression that is a class of single
    code units; the result is never empty. *)
Fixpoint splitBy (isSep : N -> bool) (s : jsstring) : list jsstring :=
  match s with
  | [] => [[]]
  | c :: r =>
      if isSep c then [] :: splitBy isSep r
      else match splitBy isSep r with
           | h :: t => (c :: h) :: t
           | [] => [[c]]
           end
  end.

(** The class of parseMailTo: a semicolon or a comma. *)
Definition isMailSep (c : N) : bool := (c =? cSEMI)%N || (c =? cCOMMA)%N.

Definition parseMailTo (value : JsVal) : list jsstring :=
  match value with
  | VStr (c :: r) =>
      List.filter truthy (List.map trim (splitBy isMailSep (c :: r)))
  | VStr [] | VNull | VUndefined => []
  end.

(** The class of escapeRegExp: the fourteen characters with a meaning
    in a regular expression. *)
Definition isRegExpSpecial (c : N) : bool :=
  existsb (N.eqb c) (lit ".*+?^${}()|[]" ++ [cBACKSLASH]).

(** The global replace of escapeRegExp: a backslash goes before every
    character of the class. *)
Definition escapeRegExp (s : jsstring) : jsstring :=
  flat_map (fun c => if isRegExpSpecial c then [cBACKSLASH; c] else [c]) s.

End Config.

(** ** The MySQL sink (second variant)

    The database is an external collaborator, like the page: its state
    is a value of an arbitrary type [D], and a [Pool D] says what a
    query and the closing of the pool do to it and answer.  The state of
    a computation holds the database and the log of the calls made on
    the pool. *)

Module Db.
Import Csv Config Dates.

(** A value bound to a placeholder. *)
Inductive SqlParam : Type :=
| PDate (v : JsVal)     (* [new Date(v)] *)
| PVal (v : JsVal).

Inductive DbEvent : Type :=
| DbQuery (sql : jsstring) (values : list SqlParam)
| DbEnd.

(** [pool.query] answers with the [affectedRows] of its result, when
    the result has one. *)
Record Pool (D : Type) : Type := {
  pool_query : jsstring -> list SqlParam -> D -> Settled (option Z) * D;
  pool_end : D -> Settled unit * D
}.
Arguments pool_query {D}.
Arguments pool_end {D}.

Record DbState (D : Type) : Type := mkDb { db : D; consultas : list DbEvent }.
Arguments mkDb {D}.
Arguments db {D}.
Arguments consultas {D}.

(** The options object of [mysql.createPool]; the constant options are
    left out. *)
Record PoolConfig : Type := {
  cfg_host : JsVal;
  cfg_port : option Z;
  cfg_user : JsVal;
  cfg_password : JsVal;
  cfg_database : JsVal
}.

(** [Number(v)] of a value of the environment. *)
Definition numberOf (v : JsVal) : option Z :=
  match v with
  | VStr s => toNumber s
  | VNull => Some 0
  | VUndefined => None
  end.

(** [arr.slice(a, b)] for integers [a] and [b]: a negative index counts
    from the end. *)
Definition slice {A} (l : list A) (a b : Z) : list A :=
  let len := Z.of_nat (length l) in
  let k := if a <? 0 then Z.max (len + a) 0 else Z.min a len in
  let final := if b <? 0 then Z.max (len + b) 0 else Z.min b len in
  take (Z.to_nat (final - k)) (drop (Z.to_nat k) l).

(** [v ?? null] *)
Definition orNull (v : JsVal) : JsVal :=
  match v with
  | VUndefined => VNull
  | _ => v
  end.

(** The message of the TypeError of [br.split] on a value that is not a
    string. *)
Definition typeErrorSplit (v : JsVal) : Exn :=
  match v with
  | VNull => lit "Cannot read properties of null (reading 'split')"
  | _ => lit "Cannot read properties of undefined (reading 'split')"
  end.

(** The nine values one row adds; [inl] is the TypeError thrown by
    brToIsoDateString when the date of the row is not a string. *)
Definition rowValues (r : Row) : Exn + list SqlParam :=
  match get r (lit "data") with
  | VStr d =>
      let dataISO := brToIsoDateString d in
      inr [PDate (get r (lit "geradoEm"));
           PVal (get r (lit "vara"));
           PVal (VStr d);
           PVal (VStr dataISO);
           PVal (get r (lit "numeroProcesso"));
           PVal (orNull (get r (lit "sessao")));
           PVal (orNull (get r (lit "juiz")));
           PVal (orNull (get r (lit "reclamante")));
           PVal (orNull (get r (lit "reclamada")))]
  | v => inl (typeErrorSplit v)
  end.

(** The [chunk.map] of insertRowsMySql: the values pushed, row after
    row, until a row throws. *)
Fixpoint chunkValues (chunk : list Row) : Exn + list SqlParam :=
  match chunk with
  | [] => inr []
  | r :: rest =>
      match rowValues r with
      | inl e => inl e
      | inr vs =>
          match chunkValues rest with
          | inl e => inl e
          | inr vs' => inr (vs ++ vs')
          end
      end
  end.

(** The text of the insert for [n] rows. *)
Definition sqlInsert (n : nat) : jsstring :=
  let placeholders := List.repeat (lit "(?,?,?,?,?,?,?,?,?)") n in
  [cLF] ++ lit "INSERT INTO pauta_processos" ++ [cLF]
  ++ lit "(geradoEm, vara, dataBR, dataISO, numeroProcesso, sessao, juiz, reclamante, reclamada)"
  ++ [cLF]
  ++ lit "VALUES " ++ join (lit ",") placeholders ++ [cLF]
  ++ lit "ON DUPLICATE KEY UPDATE" ++ [cLF]
  ++ lit "  geradoEm = VALUES(geradoEm)," ++ [cLF]
  ++ lit "  sessao = VALUES(sessao)," ++ [cLF]
  ++ lit "  juiz = VALUES(juiz)," ++ [cLF]
  ++ lit "  reclamante = VALUES(reclamante)," ++ [cLF]
  ++ lit "  reclamada = VALUES(reclamada)" ++ [cLF].

(** The text of the table definition of ensureSchema. *)
Definition sqlSchema : jsstring :=
  [cLF] ++ lit "CREATE TABLE IF NOT EXISTS pauta_processos (" ++ [cLF]
  ++ lit "  id BIGINT UNSIGNED NOT NULL AUTO_INCREMENT," ++ [cLF]
  ++ lit "  geradoEm DATETIME(3) NOT NULL," ++ [cLF]
  ++ lit "  vara VARCHAR(255) NOT NULL," ++ [cLF]
  ++ lit "  dataBR VARCHAR(10) NOT NULL," ++ [cLF]
  ++ lit "  dataISO DATE NOT NULL," ++ [cLF]
  ++ lit "  numeroProcesso VARCHAR(64) NOT NULL," ++ [cLF]
  ++ lit "  sessao VARCHAR(255) NULL," ++ [cLF]
  ++ lit "  juiz VARCHAR(255) NULL," ++ [cLF]
  ++ lit "  reclamante VARCHAR(255) NULL," ++ [cLF]
  ++ lit "  reclamada VARCHAR(255) NULL," ++ [cLF]
  ++ lit "  createdAt TIMESTAMP NOT NULL DEFAULT CURRENT_TIMESTAMP," ++ [cLF]
  ++ lit "  PRIMARY KEY (id)," ++ [cLF]
  ++ lit "  UNIQUE KEY uq_pauta (vara, dataISO, numeroProcesso)," ++ [cLF]
  ++ lit "  KEY ix_data (dataISO)," ++ [cLF]
  ++ lit "  KEY ix_vara (vara)" ++ [cLF]
  ++ lit ") ENGINE=InnoDB DEFAULT CHARSET=utf8mb4;" ++ [cLF].

(** The options openDb reads from the environment. *)
Definition openDb (env : Env) : PoolConfig :=
  {| cfg_host := getEnv env (lit "DB_HOST") (VStr (lit "127.0.0.1"));
     cfg_port := numberOf (getEnv env (lit "DB_PORT") (VStr (lit "3306")));
     cfg_user := getEnv env (lit "DB_USER") (VStr (lit "root"));
     cfg_password := getEnv env (lit "DB_PASS") (VStr []);
     cfg_database := getEnv env (lit "DB_NAME") (VStr (lit "jte")) |}.

Section WithPool.
Context {D : Type}.

Definition poolQuery (pool : Pool D) (sql : jsstring) (values : list SqlParam)
    : M (DbState D) (option Z) :=
  fun s =>
    let '(r, d') := pool_query pool sql values (db (world s)) in
    (settle r,
     mkSt (mkDb d' (consultas (world s) ++ [DbQuery sql values])) (trace s)).

Definition poolEnd (pool : Pool D) : M (DbState D) unit :=
  fun s =>
    let '(r, d') := pool_end pool (db (world s)) in
    (settle r, mkSt (mkDb d' (consultas (world s) ++ [DbEnd])) (trace s)).

Definition ensureSchema (pool : Pool D) : M (DbState D) unit :=
  let sql := sqlSchema in
  poolQuery pool sql [] ;; ret tt.

(** [driver] is [mysql.createPool]: the pool the options give.  It
    makes no connection, and is taken not to throw.  A rejection
    carries a value other than null and undefined, so that the warning
    of the [catch] can read its code and message. *)
Definition initDbIfEnabled (env : Env) (driver : PoolConfig -> Pool D)
    : M (DbState D) (option (Pool D)) :=
  let enabled := isTrue (getEnv env (lit "DB_ENABLED") (VStr (lit "false"))) in
  if negb enabled then ret None
  else
    let pool := driver (openDb env) in
    try_catch
      (poolQuery pool (lit "SELECT 1") [] ;;
       ensureSchema pool ;;
       ret (Some pool))
      (fun err =>
         try_catch (poolEnd pool) (fun _ => ret tt) ;;
         ret None).

(** [Number(res.affectedRows || 0)] *)
Definition affected (res : option Z) : Z := default 0 res.

(** The [for (let i = 0; i < rows.length; i += chunkSize)] loop;
    [fuel] bounds the number of times the condition is evaluated (a
    chunk size below one never gets past the rows). *)
Fixpoint insertRows_loop (fuel : nat) (pool : Pool D) (rows : list Row)
    (chunkSize i total : Z) : M (DbState D) Z :=
  match fuel with
  | O => no_fuel
  | S fuel' =>
      if i <? Z.of_nat (length rows) then
        let chunk := slice rows i (i + chunkSize) in
        match chunkValues chunk with
        | inl e => throw e
        | inr values =>
            let sql := sqlInsert (length chunk) in
            res <- poolQuery pool sql values ;;
            insertRows_loop fuel' pool rows chunkSize (i + chunkSize)
              (total + affected res)
        end
      else ret total
  end.

(** The result is the [insertedOrUpdated] of the object returned;
    [None] is a null or undefined argument. *)
Definition insertRowsMySql (fuel : nat) (pool : option (Pool D))
    (rows : option (list Row)) (chunkSize : Z) : M (DbState D) Z :=
  match pool with
  | None => ret 0
  | Some pool =>
      match rows with
      | None | Some [] => ret 0
      | Some rows =>
          let total := 0 in
          insertRows_loop fuel pool rows chunkSize 0 total
      end
  end.

End WithPool.
End Db.

(** ** The mail sink (second variant)

    The SMTP transport is an external collaborator: a [Mailer S] says
    what sending a message through a transport does to the state [S] of
    the mail service and what it answers.  [path.basename] belongs to
    the platform and is a part of the collaborator. *)

Module Mail.
Import Csv Config Db.

(** The options of [nodemailer.createTransport]. *)
Record Transport : Type := {
  smtp_host : JsVal;
  smtp_port : option Z;
  smtp_secure : bool;
  smtp_user : JsVal;
  smtp_pass : JsVal
}.

(** The argument of [sendMail]. *)
Record Message : Type := {
  msg_from : JsVal;
  msg_to : list jsstring;
  msg_subject : jsstring;
  msg_text : jsstring;
  att_filename : jsstring;
  att_path : jsstring
}.

Record Mailer (S : Type) : Type := {
  send_mail : Transport -> Message -> S -> Settled jsstring * S;
  basename : jsstring -> jsstring
}.
Arguments send_mail {S}.
Arguments basename {S}.

Record MailState (S : Type) : Type := mkMail {
  servico : S;
  enviados : list (Transport * Message)
}.
Arguments mkMail {S}.
Arguments servico {S}.
Arguments enviados {S}.

(** [String(v)] *)
Definition jsString (v : JsVal) : jsstring :=
  match v with
  | VStr s => s
  | VNull => lit "null"
  | VUndefined => lit "undefined"
  end.

(** [!v] *)
Definition falsy (v : JsVal) : bool :=
  match v with
  | VStr (_ :: _) => false
  | VStr [] | VNull | VUndefined => true
  end.

Definition smtpIncompleta : Exn :=
  lit "Config SMTP incompleta. Verifique SMTP_HOST/SMTP_USER/SMTP_PASS/MAIL_FROM/MAIL_TO no env.".

Section WithMailer.
Context {S : Type} (mailer : Mailer S).

Definition sendMail (t : Transport) (m : Message) : M (MailState S) jsstring :=
  fun s =>
    let '(r, s') := send_mail mailer t m (servico (world s)) in
    (settle r, mkSt (mkMail s' (enviados (world s) ++ [(t, m)])) (trace s)).

(** The result is the [info] of the transport, of which the program
    reads the message id. *)
Definition sendEmailWithAttachment (env : Env)
    (subject text attachmentPath : jsstring) : M (MailState S) jsstring :=
  let host := getEnv env (lit "SMTP_HOST") VUndefined in
  let port := numberOf (getEnv env (lit "SMTP_PORT") (VStr (lit "587"))) in
  let secure :=
    eqb (toLowerCase (jsString (getEnv env (lit "SMTP_SECURE") (VStr (lit "false")))))
        (lit "true") in
  let user := getEnv env (lit "SMTP_USER") VUndefined in
  let pass := getEnv env (lit "SMTP_PASS") VUndefined in
  let from := getEnv env (lit "MAIL_FROM") user in
  let to := parseMailTo (getEnv env (lit "MAIL_TO") (VStr [])) in
  if falsy host || falsy user || falsy pass || falsy from
     || (Nat.eqb (length to) 0)
  then throw smtpIncompleta
  else
    let transporter :=
      {| smtp_host := host; smtp_port := port; smtp_secure := secure;
         smtp_user := user; smtp_pass := pass |} in
    info <- sendMail transporter
              {| msg_from := from; msg_to := to;
                 msg_subject := subject; msg_text := text;
                 att_filename := basename mailer attachmentPath;
                 att_path := attachmentPath |} ;;
    ret info.

End WithMailer.
End Mail.

(** ** The portal: opening, listing and choosing the units, and the
    main loop of the first variant

    The functions below make Playwright calls that the date functions
    do not make.  A [Site W] adds them to the session facade; these
    calls are not logged.  Opening the portal and listing the units
    are the same in both variants. *)

Module Site.
Import Csv Dates Overlay Pauta.

Inductive LoadState : Type := DomContentLoaded | NetworkIdle.

(** The selectors of [page.waitForSelector]. *)
Inductive Seletor : Type :=
| SelTituloOrgao       (* h1.tituloSelecaoTribunal:has-text("Órgão") *)
| SelOrgaoHabilitado   (* mat-form-field[data-testid="orgao"] mat-select[aria-disabled="false"] *)
| SelOrgao.            (* mat-form-field[data-testid="orgao"] mat-select *)

(** What [filter({ hasText })] is given: a string, or a regular
    expression with the flag [i], by its source. *)
Inductive Padrao : Type :=
| PTexto (t : jsstring)
| PRegExpI (source : jsstring).

(** The locators of the portal functions. *)
Inductive SLocator : Type :=
| SLTrt2               (* getByText('TRT2 - São Paulo', exact) *)
| SLCardPauta          (* ion-card-content.card-content-modulo:has-text("Pauta"), first *)
| SLBotaoUnidade       (* getByTestId('pautaButtonSelecaoUnidade') *)
| SLSelectTipo         (* mat-form-field[data-testid="selecaoTribunal"] mat-select *)
| SLOpcaoAudiencias    (* mat-option:has-text("Audiências 1º grau"), first *)
| SLSelectMunicipio    (* mat-form-field[data-testid="municipio"] mat-select *)
| SLOpcaoMunicipio     (* the option of São Paulo - Zonas Central, Norte e Oeste *)
| SLSelectOrgao        (* mat-form-field[data-testid="orgao"] mat-select *)
| SLOpcaoVara (varaLabel : jsstring)
                       (* .mat-mdc-select-panel mat-option, hasText varaLabel, first *)
| SLCancelar           (* getByTestId('ButtonCancelar') *)
| SLConfirmar          (* getByTestId('ButtonConfirmar') *)
| SLPanel              (* .mat-mdc-select-panel *)
| SLOpcaoPadrao (p : Padrao)
                       (* mat-option of the panel, filtered by hasText, first *)
| SLDoSeletor (sel : Seletor).
                       (* page.locator(selector) *)

Record Site (W : Type) : Type := {
  pagina : Session W;
  goto : jsstring -> W -> Settled unit * W;
  wait_for_load_state : LoadState -> W -> Settled unit * W;
  wait_for_selector : Seletor -> W -> Settled unit * W;
  s_click : SLocator -> W -> Settled unit * W;
  s_wait_for : SLocator -> ElState -> W -> Settled unit * W;
  (** [.mat-mdc-select-panel mat-option]: how many there are, and the
      text of [.mdc-list-item__primary-text] in the i-th. *)
  opcoes_count : W -> Settled nat;
  opcao_text : nat -> W -> Settled (option jsstring);
  (** The time zone of the process, the local time value of
      [new Date()], and its [toISOString()]. *)
  zona : Zone;
  new_date : W -> Z;
  iso_now : W -> jsstring;
  (** [path.join(process.cwd(), 'output', name)] for the file name made
      from the time stamp. *)
  out_path : Z -> jsstring
}.
Arguments pagina {W}.
Arguments goto {W}.
Arguments wait_for_load_state {W}.
Arguments wait_for_selector {W}.
Arguments s_click {W}.
Arguments s_wait_for {W}.
Arguments opcoes_count {W}.
Arguments opcao_text {W}.
Arguments zona {W}.
Arguments new_date {W}.
Arguments iso_now {W}.
Arguments out_path {W}.

Section WithSite.
Context {W : Type} (site : Site W).

Abbreviation page := (pagina site).

(** A call that changes the page, and one that reads it. *)
Definition act (f : W -> Settled unit * W) : M W unit :=
  fun s => let '(r, w') := f (world s) in (settle r, mkSt w' (trace s)).

Definition ask {A} (f : W -> Settled A) : M W A :=
  fun s => (settle (f (world s)), s).

(** [for (const a of l)] threading the variables the body assigns; a
    [continue] is the body returning. *)
Fixpoint for_each {A X} (l : list A) (x : X) (body : A -> X -> M W X) : M W X :=
  match l with
  | [] => ret x
  | a :: rest => x' <- body a x ;; for_each rest x' body
  end.

Definition urlJTe : jsstring := lit "https://jte.csjt.jus.br/start".

Definition abrirJTeSelecionarTRT2 : M W unit :=
  act (goto site urlJTe) ;;
  act (wait_for_load_state site DomContentLoaded) ;;
  waitForTimeout page 2500 ;;
  let locator := SLTrt2 in
  retryOperation page
    (act (s_wait_for site locator Visible) ;;
     act (s_click site locator)) 5 1200 ;;
  act (wait_for_load_state site NetworkIdle) ;;
  waitForTimeout page 800.

Definition abrirModuloPauta : M W unit :=
  let card := SLCardPauta in
  retryOperation page
    (act (s_wait_for site card Visible) ;;
     act (s_click site card)) 5 1200 ;;
  act (wait_for_load_state site NetworkIdle) ;;
  waitForTimeout page 800.

(** The three selections that open the list of units. *)
Definition abrirListaDeOrgaos : M W unit :=
  act (wait_for_selector site SelTituloOrgao) ;;
  act (s_click site SLSelectTipo) ;;
  act (s_click site SLOpcaoAudiencias) ;;
  waitForTimeout page 200 ;;
  act (s_click site SLSelectMunicipio) ;;
  act (s_click site SLOpcaoMunicipio) ;;
  waitForTimeout page 200 ;;
  act (wait_for_selector site SelOrgaoHabilitado) ;;
  act (s_click site SLSelectOrgao).

(** The body of the loop of listarVaras. *)
Definition listarVaras_passo (i : Z) (varas : list jsstring)
    : M W (list jsstring + unit) :=
  label <- ask (opcao_text site (Z.to_nat i)) ;;
  match label with
  | Some (c :: r) => ret (inl (varas ++ [trim (c :: r)]))
  | Some [] | None => ret (inl varas)
  end.

Definition listarVaras : M W (list jsstring) :=
  let botaoUnidade := SLBotaoUnidade in
  act (s_wait_for site botaoUnidade Visible) ;;
  act (s_click site botaoUnidade) ;;
  abrirListaDeOrgaos ;;
  total <- ask (opcoes_count site) ;;
  r <- for_lt 0 (Z.of_nat total) [] listarVaras_passo ;;
  let varas := match r with inl v => v | inr _ => [] end in
  catch_with (keyboardPressEscape page) tt ;;
  catch_with (act (s_click site SLCancelar)) tt ;;
  ret varas.

Definition selecionarUnidade (varaLabel : jsstring) : M W unit :=
  fecharOverlays page ;;
  act (s_click site SLBotaoUnidade) ;;
  abrirListaDeOrgaos ;;
  act (s_click site (SLOpcaoVara varaLabel)) ;;
  catch_with (act (s_click site SLConfirmar)) tt ;;
  act (wait_for_load_state site NetworkIdle) ;;
  waitForTimeout page 700 ;;
  hoje <- (fun s => (Val (new_date site (world s)), s)) ;;
  let todayBR := getTodayBR hoje in
  ok <- CalendarGrid.selecionarDataComConfirmacao page todayBR 3 ;;
  ret tt.

(** The row main makes of an extracted entry. *)
Definition linhaCsv (geradoEm vara dataBR : jsstring) (p : Processo) : Row :=
  list_to_map
    [(lit "geradoEm", VStr geradoEm);
     (lit "vara", VStr vara);
     (lit "data", VStr dataBR);
     (lit "numeroProcesso", VStr (numeroProcesso p));
     (lit "sessao", VStr (sessao p));
     (lit "juiz", VStr (juiz p));
     (lit "reclamante", VStr (reclamante p));
     (lit "reclamada", VStr (reclamada p))].

Definition headersCsv : list jsstring :=
  [lit "geradoEm"; lit "vara"; lit "data"; lit "numeroProcesso"; lit "sessao";
   lit "juiz"; lit "reclamante"; lit "reclamada"].

(** The body of the inner loop of main, over the dates. *)
Definition main_data (geradoEm vara : jsstring) (dataBR : jsstring)
    (rowsCsv : list Row) : M W (list Row) :=
  ok <- CalendarGrid.selecionarDataComConfirmacao page dataBR 3 ;;
  if negb ok then ret rowsCsv
  else
    esperarPautaEstabilizar page ;;
    processos <- extrairProcessosDaPauta page ;;
    ret (rowsCsv ++ List.map (linhaCsv geradoEm vara dataBR) processos).

(** The body of the outer loop of main, over the units. *)
Definition main_vara (geradoEm : jsstring) (datas : list jsstring) (vara : jsstring)
    (rowsCsv : list Row) : M W (list Row) :=
  selecionarUnidade vara ;;
  for_each datas rowsCsv (main_data geradoEm vara).

(** The [try] block of main up to the writing of the file: the rows
    collected and the path of the file.  [fuel] is that of
    gerarDatasProximosDoisMeses.  Making the output directory and
    writing the file are taken to succeed. *)
Definition main_try (fuel : nat) (geradoEm : jsstring) : M W (jsstring * list Row) :=
  let rowsCsv := [] in
  abrirJTeSelecionarTRT2 ;;
  abrirModuloPauta ;;
  varas <- listarVaras ;;
  let varasAlvo := varas in
  hoje <- (fun s => (Val (new_date site (world s)), s)) ;;
  match gerarDatasProximosDoisMeses fuel (zona site) hoje with
  | None => no_fuel
  | Some datas =>
      rowsCsv <- for_each varasAlvo rowsCsv (main_vara geradoEm datas) ;;
      stamp <- (fun s => (Val (date_now page (world s)), s)) ;;
      let filePath := out_path site stamp in
      ret (filePath, rowsCsv)
  end.

(** main, once the browser has given a page: the state of the page and
    the files afterwards.  An error of the [try] block is caught and
    printed. *)
Definition main (fuel : nat) (s : St W) (fs : FileSystem)
    : Out unit * St W * FileSystem :=
  let geradoEm := iso_now site (world s) in
  match main_try fuel geradoEm s with
  | (Val (filePath, rowsCsv), s') =>
      (Val tt, s', writeCsv filePath headersCsv rowsCsv fs)
  | (Exc _, s') => (Val tt, s', fs)
  | (NoFuel, s') => (NoFuel, s', fs)
  end.

End WithSite.
End Site.

(** ** The workbook (second variant)

    ExcelJS is an external collaborator: writeXlsx builds a workbook
    and hands it over to be written.  The workbook is described by what
    the function sets in it.  An added row holds, in the column of a
    header, the value the row object has under that header; this is what
    ExcelJS does for headers without repetition. *)

Module Xlsx.
Import Csv Config.

Record Coluna : Type := {
  col_header : jsstring;
  col_key : jsstring;
  col_width : Z
}.

Record Workbook : Type := {
  wb_creator : jsstring;
  wb_created : Z;                  (* [new Date()] *)
  ws_name : jsstring;
  ws_columns : list Coluna;
  ws_rows : list Row;              (* the rows added under the header row *)
  ws_header_bold : bool;
  ws_autofilter : (Z * Z) * (Z * Z) (* from and to, each a row and a column *)
}.

(** [(v === null || v === undefined) ? '' : String(v)] of the cell of
    an added row in the column of header [h]. *)
Definition textoDaCelula (r : Row) (h : jsstring) : jsstring :=
  stringOrEmpty (get r h).

(** The [eachRow] of one column: [maxLen] starts at the length of the
    header and grows to the longest cell below it. *)
Definition maxLenColuna (h : jsstring) (rows : list Row) : Z :=
  fold_left (fun maxLen r =>
               let s := textoDaCelula r h in
               if Z.of_nat (length s) >? maxLen then Z.of_nat (length s) else maxLen)
            rows (Z.of_nat (length h)).

Definition setWidth (w : Z) (c : Coluna) : Coluna :=
  {| col_header := col_header c; col_key := col_key c; col_width := w |}.

(** [for (let c = 1; c <= headers.length; c++)], with [n] passes to
    go. *)
Fixpoint ajustarLarguras (n : nat) (c : Z) (headers : list jsstring)
    (rows : list Row) (cols : list Coluna) : list Coluna :=
  match n with
  | O => cols
  | S n' =>
      let cols' :=
        match headers !! Z.to_nat (c - 1) with
        | Some h =>
            let maxLen := maxLenColuna h rows in
            alter (setWidth (Z.max 12 (Z.min 60 (maxLen + 2)))) (Z.to_nat (c - 1)) cols
        | None => cols
        end in
      ajustarLarguras n' (c + 1) headers rows cols'
  end.

(** The workbook writeXlsx has built when it calls [writeFile]. *)
Definition workbookDe (created : Z) (headers : list jsstring) (rows : list Row)
    : Workbook :=
  let columns :=
    List.map (fun h => {| col_header := h; col_key := h;
                          col_width := Z.max 12 (Z.min 40 (Z.of_nat (length h) + 6)) |})
             headers in
  {| wb_creator := lit "JTe Bot";
     wb_created := created;
     ws_name := lit "Pauta";
     ws_columns := ajustarLarguras (length headers) 1 headers rows columns;
     ws_rows := rows;
     ws_header_bold := true;
     ws_autofilter := ((1, 1), (1, Z.of_nat (length headers))) |}.

End Xlsx.

(** ** The run of the second variant: database, portal, files, mail

    The second variant works on four things at once: the portal (with
    the clock and the process), the database, the mail service and the
    files.  Its state holds them side by side; the functions of the
    portal, of the database and of the mail run on their own part and
    leave the others alone. *)

Module Pipeline.
Import Csv Config Db Mail Dates Overlay Pauta Site Xlsx.

(** The predicates of [page.waitForFunction]. *)
Inductive Funcao : Type :=
| FnNaoDesabilitado    (* el.getAttribute('aria-disabled') !== 'true' *)
| FnBotaoHabilitado.   (* !el.hasAttribute('disabled') && el.getAttribute('aria-disabled') !== 'true' *)

(** The calls of the second variant that the first does not make. *)
Record Robo (W : Type) : Type := {
  portal_site : Site W;
  (** [chromium.launch] and [browser.newPage] *)
  launch : W -> Settled unit * W;
  scroll_into_view : SLocator -> W -> Settled unit * W;
  element_handle : SLocator -> W -> Settled unit * W;
  wait_for_function : Funcao -> SLocator -> W -> Settled unit * W;
  (** [wb.xlsx.writeFile(filePath)] *)
  xlsx_write_file : jsstring -> Workbook -> W -> Settled unit * W;
  (** [new Date().toLocaleString('pt-BR')] *)
  locale_string : W -> jsstring;
  (** [path.join(outDir, name)] for the name of the workbook. *)
  out_path_xlsx : Z -> jsstring
}.
Arguments portal_site {W}.
Arguments launch {W}.
Arguments scroll_into_view {W}.
Arguments element_handle {W}.
Arguments wait_for_function {W}.
Arguments xlsx_write_file {W}.
Arguments locale_string {W}.
Arguments out_path_xlsx {W}.

Record Mundo (W D S : Type) : Type := mkMundo {
  portal : W;
  banco : DbState D;
  correio : MailState S;
  arquivos : FileSystem;
  planilhas : list (jsstring * Workbook)
}.
Arguments mkMundo {W D S}.
Arguments portal {W D S}.
Arguments banco {W D S}.
Arguments correio {W D S}.
Arguments arquivos {W D S}.
Arguments planilhas {W D S}.

(** The texts of the two fixed options; the code units above U+007F
    are written by number. *)
Definition textoAudiencias : jsstring :=
  lit "Audi" ++ [234%N] ++ lit "ncias 1" ++ [186%N] ++ lit " grau".

Definition textoMunicipio : jsstring :=
  lit "S" ++ [227%N] ++ lit "o Paulo - Zonas Central, Norte e Oeste".

Section WithRobo.
Context {W D S : Type} (robo : Robo W).

Abbreviation site := (portal_site robo).
Abbreviation page := (pagina (portal_site robo)).

Definition openMatSelect (selectLocator : SLocator) : M W SLocator :=
  catch_with (act (scroll_into_view robo selectLocator)) tt ;;
  act (s_click site selectLocator) ;;
  let panel := SLPanel in
  act (s_wait_for site panel Visible) ;;
  ret panel.

(** [opts] is the [exact] of the options object, when it has one. *)
Definition clickMatOptionByText (text : jsstring) (opts : option bool) : M W unit :=
  let panel := SLPanel in
  act (s_wait_for site panel Visible) ;;
  let pattern :=
    match opts with
    | Some false => PTexto text
    | _ => PRegExpI (lit "^\s*" ++ escapeRegExp text ++ lit "\s*$")
    end in
  let option := SLOpcaoPadrao pattern in
  act (s_wait_for site option Visible) ;;
  catch_with (act (scroll_into_view robo option)) tt ;;
  act (s_click site option) ;;
  catch_with (act (s_wait_for site panel Hidden)) tt.

Definition matSelectChoose (selectLocator : SLocator) (optionText : jsstring)
    (opts : option bool) : M W unit :=
  openMatSelect selectLocator ;;
  clickMatOptionByText optionText opts ;;
  waitForTimeout page 150.

Definition waitMatSelectEnabled (selector : Seletor) : M W unit :=
  act (wait_for_selector site selector) ;;
  let loc := SLDoSeletor selector in
  act (element_handle robo loc) ;;
  act (wait_for_function robo FnNaoDesabilitado loc).

(** selecionarUnidade of the second variant; [fuel] is that of the
    date stepper. *)
Definition selecionarUnidade (fuel : nat) (varaLabel : jsstring) : M W unit :=
  fecharOverlays page ;;
  let botaoUnidade := SLBotaoUnidade in
  act (s_wait_for site botaoUnidade Visible) ;;
  act (s_click site botaoUnidade) ;;
  act (wait_for_selector site SelTituloOrgao) ;;
  let selectTipo := SLSelectTipo in
  matSelectChoose selectTipo textoAudiencias (Some true) ;;
  let selectMunicipio := SLSelectMunicipio in
  matSelectChoose selectMunicipio textoMunicipio (Some true) ;;
  waitMatSelectEnabled SelOrgao ;;
  let selectOrgao := SLSelectOrgao in
  matSelectChoose selectOrgao varaLabel (Some true) ;;
  let confirmar := SLConfirmar in
  act (s_wait_for site confirmar Visible) ;;
  act (element_handle robo confirmar) ;;
  catch_with (act (wait_for_function robo FnBotaoHabilitado confirmar)) tt ;;
  catch_with (act (s_click site confirmar)) tt ;;
  catch_with (act (wait_for_load_state site NetworkIdle)) tt ;;
  waitForTimeout page 700 ;;
  hoje <- (fun s => (Val (new_date site (world s)), s)) ;;
  let todayBR := getTodayBR hoje in
  ok <- LinearStepper.selecionarDataComConfirmacao page fuel todayBR 1 ;;
  ret tt.

(** A computation of the portal, of the database or of the mail, run
    on its part of the state. *)
Definition comPortal (w : W) (m : Mundo W D S) : Mundo W D S :=
  mkMundo w (banco m) (correio m) (arquivos m) (planilhas m).

Definition comBanco (d : DbState D) (m : Mundo W D S) : Mundo W D S :=
  mkMundo (portal m) d (correio m) (arquivos m) (planilhas m).

Definition comCorreio (c : MailState S) (m : Mundo W D S) : Mundo W D S :=
  mkMundo (portal m) (banco m) c (arquivos m) (planilhas m).

Definition noPortal {A} (m : M W A) : M (Mundo W D S) A :=
  fun s =>
    let r := m (mkSt (portal (world s)) (trace s)) in
    (fst r, mkSt (comPortal (world (snd r)) (world s)) (trace (snd r))).

Definition noBanco {A} (m : M (DbState D) A) : M (Mundo W D S) A :=
  fun s =>
    let r := m (mkSt (banco (world s)) (trace s)) in
    (fst r, mkSt (comBanco (world (snd r)) (world s)) (trace (snd r))).

Definition noCorreio {A} (m : M (MailState S) A) : M (Mundo W D S) A :=
  fun s =>
    let r := m (mkSt (correio (world s)) (trace s)) in
    (fst r, mkSt (comCorreio (world (snd r)) (world s)) (trace (snd r))).

(** writeCsv on the files of the state. *)
Definition gravarCsv (filePath : jsstring) (headers : list jsstring) (rows : list Row)
    : M (Mundo W D S) unit :=
  fun s =>
    (Val tt,
     mkSt (mkMundo (portal (world s)) (banco (world s)) (correio (world s))
                   (writeCsv filePath headers rows (arquivos (world s)))
                   (planilhas (world s)))
          (trace s)).

Definition writeXlsx (filePath : jsstring) (headers : list jsstring) (rows : list Row)
    : M (Mundo W D S) unit :=
  fun s =>
    let wb := workbookDe (new_date site (portal (world s))) headers rows in
    let r := xlsx_write_file robo filePath wb (portal (world s)) in
    (settle (fst r),
     mkSt (mkMundo (snd r) (banco (world s)) (correio (world s)) (arquivos (world s))
                   (planilhas (world s) ++ [(filePath, wb)]))
          (trace s)).

(** The text of the message, for [n] rows. *)
Definition textoDoEmail (n : nat) (geradoEm : jsstring) : jsstring :=
  lit "Ol" ++ [225%N] ++ lit "!" ++ [cLF; cLF]
  ++ lit "Segue em anexo o arquivo XLSX com a extra" ++ [231%N; 227%N]
  ++ lit "o da pauta do TRT2 para os pr" ++ [243%N] ++ lit "ximos ~2 meses."
  ++ [cLF; cLF]
  ++ lit "Total de linhas: " ++ ofZ (Z.of_nat n) ++ [cLF]
  ++ lit "Gerado em: " ++ geradoEm ++ [cLF; cLF]
  ++ lit "Atenciosamente," ++ [cLF] ++ lit "Rob" ++ [244%N] ++ lit " JTe".

Section WithServices.
Context (mailer : Mailer S) (env : Env).

(** The body of the inner loop of main, over the dates.  The batch
    loop of insertRowsMySql gets one unit of fuel more than it has
    rows, which a chunk size of 800 does not use up. *)
Definition main_data (fuel : nat) (pool : option (Pool D)) (geradoEm vara : jsstring)
    (dataBR : jsstring) (rowsCsv : list Row) : M (Mundo W D S) (list Row) :=
  ok <- noPortal (LinearStepper.selecionarDataComConfirmacao page fuel dataBR 2) ;;
  if negb ok then ret rowsCsv
  else
    noPortal (esperarPautaEstabilizar page) ;;
    processos <- noPortal (extrairProcessosDaPauta page) ;;
    let rowsCsv := rowsCsv ++ List.map (linhaCsv geradoEm vara dataBR) processos in
    match pool with
    | Some _ =>
        if negb (Nat.eqb (length processos) 0) then
          let rowsChunk := List.map (linhaCsv geradoEm vara dataBR) processos in
          r <- noBanco (insertRowsMySql (Datatypes.S (length rowsChunk)) pool
                          (Some rowsChunk) 800) ;;
          ret rowsCsv
        else ret rowsCsv
    | None => ret rowsCsv
    end.

(** The body of the outer loop of main, over the units. *)
Definition main_vara (fuel : nat) (pool : option (Pool D)) (geradoEm : jsstring)
    (datas : list jsstring) (vara : jsstring) (rowsCsv : list Row)
    : M (Mundo W D S) (list Row) :=
  noPortal (selecionarUnidade fuel vara) ;;
  for_each datas rowsCsv (main_data fuel pool geradoEm vara).

(** The [try] block of main.  [fuel] serves the range generator and
    the date stepper.  Making the output directory and writing the CSV
    file are taken to succeed. *)
Definition main_try (fuel : nat) (pool : option (Pool D)) (geradoEm : jsstring)
    : M (Mundo W D S) unit :=
  let rowsCsv := [] in
  noPortal (abrirJTeSelecionarTRT2 site) ;;
  noPortal (abrirModuloPauta site) ;;
  varas <- noPortal (listarVaras site) ;;
  let varasAlvo := varas in
  hoje <- (fun s => (Val (new_date site (portal (world s))), s)) ;;
  match gerarDatasProximosDoisMeses fuel (zona site) hoje with
  | None => no_fuel
  | Some datas =>
      rowsCsv <- for_each varasAlvo rowsCsv (main_vara fuel pool geradoEm datas) ;;
      stamp <- (fun s => (Val (date_now page (portal (world s))), s)) ;;
      let csvPath := out_path site stamp in
      let xlsxPath := out_path_xlsx robo stamp in
      gravarCsv csvPath headersCsv rowsCsv ;;
      writeXlsx xlsxPath headersCsv rowsCsv ;;
      agora <- (fun s => (Val (locale_string robo (portal (world s))), s)) ;;
      let subject := lit "Pauta TRT2 (2 meses) - " ++ agora in
      let text := textoDoEmail (length rowsCsv) geradoEm in
      info <- noCorreio (sendEmailWithAttachment mailer env subject text xlsxPath) ;;
      ret tt
  end.

(** main of the second variant.  The pool is opened and the browser
    launched before the [try]; the [finally] closes the pool. *)
Definition main (fuel : nat) (driver : PoolConfig -> Pool D) : M (Mundo W D S) unit :=
  pool <- noBanco (initDbIfEnabled env driver) ;;
  noPortal (act (launch robo)) ;;
  geradoEm <- (fun s => (Val (iso_now site (portal (world s))), s)) ;;
  try_catch (main_try fuel pool geradoEm) (fun err => ret tt) ;;
  try_catch
    (match pool with
     | Some p => noBanco (poolEnd p)
     | None => ret tt
     end)
    (fun _ => ret tt).

End WithServices.
End WithRobo.
End Pipeline.

(** ** Auxiliary notions of the statements *)

Module Aux.
Import Dates.

Definition no_space (s : jsstring) : Prop :=
  Forall (fun c => isWhiteSpace c = false) s.

Definition no_sep (sep : N) (s : jsstring) : Prop := Forall (fun c => c <> sep) s.

(** [j] leading zeros before a numeral. *)
Fixpoint zeros (j : nat) (u : uint) : uint :=
  match j with
  | O => u
  | S j' => D0 (zeros j' u)
  end.

(** A check of [p] on [n] consecutive integers from [i] on. *)
Fixpoint upto (n : nat) (i : Z) (p : Z -> bool) : bool :=
  match n with
  | O => true
  | S n' => p i && upto n' (i + 1) p
  end.

(** Two digits, a slash, two digits, a slash, four digits. *)
Definition isDDMMYYYY (s : jsstring) : bool :=
  match s with
  | [d1; d2; s1; m1; m2; s2; y1; y2; y3; y4] =>
      isDigit d1 && isDigit d2 && (s1 =? cSLASH)%N
      && isDigit m1 && isDigit m2 && (s2 =? cSLASH)%N
      && isDigit y1 && isDigit y2 && isDigit y3 && isDigit y4
  | _ => false
  end.

(** The value of a digit. *)
Definition digitVal (c : N) : Z := Z.of_N c - 48.

(** The digit of a value. *)
Definition digitOf (v : Z) : N := Z.to_N (v + 48).



(** The first instant of the year 9999. *)
Definition ano9999 : Z := 253370764800000.

(** A zone that keeps the day: the instant that stands for a local
    time reads back as a local time of the same day -- a local time
    that a change of the clocks skips is replaced by a later one of
    that day --, and local time never goes back to an earlier day. *)
Definition zonaRegular (z : Zone) : Prop :=
  (forall l, Day (LocalTime z (UTC z l)) = Day l)
  /\ (forall t1 t2, t1 <= t2 -> Day (LocalTime z t1) <= Day (LocalTime z t2)).

(** A clock reading of the daylight saving time example: Sunday 2
    September 2018, 00:30 local time. *)
Definition domingo_2_setembro_2018 : Z := 1535848200000.

(** [k] consecutive day numbers from [lo] on. *)
Fixpoint diasDesde (k : nat) (lo : Z) : list Z :=
  match k with
  | O => []
  | S k' => lo :: diasDesde k' (lo + 1)
  end.

(** Monday to Friday. *)
Definition diaUtil (n : Z) : bool :=
  (1 <=? (n + 4) mod 7) && ((n + 4) mod 7 <=? 5).

(** The business days from [lo] to [hi], both included. *)
Definition diasUteis (lo hi : Z) : list Z :=
  List.filter diaUtil (diasDesde (Z.to_nat (hi - lo + 1)) lo).

(** A clock reading used in the examples: Monday 2 March 2026,
    10:00 local time. *)
Definition segunda_2_marco_2026 : Z := 1772445600000.

(** The reading of one CSV field: a field that starts with a quote mark
    loses the two outer marks and every doubled mark inside becomes
    one; any other field is taken as it is. *)
Fixpoint desdobrarAspas (s : jsstring) : jsstring :=
  match s with
  | a :: ((b :: r) as t) =>
      if (a =? cQUOTE)%N && (b =? cQUOTE)%N then cQUOTE :: desdobrarAspas r
      else a :: desdobrarAspas t
  | _ => s
  end.

Definition csvUnescape (f : jsstring) : jsstring :=
  match f with
  | c :: r => if (c =? cQUOTE)%N then desdobrarAspas (removelast r) else f
  | [] => []
  end.

(** A character that forces quoting. *)
Definition especial (c : N) : Prop :=
  c = cSEMI \/ c = cQUOTE \/ c = cLF \/ c = cCR.






(** The number of list entries as the program samples it: a count
    that rejects reads as 0. *)
Definition contagem {W} (page : Session W) (w : W) : Z :=
  match count page LItems w with
  | Fulfilled n => Z.of_nat n
  | Rejected _ => 0
  end.

(** How many events of a log satisfy [p]. *)
Definition contar (p : Event -> bool) (evs : list Event) : nat :=
  length (List.filter p evs).

Definition ehEspera (ms : Z) (e : Event) : bool :=
  match e with
  | EvWait m => m =? ms
  | _ => false
  end.

Definition ehContagem (e : Event) : bool :=
  match e with
  | EvCount LItems => true
  | _ => false
  end.

(** A click, through Playwright or inside a script. *)
Definition ehClique (e : Event) : bool :=
  match e with
  | EvClick _ | EvDomClick _ => true
  | _ => false
  end.

(** A page on which nothing happens, to build examples from. *)
Definition paginaInerte {W} : Session W :=
  {| keyboard_press_escape := fun w => (Fulfilled tt, w);
     wait_for_timeout := fun _ w => w;
     timeout_gate := fun _ _ => Fulfilled tt;
     date_now := fun _ => 0;
     is_visible := fun _ _ => Fulfilled false;
     click := fun _ w => (Fulfilled tt, w);
     wait_for := fun _ _ w => (Fulfilled tt, w);
     text_content := fun _ _ => Fulfilled None;
     inner_text := fun _ _ => Fulfilled [];
     count := fun _ _ => Fulfilled O;
     evaluate_gate := fun _ => Fulfilled tt;
     dom_calendar := fun _ => None;
     dom_items := fun _ => [];
     dom_ion := fun _ _ => None;
     dom_click := fun _ w => w |}.

(** Every timed wait of the page is fulfilled. *)
Definition esperasCumpridas {W} (page : Session W) : Prop :=
  forall ms w, timeout_gate page ms w = Fulfilled tt.

(** [e] is the rejection of a timed wait of the page. *)
Definition rejeicaoDeEspera {W} (page : Session W) (e : Exn) : Prop :=
  exists ms w, timeout_gate page ms w = Rejected e.

(** An outcome that is a value or the rejection of a timed wait. *)
Definition voltaOuEspera {W A} (page : Session W) (r : Out A) : Prop :=
  match r with
  | Val _ => True
  | Exc e => rejeicaoDeEspera page e
  | NoFuel => False
  end.

(** A page that has been closed: every call rejects, the timed waits
    included, and the document is gone. *)
Definition fechada : Exn := lit "Target page, context or browser has been closed".

Definition paginaFechada {W} : Session W :=
  {| keyboard_press_escape := fun w => (Rejected fechada, w);
     wait_for_timeout := fun _ w => w;
     timeout_gate := fun _ _ => Rejected fechada;
     date_now := fun _ => 0;
     is_visible := fun _ _ => Rejected fechada;
     click := fun _ w => (Rejected fechada, w);
     wait_for := fun _ _ w => (Rejected fechada, w);
     text_content := fun _ _ => Rejected fechada;
     inner_text := fun _ _ => Rejected fechada;
     count := fun _ _ => Rejected fechada;
     evaluate_gate := fun _ => Rejected fechada;
     dom_calendar := fun _ => None;
     dom_items := fun _ => [];
     dom_ion := fun _ _ => None;
     dom_click := fun _ w => w |}.

(** A page that shows the list of entries it is given. *)
Definition paginaLista : Session (list Item) :=
  {| keyboard_press_escape := fun w => (Fulfilled tt, w);
     wait_for_timeout := fun _ w => w;
     timeout_gate := fun _ _ => Fulfilled tt;
     date_now := fun _ => 0;
     is_visible := fun _ _ => Fulfilled false;
     click := fun _ w => (Fulfilled tt, w);
     wait_for := fun _ _ w => (Fulfilled tt, w);
     text_content := fun _ _ => Fulfilled None;
     inner_text := fun _ _ => Fulfilled [];
     count := fun _ w => Fulfilled (length w);
     evaluate_gate := fun _ => Fulfilled tt;
     dom_calendar := fun _ => None;
     dom_items := fun w => w;
     dom_ion := fun _ _ => None;
     dom_click := fun _ w => w |}.

(** Two entries; the second has no identifier and an empty first
    description. *)
Definition doisItens : list Item :=
  [ {| item_sessao := Some (lit "09:30");
       item_palavrasRight := Some (lit "Designada");
       item_negrito := Some (lit "1000123-45.2026.5.02.0001");
       item_descs := [lit "Juiz A"; lit "Fulano"; lit "Empresa X"] |};
    {| item_sessao := None;
       item_palavrasRight := None;
       item_negrito := None;
       item_descs := [[cNBSP; cSPACE]; lit "Juiz B"; lit " Beltrano "] |} ].

(** A page that shows the list of entries it is given while counting
    them is rejected, as it is while the page navigates. *)
Definition paginaSemContagem : Session (list Item) :=
  {| keyboard_press_escape := fun w => (Fulfilled tt, w);
     wait_for_timeout := fun _ w => w;
     timeout_gate := fun _ _ => Fulfilled tt;
     date_now := fun _ => 0;
     is_visible := fun _ _ => Fulfilled false;
     click := fun _ w => (Fulfilled tt, w);
     wait_for := fun _ _ w => (Fulfilled tt, w);
     text_content := fun _ _ => Fulfilled None;
     inner_text := fun _ _ => Fulfilled [];
     count := fun _ _ =>
       Rejected (lit "Execution context was destroyed, most likely because of a navigation");
     evaluate_gate := fun _ => Fulfilled tt;
     dom_calendar := fun _ => None;
     dom_items := fun w => w;
     dom_ion := fun _ _ => None;
     dom_click := fun _ w => w |}.

(** A page whose list grows by one entry with every wait, and one whose
    list never changes; the state is the number of entries. *)
Definition paginaCrescente : Session nat :=
  {| keyboard_press_escape := fun w => (Fulfilled tt, w);
     wait_for_timeout := fun _ w => S w;
     timeout_gate := fun _ _ => Fulfilled tt;
     date_now := fun _ => 0;
     is_visible := fun _ _ => Fulfilled false;
     click := fun _ w => (Fulfilled tt, w);
     wait_for := fun _ _ w => (Fulfilled tt, w);
     text_content := fun _ _ => Fulfilled None;
     inner_text := fun _ _ => Fulfilled [];
     count := fun _ w => Fulfilled w;
     evaluate_gate := fun _ => Fulfilled tt;
     dom_calendar := fun _ => None;
     dom_items := fun _ => [];
     dom_ion := fun _ _ => None;
     dom_click := fun _ w => w |}.

Definition paginaParada : Session nat :=
  {| keyboard_press_escape := fun w => (Fulfilled tt, w);
     wait_for_timeout := fun _ w => w;
     timeout_gate := fun _ _ => Fulfilled tt;
     date_now := fun _ => 0;
     is_visible := fun _ _ => Fulfilled false;
     click := fun _ w => (Fulfilled tt, w);
     wait_for := fun _ _ w => (Fulfilled tt, w);
     text_content := fun _ _ => Fulfilled None;
     inner_text := fun _ _ => Fulfilled [];
     count := fun _ w => Fulfilled w;
     evaluate_gate := fun _ => Fulfilled tt;
     dom_calendar := fun _ => None;
     dom_items := fun _ => [];
     dom_ion := fun _ _ => None;
     dom_click := fun _ w => w |}.

(** What the retry envelope is to do, as a relation:
    [tentativas n k s r s'] says that, with [n] attempts allowed and
    starting in state [s], the envelope makes [k] attempts and ends in
    state [s'] with outcome [r].  An attempt that succeeds ends the run
    with its result; an attempt that fails with attempts remaining is
    followed by the overlay guard and the wait, then by the next
    attempt; the failure of the last attempt is the outcome; and when
    the wait after a failed attempt is rejected, that rejection is the
    outcome, whatever the number of attempts left. *)
Section RetrySpec.
Context {W A : Type} (page : Session W) (operation : M W A) (delayMs : Z).

Inductive tentativas : nat -> nat -> St W -> Out (option A) -> St W -> Prop :=
| tent_nenhuma s :
    tentativas 0 0 s (Val None) s
| tent_sucesso n s a s' :
    operation s = (Val a, s') ->
    tentativas (S n) 1 s (Val (Some a)) s'
| tent_ultima s e s' :
    operation s = (Exc e, s') ->
    tentativas 1 1 s (Exc e) s'
| tent_outra n k s e s1 s2 s3 r s' :
    operation s = (Exc e, s1) ->
    Overlay.fecharOverlays page s1 = (Val tt, s2) ->
    waitForTimeout page delayMs s2 = (Val tt, s3) ->
    tentativas (S n) k s3 r s' ->
    tentativas (S (S n)) (S k) s r s'
| tent_espera n s e s1 s2 e' s3 :
    operation s = (Exc e, s1) ->
    Overlay.fecharOverlays page s1 = (Val tt, s2) ->
    waitForTimeout page delayMs s2 = (Exc e', s3) ->
    tentativas (S (S n)) 1 s (Exc e') s3
| tent_sem_fuel n s s' :
    operation s = (NoFuel, s') ->
    tentativas (S n) 1 s NoFuel s'.

End RetrySpec.

(** The body of the loop of retryOperation, and the outcome of the
    function from the outcome of its loop. *)
Definition retry_body {W A} (page : Session W) (operation : M W A)
    (maxRetries delayMs : Z) (attempt : Z) (_ : unit) : M W (unit + A) :=
  try_catch
    (bind operation (fun a => ret (inr a)))
    (fun err =>
       if attempt =? maxRetries then throw err
       else bind (Overlay.fecharOverlays page)
              (fun _ => bind (waitForTimeout page delayMs) (fun _ => ret (inl tt)))).

Definition retry_out {A} (r : Out (unit + A)) : Out (option A) :=
  match r with
  | Val (inr a) => Val (Some a)
  | Val (inl _) => Val None
  | Exc e => Exc e
  | NoFuel => NoFuel
  end.

(** An operation for the examples: clicking the date button on a page
    where the click is swallowed while an overlay is up; the state is
    the number of overlays still to dismiss, and a wait dismisses
    one. *)
Definition paginaComOverlays : Session nat :=
  {| keyboard_press_escape := fun w => (Fulfilled tt, w);
     wait_for_timeout := fun _ w => Nat.pred w;
     timeout_gate := fun _ _ => Fulfilled tt;
     date_now := fun _ => 0;
     is_visible := fun _ w => Fulfilled (negb (Nat.eqb w 0));
     click := fun l w =>
       match l, w with
       | LDateButton, S _ => (Rejected (lit "element intercepts pointer events"), w)
       | _, _ => (Fulfilled tt, w)
       end;
     wait_for := fun _ _ w => (Fulfilled tt, w);
     text_content := fun _ _ => Fulfilled None;
     inner_text := fun _ _ => Fulfilled [];
     count := fun _ _ => Fulfilled O;
     evaluate_gate := fun _ => Fulfilled tt;
     dom_calendar := fun _ => None;
     dom_items := fun _ => [];
     dom_ion := fun _ _ => None;
     dom_click := fun _ w => w |}.

(** A page that is closed by the first click on the date button: the
    click times out, and from then on every call is rejected.  The
    state says whether the page has been closed. *)
Definition tempoEsgotado : Exn := lit "Timeout 30000ms exceeded.".

Definition paginaQueFecha : Session bool :=
  {| keyboard_press_escape := fun w : bool =>
       (if w then Rejected fechada else Fulfilled tt, w);
     wait_for_timeout := fun _ (w : bool) => w;
     timeout_gate := fun _ (w : bool) => if w then Rejected fechada else Fulfilled tt;
     date_now := fun _ => 0;
     is_visible := fun _ (w : bool) => if w then Rejected fechada else Fulfilled false;
     click := fun l (w : bool) =>
       if w then (Rejected fechada, w)
       else match l with
            | LDateButton => (Rejected tempoEsgotado, true)
            | _ => (Fulfilled tt, w)
            end;
     wait_for := fun _ _ (w : bool) => (if w then Rejected fechada else Fulfilled tt, w);
     text_content := fun _ (w : bool) => if w then Rejected fechada else Fulfilled None;
     inner_text := fun _ (w : bool) => if w then Rejected fechada else Fulfilled [];
     count := fun _ (w : bool) => if w then Rejected fechada else Fulfilled O;
     evaluate_gate := fun w : bool => if w then Rejected fechada else Fulfilled tt;
     dom_calendar := fun _ => None;
     dom_items := fun _ => [];
     dom_ion := fun _ _ => None;
     dom_click := fun _ w => w |}.


(** The value of a settled observation, [d] standing for a
    rejection. *)
Definition settledOr {A} (r : Settled A) (d : A) : A :=
  match r with
  | Fulfilled a => a
  | Rejected _ => d
  end.

(** The text of the period button as the header reader takes it: a
    rejection and a null text both read as the empty string. *)
Definition textoCabecalho {W} (page : Session W) (w : W) : jsstring :=
  default [] (settledOr (text_content page LPeriodButton w) None).

(** The linearized month key of a valid date. *)
Definition chaveMes (t : Z) : Z := YearFromTime t * 12 + MonthFromTime t.

(** The text of the date button as the first variant reads it back. *)
Definition dataVisivel {W} (page : Session W) (w : W) : jsstring :=
  trim (settledOr (inner_text page LDateButton w) []).

(** A month grid for the examples.  The state is the month key the
    grid shows, the day number of the selected date and whether the
    picker is open.  The period button shows the month as the
    Portuguese abbreviation and the year; a cell shows the day of the
    month and carries a label with the full date; clicking a day
    selects it and closes the picker; the date button shows the
    selected date. *)
Record Calendario : Type := {
  cal_mes : Z;
  cal_dia : Z;
  cal_aberto : bool
}.

Definition nomesMeses : list jsstring :=
  [lit "JAN."; lit "FEV."; lit "MAR."; lit "ABR."; lit "MAI."; lit "JUN.";
   lit "JUL."; lit "AGO."; lit "SET."; lit "OUT."; lit "NOV."; lit "DEZ."].

Definition nomeMes (m0 : Z) : jsstring :=
  default [] (nomesMeses !! Z.to_nat m0).

Definition cabecalhoDe (k : Z) : jsstring :=
  nomeMes (k mod 12) ++ lit " DE " ++ ofZ (k / 12).

Definition celulaDe (k : Z) (d : Z) : Cell :=
  {| cell_aria := Some (ofZ d ++ lit " de " ++ nomeMes (k mod 12) ++ lit " de "
                        ++ ofZ (k / 12));
     cell_text := [cSPACE] ++ ofZ d ++ [cSPACE];
     cell_disabled := false;
     cell_button := Some {| btn_aria := None; btn_text := ofZ d |} |}.

Definition celulasDe (k : Z) : list Cell :=
  List.map (fun i => celulaDe k (Z.of_nat i + 1))
           (seq 0 (Z.to_nat (days_in_month (k / 12) (k mod 12 + 1)))).

Definition paginaCalendario : Session Calendario :=
  {| keyboard_press_escape := fun w => (Fulfilled tt, w);
     wait_for_timeout := fun _ w => w;
     timeout_gate := fun _ _ => Fulfilled tt;
     date_now := fun _ => 0;
     is_visible := fun _ _ => Fulfilled false;
     click := fun l w =>
       match l with
       | LDateButton =>
           (Fulfilled tt, {| cal_mes := cal_mes w; cal_dia := cal_dia w; cal_aberto := true |})
       | LCalNext =>
           (Fulfilled tt,
            {| cal_mes := cal_mes w + 1; cal_dia := cal_dia w; cal_aberto := cal_aberto w |})
       | LCalPrev =>
           (Fulfilled tt,
            {| cal_mes := cal_mes w - 1; cal_dia := cal_dia w; cal_aberto := cal_aberto w |})
       | _ => (Fulfilled tt, w)
       end;
     wait_for := fun _ _ w => (Fulfilled tt, w);
     text_content := fun l w =>
       match l with
       | LPeriodButton => Fulfilled (Some (cabecalhoDe (cal_mes w)))
       | _ => Fulfilled None
       end;
     inner_text := fun l w =>
       match l with
       | LDateButton => Fulfilled ([cSPACE] ++ brOfDay (cal_dia w) ++ [cSPACE])
       | _ => Fulfilled []
       end;
     count := fun _ _ => Fulfilled O;
     evaluate_gate := fun _ => Fulfilled tt;
     dom_calendar := fun w =>
       if cal_aberto w then Some (celulasDe (cal_mes w)) else None;
     dom_items := fun _ => [];
     dom_ion := fun _ _ => None;
     dom_click := fun t w =>
       match t with
       | DomCalTd i | DomCalButton i =>
           {| cal_mes := cal_mes w;
              cal_dia := days_from_civil (cal_mes w / 12) (cal_mes w mod 12 + 1)
                                         (Z.of_nat i + 1);
              cal_aberto := false |}
       | DomIon _ => w
       end |}.

(** January 2026 on the grid, 2 March 2026 selected, picker closed. *)
Definition calendarioInicial : Calendario :=
  {| cal_mes := 2026 * 12 + 0; cal_dia := 20514; cal_aberto := false |}.

(** The state after the header of the grid is read. *)
Definition lido {W} (s : St W) : St W :=
  mkSt (world s) (trace s ++ [EvText LPeriodButton]).

(** What the scripts of the second variant find: whether an
    ion-button host is there, and the text read from it; a rejected
    page.evaluate reads as an absent host and an empty text. *)
Definition existeIon {W} (page : Session W) (b : IonButton) (w : W) : bool :=
  match evaluate_gate page w, dom_ion page b w with
  | Fulfilled _, Some _ => true
  | _, _ => false
  end.

Definition textoIon {W} (page : Session W) (b : IonButton) (w : W) : jsstring :=
  match evaluate_gate page w, dom_ion page b w with
  | Fulfilled _, Some h =>
      trim (LinearStepper.firstTruthy
              (match host_button h with
               | Some (it, tc) => [it; tc]
               | None => []
               end ++ [host_innerText h; host_textContent h]))
  | _, _ => []
  end.

(** The displayed date label as the second variant reads it. *)
Definition rotulo {W} (page : Session W) (w : W) : jsstring :=
  let raw := textoIon page IonDateDisplay w in
  if truthy raw then raw
  else
    let t := settledOr (inner_text page LDateButton w) [] in
    if truthy t && truthy (trim t) then trim t else [].

(** The calls one reading of the label makes. *)
Definition eventosLeitura {W} (page : Session W) (w : W) : list Event :=
  if truthy (textoIon page IonDateDisplay w) then [EvEvaluate]
  else [EvEvaluate; EvText LDateButton].

(** A click on the previous or the next control of the stepper. *)
Definition ehCliqueDirecional (e : Event) : bool :=
  match e with
  | EvDomClick (DomIon IonNext) | EvDomClick (DomIon IonPrev) => true
  | _ => false
  end.

Definition ehCliqueEm (b : IonButton) (e : Event) : bool :=
  match e with
  | EvDomClick (DomIon IonNext) => match b with IonNext => true | _ => false end
  | EvDomClick (DomIon IonPrev) => match b with IonPrev => true | _ => false end
  | _ => false
  end.

(** A stepper for the examples.  The state is the day number shown and
    the clock.  The label is [prefixo] followed by the canonical string
    of the day; the next and previous controls, when present, move the
    day by one; a wait moves the clock. *)
Definition paginaStepper (temPrev temNext : bool) (prefixo : jsstring)
    : Session (Z * Z) :=
  let label (w : Z * Z) := prefixo ++ brOfDay (fst w) in
  {| keyboard_press_escape := fun w => (Fulfilled tt, w);
     wait_for_timeout := fun ms w => (fst w, snd w + ms);
     timeout_gate := fun _ _ => Fulfilled tt;
     date_now := fun w => snd w;
     is_visible := fun _ _ => Fulfilled false;
     click := fun _ w => (Fulfilled tt, w);
     wait_for := fun _ _ w => (Fulfilled tt, w);
     text_content := fun _ _ => Fulfilled None;
     inner_text := fun l w =>
       match l with
       | LDateButton => Fulfilled (label w)
       | _ => Fulfilled []
       end;
     count := fun _ _ => Fulfilled O;
     evaluate_gate := fun _ => Fulfilled tt;
     dom_calendar := fun _ => None;
     dom_items := fun _ => [];
     dom_ion := fun b w =>
       match b with
       | IonNext =>
           if temNext then
             Some {| host_button := Some ([], []); host_innerText := [];
                     host_textContent := [] |}
           else None
       | IonPrev =>
           if temPrev then
             Some {| host_button := Some ([], []); host_innerText := [];
                     host_textContent := [] |}
           else None
       | IonDateDisplay =>
           Some {| host_button := Some (label w, label w);
                   host_innerText := label w; host_textContent := label w |}
       end;
     dom_click := fun t w =>
       match t with
       | DomIon IonNext => (fst w + 1, snd w)
       | DomIon IonPrev => (fst w - 1, snd w)
       | _ => w
       end |}.

(** The control a step clicks. *)
Definition controle (hasPrev : bool) (alvoDate : option Z) (raw : jsstring) : IonButton :=
  if LinearStepper.direcao hasPrev alvoDate raw =? -1 then IonPrev else IonNext.

(** The calls the wait for the label makes: the clock, the script and
    the text that read the label, and the waits of 80 ms. *)
Definition ehLeituraOuEspera (e : Event) : bool :=
  match e with
  | EvNow | EvEvaluate | EvText LDateButton => true
  | EvWait ms => ms =? 80
  | _ => false
  end.

(** The wait that ends a step of the stepper that does not return. *)
Definition ehFimDePasso (e : Event) : bool :=
  match e with
  | EvWait ms => (ms =? 120) || (ms =? 150)
  | _ => false
  end.

(** A string that [trim] leaves as it is. *)
Definition aparado (s : jsstring) : Prop := trim s = s.

(** Reading an escaped pattern back: a backslash stands for the
    character after it. *)
Fixpoint desescapar (s : jsstring) : jsstring :=
  match s with
  | [] => []
  | c :: r =>
      if (c =? Config.cBACKSLASH)%N then
        match r with
        | [] => [c]
        | d :: r' => d :: desescapar r'
        end
      else c :: desescapar r
  end.

(** A string that does not begin with white space. *)
Definition headok (s : jsstring) : Prop :=
  match s with
  | [] => True
  | c :: _ => isWhiteSpace c = false
  end.

(** A page whose month grid is stuck on March 2026. *)
Definition paginaCabecalhoFixo : Session unit :=
  {| keyboard_press_escape := fun w => (Fulfilled tt, w);
     wait_for_timeout := fun _ w => w;
     timeout_gate := fun _ _ => Fulfilled tt;
     date_now := fun _ => 0;
     is_visible := fun _ _ => Fulfilled false;
     click := fun _ w => (Fulfilled tt, w);
     wait_for := fun _ _ w => (Fulfilled tt, w);
     text_content := fun l _ =>
       match l with
       | LPeriodButton => Fulfilled (Some (lit "MAR. DE 2026"))
       | _ => Fulfilled None
       end;
     inner_text := fun _ _ => Fulfilled [];
     count := fun _ _ => Fulfilled O;
     evaluate_gate := fun _ => Fulfilled tt;
     dom_calendar := fun _ => None;
     dom_items := fun _ => [];
     dom_ion := fun _ _ => None;
     dom_click := fun _ w => w |}.

(** The calls the stepper navigator makes: those of the overlay guard,
    the scripts that look for, read and click the three ion-buttons,
    the text of the date button, the clock, and the waits of 80, 120,
    150 and 200 ms. *)
Definition ehDaNavegacao (e : Event) : bool :=
  match e with
  | EvKeyEscape | EvNow | EvEvaluate => true
  | EvWait ms => (ms =? 80) || (ms =? 120) || (ms =? 150) || (ms =? 200)
  | EvIsVisible LBackdrop | EvClick LBackdrop | EvWaitFor LBackdrop Detached => true
  | EvText LDateButton => true
  | EvDomClick (DomIon IonNext) | EvDomClick (DomIon IonPrev) => true
  | _ => false
  end.

(** The calls of the confirmation loop of the stepper variant: those
    of the navigator and the wait of 600 ms between two attempts. *)
Definition ehDaConfirmacao (e : Event) : bool :=
  ehDaNavegacao e || ehEspera 600 e.

(** A reader of semicolon-separated files, for stating that what
    writeCsv writes can be read back.  It goes through the text once:
    a field that opens with a quote mark runs to the next quote mark
    that is not doubled, and a doubled mark in it stands for one mark;
    outside such a field a semicolon ends the field and a line feed
    ends the row.  [campo] is the field read so far, [linha] the fields
    of the row read so far. *)
Inductive CsvMode : Type :=
| CsvInicio       (* at the start of a field *)
| CsvSimples      (* in a field without quote marks around it *)
| CsvAspas        (* in a quoted field *)
| CsvAspaVista.   (* in a quoted field, just after a quote mark *)

Fixpoint lerCsv (mode : CsvMode) (campo : jsstring) (linha : list jsstring)
    (s : jsstring) : list (list jsstring) :=
  match s with
  | [] => [linha ++ [campo]]
  | c :: r =>
      match mode with
      | CsvAspas =>
          if (c =? cQUOTE)%N then lerCsv CsvAspaVista campo linha r
          else lerCsv CsvAspas (campo ++ [c]) linha r
      | _ =>
          if (c =? cQUOTE)%N then
            match mode with
            | CsvInicio => lerCsv CsvAspas campo linha r
            | CsvAspaVista => lerCsv CsvAspas (campo ++ [c]) linha r
            | _ => lerCsv CsvSimples (campo ++ [c]) linha r
            end
          else if (c =? cSEMI)%N then lerCsv CsvInicio [] (linha ++ [campo]) r
          else if (c =? cLF)%N then (linha ++ [campo]) :: lerCsv CsvInicio [] [] r
          else lerCsv CsvSimples (campo ++ [c]) linha r
      end
  end.

(** The rows of a file without its byte-order mark. *)
Definition lerArquivoCsv (conteudo : jsstring) : list (list jsstring) :=
  lerCsv CsvInicio [] [] conteudo.

(** What the reader does at the end of a field, with [rest] the text
    after the field. *)
Definition fechaCampo (campo : jsstring) (linha : list jsstring) (rest : jsstring)
    : list (list jsstring) :=
  match rest with
  | [] => [linha ++ [campo]]
  | c :: r =>
      if (c =? cSEMI)%N then lerCsv CsvInicio [] (linha ++ [campo]) r
      else (linha ++ [campo]) :: lerCsv CsvInicio [] [] r
  end.

(** The text after a field: nothing, or a semicolon or a line feed
    first. *)
Definition fimDeCampo (rest : jsstring) : Prop :=
  match rest with
  | [] => True
  | c :: _ => c = cSEMI \/ c = cLF
  end.

(** The parts of a delimited text: the first part, then each later
    part behind the delimiter. *)
Definition delimitado (sep : N) (parts : list jsstring) : jsstring :=
  match parts with
  | [] => []
  | p :: rest => p ++ List.concat (List.map (fun q => sep :: q) rest)
  end.

(** The value a record gives under the name [h]: its own property when
    it has one; else, the record being a plain object, the member of
    [Object.prototype] that [h] names, as text; else [undefined]. *)
Definition valorSob (row : Csv.Row) (h : jsstring) : Csv.JsVal :=
  match row !! h with
  | Some v => v
  | None =>
      match List.filter (fun p => bool_decide (fst p = h)) Csv.objectPrototype with
      | p :: _ => Csv.VStr (snd p)
      | [] => Csv.VUndefined
      end
  end.

(** The text of a value: nothing for [null] and [undefined]. *)
Definition textoDoValor (v : Csv.JsVal) : jsstring :=
  match v with
  | Csv.VStr s => s
  | _ => []
  end.

(** The cells of a row under the headers, as strings: a cell is the
    text of the value the record gives under its header, and the empty
    string when that value is null or there is none. *)
Definition celulas (headers : list jsstring) (row : Csv.Row) : list jsstring :=
  List.map (fun h => textoDoValor (valorSob row h)) headers.

(** A list cut into consecutive batches of [n] elements, the last one
    with what is left; [fuel] bounds the number of batches. *)
Fixpoint lotes {A} (fuel n : nat) (l : list A) : list (list A) :=
  match fuel with
  | O => []
  | S f =>
      match l with
      | [] => []
      | _ :: _ => take n l :: lotes f n (drop n l)
      end
  end.

Definition emLotes {A} (n : nat) (l : list A) : list (list A) :=
  lotes (length l) n l.

(** The query insertRowsMySql sends for a batch of rows. *)
Definition consultaDoLote (lote : list Csv.Row) : Db.DbEvent :=
  Db.DbQuery (Db.sqlInsert (length lote))
             (match Db.chunkValues lote with
              | inr values => values
              | inl _ => []
              end).

(** What the pool makes of batches sent one after the other, from the
    state [d] of the database and the rows counted so far:
    [remessa pool batches d total out d' k] says that [k] queries are
    sent, leaving the database in [d'], with the outcome [out].  An
    accepted query adds its affected rows (none when the result has no
    such count) and the next batch follows; the first rejected query is
    the last one sent, and its rejection is the outcome; when no batch
    is left the outcome is the count. *)
Inductive remessa {D : Type} (pool : Db.Pool D)
    : list (list Csv.Row) -> D -> Z -> Out Z -> D -> nat -> Prop :=
| rem_fim d total : remessa pool [] d total (Val total) d 0
| rem_aceito b rest d total sql values res d1 out d' k :
    consultaDoLote b = Db.DbQuery sql values ->
    Db.pool_query pool sql values d = (Fulfilled res, d1) ->
    remessa pool rest d1 (total + match res with Some n => n | None => 0 end) out d' k ->
    remessa pool (b :: rest) d total out d' (S k)
| rem_rejeitado b rest d total sql values e d1 :
    consultaDoLote b = Db.DbQuery sql values ->
    Db.pool_query pool sql values d = (Rejected e, d1) ->
    remessa pool (b :: rest) d total (Exc e) d1 1.

(** A row whose date is a string. *)
Definition temData (r : Csv.Row) : Prop :=
  exists d, Csv.get r (lit "data") = Csv.VStr d.

(** A pool that accepts every query and reports one affected row. *)
Definition poolAceita : Db.Pool unit :=
  {| Db.pool_query := fun _ _ d => (Fulfilled (Some 1), d);
     Db.pool_end := fun d => (Fulfilled tt, d) |}.

(** A pool that cannot connect: every query is rejected. *)
Definition poolRecusa : Db.Pool unit :=
  {| Db.pool_query := fun _ _ d => (Rejected (lit "connect ECONNREFUSED"), d);
     Db.pool_end := fun d => (Fulfilled tt, d) |}.

(** A pool whose connection drops after the first query: the state says
    whether it is still up. *)
Definition poolQueCai : Db.Pool bool :=
  {| Db.pool_query := fun _ _ (up : bool) =>
       if up then (Fulfilled (Some 2), false)
       else (Rejected (lit "Connection lost: The server closed the connection."), false);
     Db.pool_end := fun d => (Fulfilled tt, d) |}.

(** A row with a date and nothing else. *)
Definition linhaCom (d : jsstring) : Csv.Row :=
  <[lit "data" := Csv.VStr d]> ∅.

(** A variable of the environment that is set and not empty. *)
Definition definida (env : Config.Env) (name : jsstring) : Prop :=
  exists v, env !! name = Some v /\ v <> [].

(** The units listarVaras makes of the texts of the options: a text
    that is null or empty gives none, any other its trimmed text. *)
Definition rotulosDe (labels : list (option jsstring)) : list jsstring :=
  flat_map (fun l => match l with
                     | Some (c :: r) => [trim (c :: r)]
                     | Some [] | None => []
                     end) labels.

(** The cells of the row of an entry, in the order of the headers. *)
Definition celulasDaLinha (geradoEm vara dataBR : jsstring) (p : Pauta.Processo)
    : list jsstring :=
  [geradoEm; vara; dataBR; Pauta.numeroProcesso p; Pauta.sessao p; Pauta.juiz p;
   Pauta.reclamante p; Pauta.reclamada p].

(** The entries extracted for a unit and a date, and the rows and the
    cells they give. *)
Definition linhasDosBlocos (geradoEm : jsstring)
    (blocos : list (jsstring * jsstring * list Pauta.Processo)) : list Csv.Row :=
  flat_map (fun b => List.map (Site.linhaCsv geradoEm (fst (fst b)) (snd (fst b)))
                              (snd b)) blocos.

Definition celulasDosBlocos (geradoEm : jsstring)
    (blocos : list (jsstring * jsstring * list Pauta.Processo)) : list (list jsstring) :=
  flat_map (fun b => List.map (celulasDaLinha geradoEm (fst (fst b)) (snd (fst b)))
                              (snd b)) blocos.

(** What the collection of the first variant does, from state to
    state.  For a date: the entries are those the extraction mapper
    hands back once the date is confirmed and the list has been waited
    for, and there are none when the date is not confirmed.  For a
    unit: the dates are gone through in order, each from the state the
    one before left.  For the run: the units are gone through in
    order, each selected first. *)
Section Colheita.
Context {W : Type} (site : Site.Site W).

Inductive colheDaData (dataBR : jsstring) (s : St W)
    : list Pauta.Processo -> St W -> Prop :=
| colhe_nao_confirmada s' :
    CalendarGrid.selecionarDataComConfirmacao (Site.pagina site) dataBR 3 s
    = (Val false, s') ->
    colheDaData dataBR s [] s'
| colhe_confirmada s1 s2 ps s' :
    CalendarGrid.selecionarDataComConfirmacao (Site.pagina site) dataBR 3 s
    = (Val true, s1) ->
    Pauta.esperarPautaEstabilizar (Site.pagina site) s1 = (Val tt, s2) ->
    Pauta.extrairProcessosDaPauta (Site.pagina site) s2 = (Val ps, s') ->
    colheDaData dataBR s ps s'.

Inductive colheDatas (vara : jsstring)
    : list jsstring -> St W -> list (jsstring * jsstring * list Pauta.Processo)
      -> St W -> Prop :=
| colhe_datas_fim s : colheDatas vara [] s [] s
| colhe_datas_mais d datas s ps s1 blocos s' :
    colheDaData d s ps s1 ->
    colheDatas vara datas s1 blocos s' ->
    colheDatas vara (d :: datas) s ((vara, d, ps) :: blocos) s'.

Inductive colheVaras (datas : list jsstring)
    : list jsstring -> St W -> list (jsstring * jsstring * list Pauta.Processo)
      -> St W -> Prop :=
| colhe_varas_fim s : colheVaras datas [] s [] s
| colhe_varas_mais v varas s s0 b1 s1 b2 s' :
    Site.selecionarUnidade site v s = (Val tt, s0) ->
    colheDatas v datas s0 b1 s1 ->
    colheVaras datas varas s1 b2 s' ->
    colheVaras datas (v :: varas) s (b1 ++ b2) s'.

End Colheita.

(** A page with the month grid of the examples that shows the two
    entries of the examples whatever the date selected. *)
Definition paginaComPauta : Session Calendario :=
  {| keyboard_press_escape := keyboard_press_escape paginaCalendario;
     wait_for_timeout := wait_for_timeout paginaCalendario;
     timeout_gate := timeout_gate paginaCalendario;
     date_now := date_now paginaCalendario;
     is_visible := is_visible paginaCalendario;
     click := click paginaCalendario;
     wait_for := wait_for paginaCalendario;
     text_content := text_content paginaCalendario;
     inner_text := inner_text paginaCalendario;
     count := fun _ _ => Fulfilled 2%nat;
     evaluate_gate := evaluate_gate paginaCalendario;
     dom_calendar := dom_calendar paginaCalendario;
     dom_items := fun _ => doisItens;
     dom_ion := dom_ion paginaCalendario;
     dom_click := dom_click paginaCalendario |}.

(** A portal with that page and one unit. *)
Definition siteComPauta : Site.Site Calendario :=
  {| Site.pagina := paginaComPauta;
     Site.goto := fun _ w => (Fulfilled tt, w);
     Site.wait_for_load_state := fun _ w => (Fulfilled tt, w);
     Site.wait_for_selector := fun _ w => (Fulfilled tt, w);
     Site.s_click := fun _ w => (Fulfilled tt, w);
     Site.s_wait_for := fun _ _ w => (Fulfilled tt, w);
     Site.opcoes_count := fun _ => Fulfilled 1%nat;
     Site.opcao_text := fun _ _ => Fulfilled (Some (lit "1a Vara"));
     Site.zona := saoPaulo;
     Site.new_date := fun _ => segunda_2_marco_2026;
     Site.iso_now := fun _ => lit "2026-03-02T13:00:00.000Z";
     Site.out_path := fun stamp => lit "output/pauta_trt2_2meses_" ++ ofZ stamp ++ lit ".csv" |}.

(** A portal for the examples: every call succeeds and changes
    nothing; the unit selector shows four options, of which one has no
    text and one an empty text; there is no month grid and no list. *)
Definition siteExemplo : Site.Site unit :=
  {| Site.pagina := paginaInerte;
     Site.goto := fun _ w => (Fulfilled tt, w);
     Site.wait_for_load_state := fun _ w => (Fulfilled tt, w);
     Site.wait_for_selector := fun _ w => (Fulfilled tt, w);
     Site.s_click := fun _ w => (Fulfilled tt, w);
     Site.s_wait_for := fun _ _ w => (Fulfilled tt, w);
     Site.opcoes_count := fun _ => Fulfilled 4%nat;
     Site.opcao_text := fun i _ =>
       Fulfilled (match i with
                  | O => Some (lit " 1a Vara ")
                  | 1%nat => None
                  | 2%nat => Some []
                  | _ => Some (lit "2a Vara")
                  end);
     Site.zona := saoPaulo;
     Site.new_date := fun _ => segunda_2_marco_2026;
     Site.iso_now := fun _ => lit "2026-03-02T13:00:00.000Z";
     Site.out_path := fun stamp => lit "output/pauta_trt2_2meses_" ++ ofZ stamp ++ lit ".csv" |}.

(** A computation that does not run out of fuel: from every state it
    returns or throws. *)
Definition termina {W A} (m : M W A) : Prop :=
  forall s, fst (m s) <> NoFuel.

(** A computation that, however it ends, leaves a state related by
    [R] to the one it started in. *)
Definition respeita {W A} (R : St W -> St W -> Prop) (m : M W A) : Prop :=
  forall s, R s (snd (m s)).

(** An insert of the rows of between one and 800 entries of one unit
    and one date. *)
Definition ehInsercao (geradoEm : jsstring) (q : Db.DbEvent) : Prop :=
  exists vara dataBR ps,
    (1 <= length ps <= 800)%nat
    /\ q = consultaDoLote (List.map (Site.linhaCsv geradoEm vara dataBR) ps).

(** What the collection of the second variant does outside the portal:
    it sends inserts to the database -- none without a pool -- and
    touches neither the mail nor the files. *)
Definition soInsere {W D S} (temPool : bool) (geradoEm : jsstring)
    (s s' : St (Pipeline.Mundo W D S)) : Prop :=
  Pipeline.correio (world s') = Pipeline.correio (world s)
  /\ Pipeline.arquivos (world s') = Pipeline.arquivos (world s)
  /\ Pipeline.planilhas (world s') = Pipeline.planilhas (world s)
  /\ exists qs,
       Db.consultas (Pipeline.banco (world s'))
       = Db.consultas (Pipeline.banco (world s)) ++ qs
       /\ Forall (ehInsercao geradoEm) qs
       /\ (temPool = false -> qs = []).

(** Whether the run has a pool. *)
Definition temPool {D} (pool : option (Db.Pool D)) : bool :=
  match pool with
  | Some _ => true
  | None => false
  end.

(** What the [try] block of the second variant has done outside the
    portal when it ends in [s'] from [s]: the inserts it has sent, and
    either nothing else, or the CSV file and the workbook, and then at
    most one message, sent only after the workbook was accepted. *)
Definition efeitoDaTentativa {W D S} (robo : Pipeline.Robo W)
    (pool : option (Db.Pool D)) (geradoEm : jsstring)
    (s s' : St (Pipeline.Mundo W D S)) : Prop :=
  (exists qs,
     Db.consultas (Pipeline.banco (world s'))
     = Db.consultas (Pipeline.banco (world s)) ++ qs
     /\ Forall (ehInsercao geradoEm) qs
     /\ (pool = None -> qs = []))
  /\ ((Pipeline.arquivos (world s') = Pipeline.arquivos (world s)
       /\ Pipeline.planilhas (world s') = Pipeline.planilhas (world s)
       /\ Mail.enviados (Pipeline.correio (world s'))
          = Mail.enviados (Pipeline.correio (world s)))
      \/ exists stamp rows wb,
           Pipeline.arquivos (world s')
           = Csv.writeCsv (Site.out_path (Pipeline.portal_site robo) stamp)
               Site.headersCsv rows (Pipeline.arquivos (world s))
           /\ Pipeline.planilhas (world s')
              = Pipeline.planilhas (world s)
                ++ [(Pipeline.out_path_xlsx robo stamp, wb)]
           /\ Xlsx.ws_rows wb = rows
           /\ (Mail.enviados (Pipeline.correio (world s'))
               = Mail.enviados (Pipeline.correio (world s))
               \/ exists w t m,
                    fst (Pipeline.xlsx_write_file robo
                           (Pipeline.out_path_xlsx robo stamp) wb w) = Fulfilled tt
                    /\ Mail.enviados (Pipeline.correio (world s'))
                       = Mail.enviados (Pipeline.correio (world s)) ++ [(t, m)]
                    /\ Mail.att_path m = Pipeline.out_path_xlsx robo stamp
                    /\ Mail.msg_text m
                       = Pipeline.textoDoEmail (length rows) geradoEm)).

(** A robot for the examples, on the portal of the examples: the
    browser is launched and every workbook is accepted. *)
Definition roboExemplo : Pipeline.Robo unit :=
  {| Pipeline.portal_site := siteExemplo;
     Pipeline.launch := fun w => (Fulfilled tt, w);
     Pipeline.scroll_into_view := fun _ w => (Fulfilled tt, w);
     Pipeline.element_handle := fun _ w => (Fulfilled tt, w);
     Pipeline.wait_for_function := fun _ _ w => (Fulfilled tt, w);
     Pipeline.xlsx_write_file := fun _ _ w => (Fulfilled tt, w);
     Pipeline.locale_string := fun _ => lit "02/03/2026, 10:00:00";
     Pipeline.out_path_xlsx := fun stamp =>
       lit "output/pauta_trt2_2meses_" ++ ofZ stamp ++ lit ".xlsx" |}.

(** A state with nothing in the database, the mail and the files. *)
Definition mundoVazio : St (Pipeline.Mundo unit unit unit) :=
  mkSt (Pipeline.mkMundo tt (Db.mkDb tt []) (Mail.mkMail tt []) ∅ []) [].

(** A robot whose browser cannot be launched. *)
Definition roboSemNavegador : Pipeline.Robo unit :=
  {| Pipeline.portal_site := siteExemplo;
     Pipeline.launch := fun w => (Rejected (lit "browserType.launch: Executable doesn't exist"), w);
     Pipeline.scroll_into_view := fun _ w => (Fulfilled tt, w);
     Pipeline.element_handle := fun _ w => (Fulfilled tt, w);
     Pipeline.wait_for_function := fun _ _ w => (Fulfilled tt, w);
     Pipeline.xlsx_write_file := fun _ _ w => (Fulfilled tt, w);
     Pipeline.locale_string := fun _ => lit "02/03/2026, 10:00:00";
     Pipeline.out_path_xlsx := fun stamp =>
       lit "output/pauta_trt2_2meses_" ++ ofZ stamp ++ lit ".xlsx" |}.

(** A mail service that accepts every message. *)
Definition mailerExemplo : Mail.Mailer unit :=
  {| Mail.send_mail := fun _ _ x => (Fulfilled (lit "<1@jte>"), x);
     Mail.basename := fun p => p |}.

(** An environment that only enables the database. *)
Definition envComBanco : Config.Env :=
  <[lit "DB_ENABLED" := lit "1"]> ∅.

(** A computation whose calls, however it ends, include at most [n]
    that satisfy [p]. *)
Definition gasta {W A} (p : Event -> bool) (n : nat) (m : M W A) : Prop :=
  forall s, exists evs, trace (snd (m s)) = trace s ++ evs /\ (contar p evs <= n)%nat.

(** The click that opens the calendar, a click on one of the two month
    controls, and a click on a day of the grid. *)
Definition ehAbertura (e : Event) : bool :=
  match e with
  | EvClick LDateButton => true
  | _ => false
  end.

Definition ehPassoDeMes (e : Event) : bool :=
  match e with
  | EvClick LCalNext | EvClick LCalPrev => true
  | _ => false
  end.

Definition ehCliqueDeDia (e : Event) : bool :=
  match e with
  | EvDomClick (DomCalTd _) | EvDomClick (DomCalButton _) => true
  | _ => false
  end.

(** (AUX-END) *)
End Aux.

Import Aux.

(** * Properties *)

(** ** Strings *)

Module JsStringFacts.

Lemma eqb_eq a b : eqb a b = true <-> a = b.
Proof. unfold eqb. apply bool_decide_eq_true. Qed.

Lemma eqb_refl a : eqb a a = true.
Proof. apply eqb_eq. reflexivity. Qed.

Lemma eqb_neq a b : eqb a b = false <-> a <> b.
Proof. unfold eqb. apply bool_decide_eq_false. Qed.

Lemma trimStart_no_space s : no_space s -> trimStart s = s.
Proof.
  intros H. destruct H as [|c r Hc Hr]; simpl; [reflexivity|].
  rewrite Hc. reflexivity.
Qed.

Lemma trim_no_space s : no_space s -> trim s = s.
Proof.
  intros H. unfold trim, trimEnd.
  rewrite (trimStart_no_space s H).
  rewrite trimStart_no_space.
  - apply rev_involutive.
  - unfold no_space. apply List.Forall_rev. exact H.
Qed.

Lemma digit_no_space c : isDigit c = true -> isWhiteSpace c = false.
Proof.
  unfold isDigit, isWhiteSpace. intros H.
  apply andb_true_iff in H. destruct H as [H1 H2].
  apply N.leb_le in H1. apply N.leb_le in H2.
  repeat match goal with
  | |- context [(?a <=? ?b)%N] => destruct (N.leb_spec a b); try lia
  | |- context [(?a =? ?b)%N] => destruct (N.eqb_spec a b); try lia
  end; reflexivity.
Qed.

Lemma digits_no_space s : Forall (fun c => isDigit c = true) s -> no_space s.
Proof. apply List.Forall_impl. intros c. apply digit_no_space. Qed.

(** *** split and join *)

Lemma split_no_sep sep s : no_sep sep s -> split sep s = [s].
Proof.
  induction 1 as [|c r Hc Hr IH]; simpl; [reflexivity|].
  destruct (N.eqb_spec c sep); [contradiction|].
  rewrite IH. reflexivity.
Qed.

Lemma split_app_sep sep a r :
  no_sep sep a -> split sep (a ++ sep :: r) = a :: split sep r.
Proof.
  induction 1 as [|c a' Hc Ha IH]; simpl.
  - rewrite N.eqb_refl. reflexivity.
  - destruct (N.eqb_spec c sep); [contradiction|].
    rewrite IH. reflexivity.
Qed.

Lemma split_three sep a b c :
  no_sep sep a -> no_sep sep b -> no_sep sep c ->
  split sep (a ++ [sep] ++ b ++ [sep] ++ c) = [a; b; c].
Proof.
  intros Ha Hb Hc. simpl.
  rewrite (split_app_sep sep a _ Ha), (split_app_sep sep b _ Hb).
  rewrite (split_no_sep sep c Hc). reflexivity.
Qed.

(** *** includes *)

Lemma startsWith_app p r : startsWith p (p ++ r) = true.
Proof. induction p as [|a p IH]; simpl; [reflexivity|]. rewrite N.eqb_refl. exact IH. Qed.

Lemma startsWith_prefix p s : startsWith p s = true -> exists r, s = p ++ r.
Proof.
  revert s. induction p as [|a p IH]; intros s H; simpl in *.
  - exists s. reflexivity.
  - destruct s as [|b s]; [discriminate|].
    apply andb_true_iff in H. destruct H as [E H]. apply N.eqb_eq in E. subst b.
    destruct (IH s H) as [r ->]. exists r. reflexivity.
Qed.

Lemma includes_unfold s p :
  includes s p = startsWith p s
                 || match s with [] => false | _ :: r => includes r p end.
Proof. destruct s; reflexivity. Qed.

(** [includes] is the substring relation. *)
Lemma includes_spec s p : includes s p = true <-> exists l r, s = l ++ p ++ r.
Proof.
  split.
  - induction s as [|c s IH]; simpl; intros H.
    + rewrite orb_false_r in H. apply startsWith_prefix in H.
      destruct H as [r E]. exists [], r. exact E.
    + apply orb_true_iff in H. destruct H as [H|H].
      * apply startsWith_prefix in H. destruct H as [r E]. exists [], r. exact E.
      * destruct (IH H) as (l & r & ->). exists (c :: l), r. reflexivity.
  - intros (l & r & ->). induction l as [|c l IH]; simpl.
    + rewrite includes_unfold, startsWith_app. reflexivity.
    + rewrite IH. apply orb_true_r.
Qed.

Lemma includes_refl s : includes s s = true.
Proof. apply includes_spec. exists [], []. rewrite app_nil_r. reflexivity. Qed.

(** *** Decimal numerals *)

Lemma units_uint_units u : units_uint (uint_units u) = Some u.
Proof. induction u; simpl; try rewrite IHu; reflexivity. Qed.

Lemma uint_units_digits u : Forall (fun c => isDigit c = true) (uint_units u).
Proof. induction u; simpl; constructor; auto. Qed.

Lemma digit_not_slash c : isDigit c = true -> c <> cSLASH.
Proof. intros H ->. discriminate H. Qed.

Lemma toNumber_digits u : toNumber (uint_units u) = Some (Z.of_int (Pos u)).
Proof.
  unfold toNumber.
  rewrite trim_no_space by (apply digits_no_space, uint_units_digits).
  pose proof (uint_units_digits u) as Hd.
  pose proof (units_uint_units u) as Hu.
  destruct (uint_units u) as [|c r] eqn:E.
  - destruct u; simpl in E; try discriminate. reflexivity.
  - assert (Hc : isDigit c = true) by (inversion Hd; assumption).
    destruct (N.eqb_spec c cMINUS) as [->|_]; [discriminate Hc|].
    destruct (N.eqb_spec c cPLUS) as [->|_]; [discriminate Hc|].
    rewrite Hu. reflexivity.
Qed.

Lemma uint_units_zeros j u :
  uint_units (zeros j u) = repeat cZERO j ++ uint_units u.
Proof. induction j as [|j IH]; simpl; [reflexivity|]. rewrite IH. reflexivity. Qed.

Lemma of_int_zeros j u : Z.of_int (Pos (zeros j u)) = Z.of_int (Pos u).
Proof. induction j as [|j IH]; simpl; [reflexivity|]. exact IH. Qed.

Lemma ofZ_nonneg n : 0 <= n -> exists u, ofZ n = uint_units u /\ Z.of_int (Pos u) = n.
Proof.
  intros Hn. unfold ofZ.
  pose proof (DecimalZ.of_to n) as E.
  destruct (Z.to_int n) as [u|u] eqn:Ei.
  - exists u. split; [reflexivity|exact E].
  - exfalso. destruct n; simpl in Ei; try discriminate. lia.
Qed.

Lemma ofZ_digits n : 0 <= n -> Forall (fun c => isDigit c = true) (ofZ n).
Proof.
  intros Hn. destruct (ofZ_nonneg n Hn) as (u & -> & _). apply uint_units_digits.
Qed.

(** [Number] reads back what [String] and [padStart] print. *)
Lemma toNumber_padStart k n : 0 <= n -> toNumber (padStart k cZERO (ofZ n)) = Some n.
Proof.
  intros Hn. destruct (ofZ_nonneg n Hn) as (u & -> & E).
  unfold padStart. rewrite <- uint_units_zeros, toNumber_digits, of_int_zeros, E.
  reflexivity.
Qed.

Lemma toNumber_ofZ n : 0 <= n -> toNumber (ofZ n) = Some n.
Proof.
  intros Hn. destruct (ofZ_nonneg n Hn) as (u & -> & E).
  rewrite toNumber_digits, E. reflexivity.
Qed.

Lemma padStart_digits k n :
  0 <= n -> Forall (fun c => isDigit c = true) (padStart k cZERO (ofZ n)).
Proof.
  intros Hn. unfold padStart. apply Forall_app. split.
  - apply List.Forall_forall. intros c Hc. apply repeat_spec in Hc. subst c. reflexivity.
  - apply ofZ_digits, Hn.
Qed.

Lemma padStart_long k c s : (k <= length s)%nat -> padStart k c s = s.
Proof.
  intros H. unfold padStart. replace (k - length s)%nat with O by lia. reflexivity.
Qed.

Lemma upto_spec n i p : upto n i p = true -> forall x, i <= x < i + Z.of_nat n -> p x = true.
Proof.
  revert i. induction n as [|n IH]; intros i H x Hx; [lia|].
  simpl in H. apply andb_true_iff in H. destruct H as [H1 H2].
  destruct (Z.eq_dec x i) as [->|Hne]; [exact H1|].
  apply (IH (i + 1) H2). lia.
Qed.

Lemma ofZ_four_digits y : 1000 <= y <= 9999 -> length (ofZ y) = 4%nat.
Proof.
  intros Hy.
  assert (H : upto (Z.to_nat 9000) 1000 (fun y => Nat.eqb (length (ofZ y)) 4) = true)
    by (vm_compute; reflexivity).
  apply Nat.eqb_eq. apply (upto_spec _ _ _ H). lia.
Qed.

End JsStringFacts.

(** ** The calendar *)

Module DateFacts.

Ltac zdiv := Z.to_euclidean_division_equations; lia.

Ltac split_ifs :=
  repeat match goal with
  | |- context [if ?b then _ else _] => destruct b eqn:?
  end;
  repeat match goal with
  | H : (_ <? _) = true |- _ => apply Z.ltb_lt in H
  | H : (_ <? _) = false |- _ => apply Z.ltb_ge in H
  | H : (_ <=? _) = true |- _ => apply Z.leb_le in H
  | H : (_ <=? _) = false |- _ => apply Z.leb_gt in H
  | H : (_ =? _) = true |- _ => apply Z.eqb_eq in H
  | H : (_ =? _) = false |- _ => apply Z.eqb_neq in H
  end.

Lemma era_div yoe era :
  0 <= yoe < 400 ->
  (yoe + era * 400) / 400 = era /\ (yoe + era * 400) mod 400 = yoe.
Proof. intros. zdiv. Qed.

Lemma yoe_of_doe doe :
  0 <= doe < 146097 ->
  let yoe := (doe - doe / 1460 + doe / 36524 - doe / 146096) / 365 in
  0 <= yoe < 400 /\ 0 <= doe - (365 * yoe + yoe / 4 - yoe / 100) <= 365.
Proof. intros H yoe. subst yoe. zdiv. Qed.

Lemma mp_of_doy doy :
  0 <= doy <= 365 ->
  let mp := (5 * doy + 2) / 153 in
  0 <= mp <= 11 /\ 1 <= doy - (153 * mp + 2) / 5 + 1 <= 31.
Proof. intros H mp. subst mp. zdiv. Qed.

(** A day number is the day number of its civil date, and the civil
    date has a month in 1..12 and a day in 1..31. *)
Lemma civil_from_days_spec n :
  let '(y, m, d) := civil_from_days n in
  days_from_civil y m d = n /\ 1 <= m <= 12 /\ 1 <= d <= 31.
Proof.
  unfold civil_from_days, days_from_civil.
  set (z := n + 719468).
  set (era := z / 146097). set (doe := z mod 146097).
  assert (Hdoe : 0 <= doe < 146097) by (subst doe; apply Z.mod_pos_bound; lia).
  assert (Hz : z = era * 146097 + doe) by (subst era doe; zdiv).
  destruct (yoe_of_doe doe Hdoe) as [Hy Hdoy].
  set (yoe := (doe - doe / 1460 + doe / 36524 - doe / 146096) / 365) in *.
  set (doy := doe - (365 * yoe + yoe / 4 - yoe / 100)) in *.
  destruct (mp_of_doy doy Hdoy) as [Hmp Hd].
  set (mp := (5 * doy + 2) / 153) in *.
  destruct (era_div yoe era Hy) as [E1 E2].
  split_ifs; try lia.
  - replace (yoe + era * 400 + 1 - 1) with (yoe + era * 400) by lia.
    rewrite E1, E2. replace (mp - 9 + 9) with mp by lia.
    subst doy z. clearbody mp yoe doe era. lia.
  - rewrite E1, E2. replace (mp + 3 - 3) with mp by lia.
    subst doy z. clearbody mp yoe doe era. lia.
Qed.

Lemma doe_of_yoe yoe doy :
  0 <= yoe < 400 -> 0 <= doy <= 365 ->
  (doy = 365 -> ((yoe + 1) mod 4 = 0 /\ (yoe + 1) mod 100 <> 0) \/ yoe = 399) ->
  let doe := yoe * 365 + yoe / 4 - yoe / 100 + doy in
  0 <= doe < 146097 /\
  (doe - doe / 1460 + doe / 36524 - doe / 146096) / 365 = yoe.
Proof. intros H1 H2 H3 doe. subst doe. zdiv. Qed.

Lemma doy_of_mp mp d :
  0 <= mp <= 11 -> 1 <= d ->
  d <= (if mp =? 11 then 29
        else if (mp =? 1) || (mp =? 3) || (mp =? 6) || (mp =? 8) then 30
        else 31) ->
  let doy := (153 * mp + 2) / 5 + d - 1 in
  (5 * doy + 2) / 153 = mp /\ 0 <= doy <= 365 /\ (doy = 365 -> mp = 11 /\ d = 29).
Proof.
  intros H1 H2 H3 doy. subst doy.
  assert (Hc : mp = 0 \/ mp = 1 \/ mp = 2 \/ mp = 3 \/ mp = 4 \/ mp = 5 \/ mp = 6
               \/ mp = 7 \/ mp = 8 \/ mp = 9 \/ mp = 10 \/ mp = 11) by lia.
  repeat (destruct Hc as [-> | Hc]); try subst mp;
    cbn -[Z.div Z.mul Z.add Z.sub] in H3; zdiv.
Qed.

Lemma is_leap_spec y :
  is_leap y = true <-> (y mod 4 = 0 /\ y mod 100 <> 0) \/ y mod 400 = 0.
Proof.
  unfold is_leap. rewrite orb_true_iff, andb_true_iff, negb_true_iff.
  rewrite !Z.eqb_eq, Z.eqb_neq. reflexivity.
Qed.

Lemma valid_civil_spec y m d :
  valid_civil y m d = true <-> 1 <= m <= 12 /\ 1 <= d <= days_in_month y m.
Proof.
  unfold valid_civil. rewrite !andb_true_iff, !Z.leb_le. lia.
Qed.

(** A civil date is the civil date of its day number. *)
Lemma civil_from_days_from_civil y m d :
  valid_civil y m d = true ->
  civil_from_days (days_from_civil y m d) = (y, m, d).
Proof.
  intros Hv. apply valid_civil_spec in Hv. destruct Hv as [Hm Hd].
  unfold civil_from_days, days_from_civil.
  set (y1 := if m <=? 2 then y - 1 else y).
  set (era := y1 / 400). set (yoe := y1 mod 400).
  assert (Hyoe : 0 <= yoe < 400) by (subst yoe; apply Z.mod_pos_bound; lia).
  assert (Hy1 : y1 = era * 400 + yoe) by (subst era yoe; zdiv).
  set (mp := if 2 <? m then m - 3 else m + 9).
  assert (Hmp : 0 <= mp <= 11) by (subst mp; split_ifs; lia).
  assert (Hdm : d <= (if mp =? 11 then 29
                      else if (mp =? 1) || (mp =? 3) || (mp =? 6) || (mp =? 8) then 30
                      else 31)).
  { unfold days_in_month in Hd. subst mp.
    destruct (is_leap y);
      repeat match goal with
      | H : context [if ?b then _ else _] |- _ => destruct b eqn:?
      | |- context [if ?b then _ else _] => destruct b eqn:?
      | H : (_ || _) = true |- _ => apply orb_true_iff in H; destruct H
      | H : (_ || _) = false |- _ => apply orb_false_iff in H; destruct H
      | H : (_ <? _) = true |- _ => apply Z.ltb_lt in H
      | H : (_ <? _) = false |- _ => apply Z.ltb_ge in H
      | H : (_ =? _) = true |- _ => apply Z.eqb_eq in H
      | H : (_ =? _) = false |- _ => apply Z.eqb_neq in H
      end; lia. }
  destruct (doy_of_mp mp d Hmp (proj1 Hd) Hdm) as (Emp & Hdoy & Hleap).
  set (doy := (153 * mp + 2) / 5 + d - 1) in *.
  assert (Hl : doy = 365 ->
               ((yoe + 1) mod 4 = 0 /\ (yoe + 1) mod 100 <> 0) \/ yoe = 399).
  { intros E. destruct (Hleap E) as [E1 E2].
    assert (m = 2) by (unfold mp in E1; destruct (Z.ltb_spec 2 m); lia). subst m.
    unfold days_in_month in Hd. simpl in Hd.
    destruct (is_leap y) eqn:L; [|lia].
    apply is_leap_spec in L. subst y1. simpl in Hy1.
    clear - L Hy1 Hyoe. zdiv. }
  destruct (doe_of_yoe yoe doy Hyoe Hdoy Hl) as (Hdoe & Eyoe).
  set (doe := yoe * 365 + yoe / 4 - yoe / 100 + doy) in *.
  replace (era * 146097 + doe - 719468 + 719468) with (doe + era * 146097) by lia.
  rewrite Z.div_add, Z.mod_add by lia.
  rewrite (Z.div_small doe), (Z.mod_small doe) by lia.
  rewrite Eyoe. simpl (0 + era).
  replace (doe - (365 * yoe + yoe / 4 - yoe / 100)) with doy by (subst doe; lia).
  rewrite Emp.
  replace (doy - (153 * mp + 2) / 5 + 1) with d by (subst doy; lia).
  subst mp y1. clearbody doy doe era yoe. clear - Hm Hy1. revert Hy1.
  destruct (Z.leb_spec m 2), (Z.ltb_spec 2 m); try lia; intros Hy1;
    split_ifs; f_equal; try f_equal; lia.
Qed.

Lemma days_from_civil_day y m d k :
  days_from_civil y m (d + k) = days_from_civil y m d + k.
Proof. unfold days_from_civil. lia. Qed.

Lemma MakeDay_civil y m d :
  1 <= m <= 12 -> MakeDay y (m - 1) d = days_from_civil y m d.
Proof.
  intros Hm. unfold MakeDay.
  rewrite (Z.div_small (m - 1)), (Z.mod_small (m - 1)) by lia.
  replace (y + 0) with y by lia. replace (m - 1 + 1) with m by lia.
  replace d with (1 + (d - 1)) at 2 by lia.
  rewrite days_from_civil_day. lia.
Qed.

Lemma Day_MakeDate n t : 0 <= t < msPerDay -> Day (MakeDate n t) = n.
Proof. unfold Day, MakeDate, msPerDay. intros. zdiv. Qed.

Lemma TimeWithinDay_MakeDate n t :
  0 <= t < msPerDay -> TimeWithinDay (MakeDate n t) = t.
Proof. unfold TimeWithinDay, MakeDate, msPerDay. intros. zdiv. Qed.

Lemma TimeWithinDay_bound t : 0 <= TimeWithinDay t < msPerDay.
Proof. unfold TimeWithinDay, msPerDay. apply Z.mod_pos_bound. lia. Qed.

Lemma MakeDate_Day t : MakeDate (Day t) (TimeWithinDay t) = t.
Proof. unfold MakeDate, Day, TimeWithinDay, msPerDay. zdiv. Qed.

Lemma civil_of_time t :
  civil_from_days (Day t) = (YearFromTime t, MonthFromTime t + 1, DateFromTime t).
Proof.
  unfold YearFromTime, MonthFromTime, DateFromTime.
  destruct (civil_from_days (Day t)) as [[y m] d]. simpl. f_equal. f_equal. lia.
Qed.

Lemma MonthFromTime_range t : 0 <= MonthFromTime t <= 11.
Proof.
  pose proof (civil_from_days_spec (Day t)) as H.
  rewrite civil_of_time in H. lia.
Qed.

Lemma DateFromTime_range t : 1 <= DateFromTime t <= 31.
Proof.
  pose proof (civil_from_days_spec (Day t)) as H.
  rewrite civil_of_time in H. lia.
Qed.

Lemma MakeDay_of_time t k :
  MakeDay (YearFromTime t) (MonthFromTime t) (DateFromTime t + k) = Day t + k.
Proof.
  pose proof (civil_from_days_spec (Day t)) as H.
  rewrite civil_of_time in H. destruct H as (E & Hm & Hd).
  replace (MonthFromTime t) with (MonthFromTime t + 1 - 1) at 1 by lia.
  rewrite MakeDay_civil by lia.
  rewrite days_from_civil_day, E. reflexivity.
Qed.

(** [d.setDate(d.getDate() + k)] moves a date by [k] days. *)
Lemma setDate_add t k : setDate t (DateFromTime t + k) = t + k * msPerDay.
Proof.
  unfold setDate. rewrite MakeDay_of_time.
  pose proof (MakeDate_Day t) as E. unfold MakeDate in *. lia.
Qed.

Lemma Day_add t k : Day (t + k * msPerDay) = Day t + k.
Proof. unfold Day, msPerDay. zdiv. Qed.

Lemma WeekDay_range t : 0 <= WeekDay t <= 6.
Proof. unfold WeekDay. zdiv. Qed.

End DateFacts.

(** ** Date helpers *)

Module DatesFacts.
Import Dates JsStringFacts DateFacts.

Lemma year_of_nonneg_day n :
  0 <= n -> 1970 <= fst (fst (civil_from_days n)).
Proof.
  intros Hn. pose proof (civil_from_days_spec n) as H.
  destruct (civil_from_days n) as [[y m] d]. simpl.
  destruct H as (E & Hm & Hd).
  destruct (Z.le_gt_cases 1970 y) as [|Hy]; [assumption|exfalso].
  unfold days_from_civil in E. revert E.
  destruct (Z.leb_spec m 2), (Z.ltb_spec 2 m); try lia; intros E; zdiv.
Qed.

Lemma year_before_10000 n :
  n < 2932897 -> fst (fst (civil_from_days n)) <= 9999.
Proof.
  intros Hn. pose proof (civil_from_days_spec n) as H.
  destruct (civil_from_days n) as [[y m] d]. simpl.
  destruct H as (E & Hm & Hd).
  destruct (Z.le_gt_cases y 9999) as [|Hy]; [assumption|exfalso].
  unfold days_from_civil in E. revert E.
  destruct (Z.leb_spec m 2), (Z.ltb_spec 2 m); try lia; intros E; zdiv.
Qed.

Lemma no_sep_digits s : Forall (fun c => isDigit c = true) s -> no_sep cSLASH s.
Proof. apply List.Forall_impl. intros c. apply digit_not_slash. Qed.

(** Reading back a date printed with zero padding. *)
Lemma parseBRDate_printed kd km ky d m y :
  0 <= d -> 0 <= m -> 0 <= y ->
  parseBRDate (padStart kd cZERO (ofZ d) ++ [cSLASH]
               ++ padStart km cZERO (ofZ m) ++ [cSLASH]
               ++ padStart ky cZERO (ofZ y))
  = newDate (Some y) (Some (m - 1)) (Some d).
Proof.
  intros Hd Hm Hy. unfold parseBRDate.
  rewrite split_three by (apply no_sep_digits, padStart_digits; assumption).
  simpl List.map. unfold numAt. simpl.
  rewrite !toNumber_padStart by assumption. reflexivity.
Qed.

Lemma newDate_civil y m d :
  100 <= y -> 1 <= m <= 12 ->
  newDate (Some y) (Some (m - 1)) (Some d) = Some (MakeDate (days_from_civil y m d) 0).
Proof.
  intros Hy Hm. unfold newDate.
  destruct (Z.leb_spec 0 y), (Z.leb_spec y 99); try lia; simpl;
    rewrite MakeDay_civil by lia; reflexivity.
Qed.

Lemma parseBRDate_canonical y m d :
  100 <= y -> 1 <= m <= 12 -> 0 <= d ->
  parseBRDate (canonicalBR y m d) = Some (MakeDate (days_from_civil y m d) 0).
Proof.
  intros Hy Hm Hd. unfold canonicalBR.
  rewrite parseBRDate_printed by lia. apply newDate_civil; assumption.
Qed.

Lemma Day_midnight n : Day (MakeDate n 0) = n.
Proof. apply Day_MakeDate. unfold msPerDay. lia. Qed.

Lemma getters_midnight y m d :
  valid_civil y m d = true ->
  let t := MakeDate (days_from_civil y m d) 0 in
  YearFromTime t = y /\ MonthFromTime t = m - 1 /\ DateFromTime t = d.
Proof.
  intros Hv t. subst t. unfold YearFromTime, MonthFromTime, DateFromTime.
  rewrite Day_midnight, civil_from_days_from_civil by assumption. simpl. lia.
Qed.

Lemma pad4_year y : 1000 <= y <= 9999 -> padStart 4 cZERO (ofZ y) = ofZ y.
Proof. intros Hy. apply padStart_long. rewrite ofZ_four_digits by assumption. lia. Qed.

Lemma pad2_length n : 0 <= n <= 99 -> length (padStart 2 cZERO (ofZ n)) = 2%nat.
Proof.
  intros Hn.
  assert (H : upto (Z.to_nat 100) 0
                (fun n => Nat.eqb (length (padStart 2 cZERO (ofZ n))) 2) = true)
    by (vm_compute; reflexivity).
  apply Nat.eqb_eq. apply (upto_spec _ _ _ H). lia.
Qed.

(** The canonical strings have the shape DD/MM/YYYY. *)
Lemma canonicalBR_shape y m d :
  1000 <= y <= 9999 -> 0 <= m <= 99 -> 0 <= d <= 99 ->
  isDDMMYYYY (canonicalBR y m d) = true.
Proof.
  intros Hy Hm Hd. unfold canonicalBR. rewrite pad4_year by assumption.
  pose proof (pad2_length d Hd) as Ld. pose proof (pad2_length m Hm) as Lm.
  pose proof (ofZ_four_digits y Hy) as Ly.
  pose proof (padStart_digits 2 d (proj1 Hd)) as Dd.
  pose proof (padStart_digits 2 m (proj1 Hm)) as Dm.
  pose proof (ofZ_digits y ltac:(lia)) as Dy.
  destruct (padStart 2 cZERO (ofZ d)) as [|d1 [|d2 [|? ?]]]; try discriminate Ld.
  destruct (padStart 2 cZERO (ofZ m)) as [|m1 [|m2 [|? ?]]]; try discriminate Lm.
  destruct (ofZ y) as [|y1 [|y2 [|y3 [|y4 [|? ?]]]]]; try discriminate Ly.
  repeat match goal with
  | H : Forall _ (_ :: _) |- _ => inversion H; clear H; subst
  end.
  simpl app. unfold isDDMMYYYY.
  repeat match goal with
  | H : isDigit _ = true |- _ => rewrite H; clear H
  end.
  reflexivity.
Qed.

Lemma ofZ_four y :
  1000 <= y <= 9999 ->
  ofZ y = [digitOf (y / 1000); digitOf (y / 100 mod 10);
           digitOf (y / 10 mod 10); digitOf (y mod 10)].
Proof.
  intros Hy.
  assert (H : upto (Z.to_nat 9000) 1000
                (fun y => eqb (ofZ y)
                            [digitOf (y / 1000); digitOf (y / 100 mod 10);
                             digitOf (y / 10 mod 10); digitOf (y mod 10)]) = true)
    by (vm_compute; reflexivity).
  apply eqb_eq. apply (upto_spec _ _ _ H). lia.
Qed.


Lemma isDigit_spec c : isDigit c = true <-> 0 <= digitVal c <= 9.
Proof.
  unfold isDigit, digitVal. rewrite andb_true_iff, !N.leb_le. lia.
Qed.

Lemma digitOf_digitVal c : isDigit c = true -> digitOf (digitVal c) = c.
Proof. intros H. apply isDigit_spec in H. unfold digitOf, digitVal in *. lia. Qed.

Lemma digitVal_digitOf v : 0 <= v <= 9 -> digitVal (digitOf v) = v.
Proof. unfold digitOf, digitVal. lia. Qed.

Lemma isDigit_digitOf v : 0 <= v <= 9 -> isDigit (digitOf v) = true.
Proof. intros H. apply isDigit_spec. rewrite digitVal_digitOf; lia. Qed.



Lemma getTodayBR_canonical hoje :
  1000 <= YearFromTime hoje <= 9999 ->
  getTodayBR hoje
  = canonicalBR (YearFromTime hoje) (MonthFromTime hoje + 1) (DateFromTime hoje).
Proof.
  intros Hy. unfold getTodayBR, canonicalBR. rewrite pad4_year by assumption.
  reflexivity.
Qed.


(** *** The range generator *)

Lemma civil_year_range n :
  0 <= n < 2932897 -> 1970 <= fst (fst (civil_from_days n)) <= 9999.
Proof.
  intros Hn. split; [apply year_of_nonneg_day | apply year_before_10000]; lia.
Qed.

Lemma printed_brOfDay t :
  0 <= Day t < 2932897 ->
  padStart 2 cZERO (ofZ (DateFromTime t)) ++ [cSLASH]
  ++ padStart 2 cZERO (ofZ (MonthFromTime t + 1)) ++ [cSLASH]
  ++ ofZ (YearFromTime t)
  = brOfDay (Day t).
Proof.
  intros Ht. unfold brOfDay. pose proof (civil_year_range _ Ht) as Hy.
  rewrite civil_of_time in *. simpl in Hy. unfold canonicalBR.
  rewrite pad4_year by lia. reflexivity.
Qed.

Lemma parseBRDate_brOfDay n :
  0 <= n < 2932897 -> parseBRDate (brOfDay n) = Some (MakeDate n 0).
Proof.
  intros Hn. unfold brOfDay. pose proof (civil_year_range _ Hn) as Hy.
  pose proof (civil_from_days_spec n) as H.
  destruct (civil_from_days n) as [[y m] d]. simpl in Hy.
  destruct H as (E & Hm & Hd).
  rewrite parseBRDate_canonical by lia. rewrite E. reflexivity.
Qed.

Lemma isWeekdayBR_brOfDay n :
  0 <= n < 2932897 -> isWeekdayBR (brOfDay n) = diaUtil n.
Proof.
  intros Hn. unfold isWeekdayBR. rewrite parseBRDate_brOfDay by assumption.
  unfold getDay, option_map, WeekDay, num_neq, diaUtil.
  rewrite Day_midnight.
  assert (H : 0 <= (n + 4) mod 7 < 7) by (apply Z.mod_pos_bound; lia).
  destruct (Z.eqb_spec ((n + 4) mod 7) 0), (Z.eqb_spec ((n + 4) mod 7) 6),
    (Z.leb_spec 1 ((n + 4) mod 7)), (Z.leb_spec ((n + 4) mod 7) 5);
    simpl; try reflexivity; lia.
Qed.

Lemma gerarDatas_loop_S fuel z current fim datas :
  gerarDatas_loop (S fuel) z current fim datas
  = if current <=? fim then
      let t := LocalTime z current in
      let dataBR := padStart 2 cZERO (ofZ (DateFromTime t)) ++ [cSLASH]
                    ++ padStart 2 cZERO (ofZ (MonthFromTime t + 1)) ++ [cSLASH]
                    ++ ofZ (YearFromTime t) in
      gerarDatas_loop fuel z (UTC z (setDate t (DateFromTime t + 1))) fim
        (if isWeekdayBR dataBR then datas ++ [dataBR] else datas)
    else Some datas.
Proof. reflexivity. Qed.

Lemma Day_add_days t k : Day (t + k * msPerDay) = Day t + k.
Proof. unfold Day, msPerDay. zdiv. Qed.

(** Two months on, by the carrying rule of MakeDay. *)
Lemma two_months_ahead t :
  59 <= MakeDay (YearFromTime t) (MonthFromTime t + 2) (DateFromTime t) - Day t <= 62.
Proof.
  pose proof (civil_from_days_spec (Day t)) as H.
  rewrite civil_of_time in H. destruct H as (E & Hm & Hd).
  unfold MakeDay. revert E.
  generalize (YearFromTime t) (MonthFromTime t) (DateFromTime t) Hm. clear.
  intros y m d Hm E. rewrite <- E. clear E.
  assert (Hq : ((m + 2) / 12 = 0 /\ (m + 2) mod 12 = m + 2 /\ m <= 9)
               \/ ((m + 2) / 12 = 1 /\ (m + 2) mod 12 = m - 10 /\ 10 <= m)) by zdiv.
  unfold days_from_civil.
  destruct Hq as [(-> & -> & Hm')|(-> & -> & Hm')].
  - destruct (Z.leb_spec (m + 2 + 1) 2), (Z.ltb_spec 2 (m + 2 + 1)),
      (Z.leb_spec (m + 1) 2), (Z.ltb_spec 2 (m + 1)); try lia; zdiv.
  - destruct (Z.leb_spec (m - 10 + 1) 2), (Z.ltb_spec 2 (m - 10 + 1)),
      (Z.leb_spec (m + 1) 2), (Z.ltb_spec 2 (m + 1)); try lia; zdiv.
Qed.

Lemma Day_setMonth t m :
  Day (setMonth t m) = MakeDay (YearFromTime t) m (DateFromTime t).
Proof. unfold setMonth. apply Day_MakeDate, TimeWithinDay_bound. Qed.

(** The days from [lo] on that are business days. *)
Lemma diasUteis_desde lo k :
  diasUteis lo (lo + Z.of_nat k - 1) = List.filter diaUtil (diasDesde k lo).
Proof.
  unfold diasUteis. replace (Z.to_nat (lo + Z.of_nat k - 1 - lo + 1)) with k by lia.
  reflexivity.
Qed.

Section Zona.
Variable z : Zone.
Hypothesis regular : zonaRegular z.

(** A day later, in local time. *)
Lemma dia_seguinte c :
  let t := LocalTime z c in
  Day (LocalTime z (UTC z (setDate t (DateFromTime t + 1)))) = Day t + 1.
Proof.
  cbv zeta. destruct regular as [Hd _]. rewrite Hd, setDate_add.
  rewrite <- (Z.mul_1_l msPerDay) at 1. apply Day_add_days.
Qed.

(** The loop, from an instant whose local day is [k] days before the
    day after that of [fim]: the days up to that of [fim] are gone
    through one by one, and the last of them is left out when its
    instant is past [fim]. *)
Lemma gerarDatas_loop_spec k :
  forall fuel c fim datas,
    (k < fuel)%nat ->
    0 <= Day (LocalTime z c) ->
    Day (LocalTime z c) + Z.of_nat k = Day (LocalTime z fim) + 1 ->
    Day (LocalTime z fim) < 2932897 ->
    exists j,
      (j = k \/ S j = k)
      /\ gerarDatas_loop fuel z c fim datas
         = Some (datas ++ List.map brOfDay
                            (List.filter diaUtil (diasDesde j (Day (LocalTime z c))))).
Proof.
  destruct regular as [Hdia Hmono].
  induction k as [|k IH]; intros fuel c fim datas Hf Hc Hk Hhi;
    (destruct fuel as [|fuel]; [lia|]); rewrite gerarDatas_loop_S; cbv zeta.
  - exists O. split; [left; reflexivity|].
    destruct (Z.leb_spec c fim) as [Hle|_].
    + specialize (Hmono c fim Hle). lia.
    + simpl. rewrite app_nil_r. reflexivity.
  - destruct (Z.leb_spec c fim) as [Hle|Hgt].
    + rewrite printed_brOfDay by lia.
      rewrite isWeekdayBR_brOfDay by lia.
      pose proof (dia_seguinte c) as Hn. cbv zeta in Hn.
      destruct (IH fuel (UTC z (setDate (LocalTime z c)
                                  (DateFromTime (LocalTime z c) + 1))) fim
                  (if diaUtil (Day (LocalTime z c))
                   then datas ++ [brOfDay (Day (LocalTime z c))] else datas))
        as (j & Hj & E); try lia.
      exists (S j). split; [destruct Hj as [->|<-]; [left|right]; reflexivity|].
      rewrite Hn in E. etransitivity; [exact E|]. cbn [diasDesde List.filter].
      destruct (diaUtil (Day (LocalTime z c))); cbn [List.map];
        [rewrite <- app_assoc|]; reflexivity.
    + exists O. split.
      * right. assert (Hle : fim <= c) by lia.
        specialize (Hmono fim c Hle). f_equal. lia.
      * simpl. rewrite app_nil_r. reflexivity.
Qed.

Lemma gerarDatas_inicio_dia hoje :
  Day (LocalTime z (gerarDatas_inicio z hoje)) = Day hoje + 7.
Proof.
  unfold gerarDatas_inicio. destruct regular as [Hd _].
  rewrite Hd, setDate_add. apply Day_add_days.
Qed.

Lemma gerarDatas_fim_dia hoje :
  Day (LocalTime z (gerarDatas_fim z hoje))
  = MakeDay (YearFromTime hoje) (MonthFromTime hoje + 2) (DateFromTime hoje) + 10.
Proof.
  unfold gerarDatas_fim. cbv zeta. destruct regular as [Hd _].
  rewrite Hd, setDate_add, Day_add_days, Hd, Day_setMonth. reflexivity.
Qed.

Lemma gerarDatas_unfold fuel hoje :
  gerarDatasProximosDoisMeses fuel z hoje
  = gerarDatas_loop fuel z (gerarDatas_inicio z hoje) (gerarDatas_fim z hoje) [].
Proof. reflexivity. Qed.

(** The generator returns the business days from [lo] to [hi], but
    for [hi] itself when the instant the loop reaches on that day is
    past [fim]. *)
Lemma gerarDatas_run hoje fuel lo hi :
  lo = Day hoje + 7 ->
  hi = MakeDay (YearFromTime hoje) (MonthFromTime hoje + 2) (DateFromTime hoje) + 10 ->
  0 <= Day hoje < 2932532 -> (67 <= fuel)%nat ->
  gerarDatasProximosDoisMeses fuel z hoje = Some (List.map brOfDay (diasUteis lo hi))
  \/ gerarDatasProximosDoisMeses fuel z hoje
     = Some (List.map brOfDay (diasUteis lo (hi - 1))).
Proof.
  intros Elo Ehi Hd Hf. pose proof (two_months_ahead hoje) as H2.
  rewrite gerarDatas_unfold.
  destruct (gerarDatas_loop_spec (Z.to_nat (hi - lo + 1)) fuel
              (gerarDatas_inicio z hoje) (gerarDatas_fim z hoje) [])
    as (j & Hj & E).
  - lia.
  - rewrite gerarDatas_inicio_dia. lia.
  - rewrite gerarDatas_inicio_dia, gerarDatas_fim_dia. lia.
  - rewrite gerarDatas_fim_dia. lia.
  - rewrite E, gerarDatas_inicio_dia, <- Elo. cbn [app].
    rewrite <- diasUteis_desde.
    destruct Hj as [Hj|Hj]; [left|right]; do 3 f_equal; lia.
Qed.

(** It returns. *)
Lemma gerarDatas_retorna hoje fuel :
  0 <= Day hoje < 2932532 -> (67 <= fuel)%nat ->
  exists datas, gerarDatasProximosDoisMeses fuel z hoje = Some datas.
Proof.
  intros Hd Hf.
  destruct (gerarDatas_run hoje fuel _ _ eq_refl eq_refl Hd Hf) as [E|E];
    rewrite E; eexists; reflexivity.
Qed.

End Zona.

(** A zone with a fixed offset keeps the day. *)
Lemma zonaFixa_regular offset : zonaRegular (zonaFixa offset).
Proof.
  split.
  - intros l. unfold LocalTime, UTC. cbn [tza_utc tza_local zonaFixa].
    f_equal. lia.
  - intros t1 t2 H. unfold LocalTime, Day, msPerDay. cbn [tza_utc zonaFixa]. zdiv.
Qed.

(** So does the zone of Sao Paulo: its clocks changed at midnight, an
    hour forward to 01:00 of the same day or an hour back to 23:00 of
    the day that was ending. *)
Lemma saoPaulo_regular : zonaRegular saoPaulo.
Proof.
  split.
  - intros l. unfold LocalTime, UTC, saoPaulo. cbn [tza_utc tza_local].
    destruct (Z.leb_spec (1541289600000 + 3600000) l), (Z.ltb_spec l 1550361600000);
      cbn [andb];
      match goal with
      | |- context [(1541300400000 <=? ?t) && (?t <? 1550368800000)] =>
          destruct (Z.leb_spec 1541300400000 t), (Z.ltb_spec t 1550368800000)
      end; cbn [andb]; try lia; unfold Day, msPerDay; zdiv.
  - intros t1 t2 H. unfold LocalTime, saoPaulo. cbn [tza_utc].
    destruct (Z.leb_spec 1541300400000 t1), (Z.ltb_spec t1 1550368800000),
      (Z.leb_spec 1541300400000 t2), (Z.ltb_spec t2 1550368800000);
      cbn [andb]; try lia; unfold Day, msPerDay; zdiv.
Qed.

(** With a fixed offset the last day is never left out. *)
Lemma gerarDatas_run_fixa offset hoje fuel lo hi :
  lo = Day hoje + 7 ->
  hi = MakeDay (YearFromTime hoje) (MonthFromTime hoje + 2) (DateFromTime hoje) + 10 ->
  0 <= Day hoje < 2932532 -> (67 <= fuel)%nat ->
  gerarDatasProximosDoisMeses fuel (zonaFixa offset) hoje
  = Some (List.map brOfDay (diasUteis lo hi)).
Proof.
  intros Elo Ehi Hd Hf. pose proof (two_months_ahead hoje) as H2.
  rewrite gerarDatas_unfold. unfold gerarDatas_inicio, gerarDatas_fim. cbv zeta.
  unfold UTC, LocalTime. cbn [tza_utc tza_local zonaFixa].
  replace (setMonth hoje (MonthFromTime hoje + 2) - offset + offset)
    with (setMonth hoje (MonthFromTime hoje + 2)) by lia.
  rewrite !setDate_add.
  assert (Efim : setMonth hoje (MonthFromTime hoje + 2)
                 = hoje + (hi - 10 - Day hoje) * msPerDay).
  { unfold setMonth. rewrite Ehi.
    pose proof (MakeDate_Day hoje) as E. unfold MakeDate in *. lia. }
  rewrite Efim.
  assert (G : forall k fuel' c datas,
             (k < fuel')%nat -> 0 <= Day c -> Day c + Z.of_nat k <= 2932897 ->
             gerarDatas_loop fuel' (zonaFixa offset) (c - offset)
               (c + (Z.of_nat k - 1) * msPerDay - offset) datas
             = Some (datas ++ List.map brOfDay (List.filter diaUtil (diasDesde k (Day c))))).
  { induction k as [|k IH]; intros fuel' c datas Hk Hc Hb;
      (destruct fuel' as [|fuel']; [lia|]); rewrite gerarDatas_loop_S; cbv zeta;
      unfold UTC, LocalTime; cbn [tza_utc tza_local zonaFixa];
      replace (c - offset + offset) with c by lia.
    - destruct (Z.leb_spec (c - offset) (c + (Z.of_nat 0 - 1) * msPerDay - offset));
        [unfold msPerDay in *; lia|].
      simpl. rewrite app_nil_r. reflexivity.
    - destruct (Z.leb_spec (c - offset) (c + (Z.of_nat (S k) - 1) * msPerDay - offset));
        [|unfold msPerDay in *; lia].
      rewrite printed_brOfDay by lia. rewrite isWeekdayBR_brOfDay by lia.
      rewrite setDate_add.
      replace (c + (Z.of_nat (S k) - 1) * msPerDay - offset)
        with (c + 1 * msPerDay + (Z.of_nat k - 1) * msPerDay - offset) by lia.
      rewrite IH; [|lia|rewrite Day_add_days; lia|rewrite Day_add_days; lia].
      rewrite Day_add_days. cbn [diasDesde List.filter].
      destruct (diaUtil (Day c)); cbn [List.map]; [rewrite <- app_assoc|]; reflexivity. }
  replace (hoje + (hi - 10 - Day hoje) * msPerDay + 10 * msPerDay - offset)
    with (hoje + 7 * msPerDay + (Z.of_nat (Z.to_nat (hi - lo + 1)) - 1) * msPerDay - offset)
    by lia.
  rewrite G; [|lia|rewrite Day_add_days; lia|rewrite Day_add_days; lia].
  rewrite Day_add_days, <- Elo. cbn [app]. rewrite <- diasUteis_desde.
  do 3 f_equal. lia.
Qed.

Lemma diasDesde_bounds k lo n : In n (diasDesde k lo) -> lo <= n < lo + Z.of_nat k.
Proof.
  revert lo. induction k as [|k IH]; intros lo H; simpl in H; [contradiction|].
  destruct H as [<-|H]; [lia|]. apply IH in H. lia.
Qed.

Lemma filter_sorted (p : Z -> bool) l :
  StronglySorted Z.lt l -> StronglySorted Z.lt (List.filter p l).
Proof.
  induction 1 as [|a l Hl IH Ha]; simpl; [constructor|].
  destruct (p a); [|exact IH]. constructor; [exact IH|].
  apply List.Forall_forall. intros x Hx. apply List.filter_In in Hx.
  destruct Hx as [Hx _]. revert x Hx. apply List.Forall_forall. exact Ha.
Qed.

Lemma diasDesde_sorted k lo : StronglySorted Z.lt (diasDesde k lo).
Proof.
  revert lo. induction k as [|k IH]; intros lo; simpl; constructor; [apply IH|].
  apply List.Forall_forall. intros x Hx. apply diasDesde_bounds in Hx. lia.
Qed.

Lemma diasUteis_sorted lo hi : StronglySorted Z.lt (diasUteis lo hi).
Proof. apply filter_sorted, diasDesde_sorted. Qed.

Lemma diasUteis_spec lo hi n :
  In n (diasUteis lo hi) <-> lo <= n <= hi /\ 1 <= (n + 4) mod 7 <= 5.
Proof.
  unfold diasUteis. rewrite List.filter_In. unfold diaUtil.
  rewrite andb_true_iff, !Z.leb_le. split.
  - intros [H1 H2]. apply diasDesde_bounds in H1. lia.
  - intros [H1 H2]. split; [|exact H2].
    remember (Z.to_nat (hi - lo + 1)) as k eqn:Ek.
    assert (Hk : hi = lo + Z.of_nat k - 1) by lia. clear Ek.
    revert lo H1 Hk. induction k as [|k IH]; intros lo H1 Hk; [lia|].
    simpl. destruct (Z.eq_dec lo n) as [->|Hne]; [left; reflexivity|right].
    apply IH; lia.
Qed.

Lemma sorted_map_NoDup (f : Z -> jsstring) (g : jsstring -> option Z) l :
  (forall n, In n l -> g (f n) = Some n) ->
  StronglySorted Z.lt l -> List.NoDup (List.map f l).
Proof.
  intros Hg Hs. induction Hs as [|a l Hl IH Ha]; simpl; constructor.
  - intros Hin. apply List.in_map_iff in Hin. destruct Hin as (b & Eb & Hb).
    assert (E : Some b = Some a).
    { rewrite <- (Hg b), <- (Hg a), Eb; simpl; auto. }
    injection E as Eab. rewrite Eab in Hb.
    pose proof (proj1 (List.Forall_forall _ _) Ha a Hb). lia.
  - apply IH. intros n Hn. apply Hg. simpl. auto.
Qed.

End DatesFacts.

(** ** The range generator and the date round trip *)

Module DateClaims.
Import Dates JsStringFacts DateFacts DatesFacts.

(** C2 (as amended).  In a time zone that keeps the day, with the
    clock between 1970 and the year 9999, the range generator returns;
    every string it returns is the canonical string of a day from
    today plus 7 days to today plus 2 months plus 10 days, both ends
    included, that is a Monday to Friday, and it parses back to that
    day; the strings come in ascending order of their days and none
    comes twice. *)
Theorem gerarDatas_business_days (z : Zone) (hoje : Z) (fuel : nat) :
  zonaRegular z -> 0 <= hoje < ano9999 -> (67 <= fuel)%nat ->
  let lo := Day hoje + 7 in
  let hi := MakeDay (YearFromTime hoje) (MonthFromTime hoje + 2) (DateFromTime hoje)
            + 10 in
  exists ns,
    gerarDatasProximosDoisMeses fuel z hoje = Some (List.map brOfDay ns)
    /\ (forall n, In n ns ->
          lo <= n <= hi
          /\ 1 <= WeekDay (MakeDate n 0) <= 5
          /\ parseBRDate (brOfDay n) = Some (MakeDate n 0))
    /\ StronglySorted Z.lt ns
    /\ List.NoDup (List.map brOfDay ns).
Proof.
  intros Hz Hh Hf. cbv zeta.
  pose proof (two_months_ahead hoje) as H2.
  assert (Hd : 0 <= Day hoje < 2932532)
    by (clear H2; unfold ano9999, Day, msPerDay in *; zdiv).
  remember (Day hoje + 7) as lo eqn:Elo.
  remember (MakeDay (YearFromTime hoje) (MonthFromTime hoje + 2) (DateFromTime hoje)
            + 10) as hi eqn:Ehi.
  assert (Hall : forall hi', hi' <= hi ->
            gerarDatasProximosDoisMeses fuel z hoje
            = Some (List.map brOfDay (diasUteis lo hi')) ->
            exists ns,
              gerarDatasProximosDoisMeses fuel z hoje = Some (List.map brOfDay ns)
              /\ (forall n, In n ns ->
                    lo <= n <= hi
                    /\ 1 <= WeekDay (MakeDate n 0) <= 5
                    /\ parseBRDate (brOfDay n) = Some (MakeDate n 0))
              /\ StronglySorted Z.lt ns
              /\ List.NoDup (List.map brOfDay ns)).
  { intros hi' Hhi' E. exists (diasUteis lo hi').
    assert (Hparse : forall n, In n (diasUteis lo hi') ->
                               parseBRDate (brOfDay n) = Some (MakeDate n 0)).
    { intros n Hn. apply diasUteis_spec in Hn. apply parseBRDate_brOfDay. lia. }
    split; [exact E|]. split; [|split].
    - intros n Hn. split; [|split; [|apply Hparse; exact Hn]].
      + apply diasUteis_spec in Hn. lia.
      + apply diasUteis_spec in Hn. unfold WeekDay. rewrite Day_midnight. tauto.
    - apply diasUteis_sorted.
    - apply (sorted_map_NoDup brOfDay (fun s => option_map Day (parseBRDate s))).
      + intros n Hn. rewrite (Hparse n Hn). cbn [option_map].
        rewrite Day_midnight. reflexivity.
      + apply diasUteis_sorted. }
  destruct (gerarDatas_run z Hz hoje fuel lo hi Elo Ehi Hd Hf) as [E|E].
  - apply (Hall hi); [lia|exact E].
  - apply (Hall (hi - 1)); [lia|exact E].
Qed.

(** In the zone of Sao Paulo, on Sunday 2 September 2018 at 00:30. *)
Lemma gerarDatas_business_days_witness :
  exists ns,
    gerarDatasProximosDoisMeses 67 saoPaulo domingo_2_setembro_2018
    = Some (List.map brOfDay ns)
    /\ StronglySorted Z.lt ns.
Proof.
  destruct (gerarDatas_business_days saoPaulo domingo_2_setembro_2018 67)
    as (ns & E & _ & Hs & _).
  - apply saoPaulo_regular.
  - unfold ano9999, domingo_2_setembro_2018. lia.
  - lia.
  - exists ns. split; [exact E|exact Hs].
Defined.

(** C2 as stated fails: on Monday 2 March 2026 the generator returns
    the string of Monday 9 March, which is today plus 7 days and not
    a later day. *)
Lemma gerarDatas_first_day_not_strict :
  exists datas s n,
    gerarDatasProximosDoisMeses 67 saoPaulo segunda_2_marco_2026 = Some datas
    /\ In s datas
    /\ s = lit "09/03/2026"
    /\ parseBRDate s = Some (MakeDate n 0)
    /\ ~ (Day segunda_2_marco_2026 + 7 < n).
Proof.
  eexists. exists (lit "09/03/2026"), 20521.
  split; [vm_compute; reflexivity|].
  split; [left; reflexivity|].
  split; [reflexivity|].
  split; [vm_compute; reflexivity|].
  vm_compute. intros H. discriminate H.
Qed.

(** The last day of the range can be left out: the run of Sunday 2
    September 2018 at 00:30 in Sao Paulo goes up to Monday 12 November,
    but daylight saving time begins on 4 November at midnight, the
    loop reaches the 12th at 01:30 while [fim] is the 12th at 00:30,
    and the 45 dates returned end with Friday the 9th. *)
Lemma gerarDatas_horario_de_verao :
  exists datas,
    gerarDatasProximosDoisMeses 67 saoPaulo domingo_2_setembro_2018 = Some datas
    /\ length datas = 45%nat
    /\ List.last datas [] = lit "09/11/2018"
    /\ MakeDay (YearFromTime domingo_2_setembro_2018)
               (MonthFromTime domingo_2_setembro_2018 + 2)
               (DateFromTime domingo_2_setembro_2018) + 10 = 17847
    /\ brOfDay 17847 = lit "12/11/2018"
    /\ diaUtil 17847 = true.
Proof.
  eexists. split; [vm_compute; reflexivity|].
  split; [reflexivity|]. split; [reflexivity|].
  split; [vm_compute; reflexivity|].
  split; vm_compute; reflexivity.
Qed.




End DateClaims.


(** ** Running computations *)

Module AsyncFacts.

(** Equations between logs, up to the bracketing of the appends. *)
Ltac trace_eq :=
  cbn [world trace app]; rewrite <- ?app_assoc; cbn [world trace app];
  rewrite <- ?app_assoc; cbn [world trace app]; reflexivity.

Lemma contar_app_events p a b : contar p (a ++ b) = (contar p a + contar p b)%nat.
Proof. unfold contar. rewrite List.filter_app, List.length_app. reflexivity. Qed.

Section WithWorld.
Context {W : Type}.

Lemma catch_perform_run ev (f : W -> Settled unit * W) s :
  catch_with (perform ev f) tt s
  = (Val tt, mkSt (snd (f (world s))) (trace s ++ [ev])).
Proof.
  unfold catch_with, try_catch, perform, ret.
  destruct (f (world s)) as [[[]|e] w']; reflexivity.
Qed.

Lemma catch_observe_run {A} ev (f : W -> Settled A) (d : A) s :
  catch_with (observe ev f) d s
  = (Val (settledOr (f (world s)) d), mkSt (world s) (trace s ++ [ev])).
Proof.
  unfold catch_with, try_catch, observe, ret, emit, settledOr.
  destruct (f (world s)); reflexivity.
Qed.

Lemma bind_val {A B} (m : M W A) (k : A -> M W B) s a s' :
  m s = (Val a, s') -> bind m k s = k a s'.
Proof. intros H. unfold bind. rewrite H. reflexivity. Qed.

Lemma bind_exc {A B} (m : M W A) (k : A -> M W B) s e s' :
  m s = (Exc e, s') -> bind m k s = (Exc e, s').
Proof. intros H. unfold bind. rewrite H. reflexivity. Qed.

Lemma bind_nofuel {A B} (m : M W A) (k : A -> M W B) s s' :
  m s = (NoFuel, s') -> bind m k s = (NoFuel, s').
Proof. intros H. unfold bind. rewrite H. reflexivity. Qed.

Lemma for_range_S {X A} n i (x : X) (body : Z -> X -> M W (X + A)) s :
  for_range (S n) i x body s
  = match body i x s with
    | (Val (inr a), s') => (Val (inr a), s')
    | (Val (inl x'), s') => for_range n (i + 1) x' body s'
    | (Exc e, s') => (Exc e, s')
    | (NoFuel, s') => (NoFuel, s')
    end.
Proof.
  simpl. unfold bind. destruct (body i x s) as [[[x'|a]|e|] s']; reflexivity.
Qed.

(** A loop that leaves with a value leaves from one of its passes. *)
Lemma for_range_inr {X A} n :
  forall i (x : X) (body : Z -> X -> M W (X + A)) s a s',
    for_range n i x body s = (Val (inr a), s') ->
    exists i' x' s0, body i' x' s0 = (Val (inr a), s').
Proof.
  induction n as [|n IH]; intros i x body s a s' H.
  - discriminate H.
  - rewrite for_range_S in H.
    destruct (body i x s) as [[[x'|a']|e|] s1] eqn:E; try discriminate H.
    + apply IH in H. exact H.
    + injection H as <- <-. exists i, x, s. exact E.
Qed.

End WithWorld.

End AsyncFacts.

(** ** The CSV sink *)

Module CsvFacts.
Import Csv JsStringFacts.

Lemma needsQuoting_spec s :
  needsQuoting s = true <-> exists c, In c s /\ especial c.
Proof.
  unfold needsQuoting, especial. rewrite existsb_exists. split.
  - intros (c & Hc & H). exists c. split; [exact Hc|].
    rewrite !orb_true_iff, !N.eqb_eq in H. tauto.
  - intros (c & Hc & H). exists c. split; [exact Hc|].
    rewrite !orb_true_iff, !N.eqb_eq. tauto.
Qed.

Lemma desdobrarAspas_cons a b r :
  desdobrarAspas (a :: b :: r)
  = if (a =? cQUOTE)%N && (b =? cQUOTE)%N then cQUOTE :: desdobrarAspas r
    else a :: desdobrarAspas (b :: r).
Proof. reflexivity. Qed.

(** The doubled marks fold back. *)
Lemma desdobrar_doubleQuotes s : desdobrarAspas (doubleQuotes s) = s.
Proof.
  induction s as [|c s IH]; [reflexivity|].
  unfold doubleQuotes in *. simpl flat_map.
  destruct (N.eqb_spec c cQUOTE) as [->|Hc].
  - simpl app. rewrite desdobrarAspas_cons. simpl andb. cbv iota.
    rewrite IH. reflexivity.
  - simpl app. destruct (flat_map _ s) as [|b r] eqn:E.
    + simpl in IH. rewrite <- IH. reflexivity.
    + rewrite desdobrarAspas_cons. destruct (N.eqb_spec c cQUOTE); [contradiction|].
      simpl andb. cbv iota. rewrite IH. reflexivity.
Qed.

Lemma removelast_snoc (l : jsstring) c : removelast (l ++ [c]) = l.
Proof. apply removelast_last. Qed.

Lemma csvUnescape_csvEscape s : csvUnescape (csvEscape (VStr s)) = s.
Proof.
  unfold csvEscape. destruct (needsQuoting s) eqn:Hq.
  - simpl. rewrite removelast_snoc. apply desdobrar_doubleQuotes.
  - destruct s as [|c r]; [reflexivity|]. simpl.
    destruct (N.eqb_spec c cQUOTE) as [->|_]; [|reflexivity].
    simpl in Hq. discriminate Hq.
Qed.

(** The joining of the parts is their delimited text. *)
Lemma join_delimitado sep parts : join [sep] parts = delimitado sep parts.
Proof.
  induction parts as [|p rest IH]; [reflexivity|].
  destruct rest as [|q rest]; [cbn; rewrite app_nil_r; reflexivity|].
  change (join [sep] (p :: q :: rest)) with (p ++ [sep] ++ join [sep] (q :: rest)).
  rewrite IH. cbn [delimitado List.map List.concat app]. reflexivity.
Qed.

(** What a row gives under a header. *)
Lemma get_valorSob row h : get row h = valorSob row h.
Proof.
  unfold get, valorSob, herdado. destruct (row !! h); [reflexivity|].
  induction objectPrototype as [|p l IH]; [reflexivity|].
  cbn [List.find List.filter]. unfold eqb.
  destruct (bool_decide (fst p = h)); [reflexivity|exact IH].
Qed.

(** C8.  The file written by writeCsv is the byte-order mark followed
    by the lines, a line feed before each line but the first; there is
    one line for the header and one per row, in order; a line holds
    one field per header, in the order of the headers, a semicolon
    before each field but the first; the fields of the first line are
    the escaped headers, those of the line of a row are the escaped
    values the row gives under the headers; csvEscape
    wraps a value in quote marks, doubling the marks inside, exactly
    when a semicolon, a quote mark, a line feed or a carriage return
    occurs in it, and leaves it as it is otherwise; reading an escaped
    field back gives the value. *)
Theorem writeCsv_layout (filePath : jsstring) (headers : list jsstring)
    (rows : list Row) (fs : FileSystem) :
  (exists lines,
      writeCsv filePath headers rows fs !! filePath = Some (cBOM :: delimitado cLF lines)
      /\ length lines = S (length rows)
      /\ lines !! O
         = Some (delimitado cSEMI (List.map (fun h => csvEscape (VStr h)) headers))
      /\ (forall i row, rows !! i = Some row ->
            lines !! S i
            = Some (delimitado cSEMI
                      (List.map (fun h => csvEscape (valorSob row h)) headers))))
  /\ (forall other, other <> filePath ->
        writeCsv filePath headers rows fs !! other = fs !! other)
  /\ (forall s,
        ((exists c, In c s /\ especial c) ->
           csvEscape (VStr s) = [cQUOTE] ++ doubleQuotes s ++ [cQUOTE])
        /\ (~ (exists c, In c s /\ especial c) -> csvEscape (VStr s) = s)
        /\ csvUnescape (csvEscape (VStr s)) = s
        /\ (forall c, In c (doubleQuotes s) ->
              In c s)
        /\ length (doubleQuotes s)
           = (length s + length (List.filter (fun c => (c =? cQUOTE)%N) s))%nat)
  /\ csvEscape VNull = [] /\ csvEscape VUndefined = [].
Proof.
  split; [|split; [|split; [|split; reflexivity]]].
  - eexists. split; [|split; [|split]].
    + unfold writeCsv. cbv zeta. rewrite lookup_insert_eq, join_delimitado.
      reflexivity.
    + cbn [app length]. rewrite List.length_map. reflexivity.
    + cbn [app lookup list_lookup]. rewrite join_delimitado. reflexivity.
    + intros i row Hi. cbn [app].
      change ((?x :: ?l) !! S i) with (l !! i).
      rewrite list_lookup_fmap, Hi. cbn [fmap option_fmap option_map].
      rewrite join_delimitado. do 2 f_equal.
      apply List.map_ext. intros h. rewrite get_valorSob. reflexivity.
  - intros other Hne. unfold writeCsv. apply lookup_insert_ne. congruence.
  - intros s. split; [|split; [|split; [|split]]].
    + intros H. apply needsQuoting_spec in H. unfold csvEscape. rewrite H. reflexivity.
    + intros H. unfold csvEscape. destruct (needsQuoting s) eqn:E; [|reflexivity].
      exfalso. apply H, needsQuoting_spec, E.
    + apply csvUnescape_csvEscape.
    + intros c. unfold doubleQuotes. rewrite List.in_flat_map.
      intros (x & Hx & Hc). destruct (N.eqb_spec x cQUOTE) as [->|_].
      * destruct Hc as [<-|[<-|[]]]; exact Hx.
      * destruct Hc as [<-|[]]. exact Hx.
    + induction s as [|c s IH]; [reflexivity|].
      unfold doubleQuotes in *. simpl.
      destruct (N.eqb_spec c cQUOTE); simpl; rewrite IH; lia.
Qed.

End CsvFacts.

(** ** Extraction *)

Module PautaFacts.
Import Pauta JsStringFacts.


Lemma trimStart_head s c r : trimStart s = c :: r -> isWhiteSpace c = false.
Proof.
  induction s as [|a s IH]; simpl; [discriminate|].
  destruct (isWhiteSpace a) eqn:E; [exact IH|].
  intros H. injection H as -> _. exact E.
Qed.

Lemma trimStart_In s c : In c (trimStart s) -> In c s.
Proof.
  induction s as [|a s IH]; simpl; [tauto|].
  destruct (isWhiteSpace a); [auto|]. simpl. tauto.
Qed.

Lemma trim_In s c : In c (trim s) -> In c s.
Proof.
  unfold trim, trimEnd. intros H. apply in_rev in H.
  apply trimStart_In in H. apply in_rev in H. apply trimStart_In in H. exact H.
Qed.

(** No no-break space is left by the normalization. *)
Lemma normalizar_no_nbsp t : ~ In cNBSP (normalizar t).
Proof.
  unfold normalizar. intros H. apply trim_In in H.
  apply List.in_map_iff in H. destruct H as (c & Hc & _).
  destruct (N.eqb_spec c cNBSP); [discriminate Hc|]. congruence.
Qed.

Lemma trimStart_all_space s :
  Forall (fun c => isWhiteSpace c = true) s -> trimStart s = [].
Proof. induction 1 as [|c r Hc Hr IH]; simpl; [reflexivity|]. rewrite Hc. exact IH. Qed.

(** A text of spaces and no-break spaces only counts as empty. *)
Lemma normalizar_blank t :
  Forall (fun c => isWhiteSpace c = true) t -> normalizar t = [].
Proof.
  intros H. unfold normalizar, trim. rewrite trimStart_all_space; [reflexivity|].
  apply List.Forall_forall. intros c Hc. apply List.in_map_iff in Hc.
  destruct Hc as (a & <- & Ha).
  destruct (N.eqb_spec a cNBSP); [reflexivity|].
  exact (proj1 (List.Forall_forall _ _) H a Ha).
Qed.

(** The ends of a normalized text are not white space. *)
Lemma normalizar_head t c r : normalizar t = c :: r -> isWhiteSpace c = false.
Proof.
  unfold normalizar, trim, trimEnd.
  set (u := trimStart (List.map _ t)). intros H.
  destruct u as [|a u'] eqn:Eu; [discriminate H|].
  assert (Ha : isWhiteSpace a = false) by (apply (trimStart_head _ _ _ Eu)).
  assert (E : rev (trimStart (rev (a :: u'))) = c :: r) by exact H.
  clear H. simpl rev in E.
  destruct (trimStart (rev u' ++ [a])) as [|z zs] eqn:Ez.
  - discriminate E.
  - assert (Hin : In a (z :: zs)).
    { rewrite <- Ez. clear - Ha. induction (rev u') as [|b l IH]; simpl.
      - rewrite Ha. left. reflexivity.
      - destruct (isWhiteSpace b); [exact IH|]. right. apply in_or_app. right.
        left. reflexivity. }
    assert (Hlast : exists l, z :: zs = l ++ [a]).
    { clear - Ez Ha. revert z zs Ez. induction (rev u') as [|b l IH]; simpl; intros z zs Ez.
      - rewrite Ha in Ez. exists []. symmetry. exact Ez.
      - destruct (isWhiteSpace b); [apply IH; exact Ez|].
        exists (b :: l). symmetry. exact Ez. }
    destruct Hlast as (l & El). rewrite El, rev_app_distr in E. simpl in E.
    injection E as <- _. exact Ha.
Qed.

(** *** More on trimming *)

Lemma trimStart_headok s : headok (trimStart s).
Proof.
  destruct (trimStart s) as [|c r] eqn:E; [exact I|].
  simpl. apply (trimStart_head s c r E).
Qed.

Lemma trimStart_id s : headok s -> trimStart s = s.
Proof. destruct s as [|c r]; simpl; [reflexivity|]. intros ->. reflexivity. Qed.

Lemma trimStart_split s :
  exists ws, s = ws ++ trimStart s /\ Forall (fun c => isWhiteSpace c = true) ws.
Proof.
  induction s as [|c s (ws & E & H)]; [exists []; split; [reflexivity|constructor]|].
  simpl. destruct (isWhiteSpace c) eqn:Ec.
  - exists (c :: ws). split; [simpl; f_equal; exact E|constructor; assumption].
  - exists []. split; [reflexivity|constructor].
Qed.

Lemma headok_trimEnd u : headok u -> headok (trimEnd u).
Proof.
  intros Hu. unfold trimEnd.
  destruct (trimStart_split (rev u)) as (ws & E & _).
  set (v := trimStart (rev u)) in *.
  assert (Eu : u = rev v ++ rev ws).
  { rewrite <- (rev_involutive u), E, rev_app_distr. reflexivity. }
  destruct (rev v) as [|c r] eqn:Ev; [exact I|].
  rewrite Eu in Hu. exact Hu.
Qed.

Lemma trim_headok s : headok (trim s).
Proof. apply headok_trimEnd, trimStart_headok. Qed.

Lemma trim_idem s : trim (trim s) = trim s.
Proof.
  unfold trim at 1. rewrite (trimStart_id (trim s)) by apply trim_headok.
  unfold trim, trimEnd. rewrite rev_involutive.
  rewrite (trimStart_id (trimStart (rev (trimStart s)))) by apply trimStart_headok.
  reflexivity.
Qed.

Lemma trim_nil : trim [] = [].
Proof. reflexivity. Qed.

(** White space around a string does not count. *)
Lemma trimStart_app_white ws s :
  Forall (fun c => isWhiteSpace c = true) ws -> trimStart (ws ++ s) = trimStart s.
Proof. induction 1 as [|c r Hc Hr IH]; simpl; [reflexivity|]. rewrite Hc. exact IH. Qed.

Lemma trim_around a s b :
  Forall (fun c => isWhiteSpace c = true) a ->
  Forall (fun c => isWhiteSpace c = true) b ->
  trim (a ++ s ++ b) = trim s.
Proof.
  intros Ha Hb. unfold trim. rewrite (trimStart_app_white a _ Ha).
  destruct (trimStart_split s) as (ws & E & Hws).
  destruct (trimStart s) as [|c r] eqn:Es.
  - rewrite app_nil_r in E. subst s.
    rewrite (trimStart_app_white ws b Hws), (trimStart_all_space b Hb). reflexivity.
  - assert (Hc : isWhiteSpace c = false) by (apply (trimStart_head s c r Es)).
    rewrite E, <- app_assoc, (trimStart_app_white ws _ Hws).
    simpl app. simpl trimStart. rewrite Hc.
    unfold trimEnd. change (c :: r ++ b) with ((c :: r) ++ b).
    rewrite rev_app_distr, trimStart_app_white; [reflexivity|].
    apply List.Forall_rev. exact Hb.
Qed.


(** *** The cleaning of a text, as the claim words it *)








Section WithPage.
Context {W : Type} (page : Session W).

Lemma contarItens_run s :
  contarItens page s
  = (Val (contagem page (world s)), mkSt (world s) (trace s ++ [EvCount LItems])).
Proof.
  unfold contarItens, catch_with, try_catch, bind, locatorCount, observe, contagem,
    emit, ret.
  destruct (count page LItems (world s)); reflexivity.
Qed.

Lemma waitForTimeout_run ms (s : St W) :
  waitForTimeout page ms s
  = (settle (timeout_gate page ms (world s)),
     mkSt (wait_for_timeout page ms (world s)) (trace s ++ [EvWait ms])).
Proof. reflexivity. Qed.

Lemma extrair_run s :
  extrairProcessosDaPauta page s
  = let s1 := mkSt (world s) (trace s ++ [EvCount LItems]) in
    if contagem page (world s) =? 0 then (Val [], s1)
    else match evaluate_gate page (world s) with
         | Fulfilled _ =>
             (Val (List.map mapItem (dom_items page (world s))),
              mkSt (world s) (trace s ++ [EvCount LItems; EvEvaluate]))
         | Rejected e =>
             (Exc e, mkSt (world s) (trace s ++ [EvCount LItems; EvEvaluate]))
         end.
Proof.
  unfold extrairProcessosDaPauta, bind. rewrite contarItens_run. cbv zeta.
  destruct (contagem page (world s) =? 0); [reflexivity|].
  unfold evaluate, bind, observe, emit, domQuery, ret. simpl.
  rewrite <- app_assoc. simpl.
  destruct (evaluate_gate page (world s)) as [[]|e]; reflexivity.
Qed.

End WithPage.

(** *** The stabilization detector *)

Section Estabilizar.
Context {W : Type} (page : Session W).

(** One pass of the polling loop, spelled out. *)
Lemma estabilizar_passo_run i last s :
  estabilizar_passo page i last s
  = let w := world s in
    let c := contagem page w in
    if c =? last then
      let w1 := wait_for_timeout page 600 w in
      match timeout_gate page 600 w with
      | Rejected e =>
          (Exc e, mkSt w1 (trace s ++ [EvCount LItems; EvWait 600]))
      | Fulfilled _ =>
          if contagem page w1 =? c then
            (Val (inr tt),
             mkSt w1 (trace s ++ [EvCount LItems; EvWait 600; EvCount LItems]))
          else
            (match timeout_gate page 250 w1 with
             | Fulfilled _ => Val (inl c)
             | Rejected e => Exc e
             end,
             mkSt (wait_for_timeout page 250 w1)
                  (trace s ++ [EvCount LItems; EvWait 600; EvCount LItems; EvWait 250]))
      end
    else
      (match timeout_gate page 250 w with
       | Fulfilled _ => Val (inl c)
       | Rejected e => Exc e
       end,
       mkSt (wait_for_timeout page 250 w) (trace s ++ [EvCount LItems; EvWait 250])).
Proof.
  unfold estabilizar_passo, bind. rewrite contarItens_run. cbv zeta.
  destruct (contagem page (world s) =? last).
  - rewrite waitForTimeout_run. simpl world. simpl trace.
    destruct (timeout_gate page 600 (world s)) as [[]|e]; simpl settle.
    + rewrite contarItens_run. simpl world. simpl trace.
      unfold ret. rewrite <- !app_assoc. simpl app.
      destruct (contagem page (wait_for_timeout page 600 (world s))
                =? contagem page (world s)); [reflexivity|].
      rewrite waitForTimeout_run. simpl world. simpl trace.
      rewrite <- app_assoc. simpl app.
      destruct (timeout_gate page 250 _) as [[]|e]; reflexivity.
    + rewrite <- app_assoc. reflexivity.
  - unfold ret. rewrite waitForTimeout_run. simpl world. simpl trace.
    rewrite <- app_assoc. simpl app.
    destruct (timeout_gate page 250 _) as [[]|e]; reflexivity.
Qed.

Lemma contar_app p a b : contar p (a ++ b) = (contar p a + contar p b)%nat.
Proof. unfold contar. rewrite List.filter_app, List.length_app. reflexivity. Qed.

(** A pass ends, with a value or with the rejection of one of its
    waits; it samples the count at most twice and makes at most one
    250 ms wait. *)
Lemma estabilizar_passo_total i last s :
  exists r s' evs,
    estabilizar_passo page i last s = (r, s')
    /\ trace s' = trace s ++ evs
    /\ (contar (ehEspera 250) evs <= 1)%nat
    /\ (contar ehContagem evs <= 2)%nat
    /\ voltaOuEspera page r.
Proof.
  rewrite estabilizar_passo_run. cbv zeta.
  destruct (_ =? last);
    [destruct (timeout_gate page 600 _) as [[]|e] eqn:E6;
       [destruct (_ =? _); [|destruct (timeout_gate page 250 _) as [[]|e] eqn:E2]|]
    |destruct (timeout_gate page 250 _) as [[]|e] eqn:E2];
    eexists; eexists; eexists; (split; [reflexivity|]);
    (split; [reflexivity|]);
    (split; [unfold contar; simpl; lia|]);
    (split; [unfold contar; simpl; lia|]);
    first [exact I | eexists; eexists; eassumption].
Qed.

(** The loop ends within its bound, with a value or with the rejection
    of a wait. *)
Lemma estabilizar_loop_bounded n :
  forall i last s,
  exists r s' evs,
    for_range n i last (estabilizar_passo page) s = (r, s')
    /\ trace s' = trace s ++ evs
    /\ (contar (ehEspera 250) evs <= n)%nat
    /\ (contar ehContagem evs <= 2 * n)%nat
    /\ voltaOuEspera page r.
Proof.
  induction n as [|n IH]; intros i last s.
  - exists (Val (inl last)), s, []. unfold contar. simpl. rewrite app_nil_r.
    repeat split; lia.
  - destruct (estabilizar_passo_total i last s)
      as (r & s1 & evs1 & E1 & T1 & B1 & C1 & V1).
    simpl for_range. unfold bind. rewrite E1. destruct r as [[last'|[]]|e|].
    + destruct (IH (i + 1) last' s1) as (r2 & s2 & evs2 & E2 & T2 & B2 & C2 & V2).
      exists r2, s2, (evs1 ++ evs2). rewrite E2.
      split; [reflexivity|]. split; [rewrite T2, T1, app_assoc; reflexivity|].
      rewrite !contar_app. repeat split; [lia|lia|exact V2].
    + exists (Val (inr tt)), s1, evs1. split; [reflexivity|]. split; [exact T1|].
      repeat split; [lia|lia].
    + exists (Exc e), s1, evs1. split; [reflexivity|]. split; [exact T1|].
      repeat split; [lia|lia|exact V1].
    + destruct V1.
Qed.

(** Two equal samples and a matching re-sample end the loop at once,
    at any pass, when the confirmation wait between them is
    fulfilled. *)
Lemma estabilizar_loop_stable n i last s :
  timeout_gate page 600 (world s) = Fulfilled tt ->
  contagem page (world s) = last ->
  contagem page (wait_for_timeout page 600 (world s)) = last ->
  for_range (S n) i last (estabilizar_passo page) s
  = (Val (inr tt),
     mkSt (wait_for_timeout page 600 (world s))
          (trace s ++ [EvCount LItems; EvWait 600; EvCount LItems])).
Proof.
  intros Hg H1 H2. simpl for_range. unfold bind.
  rewrite estabilizar_passo_run. cbv zeta.
  rewrite Hg, H1, Z.eqb_refl, H2, Z.eqb_refl. reflexivity.
Qed.

(** When consecutive samples always differ, every pass is a sample and
    a 250 ms wait. *)
Lemma estabilizar_loop_changing n :
  esperasCumpridas page ->
  (forall ms w, contagem page (wait_for_timeout page ms w) <> contagem page w) ->
  forall i last s,
    contagem page (world s) <> last ->
    exists last' s' evs,
      for_range n i last (estabilizar_passo page) s = (Val (inl last'), s')
      /\ trace s' = trace s ++ evs
      /\ contar (ehEspera 250) evs = n
      /\ contar ehContagem evs = n
      /\ contar (ehEspera 600) evs = O.
Proof.
  intros He Hd. induction n as [|n IH]; intros i last s Hne.
  - exists last, s, []. simpl. rewrite app_nil_r. repeat split; reflexivity.
  - simpl for_range. unfold bind. rewrite estabilizar_passo_run. cbv zeta.
    destruct (Z.eqb_spec (contagem page (world s)) last) as [E|_]; [contradiction|].
    rewrite He.
    set (s1 := mkSt _ _).
    destruct (IH (i + 1) (contagem page (world s)) s1) as (l2 & s2 & evs2 & E2 & T2 & B2 & C2 & D2).
    { subst s1. simpl. apply Hd. }
    exists l2, s2, ([EvCount LItems; EvWait 250] ++ evs2). rewrite E2.
    split; [reflexivity|].
    split; [rewrite T2; subst s1; simpl; rewrite <- app_assoc; reflexivity|].
    rewrite !contar_app, B2, C2, D2. repeat split; reflexivity.
Qed.

Lemma contagem_nonneg w : 0 <= contagem page w.
Proof. unfold contagem. destruct (count page LItems w); lia. Qed.

(** The spinner phase returns and makes no timed wait and no count. *)
Lemma esperarSpinners_total sps :
  forall s, exists s' evs,
    esperarSpinners page sps s = (Val tt, s')
    /\ trace s' = trace s ++ evs
    /\ (forall ms, contar (ehEspera ms) evs = O)
    /\ contar ehContagem evs = O.
Proof.
  induction sps as [|sp rest IH]; intros s.
  - exists s, []. simpl. rewrite app_nil_r. repeat split; reflexivity.
  - simpl esperarSpinners.
    unfold bind, catch_with, try_catch, isVisible, observe, waitFor, perform, ret, emit.
    destruct (is_visible page sp (world s)) as [[|]|e]; simpl.
    + destruct (wait_for page sp Hidden (world s)) as [[[]|e] w1]; simpl;
        (match goal with |- context [esperarSpinners page rest ?s1] =>
           destruct (IH s1) as (s2 & evs2 & E2 & T2 & B2 & C2) end);
        exists s2, ([EvIsVisible sp; EvWaitFor sp Hidden] ++ evs2); rewrite E2;
        (split; [reflexivity|]);
        (split; [rewrite T2; simpl; rewrite <- !app_assoc; reflexivity|]);
        (split; [intros ms; rewrite contar_app, B2; reflexivity
                |rewrite contar_app, C2; destruct sp; reflexivity]).
    + match goal with |- context [esperarSpinners page rest ?s1] =>
        destruct (IH s1) as (s2 & evs2 & E2 & T2 & B2 & C2) end.
      exists s2, ([EvIsVisible sp] ++ evs2). rewrite E2.
      split; [reflexivity|].
      split; [rewrite T2; simpl; rewrite <- app_assoc; reflexivity|].
      split; [intros ms; rewrite contar_app, B2; reflexivity
             |rewrite contar_app, C2; reflexivity].
    + match goal with |- context [esperarSpinners page rest ?s1] =>
        destruct (IH s1) as (s2 & evs2 & E2 & T2 & B2 & C2) end.
      exists s2, ([EvIsVisible sp] ++ evs2). rewrite E2.
      split; [reflexivity|].
      split; [rewrite T2; simpl; rewrite <- app_assoc; reflexivity|].
      split; [intros ms; rewrite contar_app, B2; reflexivity
             |rewrite contar_app, C2; reflexivity].
Qed.

Lemma esperarPautaEstabilizar_unfold s :
  esperarPautaEstabilizar page s
  = match esperarSpinners page spinners s with
    | (Val _, s1) =>
        match for_range 20 0 (-1) (estabilizar_passo page) s1 with
        | (Val _, s2) => (Val tt, s2)
        | (Exc e, s2) => (Exc e, s2)
        | (NoFuel, s2) => (NoFuel, s2)
        end
    | (Exc e, s1) => (Exc e, s1)
    | (NoFuel, s1) => (NoFuel, s1)
    end.
Proof. reflexivity. Qed.

End Estabilizar.

(** On a closed page the stabilization detector does not return: the
    first 250 ms wait is rejected and the rejection leaves the
    function. *)
Lemma esperarPautaEstabilizar_closed_page :
  fst (esperarPautaEstabilizar paginaFechada (mkSt tt [])) = Exc fechada
  /\ trace (snd (esperarPautaEstabilizar paginaFechada (mkSt tt [])))
     = [EvIsVisible LIonSpinner; EvIsVisible LMatSpinner; EvIsVisible LMatBar;
        EvCount LItems; EvWait 250].
Proof. split; reflexivity. Qed.

(** C3.  The stabilization detector always ends, after at most 20
    passes of its polling loop (at most 20 waits of 250 ms and 40
    samples of the count): it returns, unless one of its timed waits
    is rejected, and then it raises that rejection; at any pass, a
    sample equal to the previous one followed by an equal re-sample
    after a fulfilled 600 ms confirmation wait ends the loop at that
    pass; when the waits are fulfilled, on a list that does not change
    the detector returns in its second pass, and on a list whose
    consecutive samples always differ it makes its 20 passes and
    returns. *)
Theorem esperarPautaEstabilizar_bounded {W : Type} (page : Session W) (s : St W) :
  (exists r s' evs,
      esperarPautaEstabilizar page s = (r, s')
      /\ trace s' = trace s ++ evs
      /\ (contar (ehEspera 250) evs <= 20)%nat
      /\ (contar ehContagem evs <= 40)%nat
      /\ (r = Val tt \/ exists e, r = Exc e /\ rejeicaoDeEspera page e)
      /\ (esperasCumpridas page -> r = Val tt))
  /\ (forall n i last s0,
        timeout_gate page 600 (world s0) = Fulfilled tt ->
        contagem page (world s0) = last ->
        contagem page (wait_for_timeout page 600 (world s0)) = last ->
        for_range (S n) i last (estabilizar_passo page) s0
        = (Val (inr tt),
           mkSt (wait_for_timeout page 600 (world s0))
                (trace s0 ++ [EvCount LItems; EvWait 600; EvCount LItems])))
  /\ (esperasCumpridas page ->
      (forall ms w, contagem page (wait_for_timeout page ms w) = contagem page w) ->
      exists s1 s',
        esperarSpinners page spinners s = (Val tt, s1)
        /\ esperarPautaEstabilizar page s = (Val tt, s')
        /\ trace s' = trace s1 ++ [EvCount LItems; EvWait 250;
                                    EvCount LItems; EvWait 600; EvCount LItems])
  /\ (esperasCumpridas page ->
      (forall ms w, contagem page (wait_for_timeout page ms w) <> contagem page w) ->
      exists s1 s' evs,
        esperarSpinners page spinners s = (Val tt, s1)
        /\ esperarPautaEstabilizar page s = (Val tt, s')
        /\ trace s' = trace s1 ++ evs
        /\ contar (ehEspera 250) evs = 20%nat
        /\ contar ehContagem evs = 20%nat
        /\ contar (ehEspera 600) evs = O).
Proof.
  destruct (esperarSpinners_total page spinners s) as (s1 & evs1 & E1 & T1 & B1 & C1).
  split; [|split; [|split]].
  - destruct (estabilizar_loop_bounded page 20 0 (-1) s1)
      as (r & s2 & evs2 & E2 & T2 & B2 & C2 & V2).
    exists (match r with Val _ => Val tt | Exc e => Exc e | NoFuel => NoFuel end),
      s2, (evs1 ++ evs2).
    rewrite esperarPautaEstabilizar_unfold, E1, E2.
    split; [destruct r; reflexivity|].
    split; [rewrite T2, T1, app_assoc; reflexivity|].
    rewrite !contar_app, B1, C1.
    split; [lia|]. split; [lia|]. split.
    + destruct r as [a|e|]; [left; reflexivity|right; exists e; split; [reflexivity|exact V2]
                            |destruct V2].
    + intros He. destruct r as [a|e|]; [reflexivity| |destruct V2].
      destruct V2 as (ms & w & Hr). rewrite He in Hr. discriminate Hr.
  - intros n i last s0. apply estabilizar_loop_stable.
  - intros He Hc. exists s1. eexists. split; [exact E1|].
    rewrite esperarPautaEstabilizar_unfold, E1.
    change (for_range 20 0 (-1) (estabilizar_passo page) s1)
      with (bind (estabilizar_passo page 0 (-1))
              (fun r => match r with
                        | inr a => ret (inr a)
                        | inl x' => for_range 19 (0 + 1) x' (estabilizar_passo page)
                        end) s1).
    unfold bind at 1. rewrite estabilizar_passo_run. cbv zeta.
    pose proof (contagem_nonneg page (world s1)) as Hn.
    destruct (Z.eqb_spec (contagem page (world s1)) (-1)) as [E|_]; [lia|].
    rewrite He.
    rewrite estabilizar_loop_stable.
    + split; [reflexivity|]. simpl. rewrite <- app_assoc. reflexivity.
    + apply He.
    + simpl. apply Hc.
    + simpl. rewrite !Hc. reflexivity.
  - intros He Hd.
    destruct (estabilizar_loop_changing page 20 He Hd 0 (-1) s1)
      as (l2 & s2 & evs2 & E2 & T2 & B2 & C2 & D2).
    { pose proof (contagem_nonneg page (world s1)). lia. }
    exists s1, s2, evs2. rewrite esperarPautaEstabilizar_unfold, E1, E2.
    repeat split; assumption.
Qed.

Lemma esperarPautaEstabilizar_bounded_witness :
  (exists s',
      esperarPautaEstabilizar paginaParada (mkSt 3%nat []) = (Val tt, s')
      /\ trace s' = [EvIsVisible LIonSpinner; EvIsVisible LMatSpinner; EvIsVisible LMatBar;
                     EvCount LItems; EvWait 250; EvCount LItems; EvWait 600;
                     EvCount LItems])
  /\ (exists s' evs,
        esperarPautaEstabilizar paginaCrescente (mkSt 3%nat []) = (Val tt, s')
        /\ trace s' = [EvIsVisible LIonSpinner; EvIsVisible LMatSpinner;
                       EvIsVisible LMatBar] ++ evs
        /\ contar (ehEspera 250) evs = 20%nat).
Proof.
  split.
  - destruct (esperarPautaEstabilizar_bounded paginaParada (mkSt 3%nat []))
      as (_ & _ & H & _).
    destruct H as (s1 & s' & E1 & E & T); [intros ms w; reflexivity|reflexivity|].
    exists s'. split; [exact E|].
    rewrite T. injection E1 as <-. reflexivity.
  - destruct (esperarPautaEstabilizar_bounded paginaCrescente (mkSt 3%nat []))
      as (_ & _ & _ & H).
    destruct H as (s1 & s' & evs & E1 & E & T & B & _).
    { intros ms w. reflexivity. }
    { intros ms w. unfold contagem. simpl. lia. }
    exists s', evs. split; [exact E|]. split; [|exact B].
    rewrite T. injection E1 as <-. reflexivity.
Defined.

(** The count gate drops rows: on a page whose document holds two
    entries while the count of them is rejected, the mapper returns no
    record at all. *)
Lemma extrair_count_rejected_drops_rows :
  length (dom_items paginaSemContagem doisItens) = 2%nat
  /\ extrairProcessosDaPauta paginaSemContagem (mkSt doisItens [])
     = (Val [], mkSt doisItens [EvCount LItems]).
Proof. split; reflexivity. Qed.

(** C5.  When the count the extraction mapper takes first is fulfilled
    with a number other than zero, whatever the mapper returns has one
    record per entry of the document, in order, each the image of its
    entry; an entry without an identifier gives a record whose
    identifier is the empty string; the page is left as it was; and
    the mapper does return when page.evaluate does not reject.  When
    that count is rejected or is zero the mapper returns no record,
    whatever the document holds. *)
Theorem extrair_one_record_per_entry {W : Type} (page : Session W) (s : St W) :
  let items := dom_items page (world s) in
  (forall n, count page LItems (world s) = Fulfilled (S n) ->
     (forall ps s',
         extrairProcessosDaPauta page s = (Val ps, s') ->
         world s' = world s
         /\ length ps = length items
         /\ (forall i item, items !! i = Some item ->
               ps !! i = Some (mapItem item)
               /\ (item_negrito item = None -> numeroProcesso (mapItem item) = [])))
     /\ (evaluate_gate page (world s) = Fulfilled tt ->
         exists s', extrairProcessosDaPauta page s = (Val (List.map mapItem items), s')))
  /\ ((count page LItems (world s) = Fulfilled O
       \/ exists e, count page LItems (world s) = Rejected e) ->
      exists s', extrairProcessosDaPauta page s = (Val [], s') /\ world s' = world s).
Proof.
  intros items. subst items. rewrite extrair_run. cbv zeta.
  unfold contagem. split.
  - intros n Hc. rewrite Hc.
    destruct (Z.eqb_spec (Z.of_nat (S n)) 0) as [Ez|_]; [lia|].
    set (items := dom_items page (world s)).
    split.
    + intros ps s' H.
      destruct (evaluate_gate page (world s)); [|discriminate H].
      injection H as <- <-.
      split; [reflexivity|]. split; [apply List.length_map|].
      intros i item Hi. split.
      * rewrite list_lookup_fmap, Hi. reflexivity.
      * intros Hn. unfold mapItem. simpl. rewrite Hn. reflexivity.
    + intros Hg. rewrite Hg. eexists. reflexivity.
  - intros [Hc|(e & Hc)]; rewrite Hc; eexists; split; reflexivity.
Qed.

Lemma extrair_one_record_per_entry_witness :
  exists s',
    extrairProcessosDaPauta paginaLista (mkSt doisItens [])
    = (Val (List.map mapItem doisItens), s').
Proof.
  destruct (extrair_one_record_per_entry paginaLista (mkSt doisItens [])) as [H _].
  destruct (H 1%nat eq_refl) as [_ H2]. apply H2. reflexivity.
Defined.


End PautaFacts.


(** ** Overlay guard and retry envelope *)

Module OverlayFacts.
Import Overlay AsyncFacts.

Section WithPage.
Context {W : Type} (page : Session W).

Lemma waitForTimeout_eq ms (s : St W) :
  waitForTimeout page ms s
  = (settle (timeout_gate page ms (world s)),
     mkSt (wait_for_timeout page ms (world s)) (trace s ++ [EvWait ms])).
Proof. reflexivity. Qed.

(** A fulfilled wait. *)
Lemma waitForTimeout_ok ms (s : St W) :
  timeout_gate page ms (world s) = Fulfilled tt ->
  waitForTimeout page ms s
  = (Val tt, mkSt (wait_for_timeout page ms (world s)) (trace s ++ [EvWait ms])).
Proof. intros H. rewrite waitForTimeout_eq, H. reflexivity. Qed.

(** A wait followed by going on does not leave the loop with a
    value. *)
Lemma wait_then_inl {X A} ms (x : X) s (a : A) s' :
  bind (waitForTimeout page ms) (fun _ => ret (inl x)) s <> (Val (inr a), s').
Proof.
  unfold bind. rewrite waitForTimeout_eq.
  destruct (timeout_gate page ms (world s)) as [[]|e]; discriminate.
Qed.

(** The overlay guard never throws.  It presses Escape and waits; when
    that wait is rejected it stops there, otherwise it asks for the
    backdrop, clicks it if it shows, and waits for it to go. *)
Lemma fecharOverlays_total s :
  exists s' evs,
    fecharOverlays page s = (Val tt, s')
    /\ trace s' = trace s ++ evs
    /\ (evs = [EvKeyEscape; EvWait 200]
        \/ evs = [EvKeyEscape; EvWait 200; EvIsVisible LBackdrop;
                  EvWaitFor LBackdrop Detached]
        \/ evs = [EvKeyEscape; EvWait 200; EvIsVisible LBackdrop;
                  EvClick LBackdrop; EvWaitFor LBackdrop Detached]).
Proof.
  unfold fecharOverlays, keyboardPressEscape, isVisible, locatorClick, waitFor.
  unfold try_catch at 1. unfold bind at 1. rewrite catch_perform_run.
  unfold bind at 1. rewrite waitForTimeout_eq. cbn [world trace].
  destruct (timeout_gate page 200 _) as [[]|e]; cbn [settle].
  - unfold bind at 1. rewrite catch_observe_run.
    destruct (settledOr _ false).
    + unfold bind at 1. rewrite catch_perform_run. rewrite catch_perform_run.
      eexists. eexists. split; [reflexivity|].
      split; [|right; right; reflexivity]. simpl. rewrite <- !app_assoc. reflexivity.
    + unfold bind at 1. unfold ret at 1. rewrite catch_perform_run.
      eexists. eexists. split; [reflexivity|].
      split; [|right; left; reflexivity]. simpl. rewrite <- !app_assoc. reflexivity.
  - unfold ret. eexists. eexists. split; [reflexivity|].
    split; [|left; reflexivity]. simpl. rewrite <- !app_assoc. reflexivity.
Qed.

Section Retry.
Context {A : Type} (operation : M W A) (maxRetries delayMs : Z).

Abbreviation retry_body := (retry_body page operation maxRetries delayMs).

Lemma retryOperation_unfold s :
  retryOperation page operation maxRetries delayMs s
  = let '(r, s') := for_range (Z.to_nat maxRetries) 1 tt retry_body s in
    (retry_out r, s').
Proof.
  unfold retryOperation, for_le, bind.
  replace (maxRetries - 1 + 1) with maxRetries by lia.
  change (for_range (Z.to_nat maxRetries) 1 tt _ s)
    with (for_range (Z.to_nat maxRetries) 1 tt retry_body s).
  destruct (for_range (Z.to_nat maxRetries) 1 tt retry_body s) as [[[u|a]|e|] s'];
    reflexivity.
Qed.

Lemma retry_body_run attempt s :
  retry_body attempt tt s
  = match operation s with
    | (Val a, s1) => (Val (inr a), s1)
    | (Exc e, s1) =>
        if attempt =? maxRetries then (Exc e, s1)
        else match fecharOverlays page s1 with
             | (Val _, s2) =>
                 (match timeout_gate page delayMs (world s2) with
                  | Fulfilled _ => Val (inl tt)
                  | Rejected e' => Exc e'
                  end,
                  mkSt (wait_for_timeout page delayMs (world s2))
                       (trace s2 ++ [EvWait delayMs]))
             | (Exc e', s2) => (Exc e', s2)
             | (NoFuel, s2) => (NoFuel, s2)
             end
    | (NoFuel, s1) => (NoFuel, s1)
    end.
Proof.
  unfold Aux.retry_body, try_catch, bind.
  destruct (operation s) as [[a|e|] s1]; try reflexivity.
  destruct (attempt =? maxRetries); [reflexivity|].
  destruct (fecharOverlays page s1) as [[[]|e'|] s2]; try reflexivity.
  rewrite waitForTimeout_eq.
  destruct (timeout_gate page delayMs (world s2)) as [[]|e']; reflexivity.
Qed.

Lemma retry_loop_spec n :
  forall attempt s,
    (n <> O -> attempt + Z.of_nat n - 1 = maxRetries) ->
    exists k,
      tentativas page operation delayMs n k s
        (retry_out (fst (for_range n attempt tt retry_body s)))
        (snd (for_range n attempt tt retry_body s)).
Proof.
  induction n as [|n IH]; intros attempt s Hn.
  - exists O. simpl. constructor.
  - rewrite for_range_S, retry_body_run.
    destruct (operation s) as [[a|e|] s1] eqn:Eop.
    + exists 1%nat. simpl. apply tent_sucesso. exact Eop.
    + destruct (Z.eqb_spec attempt maxRetries) as [Ea|Ea].
      * assert (n = O) by lia. subst n. exists 1%nat. simpl.
        apply tent_ultima. exact Eop.
      * destruct (fecharOverlays_total s1) as (s2 & mid & E2 & _).
        rewrite E2.
        destruct n as [|n]; [lia|].
        destruct (timeout_gate page delayMs (world s2)) as [[]|e'] eqn:Eg.
        -- destruct (IH (attempt + 1) (mkSt (wait_for_timeout page delayMs (world s2))
                                            (trace s2 ++ [EvWait delayMs])))
             as (k & Hk); [lia|].
           exists (S k).
           eapply tent_outra; [exact Eop|exact E2|apply waitForTimeout_ok, Eg|exact Hk].
        -- exists 1%nat. cbn [fst snd retry_out].
           eapply tent_espera; [exact Eop|exact E2|].
           rewrite waitForTimeout_eq, Eg. reflexivity.
    + exists 1%nat. simpl. apply tent_sem_fuel. exact Eop.
Qed.

(** An exception is the failure of attempt number [n], after [n]
    attempts, or it is the rejection of the wait that follows an
    earlier failed attempt. *)
Lemma tentativas_exc n k s e s' :
  tentativas page operation delayMs n k s (Exc e) s' ->
  (k = n /\ (1 <= n)%nat /\ exists s0, fst (operation s0) = Exc e)
  \/ ((k < n)%nat /\ exists w, timeout_gate page delayMs w = Rejected e).
Proof.
  remember (Exc e) as r eqn:Er. induction 1; try discriminate Er.
  - injection Er as ->. left. split; [reflexivity|]. split; [lia|].
    exists s. rewrite H. reflexivity.
  - destruct (IHtentativas Er) as [(-> & Hn & Hop)|(Hk & Hw)].
    + left. split; [reflexivity|]. split; [lia|exact Hop].
    + right. split; [lia|exact Hw].
  - injection Er as ->. right. split; [lia|].
    exists (world s2). rewrite waitForTimeout_eq in H1.
    destruct (timeout_gate page delayMs (world s2)) as [[]|ex]; [discriminate H1|].
    injection H1 as -> _. reflexivity.
Qed.

(** With the waits of the delay fulfilled, an exception comes after
    [n] attempts only. *)
Lemma tentativas_exc_ok n k s e s' :
  (forall w, timeout_gate page delayMs w = Fulfilled tt) ->
  tentativas page operation delayMs n k s (Exc e) s' -> k = n /\ (1 <= n)%nat.
Proof.
  intros Hg H. destruct (tentativas_exc _ _ _ _ _ H) as [(-> & Hn & _)|(_ & w & Hw)].
  - split; [reflexivity|exact Hn].
  - rewrite Hg in Hw. discriminate Hw.
Qed.

Lemma tentativas_val n k s a s' :
  tentativas page operation delayMs n k s (Val (Some a)) s' -> (1 <= k <= n)%nat.
Proof.
  remember (Val (Some a)) as r eqn:Er. induction 1; try discriminate Er.
  - lia.
  - specialize (IHtentativas Er). lia.
Qed.

Lemma tentativas_none n k s s' :
  tentativas page operation delayMs n k s (Val None) s' -> n = O.
Proof.
  remember (Val None) as r eqn:Er. induction 1; try discriminate Er.
  - reflexivity.
  - specialize (IHtentativas Er). discriminate IHtentativas.
Qed.

End Retry.
End WithPage.

(** With five attempts allowed, a first attempt that fails and a wait
    that is then rejected: the envelope makes that one attempt and
    raises the rejection of the wait, not the failure of the
    attempt. *)
Lemma retryOperation_delay_rejected :
  let r := retryOperation paginaQueFecha (locatorClick paginaQueFecha LDateButton)
             5 900 (mkSt false []) in
  fst r = Exc fechada
  /\ fechada <> tempoEsgotado
  /\ trace (snd r) = [EvClick LDateButton; EvKeyEscape; EvWait 200; EvWait 900].
Proof. cbv zeta. split; [reflexivity|]. split; [discriminate|reflexivity]. Qed.

(** C7.  The run of the retry envelope is a run of attempts as the
    relation [tentativas] describes them: the result of the first
    attempt that succeeds is returned; every failed attempt with
    attempts remaining is followed by the overlay guard, then by the
    wait of the configured delay, then -- when that wait is fulfilled
    -- by the next attempt; a failure of the operation is raised only
    as the failure of attempt number maxRetries, after maxRetries
    failed attempts; any other exception is the rejection of the wait
    after an earlier failed attempt, so that with those waits
    fulfilled an exception is raised after maxRetries failures only;
    and with at least one attempt allowed the envelope never ends
    without a result or a failure. *)
Theorem retryOperation_attempts {W A : Type} (page : Session W)
    (operation : M W A) (maxRetries delayMs : Z) (s : St W) :
  let r := fst (retryOperation page operation maxRetries delayMs s) in
  let s' := snd (retryOperation page operation maxRetries delayMs s) in
  exists k,
    tentativas page operation delayMs (Z.to_nat maxRetries) k s r s'
    /\ (forall a, r = Val (Some a) -> (1 <= k <= Z.to_nat maxRetries)%nat)
    /\ (forall e, r = Exc e ->
          (k = Z.to_nat maxRetries /\ 1 <= maxRetries
           /\ exists s0, fst (operation s0) = Exc e)
          \/ ((k < Z.to_nat maxRetries)%nat
              /\ exists w, timeout_gate page delayMs w = Rejected e))
    /\ ((forall w, timeout_gate page delayMs w = Fulfilled tt) ->
        forall e, r = Exc e -> k = Z.to_nat maxRetries /\ 1 <= maxRetries)
    /\ (r = Val None -> maxRetries <= 0).
Proof.
  cbv zeta. rewrite retryOperation_unfold.
  destruct (retry_loop_spec page operation maxRetries delayMs
              (Z.to_nat maxRetries) 1 s) as (k & Hk).
  - lia.
  - destruct (for_range _ _ _ _ s) as [r s'] eqn:E. simpl in *.
    exists k. split; [exact Hk|]. split; [|split; [|split]].
    + intros a Ha. rewrite Ha in Hk. eapply tentativas_val. exact Hk.
    + intros e He. rewrite He in Hk. apply tentativas_exc in Hk.
      destruct Hk as [(-> & Hn & Hop)|Hk]; [left|right; exact Hk].
      split; [reflexivity|]. split; [lia|exact Hop].
    + intros Hg e He. rewrite He in Hk. eapply tentativas_exc_ok in Hk; [|exact Hg].
      destruct Hk as [-> Hk]. split; [reflexivity|lia].
    + intros Hn. rewrite Hn in Hk. apply tentativas_none in Hk. lia.
Qed.

End OverlayFacts.


(** ** The calendar grid *)

Module CalendarGridFacts.
Import Dates Overlay CalendarGrid AsyncFacts JsStringFacts DateFacts OverlayFacts.

(** Two valid dates are in the same month of the same year exactly
    when their linearized month keys are equal. *)
Lemma sameMonthYear_key a b :
  sameMonthYear (Some a) (Some b) = (chaveMes a =? chaveMes b).
Proof.
  unfold sameMonthYear, getFullYear, getMonth, num_eq, chaveMes. simpl.
  pose proof (MonthFromTime_range a). pose proof (MonthFromTime_range b).
  destruct (Z.eqb_spec (YearFromTime a) (YearFromTime b)),
    (Z.eqb_spec (MonthFromTime a) (MonthFromTime b)),
    (Z.eqb_spec (YearFromTime a * 12 + MonthFromTime a)
                (YearFromTime b * 12 + MonthFromTime b));
    simpl; try reflexivity; lia.
Qed.

Lemma monthKey_valid a : monthKey (Some a) = Some (chaveMes a).
Proof. reflexivity. Qed.

Section WithPage.
Context {W : Type} (page : Session W).

Lemma getCalendarHeaderDateApprox_run s :
  getCalendarHeaderDateApprox page s
  = (Val (headerDateApprox (textoCabecalho page (world s))),
     mkSt (world s) (trace s ++ [EvText LPeriodButton])).
Proof.
  unfold getCalendarHeaderDateApprox, bind, catch_with, try_catch, textContent,
    observe, ret, emit, textoCabecalho, settledOr.
  destruct (text_content page LPeriodButton (world s)) as [[t|]|e]; reflexivity.
Qed.

(** One pass of the month navigation when the header gives the valid
    date [a] and the target is the valid date [alvo]: the two month
    keys are compared. *)
Lemma navegarParaMes_passo_run alvo i s a :
  headerDateApprox (textoCabecalho page (world s)) = Some (Some a) ->
  navegarParaMes_passo page (Some alvo) i tt s
  = if chaveMes a =? chaveMes alvo then (Val (inr true), lido s)
    else if chaveMes a <? chaveMes alvo then
      bind (locatorClick page LCalNext)
           (fun _ => bind (waitForTimeout page 120) (fun _ => ret (inl tt))) (lido s)
    else
      bind (locatorClick page LCalPrev)
           (fun _ => bind (waitForTimeout page 120) (fun _ => ret (inl tt))) (lido s).
Proof.
  intros Hh. unfold navegarParaMes_passo. unfold bind at 1.
  rewrite getCalendarHeaderDateApprox_run, Hh.
  rewrite sameMonthYear_key. fold (lido s).
  destruct (chaveMes a =? chaveMes alvo); [reflexivity|].
  rewrite !monthKey_valid. unfold num_gt.
  destruct (chaveMes a <? chaveMes alvo); reflexivity.
Qed.

(** When the header cannot be read the pass steps forward blindly; the
    rejection of the wait after the click leaves the function. *)
Lemma navegarParaMes_passo_blind_run alvo i s :
  headerDateApprox (textoCabecalho page (world s)) = None ->
  navegarParaMes_passo page alvo i tt s
  = (match timeout_gate page 120 (snd (click page LCalNext (world s))) with
     | Fulfilled _ => Val (inl tt)
     | Rejected e => Exc e
     end,
     mkSt (wait_for_timeout page 120 (snd (click page LCalNext (world s))))
          (trace s ++ [EvText LPeriodButton; EvClick LCalNext; EvWait 120])).
Proof.
  intros Hh. unfold navegarParaMes_passo. unfold bind at 1.
  rewrite getCalendarHeaderDateApprox_run, Hh.
  unfold bind at 1. unfold locatorClick. rewrite catch_perform_run.
  unfold bind. rewrite waitForTimeout_eq. cbn [world trace].
  rewrite <- !app_assoc. cbn [app].
  destruct (timeout_gate page 120 _) as [[]|e]; reflexivity.
Qed.

Lemma navegarParaMes_passo_blind alvo i s :
  esperasCumpridas page ->
  headerDateApprox (textoCabecalho page (world s)) = None ->
  navegarParaMes_passo page alvo i tt s
  = (Val (inl tt),
     mkSt (wait_for_timeout page 120 (snd (click page LCalNext (world s))))
          (trace s ++ [EvText LPeriodButton; EvClick LCalNext; EvWait 120])).
Proof.
  intros He Hh. rewrite (navegarParaMes_passo_blind_run alvo i s Hh), He. reflexivity.
Qed.

Lemma navegarParaMes_unfold alvo maxSteps s :
  navegarParaMes page alvo maxSteps s
  = match for_range (Z.to_nat maxSteps) 0 tt (navegarParaMes_passo page alvo) s with
    | (Val (inr b), s') => (Val b, s')
    | (Val (inl _), s') => (Val false, s')
    | (Exc e, s') => (Exc e, s')
    | (NoFuel, s') => (NoFuel, s')
    end.
Proof.
  unfold navegarParaMes, for_lt, bind. replace (maxSteps - 0) with maxSteps by lia.
  destruct (for_range _ _ _ _ s) as [[[u|b]|e|] s']; reflexivity.
Qed.

(** *** A grid that behaves as a month cursor *)

Section MonthCursor.
Variable mes : W -> Z.
Variables lo hi : Z.
Variable alvo : Z.

Hypothesis header_shows_month :
  forall w, lo <= mes w <= hi ->
    exists a, headerDateApprox (textoCabecalho page w) = Some (Some a)
              /\ chaveMes a = mes w.
Hypothesis next_moves_forward :
  forall w, fst (click page LCalNext w) = Fulfilled tt
            /\ mes (snd (click page LCalNext w)) = mes w + 1.
Hypothesis prev_moves_back :
  forall w, fst (click page LCalPrev w) = Fulfilled tt
            /\ mes (snd (click page LCalPrev w)) = mes w - 1.
Hypothesis wait_keeps_month :
  forall ms w, mes (wait_for_timeout page ms w) = mes w.
Hypothesis target_readable : lo <= chaveMes alvo <= hi.

Lemma click_run l (s : St W) :
  fst (click page l (world s)) = Fulfilled tt ->
  locatorClick page l s
  = (Val tt, mkSt (snd (click page l (world s))) (trace s ++ [EvClick l])).
Proof.
  intros H. unfold locatorClick, perform.
  destruct (click page l (world s)) as [r w']. simpl in *. subst r. reflexivity.
Qed.

(** A pass away from the target month makes one click toward it;
    the distance to the target drops by one.  The wait after the click
    decides how the pass ends: fulfilled, the loop goes on; rejected,
    its rejection leaves the function. *)
Lemma passo_toward i s :
  lo <= mes (world s) <= hi -> mes (world s) <> chaveMes alvo ->
  exists out s1 c,
    navegarParaMes_passo page (Some alvo) i tt s = (out, s1)
    /\ trace s1 = trace s ++ [EvText LPeriodButton; EvClick c; EvWait 120]
    /\ c = (if mes (world s) <? chaveMes alvo then LCalNext else LCalPrev)
    /\ mes (world s1)
       = (if mes (world s) <? chaveMes alvo then mes (world s) + 1
          else mes (world s) - 1)
    /\ Z.abs (chaveMes alvo - mes (world s1))
       = Z.abs (chaveMes alvo - mes (world s)) - 1
    /\ out = match timeout_gate page 120 (snd (click page c (world s))) with
             | Fulfilled _ => Val (inl tt)
             | Rejected e => Exc e
             end.
Proof.
  intros Hr Hne. destruct (header_shows_month _ Hr) as (a & Ha & Ka).
  rewrite (navegarParaMes_passo_run alvo i s a Ha), Ka.
  destruct (Z.eqb_spec (mes (world s)) (chaveMes alvo)) as [E|_]; [contradiction|].
  destruct (Z.ltb_spec (mes (world s)) (chaveMes alvo)) as [Hlt|Hge].
  - destruct (next_moves_forward (world s)) as [Hc Hm].
    unfold bind at 1. rewrite click_run by exact Hc.
    unfold bind at 1. rewrite waitForTimeout_eq. cbn [world trace].
    change (world (lido s)) with (world s).
    destruct (timeout_gate page 120 (snd (click page LCalNext (world s))))
      as [[]|e] eqn:Eg; cbn [settle];
      (eexists; eexists; exists LCalNext; split; [reflexivity|];
       simpl; rewrite wait_keeps_month, Hm, <- !app_assoc;
       split; [reflexivity|]; split; [reflexivity|]; split; [reflexivity|];
       split; [lia|rewrite Eg; reflexivity]).
  - destruct (prev_moves_back (world s)) as [Hc Hm].
    unfold bind at 1. rewrite click_run by exact Hc.
    unfold bind at 1. rewrite waitForTimeout_eq. cbn [world trace].
    change (world (lido s)) with (world s).
    destruct (timeout_gate page 120 (snd (click page LCalPrev (world s))))
      as [[]|e] eqn:Eg; cbn [settle];
      (eexists; eexists; exists LCalPrev; split; [reflexivity|];
       simpl; rewrite wait_keeps_month, Hm, <- !app_assoc;
       split; [reflexivity|]; split; [reflexivity|]; split; [reflexivity|];
       split; [lia|rewrite Eg; reflexivity]).
Qed.

(** A pass on the target month stops without a click. *)
Lemma passo_arrived i s :
  lo <= mes (world s) <= hi -> mes (world s) = chaveMes alvo ->
  navegarParaMes_passo page (Some alvo) i tt s = (Val (inr true), lido s).
Proof.
  intros Hr He. destruct (header_shows_month _ Hr) as (a & Ha & Ka).
  rewrite (navegarParaMes_passo_run alvo i s a Ha), Ka, He, Z.eqb_refl. reflexivity.
Qed.

(** The loop never goes past the target month: every click brings the
    month one closer, there are no more clicks than months to go, and
    the loop leaves either with its answer, having made them all, or
    with the rejection of a wait. *)
Lemma loop_converges n :
  forall i s,
    lo <= mes (world s) <= hi ->
    let d := Z.abs (chaveMes alvo - mes (world s)) in
    exists out s' evs,
      for_range n i tt (navegarParaMes_passo page (Some alvo)) s = (out, s')
      /\ (out = Val (if d <? Z.of_nat n then inr true else inl tt)
          /\ Z.of_nat (contar ehClique evs) = Z.min d (Z.of_nat n)
          \/ exists e, out = Exc e /\ rejeicaoDeEspera page e)
      /\ trace s' = trace s ++ evs
      /\ Z.abs (chaveMes alvo - mes (world s')) = d - Z.of_nat (contar ehClique evs)
      /\ Z.of_nat (contar ehClique evs) <= Z.min d (Z.of_nat n)
      /\ (mes (world s) <= chaveMes alvo ->
            mes (world s) <= mes (world s') <= chaveMes alvo
            /\ contar (fun e => match e with EvClick LCalPrev => true | _ => false end)
                      evs = O)
      /\ (chaveMes alvo <= mes (world s) ->
            chaveMes alvo <= mes (world s') <= mes (world s)
            /\ contar (fun e => match e with EvClick LCalNext => true | _ => false end)
                      evs = O).
Proof.
  induction n as [|n IH]; intros i s Hr d.
  - exists (Val (inl tt)), s, []. simpl for_range. unfold ret.
    split; [reflexivity|].
    split.
    { left. split; [|unfold contar; simpl; subst d; lia].
      destruct (Z.ltb_spec d (Z.of_nat 0)); [subst d; lia|reflexivity]. }
    split; [rewrite app_nil_r; reflexivity|].
    split; [unfold contar; simpl; lia|]. split; [unfold contar; simpl; subst d; lia|].
    split; intros; (split; [lia|reflexivity]).
  - rewrite for_range_S.
    destruct (Z.eq_dec (mes (world s)) (chaveMes alvo)) as [He|Hne].
    + rewrite passo_arrived by assumption.
      exists (Val (inr true)), (lido s), [EvText LPeriodButton].
      split; [reflexivity|].
      assert (Hd : d = 0) by (subst d; lia).
      split.
      { left. split; [|unfold contar; simpl; lia].
        destruct (Z.ltb_spec d (Z.of_nat (S n))); [reflexivity|lia]. }
      split; [reflexivity|]. simpl world.
      split; [unfold contar; simpl; lia|]. split; [unfold contar; simpl; lia|].
      split; intros; (split; [lia|reflexivity]).
    + destruct (passo_toward i s Hr Hne) as (out1 & s1 & c & E1 & T1 & Ec & M1 & D1 & O1).
      rewrite E1.
      assert (Hr1 : lo <= mes (world s1) <= hi).
      { rewrite M1. destruct (Z.ltb_spec (mes (world s)) (chaveMes alvo)); lia. }
      assert (Hc1 : contar ehClique [EvText LPeriodButton; EvClick c; EvWait 120] = 1%nat)
        by reflexivity.
      destruct (timeout_gate page 120 (snd (click page c (world s)))) as [[]|e] eqn:Eg;
        subst out1.
      * destruct (IH (i + 1) s1 Hr1)
          as (out & s' & evs & E2 & R2 & T2 & D2 & C2 & F2 & B2).
        exists out, s', ([EvText LPeriodButton; EvClick c; EvWait 120] ++ evs).
        split; [exact E2|].
        split.
        { destruct R2 as [[-> R2]|R2]; [left|right; exact R2].
          rewrite contar_app_events, Nat2Z.inj_add, R2, Hc1, D1. subst d.
          split; [|lia].
          destruct (Z.ltb_spec (Z.abs (chaveMes alvo - mes (world s)) - 1) (Z.of_nat n)),
            (Z.ltb_spec (Z.abs (chaveMes alvo - mes (world s))) (Z.of_nat (S n)));
            try reflexivity; lia. }
        split; [rewrite T2, T1, <- app_assoc; reflexivity|].
        split; [rewrite contar_app_events, Nat2Z.inj_add, Hc1, D2, D1; subst d; lia|].
        split; [rewrite contar_app_events, Nat2Z.inj_add, Hc1; rewrite D1 in C2;
                subst d; lia|].
        split.
        -- intros Hle. assert (Hlt : mes (world s) < chaveMes alvo) by lia.
           destruct (Z.ltb_spec (mes (world s)) (chaveMes alvo)); [|lia].
           destruct F2 as [F2 G2]; [lia|]. split; [lia|].
           rewrite contar_app_events, G2, Ec. reflexivity.
        -- intros Hge. assert (Hgt : chaveMes alvo < mes (world s)) by lia.
           destruct (Z.ltb_spec (mes (world s)) (chaveMes alvo)); [lia|].
           destruct B2 as [B2 G2]; [lia|]. split; [lia|].
           rewrite contar_app_events, G2, Ec. reflexivity.
      * exists (Exc e), s1, [EvText LPeriodButton; EvClick c; EvWait 120].
        split; [reflexivity|].
        split; [right; exists e; split; [reflexivity|];
                exists 120, (snd (click page c (world s))); exact Eg|].
        split; [exact T1|].
        split; [rewrite Hc1, D1; subst d; lia|].
        split; [rewrite Hc1; subst d; lia|].
        split.
        -- intros Hle. assert (Hlt : mes (world s) < chaveMes alvo) by lia.
           destruct (Z.ltb_spec (mes (world s)) (chaveMes alvo)); [|lia].
           split; [lia|]. rewrite Ec. reflexivity.
        -- intros Hge. assert (Hgt : chaveMes alvo < mes (world s)) by lia.
           destruct (Z.ltb_spec (mes (world s)) (chaveMes alvo)); [lia|].
           split; [lia|]. rewrite Ec. reflexivity.
Qed.

End MonthCursor.

Lemma lerDataVisivel_run s :
  lerDataVisivel page s
  = (Val (dataVisivel page (world s)),
     mkSt (world s) (trace s ++ [EvText LDateButton])).
Proof.
  unfold lerDataVisivel, innerText. unfold bind. rewrite catch_observe_run.
  reflexivity.
Qed.

End WithPage.

(** The header of the example grid is read back as its month, for the
    years the header pattern knows (1900 to 2099). *)
Lemma cabecalhoDe_lido k :
  1900 * 12 <= k <= 2099 * 12 + 11 ->
  exists a, headerDateApprox (cabecalhoDe k) = Some (Some a) /\ chaveMes a = k.
Proof.
  intros Hk.
  assert (H : upto (Z.to_nat 2400) (1900 * 12)
                (fun k => match headerDateApprox (cabecalhoDe k) with
                          | Some (Some a) => chaveMes a =? k
                          | _ => false
                          end) = true)
    by (vm_compute; reflexivity).
  pose proof (upto_spec _ _ _ H k ltac:(lia)) as Hc. cbv beta in Hc.
  destruct (headerDateApprox (cabecalhoDe k)) as [[a|]|]; try discriminate Hc.
  exists a. split; [reflexivity|]. apply Z.eqb_eq. exact Hc.
Qed.

(** C6.  In every pass that reads a date [a] off the header, the month
    navigation compares the linearized keys year*12+month of [a] and of
    the target: equal keys (the same month of the same year) end the
    navigation with success and without a click, a greater target key
    gives a click on the next control, a smaller one a click on the
    previous control.  On a grid that behaves as a month cursor (the
    header shows the month, next and previous move it by one, waiting
    leaves it) each pass away from the target month brings the key one
    month closer.  The navigation makes no more clicks than the months
    to go and than maxSteps, every click brings the key one month
    closer, and the month it ends on lies between the month it started
    from and the target: it never overshoots.  It ends on the target
    month when that is fewer than maxSteps months away, and maxSteps
    months closer otherwise; the one other way it ends is with the
    rejection of the wait that follows a click, which no page whose
    timed waits are fulfilled gives. *)
Theorem navegarParaMes_never_overshoots {W : Type} (page : Session W)
    (mes : W -> Z) (lo hi alvo maxSteps : Z) (s : St W) :
  (forall w, lo <= mes w <= hi ->
     exists a, headerDateApprox (textoCabecalho page w) = Some (Some a)
               /\ chaveMes a = mes w) ->
  (forall w, fst (click page LCalNext w) = Fulfilled tt
             /\ mes (snd (click page LCalNext w)) = mes w + 1) ->
  (forall w, fst (click page LCalPrev w) = Fulfilled tt
             /\ mes (snd (click page LCalPrev w)) = mes w - 1) ->
  (forall ms w, mes (wait_for_timeout page ms w) = mes w) ->
  lo <= chaveMes alvo <= hi ->
  lo <= mes (world s) <= hi ->
  0 <= maxSteps ->
  let d := Z.abs (chaveMes alvo - mes (world s)) in
  (forall i s0 a,
      headerDateApprox (textoCabecalho page (world s0)) = Some (Some a) ->
      sameMonthYear (Some a) (Some alvo) = (chaveMes a =? chaveMes alvo)
      /\ navegarParaMes_passo page (Some alvo) i tt s0
         = if chaveMes a =? chaveMes alvo then (Val (inr true), lido s0)
           else if chaveMes a <? chaveMes alvo then
             bind (locatorClick page LCalNext)
                  (fun _ => bind (waitForTimeout page 120) (fun _ => ret (inl tt)))
                  (lido s0)
           else
             bind (locatorClick page LCalPrev)
                  (fun _ => bind (waitForTimeout page 120) (fun _ => ret (inl tt)))
                  (lido s0))
  /\ (forall i s0,
        lo <= mes (world s0) <= hi -> mes (world s0) <> chaveMes alvo ->
        exists out s1 c,
          navegarParaMes_passo page (Some alvo) i tt s0 = (out, s1)
          /\ (out = Val (inl tt) \/ exists e, out = Exc e /\ rejeicaoDeEspera page e)
          /\ (esperasCumpridas page -> out = Val (inl tt))
          /\ trace s1 = trace s0 ++ [EvText LPeriodButton; EvClick c; EvWait 120]
          /\ c = (if mes (world s0) <? chaveMes alvo then LCalNext else LCalPrev)
          /\ Z.abs (chaveMes alvo - mes (world s1))
             = Z.abs (chaveMes alvo - mes (world s0)) - 1)
  /\ (exists out s' evs,
        navegarParaMes page (Some alvo) maxSteps s = (out, s')
        /\ (out = Val (d <? maxSteps)
            /\ Z.of_nat (contar ehClique evs) = Z.min d maxSteps
            \/ exists e, out = Exc e /\ rejeicaoDeEspera page e)
        /\ (esperasCumpridas page ->
              out = Val (d <? maxSteps)
              /\ Z.abs (chaveMes alvo - mes (world s')) = d - Z.min d maxSteps
              /\ Z.of_nat (contar ehClique evs) = Z.min d maxSteps)
        /\ trace s' = trace s ++ evs
        /\ Z.abs (chaveMes alvo - mes (world s')) = d - Z.of_nat (contar ehClique evs)
        /\ Z.of_nat (contar ehClique evs) <= Z.min d maxSteps
        /\ (mes (world s) <= chaveMes alvo ->
              mes (world s) <= mes (world s') <= chaveMes alvo)
        /\ (chaveMes alvo <= mes (world s) ->
              chaveMes alvo <= mes (world s') <= mes (world s))).
Proof.
  intros Hh Hn Hp Hw Ht Hs Hm d.
  assert (Hno : esperasCumpridas page -> forall e, ~ rejeicaoDeEspera page e).
  { intros He e (ms & w & H). rewrite He in H. discriminate H. }
  split; [|split].
  - intros i s0 a Ha. split; [apply sameMonthYear_key|].
    apply navegarParaMes_passo_run. exact Ha.
  - intros i s0 Hr Hne.
    destruct (passo_toward page mes lo hi alvo Hh Hn Hp Hw i s0 Hr Hne)
      as (out & s1 & c & E1 & T1 & Ec & _ & D1 & O1).
    exists out, s1, c. split; [exact E1|].
    assert (Hd : out = Val (inl tt) \/ exists e, out = Exc e /\ rejeicaoDeEspera page e).
    { destruct (timeout_gate page 120 (snd (click page c (world s0)))) as [[]|e] eqn:Eg;
        subst out; [left; reflexivity|right].
      exists e. split; [reflexivity|]. exists 120, (snd (click page c (world s0))).
      exact Eg. }
    split; [exact Hd|].
    split.
    { intros He. destruct Hd as [Hd|(e & _ & Hd)]; [exact Hd|].
      exfalso. exact (Hno He e Hd). }
    repeat split; assumption.
  - destruct (loop_converges page mes lo hi alvo Hh Hn Hp Hw Ht (Z.to_nat maxSteps) 0 s Hs)
      as (r & s' & evs & E & R & T & D & C & F & B).
    fold d in R, D, C. rewrite Z2Nat.id in R, C by assumption.
    assert (Hd : (exists o, r = Val o
                   /\ navegarParaMes page (Some alvo) maxSteps s = (Val (d <? maxSteps), s')
                   /\ Z.of_nat (contar ehClique evs) = Z.min d maxSteps)
                 \/ exists e, r = Exc e /\ rejeicaoDeEspera page e).
    { destruct R as [[-> R]|R]; [left|right; exact R].
      eexists. split; [reflexivity|]. split; [|exact R].
      rewrite navegarParaMes_unfold, E. destruct (d <? maxSteps); reflexivity. }
    exists (match r with
            | Val _ => Val (d <? maxSteps)
            | Exc e => Exc e
            | NoFuel => NoFuel
            end), s', evs.
    split.
    { destruct Hd as [(o & -> & Hv & _)|(e & -> & _)]; [exact Hv|].
      rewrite navegarParaMes_unfold, E. reflexivity. }
    assert (Ho : (match r with
                  | Val _ => Val (d <? maxSteps)
                  | Exc e => Exc e
                  | NoFuel => NoFuel
                  end = Val (d <? maxSteps)
                  /\ Z.of_nat (contar ehClique evs) = Z.min d maxSteps)
                 \/ exists e, match r with
                              | Val _ => Val (d <? maxSteps)
                              | Exc e => Exc e
                              | NoFuel => NoFuel
                              end = Exc e /\ rejeicaoDeEspera page e).
    { destruct Hd as [(o & -> & _ & Hc)|(e & -> & Hrej)].
      - left. split; [reflexivity|exact Hc].
      - right. exists e. split; [reflexivity|exact Hrej]. }
    split; [exact Ho|].
    split.
    { intros He. destruct Ho as [[Hv Hc]|(e & _ & Hrej)];
        [|exfalso; exact (Hno He e Hrej)].
      split; [exact Hv|]. split; [rewrite D, Hc; reflexivity|exact Hc]. }
    split; [exact T|]. split; [exact D|]. split; [exact C|].
    split; [intros H; apply F; exact H | intros H; apply B; exact H].
Qed.

Lemma navegarParaMes_never_overshoots_witness :
  exists s' evs,
    navegarParaMes paginaCalendario (Some 1772668800000) 36 (mkSt calendarioInicial [])
    = (Val true, s')
    /\ trace s' = evs
    /\ cal_mes (world s') = 2026 * 12 + 2
    /\ contar ehClique evs = 2%nat.
Proof.
  destruct (navegarParaMes_never_overshoots paginaCalendario cal_mes
              (1900 * 12) (2099 * 12 + 11) 1772668800000 36 (mkSt calendarioInicial []))
    as (_ & _ & out & s' & evs & E & _ & G & T & _ & _ & F & _).
  - intros w Hw. apply cabecalhoDe_lido. exact Hw.
  - intros w. split; reflexivity.
  - intros w. split; reflexivity.
  - intros ms w. reflexivity.
  - vm_compute. split; discriminate.
  - vm_compute. split; discriminate.
  - lia.
  - destruct G as (Ho & D & C); [intros ms w; reflexivity|]. subst out.
    exists s', evs. split; [exact E|]. split; [exact T|].
    assert (K : chaveMes 1772668800000 = 2026 * 12 + 2) by reflexivity.
    rewrite K in *. simpl world in *.
    change (cal_mes calendarioInicial) with (2026 * 12 + 0) in *.
    split; [lia|]. lia.
Defined.

(** *** Selection with confirmation *)

(** The first variant reports success only on a pass in which the
    text of the date button, read back and trimmed, is the target
    string. *)
Lemma selecionarDataComConfirmacao_true {W : Type} (page : Session W)
    dataBR maxTentativas s s' :
  CalendarGrid.selecionarDataComConfirmacao page dataBR maxTentativas s = (Val true, s') ->
  dataVisivel page (world s') = dataBR.
Proof.
  unfold CalendarGrid.selecionarDataComConfirmacao, for_le. unfold bind at 1.
  destruct (for_range _ _ _ _ s) as [[[u|b]|e|] s1] eqn:E; try discriminate.
  unfold ret. intros H. injection H as -> ->.
  apply for_range_inr in E. destruct E as (i' & x' & s0 & E).
  unfold CalendarGrid.confirmacao_passo in E. unfold bind at 1 in E.
  destruct (selecionarDataNoCalendario page dataBR s0) as [[ok|e|] s2];
    try discriminate E.
  destruct ok; cbn [negb] in E.
  - unfold bind at 1 in E. rewrite lerDataVisivel_run in E.
    destruct (eqb (dataVisivel page (world s2)) dataBR) eqn:Eq.
    + injection E as <-. simpl. apply eqb_eq. exact Eq.
    + exfalso. exact (wait_then_inl page _ _ _ _ _ E).
  - exfalso. exact (wait_then_inl page _ _ _ _ _ E).
Qed.

End CalendarGridFacts.


(** ** The previous/next stepper *)

Module LinearStepperFacts.
Import Dates Overlay LinearStepper AsyncFacts JsStringFacts DateFacts DatesFacts
  OverlayFacts.

Section WithPage.
Context {W : Type} (page : Session W).

Lemma readIonButtonTextByXpath_run b s :
  readIonButtonTextByXpath page b s
  = (Val (textoIon page b (world s)), mkSt (world s) (trace s ++ [EvEvaluate])).
Proof.
  unfold readIonButtonTextByXpath, try_catch, evaluate, bind, observe, domQuery, ret,
    emit, textoIon, settle.
  destruct (evaluate_gate page (world s)) as [[]|e]; simpl; [|reflexivity].
  destruct (dom_ion page b (world s)); reflexivity.
Qed.

Lemma ionExistsByCss_run b s :
  ionExistsByCss page b s
  = (Val (existeIon page b (world s)), mkSt (world s) (trace s ++ [EvEvaluate])).
Proof.
  unfold ionExistsByCss, try_catch, evaluate, bind, observe, domQuery, ret,
    emit, existeIon, settle.
  destruct (evaluate_gate page (world s)) as [[]|e]; simpl; [|reflexivity].
  destruct (dom_ion page b (world s)); reflexivity.
Qed.

Lemma clickIonButtonByCss_run b s :
  clickIonButtonByCss page b s
  = if existeIon page b (world s) then
      (Val true,
       mkSt (dom_click page (DomIon b) (world s))
            (trace s ++ [EvEvaluate; EvDomClick (DomIon b)]))
    else (Val false, mkSt (world s) (trace s ++ [EvEvaluate])).
Proof.
  unfold clickIonButtonByCss, try_catch, evaluate, bind, observe, domQuery, domClick,
    perform, ret, emit, existeIon, settle.
  destruct (evaluate_gate page (world s)) as [[]|e]; simpl; [|reflexivity].
  destruct (dom_ion page b (world s)); simpl; [|reflexivity].
  rewrite <- app_assoc. reflexivity.
Qed.

Lemma lerTextoDataExibida_run s :
  lerTextoDataExibida page s
  = (Val (rotulo page (world s)),
     mkSt (world s) (trace s ++ eventosLeitura page (world s))).
Proof.
  unfold lerTextoDataExibida. unfold bind at 1.
  rewrite readIonButtonTextByXpath_run. unfold rotulo, eventosLeitura. cbv zeta.
  destruct (truthy (textoIon page IonDateDisplay (world s))); [reflexivity|].
  unfold try_catch, innerText. unfold bind at 1. rewrite catch_observe_run.
  simpl world. simpl trace. rewrite <- app_assoc. simpl app.
  destruct (truthy _ && truthy _); reflexivity.
Qed.

Lemma eventosLeitura_quietos w :
  forallb ehLeituraOuEspera (eventosLeitura page w) = true.
Proof. unfold eventosLeitura. destruct (truthy _); reflexivity. Qed.

(** Events of that kind are no clicks on a control and end no step. *)
Lemma quietos_contar p evs :
  (forall e, ehLeituraOuEspera e = true -> p e = false) ->
  forallb ehLeituraOuEspera evs = true -> contar p evs = O.
Proof.
  intros Hp. unfold contar. induction evs as [|e evs IH]; simpl; intros H; [reflexivity|].
  apply andb_true_iff in H. destruct H as [He H]. rewrite (Hp e He). apply IH. exact H.
Qed.

Lemma quietos_sem_cliques evs :
  forallb ehLeituraOuEspera evs = true -> contar ehCliqueDirecional evs = O.
Proof.
  apply quietos_contar. intros [| | | | | | | | |]; simpl; try reflexivity; discriminate.
Qed.

Lemma quietos_sem_clique_em b evs :
  forallb ehLeituraOuEspera evs = true -> contar (ehCliqueEm b) evs = O.
Proof.
  apply quietos_contar. intros [| | | | | | | | |]; simpl; try reflexivity; discriminate.
Qed.

Lemma quietos_sem_fim evs :
  forallb ehLeituraOuEspera evs = true -> contar ehFimDePasso evs = O.
Proof.
  apply quietos_contar. intros [|ms| | | | | | | |]; simpl; try reflexivity; try discriminate.
  intros H. apply Z.eqb_eq in H. subst ms. reflexivity.
Qed.

Lemma eventosLeitura_sem_cliques w :
  contar ehCliqueDirecional (eventosLeitura page w) = O.
Proof. apply quietos_sem_cliques, eventosLeitura_quietos. Qed.

(** *** Waiting for the label to change *)

Lemma dateNow_run (s : St W) :
  dateNow page s = (Val (date_now page (world s)), mkSt (world s) (trace s ++ [EvNow])).
Proof. reflexivity. Qed.

(** One evaluation of the loop condition, spelled out. *)
Lemma esperarTextoMudar_loop_S fuel start timeoutMs anterior s :
  esperarTextoMudar_loop page (S fuel) start timeoutMs anterior s
  = let w := world s in
    if date_now page w - start <? timeoutMs then
      if truthy (rotulo page w) && negb (eqb (rotulo page w) anterior) then
        (Val (Some (rotulo page w)),
         mkSt w (trace s ++ [EvNow] ++ eventosLeitura page w))
      else
        let s1 := mkSt (wait_for_timeout page 80 w)
                       (trace s ++ [EvNow] ++ eventosLeitura page w ++ [EvWait 80]) in
        match timeout_gate page 80 w with
        | Fulfilled _ => esperarTextoMudar_loop page fuel start timeoutMs anterior s1
        | Rejected e => (Exc e, s1)
        end
    else (Val None, mkSt w (trace s ++ [EvNow])).
Proof.
  simpl esperarTextoMudar_loop. unfold bind at 1. rewrite dateNow_run. cbv zeta.
  destruct (date_now page (world s) - start <? timeoutMs); [|reflexivity].
  unfold bind at 1. rewrite lerTextoDataExibida_run. cbn [world trace].
  rewrite <- app_assoc.
  destruct (truthy (rotulo page (world s))
            && negb (eqb (rotulo page (world s)) anterior)); [reflexivity|].
  unfold bind at 1. rewrite waitForTimeout_eq. cbn [world trace].
  rewrite <- !app_assoc.
  destruct (timeout_gate page 80 (world s)) as [[]|e]; reflexivity.
Qed.

Lemma esperarTextoMudar_unfold fuel anterior timeoutMs s :
  esperarTextoMudar page fuel anterior timeoutMs s
  = match esperarTextoMudar_loop page fuel (date_now page (world s)) timeoutMs anterior
            (mkSt (world s) (trace s ++ [EvNow])) with
    | (Val (Some atual), s') => (Val atual, s')
    | (Val None, s') =>
        (Val (rotulo page (world s')),
         mkSt (world s') (trace s' ++ eventosLeitura page (world s')))
    | (Exc e, s') => (Exc e, s')
    | (NoFuel, s') => (NoFuel, s')
    end.
Proof.
  unfold esperarTextoMudar. unfold bind at 1. rewrite dateNow_run. unfold bind at 1.
  destruct (esperarTextoMudar_loop _ _ _ _ _ _) as [[[a|]|e|] s']; try reflexivity.
  apply lerTextoDataExibida_run.
Qed.

(** What the wait returns is the label of the state it ends in; it
    only reads and waits, and throws only the rejection of one of its
    waits. *)
Lemma esperarTextoMudar_loop_spec fuel :
  forall start timeoutMs anterior s,
  exists out s' evs,
    esperarTextoMudar_loop page fuel start timeoutMs anterior s = (out, s')
    /\ trace s' = trace s ++ evs
    /\ forallb ehLeituraOuEspera evs = true
    /\ (forall a, out = Val (Some a) -> a = rotulo page (world s'))
    /\ (forall e, out = Exc e -> rejeicaoDeEspera page e).
Proof.
  induction fuel as [|fuel IH]; intros start timeoutMs anterior s.
  - exists NoFuel, s, []. simpl. rewrite app_nil_r.
    repeat split; try reflexivity; intros; discriminate.
  - rewrite esperarTextoMudar_loop_S. cbv zeta.
    destruct (date_now page (world s) - start <? timeoutMs).
    + destruct (truthy (rotulo page (world s))
                && negb (eqb (rotulo page (world s)) anterior)).
      * eexists. eexists. exists ([EvNow] ++ eventosLeitura page (world s)).
        split; [reflexivity|]. cbn [world trace].
        split; [reflexivity|].
        split; [rewrite List.forallb_app, eventosLeitura_quietos; reflexivity|].
        split; [intros a Ha; injection Ha as <-; reflexivity|intros; discriminate].
      * destruct (timeout_gate page 80 (world s)) as [[]|e] eqn:Eg.
        -- match goal with |- context [esperarTextoMudar_loop page fuel start timeoutMs
                                         anterior ?s1] =>
             destruct (IH start timeoutMs anterior s1)
               as (out & s' & evs & E & T & C & L & X)
           end.
           exists out, s',
             (([EvNow] ++ eventosLeitura page (world s) ++ [EvWait 80]) ++ evs).
           split; [exact E|].
           split; [rewrite T; trace_eq|].
           split; [rewrite !List.forallb_app, eventosLeitura_quietos, C; reflexivity|].
           split; assumption.
        -- eexists. eexists.
           exists ([EvNow] ++ eventosLeitura page (world s) ++ [EvWait 80]).
           split; [reflexivity|]. cbn [world trace].
           split; [reflexivity|].
           split; [rewrite !List.forallb_app, eventosLeitura_quietos; reflexivity|].
           split; [intros; discriminate|].
           intros e0 H. injection H as <-. exists 80, (world s). exact Eg.
    + eexists. eexists. exists [EvNow]. split; [reflexivity|]. cbn [world trace].
      split; [reflexivity|]. split; [reflexivity|].
      split; intros; discriminate.
Qed.

Lemma esperarTextoMudar_spec fuel anterior timeoutMs s :
  exists out s' evs,
    esperarTextoMudar page fuel anterior timeoutMs s = (out, s')
    /\ trace s' = trace s ++ evs
    /\ forallb ehLeituraOuEspera evs = true
    /\ (forall a, out = Val a -> a = rotulo page (world s'))
    /\ (forall e, out = Exc e -> rejeicaoDeEspera page e).
Proof.
  rewrite esperarTextoMudar_unfold.
  destruct (esperarTextoMudar_loop_spec fuel (date_now page (world s)) timeoutMs anterior
              (mkSt (world s) (trace s ++ [EvNow])))
    as (out & s' & evs & E & T & C & L & X).
  rewrite E. simpl trace in T. destruct out as [[a|]|e|].
  - exists (Val a), s', ([EvNow] ++ evs). split; [reflexivity|].
    split; [rewrite T; trace_eq|].
    split; [rewrite List.forallb_app, C; reflexivity|].
    split; [intros b Hb; injection Hb as <-; apply L; reflexivity|intros; discriminate].
  - eexists. eexists. exists (([EvNow] ++ evs) ++ eventosLeitura page (world s')).
    split; [reflexivity|]. simpl world. simpl trace.
    split; [rewrite T; trace_eq|].
    split; [rewrite !List.forallb_app, C, eventosLeitura_quietos; reflexivity|].
    split; [intros b Hb; injection Hb as <-; reflexivity|intros; discriminate].
  - exists (Exc e), s', ([EvNow] ++ evs). split; [reflexivity|].
    split; [rewrite T; trace_eq|].
    split; [rewrite List.forallb_app, C; reflexivity|].
    split; [intros; discriminate|].
    intros e0 H. injection H as <-. apply X. reflexivity.
  - exists NoFuel, s', ([EvNow] ++ evs). split; [reflexivity|].
    split; [rewrite T; trace_eq|].
    split; [rewrite List.forallb_app, C; reflexivity|].
    split; intros; discriminate.
Qed.

(** With a clock that a wait of [ms] moves on by at least [ms], the
    wait for the label ends within the fuel its timeout calls for. *)
Lemma esperarTextoMudar_loop_ends fuel :
  (forall ms w, date_now page w + ms <= date_now page (wait_for_timeout page ms w)) ->
  forall start timeoutMs anterior s,
    timeoutMs - (date_now page (world s) - start) <= 80 * Z.of_nat fuel ->
    forall s', esperarTextoMudar_loop page (S fuel) start timeoutMs anterior s
               <> (NoFuel, s').
Proof.
  intros Hclock. induction fuel as [|fuel IH]; intros start timeoutMs anterior s Hrem s'.
  - rewrite esperarTextoMudar_loop_S. cbv zeta.
    destruct (Z.ltb_spec (date_now page (world s) - start) timeoutMs); [lia|].
    discriminate.
  - rewrite esperarTextoMudar_loop_S. cbv zeta.
    destruct (Z.ltb_spec (date_now page (world s) - start) timeoutMs); [|discriminate].
    destruct (truthy _ && negb _); [discriminate|].
    destruct (timeout_gate page 80 (world s)) as [[]|e]; [|discriminate].
    apply IH. simpl world. pose proof (Hclock 80 (world s)). lia.
Qed.

Lemma esperarTextoMudar_ends fuel anterior timeoutMs s :
  (forall ms w, date_now page w + ms <= date_now page (wait_for_timeout page ms w)) ->
  (1 <= fuel)%nat -> timeoutMs <= 80 * (Z.of_nat fuel - 1) ->
  forall s', esperarTextoMudar page fuel anterior timeoutMs s <> (NoFuel, s').
Proof.
  intros Hclock Hf1 Hf s'. rewrite esperarTextoMudar_unfold.
  destruct fuel as [|fuel]; [lia|].
  destruct (esperarTextoMudar_loop _ _ _ _ _ _) as [[[a|]|e|] s1] eqn:E; try discriminate.
  exfalso. revert E. apply esperarTextoMudar_loop_ends; [exact Hclock|].
  simpl world. lia.
Qed.

(** *** One step of the stepper *)

Lemma irAte_passo_run fuel alvoBR alvoDate hasPrev step s :
  irAte_passo page fuel alvoBR alvoDate hasPrev step tt s
  = let w := world s in
    let raw := rotulo page w in
    let s1 := mkSt w (trace s ++ eventosLeitura page w) in
    if truthy raw && includes raw alvoBR then (Val (inr true), s1)
    else
      let b := controle hasPrev alvoDate raw in
      if existeIon page b w then
        match esperarTextoMudar page fuel raw 2500
                (mkSt (dom_click page (DomIon b) w)
                      (trace s1 ++ [EvEvaluate; EvDomClick (DomIon b)])) with
        | (Val depois, s3) =>
            if truthy depois && includes depois alvoBR then (Val (inr true), s3)
            else (match timeout_gate page 120 (world s3) with
                  | Fulfilled _ => Val (inl tt)
                  | Rejected e => Exc e
                  end,
                  mkSt (wait_for_timeout page 120 (world s3)) (trace s3 ++ [EvWait 120]))
        | (Exc e, s3) => (Exc e, s3)
        | (NoFuel, s3) => (NoFuel, s3)
        end
      else
        (match timeout_gate page 150 w with
         | Fulfilled _ => Val (inl tt)
         | Rejected e => Exc e
         end,
         mkSt (wait_for_timeout page 150 w) (trace s1 ++ [EvEvaluate; EvWait 150])).
Proof.
  unfold irAte_passo. unfold bind at 1. rewrite lerTextoDataExibida_run. cbv zeta.
  destruct (truthy (rotulo page (world s)) && includes (rotulo page (world s)) alvoBR);
    [reflexivity|].
  unfold bind at 1.
  assert (Hc : (if direcao hasPrev alvoDate (rotulo page (world s)) =? -1
                then clickIonButtonByCss page IonPrev
                else clickIonButtonByCss page IonNext)
               = clickIonButtonByCss page
                   (controle hasPrev alvoDate (rotulo page (world s)))).
  { unfold controle. destruct (_ =? -1); reflexivity. }
  rewrite Hc, clickIonButtonByCss_run. cbn [world trace].
  destruct (existeIon page _ (world s)); cbn [negb].
  - unfold bind at 1.
    destruct (esperarTextoMudar page fuel _ 2500 _) as [[depois|e|] s3]; try reflexivity.
    destruct (truthy depois && includes depois alvoBR); [reflexivity|].
    unfold bind at 1. rewrite waitForTimeout_eq.
    destruct (timeout_gate page 120 (world s3)) as [[]|e]; reflexivity.
  - unfold bind at 1. rewrite waitForTimeout_eq. cbn [world trace].
    rewrite <- !app_assoc.
    destruct (timeout_gate page 150 (world s)) as [[]|e]; reflexivity.
Qed.

Ltac conta :=
  rewrite ?contar_app_events;
  rewrite ?(quietos_sem_cliques _ (eventosLeitura_quietos _)),
          ?(quietos_sem_clique_em _ _ (eventosLeitura_quietos _)),
          ?(quietos_sem_fim _ (eventosLeitura_quietos _));
  repeat match goal with
         | Q : forallb ehLeituraOuEspera ?evs = true |- _ =>
             rewrite ?(quietos_sem_cliques evs Q), ?(quietos_sem_clique_em _ evs Q),
                     ?(quietos_sem_fim evs Q); clear Q
         end;
  unfold contar; simpl; try reflexivity; try lia.

(** A step that reads a label with the target returns success at once.
    Any other step clicks the control [controle] names, once when the
    control is there and not at all when it is not, and no other; it
    ends with one wait of 120 or 150 ms unless it returns; it throws
    only the rejection of one of its waits; it leaves the function
    with a value only with success, and then the label of the state it
    ends in contains the target. *)
Lemma irAte_passo_spec fuel alvoBR alvoDate hasPrev step s :
  let raw := rotulo page (world s) in
  let b := controle hasPrev alvoDate raw in
  exists out s' evs,
    irAte_passo page fuel alvoBR alvoDate hasPrev step tt s = (out, s')
    /\ trace s' = trace s ++ evs
    /\ contar ehCliqueDirecional evs = contar (ehCliqueEm b) evs
    /\ (if truthy raw && includes raw alvoBR
        then out = Val (inr true) /\ world s' = world s
             /\ contar ehCliqueDirecional evs = O
        else contar (ehCliqueEm b) evs = if existeIon page b (world s) then 1%nat else O)
    /\ match out with
       | Val (inl _) => contar ehFimDePasso evs = 1%nat
       | Exc _ => (contar ehFimDePasso evs <= 1)%nat
       | _ => contar ehFimDePasso evs = O
       end
    /\ (forall r, out = Val (inr r) ->
          r = true /\ truthy (rotulo page (world s')) = true
          /\ includes (rotulo page (world s')) alvoBR = true)
    /\ (forall e, out = Exc e -> rejeicaoDeEspera page e)
    /\ ((forall ms w, date_now page w + ms <= date_now page (wait_for_timeout page ms w)) ->
        (33 <= fuel)%nat -> out <> NoFuel).
Proof.
  intros raw b. rewrite irAte_passo_run. cbv zeta. fold raw. fold b.
  destruct (truthy raw && includes raw alvoBR) eqn:Hhit.
  - eexists. eexists. exists (eventosLeitura page (world s)).
    split; [reflexivity|]. cbn [world trace]. split; [reflexivity|].
    split; [conta|]. split; [split; [reflexivity|split; [reflexivity|conta]]|].
    split; [conta|].
    apply andb_true_iff in Hhit.
    split; [intros r Hr; injection Hr as <-; tauto|].
    split; intros; discriminate.
  - assert (Hb : b = IonPrev \/ b = IonNext).
    { unfold b, controle. destruct (_ =? -1); tauto. }
    destruct (existeIon page b (world s)).
    + match goal with |- context [esperarTextoMudar page fuel ?a 2500 ?s2] =>
        destruct (esperarTextoMudar_spec fuel a 2500 s2) as (out & s3 & evs & E & T & Q & L & X);
        pose proof (esperarTextoMudar_ends fuel a 2500 s2) as Hends
      end.
      rewrite E in *. cbn [trace] in T. destruct out as [depois|e|].
      * specialize (L depois eq_refl). subst depois.
        destruct (truthy (rotulo page (world s3))
                  && includes (rotulo page (world s3)) alvoBR) eqn:Hhit2.
        -- eexists. eexists.
           exists ((eventosLeitura page (world s) ++ [EvEvaluate; EvDomClick (DomIon b)])
                   ++ evs).
           split; [reflexivity|]. split; [rewrite T; trace_eq|].
           split; [destruct Hb as [-> | ->]; conta|].
           split; [destruct Hb as [-> | ->]; conta|].
           split; [conta|].
           apply andb_true_iff in Hhit2.
           split; [intros r Hr; injection Hr as <-; tauto|].
           split; intros; discriminate.
        -- destruct (timeout_gate page 120 (world s3)) as [[]|e] eqn:Eg.
           ++ eexists. eexists.
              exists (((eventosLeitura page (world s)
                        ++ [EvEvaluate; EvDomClick (DomIon b)])
                       ++ evs) ++ [EvWait 120]).
              split; [reflexivity|]. cbn [world trace]. split; [rewrite T; trace_eq|].
              split; [destruct Hb as [-> | ->]; conta|].
              split; [destruct Hb as [-> | ->]; conta|].
              split; [conta|].
              split; [intros r Hr; discriminate|].
              split; intros; discriminate.
           ++ eexists. eexists.
              exists (((eventosLeitura page (world s)
                        ++ [EvEvaluate; EvDomClick (DomIon b)])
                       ++ evs) ++ [EvWait 120]).
              split; [reflexivity|]. cbn [world trace]. split; [rewrite T; trace_eq|].
              split; [destruct Hb as [-> | ->]; conta|].
              split; [destruct Hb as [-> | ->]; conta|].
              split; [conta|].
              split; [intros r Hr; discriminate|].
              split; [|intros; discriminate].
              intros e0 H. injection H as <-. exists 120, (world s3). exact Eg.
      * eexists. eexists.
        exists ((eventosLeitura page (world s) ++ [EvEvaluate; EvDomClick (DomIon b)])
                ++ evs).
        split; [reflexivity|]. split; [rewrite T; trace_eq|].
        split; [destruct Hb as [-> | ->]; conta|].
        split; [destruct Hb as [-> | ->]; conta|].
        split; [conta|].
        split; [intros; discriminate|].
        split; [intros e0 H; injection H as <-; apply X; reflexivity|].
        intros; discriminate.
      * eexists. eexists.
        exists ((eventosLeitura page (world s) ++ [EvEvaluate; EvDomClick (DomIon b)])
                ++ evs).
        split; [reflexivity|]. split; [rewrite T; trace_eq|].
        split; [destruct Hb as [-> | ->]; conta|].
        split; [destruct Hb as [-> | ->]; conta|].
        split; [conta|].
        split; [intros; discriminate|]. split; [intros; discriminate|].
        intros Hclock Hf _. apply (Hends Hclock ltac:(lia) ltac:(lia) s3). reflexivity.
    + destruct (timeout_gate page 150 (world s)) as [[]|e] eqn:Eg.
      * eexists. eexists.
        exists (eventosLeitura page (world s) ++ [EvEvaluate; EvWait 150]).
        split; [reflexivity|]. cbn [world trace]. split; [trace_eq|].
        split; [destruct Hb as [-> | ->]; conta|].
        split; [destruct Hb as [-> | ->]; conta|].
        split; [conta|].
        split; [intros; discriminate|]. split; intros; discriminate.
      * eexists. eexists.
        exists (eventosLeitura page (world s) ++ [EvEvaluate; EvWait 150]).
        split; [reflexivity|]. cbn [world trace]. split; [trace_eq|].
        split; [destruct Hb as [-> | ->]; conta|].
        split; [destruct Hb as [-> | ->]; conta|].
        split; [conta|].
        split; [intros; discriminate|]. split; [|intros; discriminate].
        intros e0 H. injection H as <-. exists 150, (world s). exact Eg.
Qed.

(** The loop over the steps: at most one click on a control and one
    closing wait per step, and all [n] steps made when it runs out. *)
Lemma irAte_loop_spec fuel alvoBR alvoDate hasPrev n :
  forall i s,
  exists out s' evs,
    for_range n i tt (irAte_passo page fuel alvoBR alvoDate hasPrev) s = (out, s')
    /\ trace s' = trace s ++ evs
    /\ (contar ehCliqueDirecional evs <= contar ehFimDePasso evs + 1)%nat
    /\ (contar ehFimDePasso evs <= n)%nat
    /\ (forall u, out = Val (inl u) ->
          contar ehFimDePasso evs = n
          /\ (contar ehCliqueDirecional evs <= n)%nat)
    /\ (forall r, out = Val (inr r) ->
          (contar ehFimDePasso evs < n)%nat
          /\ r = true /\ truthy (rotulo page (world s')) = true
          /\ includes (rotulo page (world s')) alvoBR = true)
    /\ (forall e, out = Exc e ->
          rejeicaoDeEspera page e /\ (contar ehCliqueDirecional evs <= n)%nat)
    /\ (out = NoFuel -> (contar ehFimDePasso evs < n)%nat)
    /\ ((forall ms w, date_now page w + ms <= date_now page (wait_for_timeout page ms w)) ->
        (33 <= fuel)%nat -> out <> NoFuel).
Proof.
  induction n as [|n IH]; intros i s.
  - exists (Val (inl tt)), s, []. split; [reflexivity|].
    split; [rewrite app_nil_r; reflexivity|]. split; [conta|]. split; [conta|].
    split; [intros; split; conta|].
    split; [intros; discriminate|]. split; [intros; discriminate|].
    split; intros; discriminate.
  - rewrite for_range_S.
    destruct (irAte_passo_spec fuel alvoBR alvoDate hasPrev i s)
      as (out & s1 & evs1 & E & T & Cb & Ch & Cf & L & X & F).
    set (b := controle hasPrev alvoDate (rotulo page (world s))) in *.
    assert (C1 : (contar ehCliqueDirecional evs1 <= 1)%nat).
    { rewrite Cb. destruct (truthy _ && includes _ _).
      - rewrite <- Cb. lia.
      - rewrite Ch. destruct (existeIon page b (world s)); lia. }
    rewrite E. destruct out as [[[]|r]|e|].
    + destruct (IH (i + 1) s1)
        as (out2 & s2 & evs2 & E2 & T2 & C2 & F2 & I2 & L2 & X2 & N2 & G2).
      exists out2, s2, (evs1 ++ evs2). split; [exact E2|].
      split; [rewrite T2, T; trace_eq|].
      rewrite !contar_app_events, Cf.
      split; [lia|]. split; [lia|].
      split; [intros u Hu; destruct (I2 u Hu); split; lia|].
      split; [intros r Hr; destruct (L2 r Hr) as (H0 & H1); split; [lia|exact H1]|].
      split; [intros e He; destruct (X2 e He) as [H0 H1]; split; [exact H0|lia]|].
      split; [intros Hn; specialize (N2 Hn); lia|exact G2].
    + exists (Val (inr r)), s1, evs1. split; [reflexivity|]. split; [exact T|].
      rewrite Cf. split; [lia|]. split; [lia|].
      split; [intros; discriminate|].
      split; [intros r0 Hr; split; [lia|]; apply L; exact Hr|].
      split; [intros; discriminate|]. split; intros; discriminate.
    + exists (Exc e), s1, evs1. split; [reflexivity|]. split; [exact T|].
      split; [lia|]. split; [lia|].
      split; [intros; discriminate|]. split; [intros; discriminate|].
      split; [intros e0 He; injection He as <-; split; [apply X; reflexivity|lia]|].
      split; intros; discriminate.
    + exists NoFuel, s1, evs1. split; [reflexivity|]. split; [exact T|].
      rewrite Cf. split; [lia|]. split; [lia|].
      split; [intros; discriminate|]. split; [intros; discriminate|].
      split; [intros; discriminate|]. split; [intros; lia|exact F].
Qed.

(** *** The whole navigation *)

Lemma irAteDataPorBotoes_run fuel alvoBR maxSteps s s1 :
  fecharOverlays page s = (Val tt, s1) ->
  irAteDataPorBotoes page fuel alvoBR maxSteps s
  = let w := world s1 in
    let hasPrev := existeIon page IonPrev w in
    let hasNext := existeIon page IonNext w in
    let s2 := mkSt w (trace s1 ++ [EvEvaluate; EvEvaluate]) in
    if negb hasNext && negb hasPrev then (Val false, s2)
    else
      let s3 := mkSt w (trace s2 ++ eventosLeitura page w) in
      if truthy (rotulo page w) && includes (rotulo page w) alvoBR then (Val true, s3)
      else
        match for_range (Z.to_nat maxSteps) 1 tt
                (irAte_passo page fuel alvoBR (getTime (parseBRDate alvoBR)) hasPrev)
                s3 with
        | (Val (inr r), s') => (Val r, s')
        | (Val (inl _), s') => (Val false, s')
        | (Exc e, s') => (Exc e, s')
        | (NoFuel, s') => (NoFuel, s')
        end.
Proof.
  intros Hf. unfold irAteDataPorBotoes. unfold bind at 1. rewrite Hf.
  unfold bind at 1. rewrite ionExistsByCss_run.
  unfold bind at 1. rewrite ionExistsByCss_run. cbn [world trace]. cbv zeta.
  rewrite <- app_assoc. cbn [app].
  destruct (negb (existeIon page IonNext (world s1))
            && negb (existeIon page IonPrev (world s1))); [reflexivity|].
  unfold bind at 1. rewrite lerTextoDataExibida_run. cbn [world trace].
  destruct (truthy (rotulo page (world s1)) && includes (rotulo page (world s1)) alvoBR);
    [reflexivity|].
  unfold for_le, bind. replace (maxSteps - 1 + 1) with maxSteps by lia.
  destruct (for_range _ _ _ _ _) as [[[u|r]|e|] s']; reflexivity.
Qed.

Lemma fecharOverlays_eventos s :
  exists s1 evs,
    fecharOverlays page s = (Val tt, s1)
    /\ trace s1 = trace s ++ evs
    /\ contar ehCliqueDirecional evs = O
    /\ contar ehFimDePasso evs = O.
Proof.
  destruct (fecharOverlays_total page s) as (s1 & evs & E & T & Hm).
  exists s1, evs. split; [exact E|]. split; [exact T|].
  destruct Hm as [-> | [-> | ->]]; split; reflexivity.
Qed.

(** The navigation first dismisses overlays and looks for the two
    controls.  With neither control it reports failure; with the target
    in the label it reports success; in both cases without a click.
    Otherwise it makes the steps: it clicks the controls at most
    maxSteps times, reports success only when the label of the state it
    ends in contains the target, reports failure only after maxSteps
    steps, throws only the rejection of one of its waits, and does not
    run out of fuel when the clock moves with the waits and the fuel
    covers the timeout. *)
Lemma irAteDataPorBotoes_spec fuel alvoBR maxSteps s :
  let w1 := world (snd (fecharOverlays page s)) in
  let controles := existeIon page IonNext w1 || existeIon page IonPrev w1 in
  let achou := truthy (rotulo page w1) && includes (rotulo page w1) alvoBR in
  exists out s' evs,
    irAteDataPorBotoes page fuel alvoBR maxSteps s = (out, s')
    /\ trace s' = trace s ++ evs
    /\ (controles = false ->
          out = Val false /\ world s' = w1 /\ contar ehCliqueDirecional evs = O)
    /\ (controles = true -> achou = true ->
          out = Val true /\ world s' = w1 /\ contar ehCliqueDirecional evs = O)
    /\ (contar ehCliqueDirecional evs <= Z.to_nat maxSteps)%nat
    /\ (out = Val true ->
          truthy (rotulo page (world s')) = true
          /\ includes (rotulo page (world s')) alvoBR = true)
    /\ (out = Val false ->
          controles = false
          \/ (achou = false /\ contar ehFimDePasso evs = Z.to_nat maxSteps))
    /\ (forall e, out = Exc e -> rejeicaoDeEspera page e)
    /\ ((forall ms w, date_now page w + ms <= date_now page (wait_for_timeout page ms w)) ->
        (33 <= fuel)%nat -> out <> NoFuel).
Proof.
  destruct (fecharOverlays_eventos s) as (s1 & evs1 & E1 & T1 & C1 & F1).
  rewrite (irAteDataPorBotoes_run fuel alvoBR maxSteps s s1 E1), E1. cbv zeta.
  cbn [snd].
  destruct (existeIon page IonNext (world s1)) eqn:Hn;
    [|destruct (existeIon page IonPrev (world s1)) eqn:Hp]; cbn [negb andb orb].
  3:{ eexists. eexists. exists (evs1 ++ [EvEvaluate; EvEvaluate]).
      split; [reflexivity|]. cbn [world trace]. split; [rewrite T1; trace_eq|].
      split; [intros _; split; [reflexivity|split; [reflexivity|]];
              rewrite contar_app_events, C1; reflexivity|].
      split; [intros H; discriminate H|].
      split; [rewrite contar_app_events, C1; unfold contar; simpl; lia|].
      split; [intros H; discriminate|]. split; [intros _; left; reflexivity|].
      split; intros; discriminate. }
  all: destruct (truthy (rotulo page (world s1)) && includes (rotulo page (world s1)) alvoBR)
      eqn:Hhit.
  all: try (eexists; eexists;
      exists ((evs1 ++ [EvEvaluate; EvEvaluate]) ++ eventosLeitura page (world s1));
      split; [reflexivity|]; cbn [world trace]; split; [rewrite T1; trace_eq|];
      split; [intros H; discriminate H|];
      split; [intros _ _; split; [reflexivity|split; [reflexivity|]];
              rewrite !contar_app_events, C1, eventosLeitura_sem_cliques; reflexivity|];
      split; [rewrite !contar_app_events, C1, eventosLeitura_sem_cliques;
              unfold contar; simpl; lia|];
      apply andb_true_iff in Hhit; split; [intros _; exact Hhit|];
      split; [intros H; discriminate|]; split; intros; discriminate).
  all: match goal with |- context [for_range ?n 1 tt (irAte_passo _ _ _ ?d ?hp) ?s3] =>
        destruct (irAte_loop_spec fuel alvoBR d hp n 1 s3)
          as (out & s' & evs & E & T & C & F & I & L & X & N & G)
      end;
      rewrite E; cbn [trace] in T;
      exists (match out with
              | Val (inr r) => Val r
              | Val (inl _) => Val false
              | Exc e => Exc e
              | NoFuel => NoFuel
              end), s',
        (((evs1 ++ [EvEvaluate; EvEvaluate]) ++ eventosLeitura page (world s1)) ++ evs);
      (split; [destruct out as [[[]|r]|e|]; reflexivity|]);
      (split; [rewrite T, T1; trace_eq|]);
      (split; [intros H; discriminate H|]);
      (split; [intros _ H; discriminate H|]);
      rewrite !contar_app_events, C1, F1, eventosLeitura_sem_cliques,
        (quietos_sem_fim _ (eventosLeitura_quietos (world s1)));
      change (contar ehCliqueDirecional [EvEvaluate; EvEvaluate]) with O;
      change (contar ehFimDePasso [EvEvaluate; EvEvaluate]) with O;
      cbn [Nat.add].
  all: split;
      [destruct out as [[[]|r]|e|];
        [destruct (I tt eq_refl); lia
        |destruct (L r eq_refl) as (H0 & _); lia
        |destruct (X e eq_refl) as (_ & H0); lia
        |specialize (N eq_refl); lia]|].
  all: split;
      [intros Ho; destruct out as [[[]|r]|e|]; try discriminate Ho;
       injection Ho as ->; destruct (L true eq_refl) as (_ & _ & H1 & H2); tauto|].
  all: split;
      [intros Ho; right; split; [reflexivity|];
       destruct out as [[[]|r]|e|]; try discriminate Ho;
       [destruct (I tt eq_refl); assumption
       |injection Ho as ->; destruct (L false eq_refl) as (_ & H0 & _); discriminate H0]|].
  all: split;
      [intros e Ho; destruct out as [[[]|r]|e'|]; try discriminate Ho;
       injection Ho as <-; apply (X e'); reflexivity|].
  all: intros Hc Hf Ho; destruct out as [[[]|r]|e'|]; try discriminate Ho;
       apply (G Hc Hf); reflexivity.
Qed.

(** *** The choice of the control *)






(** *** Selection with confirmation *)

(** The second variant reports success only on a pass in which the
    navigation reported it, and then the label of the state it ends in
    contains the target string. *)
Lemma selecionarDataComConfirmacao_true_stepper fuel dataBR maxTentativas s s' :
  LinearStepper.selecionarDataComConfirmacao page fuel dataBR maxTentativas s
  = (Val true, s') ->
  truthy (rotulo page (world s')) = true
  /\ includes (rotulo page (world s')) dataBR = true.
Proof.
  unfold LinearStepper.selecionarDataComConfirmacao, for_le. unfold bind at 1.
  destruct (for_range _ _ _ _ s) as [[[u|r]|e|] s1] eqn:E; try discriminate.
  unfold ret. intros H. injection H as -> ->.
  apply for_range_inr in E. destruct E as (i' & x' & s0 & E).
  unfold LinearStepper.confirmacao_passo in E. unfold bind at 1 in E.
  rewrite lerTextoDataExibida_run in E. unfold bind at 1 in E.
  match type of E with context [irAteDataPorBotoes page fuel dataBR 220 ?s2] =>
    destruct (irAteDataPorBotoes_spec fuel dataBR 220 s2)
      as (out & s3 & evs & E3 & _ & _ & _ & _ & L & _)
  end.
  rewrite E3 in E. destruct out as [[|]|e|]; try discriminate E.
  - unfold bind at 1 in E. rewrite lerTextoDataExibida_run in E.
    injection E as <-. cbn [world]. apply L. reflexivity.
  - unfold bind at 1 in E. rewrite lerTextoDataExibida_run in E.
    unfold bind at 1 in E.
    destruct (fecharOverlays page _) as [[[]|e|] s4]; try discriminate E.
    exfalso. exact (wait_then_inl page _ _ _ _ _ E).
Qed.

End WithPage.
End LinearStepperFacts.

(** ** Date targeting: confirmation and the stepper *)

Module TargetingClaims.
Import Dates Overlay LinearStepper AsyncFacts JsStringFacts DatesFacts
  CalendarGridFacts LinearStepperFacts.

(** C1, as the code has it.  When selecionarDataComConfirmacao reports
    success, reading the displayed date again in the state it ends in
    gives, in the calendar-grid variant, exactly the target string (the
    trimmed text of the date button), and in the previous/next variant a
    non-empty label that contains the target string. *)
Theorem selecionarDataComConfirmacao_reads_target {W : Type} (page : Session W)
    (fuel : nat) (dataBR : jsstring) (maxTentativas : Z) (s s' : St W) :
  (CalendarGrid.selecionarDataComConfirmacao page dataBR maxTentativas s = (Val true, s') ->
     fst (CalendarGrid.lerDataVisivel page s') = Val dataBR)
  /\ (LinearStepper.selecionarDataComConfirmacao page fuel dataBR maxTentativas s
      = (Val true, s') ->
     exists raw, fst (lerTextoDataExibida page s') = Val raw
                 /\ raw <> [] /\ includes raw dataBR = true).
Proof.
  split; intros H.
  - rewrite lerDataVisivel_run. cbn [fst]. f_equal.
    apply (selecionarDataComConfirmacao_true page dataBR maxTentativas s s' H).
  - destruct (selecionarDataComConfirmacao_true_stepper page fuel dataBR maxTentativas
                s s' H) as [Ht Hi].
    exists (rotulo page (world s')). rewrite lerTextoDataExibida_run. cbn [fst].
    split; [reflexivity|]. split; [|exact Hi].
    intros E. rewrite E in Ht. discriminate Ht.
Qed.

(** Both variants reach the fifth of March 2026 on the example pages and
    read the target back. *)
Lemma selecionarDataComConfirmacao_reads_target_witness :
  (exists s',
     CalendarGrid.selecionarDataComConfirmacao paginaCalendario (lit "05/03/2026") 3
       (mkSt calendarioInicial []) = (Val true, s')
     /\ fst (CalendarGrid.lerDataVisivel paginaCalendario s') = Val (lit "05/03/2026"))
  /\ (exists s' raw,
     LinearStepper.selecionarDataComConfirmacao (paginaStepper true true []) 33
       (lit "05/03/2026") 3 (mkSt (20515, 0) []) = (Val true, s')
     /\ fst (lerTextoDataExibida (paginaStepper true true []) s') = Val raw
     /\ includes raw (lit "05/03/2026") = true).
Proof.
  split.
  - assert (R : CalendarGrid.selecionarDataComConfirmacao paginaCalendario
                  (lit "05/03/2026") 3 (mkSt calendarioInicial [])
                = (Val true,
                   snd (CalendarGrid.selecionarDataComConfirmacao paginaCalendario
                          (lit "05/03/2026") 3 (mkSt calendarioInicial [])))).
    { vm_compute. reflexivity. }
    eexists. split; [exact R|].
    apply (proj1 (selecionarDataComConfirmacao_reads_target paginaCalendario 33
                    (lit "05/03/2026") 3 (mkSt calendarioInicial []) _)).
    exact R.
  - assert (R : LinearStepper.selecionarDataComConfirmacao (paginaStepper true true []) 33
                  (lit "05/03/2026") 3 (mkSt (20515, 0) [])
                = (Val true,
                   snd (LinearStepper.selecionarDataComConfirmacao
                          (paginaStepper true true []) 33
                          (lit "05/03/2026") 3 (mkSt (20515, 0) [])))).
    { vm_compute. reflexivity. }
    destruct (proj2 (selecionarDataComConfirmacao_reads_target
                       (paginaStepper true true []) 33
                       (lit "05/03/2026") 3 (mkSt (20515, 0) []) _) R)
      as (raw & E & _ & I).
    eexists. exists raw. split; [exact R|]. split; [exact E|exact I].
Defined.

(** C1 as stated fails for the previous/next variant: on a stepper
    whose label shows the weekday before the date, success is reported
    for the third of March 2026 and the label read back is not the
    target string. *)
Lemma selecionarDataComConfirmacao_label_differs :
  let page := paginaStepper true true (lit "Ter, ") in
  let r := LinearStepper.selecionarDataComConfirmacao page 33 (lit "03/03/2026") 3
             (mkSt (20515, 0) []) in
  fst r = Val true
  /\ fst (lerTextoDataExibida page (snd r)) = Val (lit "Ter, 03/03/2026")
  /\ lit "Ter, 03/03/2026" <> lit "03/03/2026".
Proof.
  cbv zeta. split; [vm_compute; reflexivity|].
  split; [vm_compute; reflexivity|]. discriminate.
Qed.




End TargetingClaims.


(** ** Environment and mail helpers *)

Module ConfigFacts.
Import Csv Config JsStringFacts PautaFacts.

(** *** isTrue *)

Lemma toLowerUnit_letter c x :
  (97 <= x <= 122)%N -> toLowerUnit c = x <-> c = x \/ c = (x - 32)%N.
Proof.
  intros Hx. unfold toLowerUnit.
  destruct (N.leb_spec 65 c), (N.leb_spec c 90), (N.leb_spec 192 c), (N.leb_spec c 222),
    (N.eqb_spec c 215); simpl; lia.
Qed.

Lemma toLowerCase_true l :
  toLowerCase l = lit "true" <->
  exists a b c d,
    l = [a; b; c; d]
    /\ (a = 116 \/ a = 84)%N /\ (b = 114 \/ b = 82)%N
    /\ (c = 117 \/ c = 85)%N /\ (d = 101 \/ d = 69)%N.
Proof.
  change (lit "true") with [116; 114; 117; 101]%N. unfold toLowerCase. split.
  - destruct l as [|a [|b [|c [|d [|? ?]]]]]; simpl; intros H; try discriminate H.
    injection H as Ha Hb Hc Hd. exists a, b, c, d. split; [reflexivity|].
    apply toLowerUnit_letter in Ha, Hb, Hc, Hd; lia.
  - intros (a & b & c & d & -> & Ha & Hb & Hc & Hd). simpl.
    f_equal; [|f_equal; [|f_equal; [|f_equal]]]; apply toLowerUnit_letter; lia.
Qed.

(** X1.  isTrue answers true exactly for the strings that, once trimmed, are
    [1] or the word true in any mix of upper and lower case; white
    space around the value does not count; a value that is not set is
    not true. *)
Theorem isTrue_spec :
  (forall v,
     isTrue v = true <->
     exists s, v = VStr s
       /\ (trim s = lit "1"
           \/ exists a b c d,
                trim s = [a; b; c; d]
                /\ (a = 116 \/ a = 84)%N /\ (b = 114 \/ b = 82)%N
                /\ (c = 117 \/ c = 85)%N /\ (d = 101 \/ d = 69)%N))
  /\ (forall a s b,
        Forall (fun c => isWhiteSpace c = true) a ->
        Forall (fun c => isWhiteSpace c = true) b ->
        isTrue (VStr (a ++ s ++ b)) = isTrue (VStr s))
  /\ isTrue VUndefined = false /\ isTrue VNull = false
  /\ isTrue (VStr []) = false.
Proof.
  split; [|split; [|repeat split; reflexivity]].
  - intros v. unfold isTrue. rewrite orb_true_iff. unfold eqb.
    rewrite !bool_decide_eq_true, toLowerCase_true. split.
    + intros H. destruct v as [| |s]; simpl in H.
      * destruct H as [(a & b & c & d & H & _)|H]; discriminate H.
      * destruct H as [(a & b & c & d & H & _)|H]; discriminate H.
      * exists s. split; [reflexivity|]. simpl in H. tauto.
    + intros (s & -> & H). simpl. tauto.
  - intros a s b Ha Hb. unfold isTrue. simpl. rewrite (trim_around a s b Ha Hb).
    reflexivity.
Qed.

(** *** parseMailTo *)

Lemma splitBy_parts f s : Forall (Forall (fun c => f c = false)) (splitBy f s).
Proof.
  induction s as [|c r IH]; simpl; [repeat constructor|].
  destruct (f c) eqn:Ec; [constructor; [constructor|exact IH]|].
  destruct (splitBy f r) as [|h t]; [repeat constructor; exact Ec|].
  inversion IH as [|? ? Hh Ht]; subst. constructor; [|exact Ht].
  constructor; assumption.
Qed.

Lemma splitBy_no_sep f s : Forall (fun c => f c = false) s -> splitBy f s = [s].
Proof.
  induction 1 as [|c r Hc Hr IH]; simpl; [reflexivity|]. rewrite Hc, IH. reflexivity.
Qed.

Lemma splitBy_app_sep f a sep r :
  Forall (fun c => f c = false) a -> f sep = true ->
  splitBy f (a ++ sep :: r) = a :: splitBy f r.
Proof.
  intros Ha Hs. induction Ha as [|c a' Hc Ha IH]; simpl.
  - rewrite Hs. reflexivity.
  - rewrite Hc, IH. reflexivity.
Qed.

Lemma splitBy_join f sep parts :
  f sep = true -> parts <> [] ->
  Forall (Forall (fun c => f c = false)) parts ->
  splitBy f (join [sep] parts) = parts.
Proof.
  intros Hs Hne H. induction H as [|p rest Hp Hrest IH]; [congruence|].
  destruct rest as [|q rest'].
  - simpl. apply splitBy_no_sep. exact Hp.
  - change (join [sep] (p :: q :: rest')) with (p ++ sep :: join [sep] (q :: rest')).
    rewrite (splitBy_app_sep f p sep _ Hp Hs), IH by discriminate. reflexivity.
Qed.

(** X2.  Whatever parseMailTo returns holds no empty entry, no entry with
    white space at either end and no entry with a semicolon or a comma
    in it; a value that is not set or is empty gives no entry. *)
Theorem parseMailTo_entries (v : JsVal) :
  Forall (fun a => a <> [] /\ aparado a /\ Forall (fun c => isMailSep c = false) a)
         (parseMailTo v)
  /\ parseMailTo VUndefined = [] /\ parseMailTo VNull = [] /\ parseMailTo (VStr []) = [].
Proof.
  split; [|repeat split; reflexivity].
  destruct v as [| |[|c r]]; simpl; try constructor.
  apply List.Forall_forall. intros a Ha.
  apply List.filter_In in Ha. destruct Ha as [Ha Ht].
  apply List.in_map_iff in Ha. destruct Ha as (x & <- & Hx).
  split; [intros E; rewrite E in Ht; discriminate Ht|].
  split; [apply trim_idem|].
  pose proof (splitBy_parts isMailSep (c :: r)) as Hp.
  pose proof (proj1 (List.Forall_forall _ _) Hp x Hx) as Hxs.
  apply List.Forall_forall. intros u Hu. apply trim_In in Hu.
  apply (proj1 (List.Forall_forall _ _) Hxs u Hu).
Qed.

(** X3.  A list of addresses written with a semicolon or a comma between
    them is read back as it was, when no address is empty, begins or
    ends with white space or holds a semicolon or a comma. *)
Theorem parseMailTo_join (sep : N) (addrs : list jsstring) :
  isMailSep sep = true ->
  Forall (fun a => a <> [] /\ aparado a /\ Forall (fun c => isMailSep c = false) a)
         addrs ->
  parseMailTo (VStr (join [sep] addrs)) = addrs.
Proof.
  intros Hs Ha. destruct addrs as [|a rest]; [reflexivity|].
  assert (Hj : splitBy isMailSep (join [sep] (a :: rest)) = a :: rest).
  { apply splitBy_join; [exact Hs|discriminate|].
    apply List.Forall_forall. intros x Hx.
    apply (proj1 (List.Forall_forall _ _) Ha x Hx). }
  assert (Hf : forall l : list jsstring,
             Forall (fun a => a <> [] /\ aparado a
                              /\ Forall (fun c => isMailSep c = false) a) l ->
             List.filter truthy (List.map trim l) = l).
  { induction 1 as [|x l (Hx & Ht & _) Hl IH]; [reflexivity|].
    simpl. rewrite Ht. destruct x; [congruence|]. simpl. f_equal. exact IH. }
  unfold parseMailTo.
  destruct (join [sep] (a :: rest)) as [|c r] eqn:Ej.
  - exfalso. inversion Ha as [|? ? (Hne & _) _]; subst.
    destruct a; [congruence|]. destruct rest; discriminate Ej.
  - rewrite Hj. apply Hf. exact Ha.
Qed.

Lemma parseMailTo_join_witness :
  parseMailTo (VStr (lit "a@x.org;b@y.org")) = [lit "a@x.org"; lit "b@y.org"].
Proof.
  apply (parseMailTo_join cSEMI [lit "a@x.org"; lit "b@y.org"]).
  - reflexivity.
  - repeat constructor; discriminate.
Defined.

(** *** escapeRegExp *)

Lemma isRegExpSpecial_backslash : isRegExpSpecial cBACKSLASH = true.
Proof. reflexivity. Qed.

(** X4.  An escaped string reads back as the string it came from; it is as
    much longer as the string has characters of the class; and a string
    with no such character is left as it is. *)
Theorem escapeRegExp_reads_back (s : jsstring) :
  desescapar (escapeRegExp s) = s
  /\ length (escapeRegExp s)
     = (length s + length (List.filter isRegExpSpecial s))%nat
  /\ (Forall (fun c => isRegExpSpecial c = false) s -> escapeRegExp s = s)
  /\ (forall c, In c (escapeRegExp s) -> c = cBACKSLASH \/ In c s).
Proof.
  unfold escapeRegExp. split; [|split; [|split]].
  - induction s as [|c r IH]; [reflexivity|].
    simpl. destruct (isRegExpSpecial c) eqn:Ec.
    + simpl. rewrite IH. reflexivity.
    + simpl. destruct (N.eqb_spec c cBACKSLASH) as [->|_]; [discriminate Ec|].
      rewrite IH. reflexivity.
  - induction s as [|c r IH]; [reflexivity|].
    simpl. destruct (isRegExpSpecial c); simpl; rewrite IH; lia.
  - induction 1 as [|c r Hc Hr IH]; [reflexivity|]. simpl. rewrite Hc, IH. reflexivity.
  - intros c Hc. apply List.in_flat_map in Hc. destruct Hc as (x & Hx & Hc).
    destruct (isRegExpSpecial x).
    + destruct Hc as [<-|[<-|[]]]; [left; reflexivity|right; exact Hx].
    + destruct Hc as [<-|[]]. right. exact Hx.
Qed.

End ConfigFacts.

(** ** More on the date helpers *)

Module DateHelperFacts.
Import Dates DateFacts DatesFacts JsStringFacts.

Lemma parseBRDate_no_slash s : no_sep cSLASH s -> parseBRDate s = None.
Proof.
  intros H. unfold parseBRDate. rewrite (split_no_sep cSLASH s H). simpl.
  unfold numAt. simpl. destruct (toNumber s); reflexivity.
Qed.



(** X6.  A string that parseBRDate cannot read counts as a business day:
    the weekday of an invalid date is NaN, which differs from 0 and
    from 6.  A string without a slash is such a string. *)
Theorem isWeekdayBR_unreadable (s : jsstring) :
  (parseBRDate s = None -> isWeekdayBR s = true)
  /\ (no_sep cSLASH s -> parseBRDate s = None /\ isWeekdayBR s = true).
Proof.
  assert (H : parseBRDate s = None -> isWeekdayBR s = true).
  { intros E. unfold isWeekdayBR. rewrite E. reflexivity. }
  split; [exact H|]. intros Hs. pose proof (parseBRDate_no_slash s Hs) as E.
  split; [exact E|apply H, E].
Qed.




(** *** getTodayBR *)

(** X27.  With the clock between 1970 and the year 9999, getTodayBR
    writes today as two digits, a slash, two digits, a slash and four
    digits, and parseBRDate reads the string back as midnight of
    today: the same year, month and day.  isWeekdayBR of it tells
    whether today is a Monday-to-Friday day. *)
Theorem getTodayBR_reads_back (hoje : Z) :
  0 <= hoje < ano9999 ->
  isDDMMYYYY (getTodayBR hoje) = true
  /\ parseBRDate (getTodayBR hoje) = Some (MakeDate (Day hoje) 0)
  /\ getFullYear (parseBRDate (getTodayBR hoje)) = Some (YearFromTime hoje)
  /\ getMonth (parseBRDate (getTodayBR hoje)) = Some (MonthFromTime hoje)
  /\ getDate (parseBRDate (getTodayBR hoje)) = Some (DateFromTime hoje)
  /\ isWeekdayBR (getTodayBR hoje) = (1 <=? WeekDay hoje) && (WeekDay hoje <=? 5).
Proof.
  intros Hh.
  assert (Hd : 0 <= Day hoje < 2932897)
    by (unfold ano9999, Day, msPerDay in *; zdiv).
  assert (Hy : 1000 <= YearFromTime hoje <= 9999).
  { unfold YearFromTime. pose proof (civil_year_range (Day hoje) Hd). lia. }
  assert (Eb : getTodayBR hoje = brOfDay (Day hoje)).
  { unfold getTodayBR. cbv zeta. apply (printed_brOfDay hoje Hd). }
  assert (Ep : parseBRDate (getTodayBR hoje) = Some (MakeDate (Day hoje) 0)).
  { rewrite Eb. apply parseBRDate_brOfDay. exact Hd. }
  split.
  - rewrite (getTodayBR_canonical hoje Hy). apply canonicalBR_shape; [exact Hy| |].
    + pose proof (MonthFromTime_range hoje). lia.
    + pose proof (DateFromTime_range hoje). lia.
  - split; [exact Ep|]. rewrite Ep.
    unfold getFullYear, getMonth, getDate. cbn [option_map].
    unfold YearFromTime, MonthFromTime, DateFromTime. rewrite Day_midnight.
    split; [reflexivity|]. split; [reflexivity|]. split; [reflexivity|].
    rewrite Eb, (isWeekdayBR_brOfDay _ Hd). reflexivity.
Qed.

Lemma getTodayBR_reads_back_witness :
  getTodayBR segunda_2_marco_2026 = lit "02/03/2026"
  /\ isWeekdayBR (getTodayBR segunda_2_marco_2026) = true.
Proof.
  assert (Hh : 0 <= segunda_2_marco_2026 < ano9999)
    by (unfold ano9999, segunda_2_marco_2026; lia).
  destruct (getTodayBR_reads_back segunda_2_marco_2026 Hh) as (_ & _ & _ & _ & _ & Hw).
  split; [reflexivity|]. rewrite Hw. reflexivity.
Defined.

End DateHelperFacts.

(** ** The date token of a label *)

Module TokenFacts.
Import Dates LinearStepper JsStringFacts PautaFacts ConfigFacts.

Lemma dateTokenAt_spec s tok :
  dateTokenAt s = Some tok ->
  exists rest,
    s = tok ++ rest /\ isDDMMYYYY tok = true
    /\ match rest with [] => True | c :: _ => isWordChar c = false end.
Proof.
  unfold dateTokenAt.
  destruct s as [|d1 [|d2 [|s1 [|m1 [|m2 [|s2 [|y1 [|y2 [|y3 [|y4 rest]]]]]]]]]];
    try discriminate.
  destruct (_ && _) eqn:E; [|discriminate]. intros H. injection H as <-.
  apply andb_true_iff in E. destruct E as [E B].
  exists rest. split; [reflexivity|]. split; [exact E|].
  destruct rest as [|c r]; [exact I|]. apply negb_true_iff in B. exact B.
Qed.

Lemma matchDateToken_sound s :
  forall pw tok,
    matchDateToken pw s = Some tok ->
    isDDMMYYYY tok = true /\ includes s tok = true.
Proof.
  induction s as [|c r IH]; intros pw tok H; [discriminate H|].
  cbn [matchDateToken] in H.
  destruct (if pw then None else dateTokenAt (c :: r)) as [t|] eqn:E.
  - injection H as ->. destruct pw; [discriminate E|].
    apply dateTokenAt_spec in E. destruct E as (rest & Es & Hs & _).
    split; [exact Hs|]. apply includes_spec. exists [], rest. exact Es.
  - destruct (IH _ _ H) as [Hs Hi]. split; [exact Hs|].
    rewrite includes_unfold, Hi. apply orb_true_r.
Qed.

Lemma trim_split s :
  exists a b, s = a ++ trim s ++ b.
Proof.
  destruct (trimStart_split s) as (a & Ea & _).
  unfold trim, trimEnd.
  destruct (trimStart_split (rev (trimStart s))) as (b & Eb & _).
  exists a, (rev b). rewrite <- rev_app_distr, <- Eb, rev_involutive. exact Ea.
Qed.

(** X8.  What extrairDataBR returns is empty or is a token of ten code units
    -- two digits, a slash, two digits, a slash, four digits -- that
    occurs in the text. *)
Theorem extrairDataBR_token (texto : jsstring) :
  extrairDataBR texto = []
  \/ (isDDMMYYYY (extrairDataBR texto) = true
      /\ length (extrairDataBR texto) = 10%nat
      /\ includes texto (extrairDataBR texto) = true).
Proof.
  unfold extrairDataBR. cbv zeta.
  destruct (matchDateToken false (trim texto)) as [tok|] eqn:E; [|left; reflexivity].
  right. simpl. destruct (matchDateToken_sound _ _ _ E) as [Hs Hi].
  split; [exact Hs|]. split.
  - destruct tok as [|d1 [|d2 [|s1 [|m1 [|m2 [|s2 [|y1 [|y2 [|y3 [|y4 [|? ?]]]]]]]]]]];
      try discriminate Hs. reflexivity.
  - apply includes_spec in Hi. destruct Hi as (l & r & Et).
    destruct (trim_split texto) as (a & b & Ea).
    apply includes_spec. exists (a ++ l), (r ++ b).
    rewrite Ea at 1. rewrite Et, <- !app_assoc. reflexivity.
Qed.

Lemma dateTokenAt_nodigit c r :
  isDigit c = false -> dateTokenAt (c :: r) = None.
Proof.
  intros Hc. unfold dateTokenAt.
  destruct r as [|d2 [|s1 [|m1 [|m2 [|s2 [|y1 [|y2 [|y3 [|y4 rest]]]]]]]]];
    try reflexivity.
  rewrite Hc. reflexivity.
Qed.

Lemma dateTokenAt_token tok :
  isDDMMYYYY tok = true -> dateTokenAt tok = Some tok.
Proof.
  intros H.
  destruct tok as [|d1 [|d2 [|s1 [|m1 [|m2 [|s2 [|y1 [|y2 [|y3 [|y4 [|? ?]]]]]]]]]]];
    try discriminate H.
  unfold dateTokenAt. simpl in H. rewrite H. reflexivity.
Qed.

Lemma token_head tok :
  isDDMMYYYY tok = true -> exists c r, tok = c :: r /\ isDigit c = true.
Proof.
  intros H.
  destruct tok as [|d1 [|d2 [|s1 [|m1 [|m2 [|s2 [|y1 [|y2 [|y3 [|y4 [|? ?]]]]]]]]]]];
    try discriminate H.
  simpl in H. rewrite !andb_true_iff in H. eexists. eexists. split; [reflexivity|tauto].
Qed.

Lemma token_no_space tok : isDDMMYYYY tok = true -> no_space tok.
Proof.
  intros H.
  destruct tok as [|d1 [|d2 [|s1 [|m1 [|m2 [|s2 [|y1 [|y2 [|y3 [|y4 [|? ?]]]]]]]]]]];
    try discriminate H.
  simpl in H. rewrite !andb_true_iff in H.
  destruct H as (((((((((H1 & H2) & H3) & H4) & H5) & H6) & H7) & H8) & H9) & H10).
  apply N.eqb_eq in H3, H6. subst s1 s2.
  repeat constructor; try (apply digit_no_space; assumption); reflexivity.
Qed.

(** The label's prefix is stepped over when it has no digit and does
    not end in a word character. *)
Lemma matchDateToken_prefix tok :
  isDDMMYYYY tok = true ->
  forall pre pw,
    Forall (fun c => isDigit c = false) pre ->
    (match pre with [] => pw | _ => isWordChar (List.last pre 0%N) end) = false ->
    matchDateToken pw (pre ++ tok) = Some tok.
Proof.
  intros Ht. induction pre as [|c pre IH]; intros pw Hd Hl.
  - simpl in Hl. subst pw. simpl app.
    destruct (token_head tok Ht) as (c & r & E & _).
    rewrite E. cbn [matchDateToken]. rewrite <- E, (dateTokenAt_token tok Ht).
    reflexivity.
  - inversion Hd as [|? ? Hc Hd']; subst.
    change ((c :: pre) ++ tok) with (c :: pre ++ tok). cbn [matchDateToken].
    rewrite (dateTokenAt_nodigit c _ Hc).
    replace (if pw then None else None) with (@None jsstring) by (destruct pw; reflexivity).
    apply IH; [exact Hd'|]. destruct pre as [|c' pre']; exact Hl.
Qed.

(** X9.  From a label made of a prefix and a date token extrairDataBR
    returns the token, when the prefix has no digit and does not end in
    a letter or an underscore. *)
Theorem extrairDataBR_prefixed (pre tok : jsstring) :
  isDDMMYYYY tok = true ->
  Forall (fun c => isDigit c = false) pre ->
  (match pre with [] => false | _ => isWordChar (List.last pre 0%N) end) = false ->
  extrairDataBR (pre ++ tok) = tok.
Proof.
  intros Ht Hd Hl.
  destruct (token_head tok Ht) as (c & r & E & Hc).
  assert (Hns : isWhiteSpace c = false).
  { pose proof (token_no_space tok Ht) as H. rewrite E in H.
    inversion H; assumption. }
  (* trimming takes white space off the prefix only *)
  destruct (trimStart_split pre) as (ws & Ews & Hws).
  set (pre' := trimStart pre) in *.
  assert (Etrim : trim (pre ++ tok) = pre' ++ tok).
  { unfold trim.
    assert (E1 : trimStart (pre ++ tok) = pre' ++ tok).
    { rewrite Ews, <- app_assoc, (trimStart_app_white ws _ Hws).
      apply trimStart_id. destruct pre' as [|a p] eqn:Ep.
      - rewrite E. exact Hns.
      - pose proof (trimStart_headok pre) as Hh. fold pre' in Hh. rewrite Ep in Hh.
        exact Hh. }
    rewrite E1. unfold trimEnd. rewrite rev_app_distr.
    pose proof (token_no_space tok Ht) as Hn.
    assert (Hr : headok (rev tok ++ rev pre')).
    { destruct (rev tok) as [|x t] eqn:Er.
      - apply (f_equal (@rev N)) in Er. rewrite rev_involutive in Er. simpl in Er.
        rewrite Er in E. discriminate E.
      - simpl. assert (Hx : In x tok) by (apply in_rev; rewrite Er; left; reflexivity).
        apply (proj1 (List.Forall_forall _ _) Hn x Hx). }
    rewrite (trimStart_id _ Hr), <- rev_app_distr, rev_involutive. reflexivity. }
  unfold extrairDataBR. cbv zeta. rewrite Etrim.
  rewrite (matchDateToken_prefix tok Ht pre' false); [reflexivity| |].
  - rewrite Ews in Hd. apply Forall_app in Hd. tauto.
  - destruct pre' as [|a p] eqn:Ep; [reflexivity|].
    assert (El : List.last pre 0%N = List.last (a :: p) 0%N).
    { rewrite Ews. clear. induction ws as [|w ws IH]; [reflexivity|].
      change ((w :: ws) ++ a :: p) with (w :: (ws ++ a :: p)).
      destruct (ws ++ a :: p) eqn:Ex; [destruct ws; discriminate Ex|].
      exact IH. }
    destruct pre as [|b q]; [destruct ws; discriminate Ews|].
    rewrite El in Hl. exact Hl.
Qed.

Lemma extrairDataBR_prefixed_witness :
  extrairDataBR (lit "Ter, 03/03/2026") = lit "03/03/2026".
Proof.
  apply (extrairDataBR_prefixed (lit "Ter, ") (lit "03/03/2026")).
  - reflexivity.
  - repeat constructor.
  - reflexivity.
Defined.

End TokenFacts.

(** ** The header of the month grid *)

Module HeaderFacts.
Import Dates CalendarGrid JsStringFacts DateFacts DatesFacts.

Lemma matchYear_spec s :
  forall m,
    matchYear s = Some m ->
    exists a b d1 d2,
      m = [a; b; d1; d2]
      /\ ((a = 49 /\ b = 57) \/ (a = 50 /\ b = 48))%N
      /\ isDigit d1 = true /\ isDigit d2 = true
      /\ includes s m = true.
Proof.
  induction s as [|c r IH]; intros m H; [discriminate H|].
  cbn [matchYear] in H.
  assert (Hrec : matchYear r = Some m ->
                 exists a b d1 d2,
                   m = [a; b; d1; d2]
                   /\ ((a = 49 /\ b = 57) \/ (a = 50 /\ b = 48))%N
                   /\ isDigit d1 = true /\ isDigit d2 = true
                   /\ includes (c :: r) m = true).
  { intros Hr. destruct (IH m Hr) as (a & b & d1 & d2 & E & Hab & H1 & H2 & Hi).
    exists a, b, d1, d2. repeat split; try assumption.
    rewrite includes_unfold, Hi. apply orb_true_r. }
  destruct r as [|b [|d1 [|d2 rest]]]; try (apply Hrec; exact H).
  destruct (_ && _ && _) eqn:E; [|apply Hrec; exact H].
  injection H as <-. rewrite !andb_true_iff, orb_true_iff in E.
  destruct E as [[Hs H1] H2].
  exists c, b, d1, d2. split; [reflexivity|]. split.
  - change (lit "19") with [49; 57]%N in Hs. change (lit "20") with [50; 48]%N in Hs.
    destruct Hs as [Hs|Hs]; cbn [startsWith] in Hs;
      rewrite !andb_true_iff, !N.eqb_eq in Hs; destruct Hs as (E1 & E2 & _);
      subst; [left|right]; split; reflexivity.
  - split; [exact H1|]. split; [exact H2|].
    apply includes_spec. exists [], rest. reflexivity.
Qed.

Lemma four_digits_value a b d1 d2 :
  isDigit a = true -> isDigit b = true -> isDigit d1 = true -> isDigit d2 = true ->
  1 <= digitVal a ->
  let y := 1000 * digitVal a + 100 * digitVal b + 10 * digitVal d1 + digitVal d2 in
  [a; b; d1; d2] = ofZ y /\ toNumber [a; b; d1; d2] = Some y.
Proof.
  intros Ha Hb H1 H2 Hpos y.
  pose proof (proj1 (isDigit_spec a) Ha). pose proof (proj1 (isDigit_spec b) Hb).
  pose proof (proj1 (isDigit_spec d1) H1). pose proof (proj1 (isDigit_spec d2) H2).
  assert (Hy : 1000 <= y <= 9999) by (subst y; lia).
  assert (E : [a; b; d1; d2] = ofZ y).
  { rewrite (ofZ_four y Hy).
    replace (y / 1000) with (digitVal a) by (subst y; zdiv).
    replace (y / 100 mod 10) with (digitVal b) by (subst y; zdiv).
    replace (y / 10 mod 10) with (digitVal d1) by (subst y; zdiv).
    replace (y mod 10) with (digitVal d2) by (subst y; zdiv).
    rewrite !digitOf_digitVal by assumption. reflexivity. }
  split; [exact E|]. rewrite E. apply toNumber_ofZ. lia.
Qed.

Lemma monthMap_index found : In found monthMap -> 0 <= fst found <= 11.
Proof.
  unfold monthMap. simpl.
  intros [<-|[<-|[<-|[<-|[<-|[<-|[<-|[<-|[<-|[<-|[<-|[<-|[]]]]]]]]]]]]]; simpl; lia.
Qed.

(** X10.  Whatever date the header gives is midnight of the first day of a
    month: its year, from 1900 to 2099, is written in the header, and a
    name the table has for its month occurs in the header.  The
    function never gives an invalid date. *)
Theorem headerDateApprox_sound (text : jsstring) (r : Date) :
  headerDateApprox text = Some r ->
  exists y idx keys k t,
    r = Some t
    /\ 1900 <= y <= 2099
    /\ In (idx, keys) monthMap /\ In k keys
    /\ includes (toLowerCase (trim text)) (ofZ y) = true
    /\ includes (toLowerCase (trim text)) k = true
    /\ YearFromTime t = y /\ MonthFromTime t = idx /\ DateFromTime t = 1
    /\ TimeWithinDay t = 0.
Proof.
  unfold headerDateApprox. cbv zeta. set (header := toLowerCase (trim text)).
  destruct (matchYear header) as [mYear|] eqn:Ey; [|discriminate].
  destruct (List.find _ monthMap) as [[idx keys]|] eqn:Ef; [|discriminate].
  intros H. injection H as <-.
  apply matchYear_spec in Ey.
  destruct Ey as (a & b & d1 & d2 & -> & Hab & H1 & H2 & Hi).
  apply List.find_some in Ef. destruct Ef as [Hin Hk]. cbn [snd] in Hk.
  apply List.existsb_exists in Hk. destruct Hk as (k & Hk & Hik).
  pose proof (monthMap_index _ Hin) as Hidx. cbn [fst] in Hidx.
  assert (Ha : isDigit a = true /\ isDigit b = true /\ 1 <= digitVal a
               /\ 19 <= 10 * digitVal a + digitVal b <= 20).
  { destruct Hab as [[-> ->]|[-> ->]]; repeat split; try reflexivity;
      unfold digitVal; simpl; lia. }
  destruct Ha as (Ha & Hb & Hpos & Hcent).
  destruct (four_digits_value a b d1 d2 Ha Hb H1 H2 Hpos) as [Eo En].
  set (y := 1000 * digitVal a + 100 * digitVal b + 10 * digitVal d1 + digitVal d2) in *.
  pose proof (proj1 (isDigit_spec d1) H1). pose proof (proj1 (isDigit_spec d2) H2).
  assert (Hy : 1900 <= y <= 2099) by (subst y; lia).
  rewrite En. cbn [fst].
  assert (V : valid_civil y (idx + 1) 1 = true).
  { apply valid_civil_spec. split; [lia|]. unfold days_in_month.
    destruct (idx + 1 =? 2); [destruct (is_leap y); lia|].
    destruct (_ || _); lia. }
  destruct (getters_midnight y (idx + 1) 1 V) as (G1 & G2 & G3).
  exists y, idx, keys, k, (MakeDate (days_from_civil y (idx + 1) 1) 0).
  split; [replace idx with (idx + 1 - 1) at 1 by lia; apply newDate_civil; lia|].
  split; [exact Hy|]. split; [exact Hin|]. split; [exact Hk|].
  split; [rewrite <- Eo; exact Hi|]. split; [exact Hik|].
  split; [exact G1|]. split; [rewrite G2; lia|]. split; [exact G3|].
  apply TimeWithinDay_MakeDate. unfold msPerDay. lia.
Qed.

Lemma headerDateApprox_sound_witness :
  exists t,
    headerDateApprox (lit "MAR. DE 2026") = Some (Some t)
    /\ YearFromTime t = 2026 /\ MonthFromTime t = 2 /\ DateFromTime t = 1.
Proof.
  destruct (headerDateApprox_sound (lit "MAR. DE 2026")
              (Some (MakeDate (days_from_civil 2026 3 1) 0)) eq_refl)
    as (y & idx & keys & k & t & E & _).
  exists t. injection E as <-. repeat split; reflexivity.
Defined.

End HeaderFacts.

(** ** More on the page functions *)

Module SessionFacts.
Import Dates Overlay Pauta CalendarGrid AsyncFacts JsStringFacts OverlayFacts PautaFacts
  CalendarGridFacts ConfigFacts.

(** X11.  The overlay guard never throws.  Whatever the page answers or
    rejects, it presses Escape and waits 200 ms.  When that wait is
    rejected the guard ends there, without a question, a click or a
    further wait.  Otherwise it asks whether the backdrop is visible,
    clicks the backdrop exactly when the answer is yes (a rejected
    question counts as no), and waits for the backdrop to be
    detached. *)
Theorem fecharOverlays_calls {W : Type} (page : Session W) (s : St W) :
  let w0 := snd (keyboard_press_escape page (world s)) in
  let w1 := wait_for_timeout page 200 w0 in
  let visible := settledOr (is_visible page LBackdrop w1) false in
  let w2 := if visible then snd (click page LBackdrop w1) else w1 in
  fecharOverlays page s
  = match timeout_gate page 200 w0 with
    | Rejected _ =>
        (Val tt, mkSt w1 (trace s ++ [EvKeyEscape; EvWait 200]))
    | Fulfilled _ =>
        (Val tt,
         mkSt (snd (wait_for page LBackdrop Detached w2))
              (trace s ++ [EvKeyEscape; EvWait 200; EvIsVisible LBackdrop]
                 ++ (if visible then [EvClick LBackdrop] else [])
                 ++ [EvWaitFor LBackdrop Detached]))
    end.
Proof.
  cbv zeta.
  unfold fecharOverlays, keyboardPressEscape, isVisible, locatorClick, waitFor.
  unfold try_catch at 1. unfold bind at 1. rewrite catch_perform_run.
  unfold bind at 1. rewrite waitForTimeout_eq. cbn [world trace].
  destruct (timeout_gate page 200 _) as [[]|e]; cbn [settle].
  - unfold bind at 1. rewrite catch_observe_run. cbn [world trace].
    destruct (settledOr _ false).
    + unfold bind at 1. rewrite catch_perform_run. rewrite catch_perform_run.
      cbn [world trace]. rewrite <- !app_assoc. reflexivity.
    + unfold bind at 1. unfold ret at 1. rewrite catch_perform_run.
      cbn [world trace]. rewrite <- !app_assoc. reflexivity.
  - unfold ret. rewrite <- !app_assoc. reflexivity.
Qed.

(** X12.  The count of the entries only opens or closes the extraction.  A
    count of zero, or a count that is rejected, gives no record and the
    document is not read, whatever it holds; with any other count the
    records are those of all the entries of the document; and a
    rejection of page.evaluate is thrown to the caller. *)
Theorem extrair_count_gate {W : Type} (page : Session W) (s : St W) :
  (settledOr (count page LItems (world s)) O = O ->
     extrairProcessosDaPauta page s
     = (Val [], mkSt (world s) (trace s ++ [EvCount LItems])))
  /\ (forall n, count page LItems (world s) = Fulfilled (S n) ->
        evaluate_gate page (world s) = Fulfilled tt ->
        extrairProcessosDaPauta page s
        = (Val (List.map mapItem (dom_items page (world s))),
           mkSt (world s) (trace s ++ [EvCount LItems; EvEvaluate])))
  /\ (forall n e, count page LItems (world s) = Fulfilled (S n) ->
        evaluate_gate page (world s) = Rejected e ->
        extrairProcessosDaPauta page s
        = (Exc e, mkSt (world s) (trace s ++ [EvCount LItems; EvEvaluate]))).
Proof.
  rewrite extrair_run. cbv zeta. unfold contagem, settledOr.
  split; [|split].
  - intros H. destruct (count page LItems (world s)) as [n|e]; [|reflexivity].
    subst n. reflexivity.
  - intros n Hc Hg. rewrite Hc, Hg.
    destruct (Z.eqb_spec (Z.of_nat (S n)) 0); [lia|reflexivity].
  - intros n e Hc Hg. rewrite Hc, Hg.
    destruct (Z.eqb_spec (Z.of_nat (S n)) 0); [lia|reflexivity].
Qed.

(** *** The month navigation without a bearing *)

Section Blind.
Context {W : Type} (page : Session W).

Lemma passos_cegos alvo n :
  esperasCumpridas page ->
  (forall w, headerDateApprox (textoCabecalho page w) = None) ->
  forall i s,
  exists s',
    for_range n i tt (navegarParaMes_passo page alvo) s = (Val (inl tt), s')
    /\ trace s' = trace s ++ List.concat
                    (List.repeat [EvText LPeriodButton; EvClick LCalNext; EvWait 120] n).
Proof.
  intros He Hh. induction n as [|n IH]; intros i s.
  - exists s. split; [reflexivity|]. simpl. rewrite app_nil_r. reflexivity.
  - rewrite for_range_S, (navegarParaMes_passo_blind page alvo i s He (Hh _)).
    match goal with |- context [for_range n (i + 1) tt _ ?s1] =>
      destruct (IH (i + 1) s1) as (s' & E & T)
    end.
    exists s'. split; [exact E|]. rewrite T. cbn [trace List.repeat List.concat].
    rewrite <- !app_assoc. reflexivity.
Qed.

Lemma passo_sem_alvo i s a :
  esperasCumpridas page ->
  headerDateApprox (textoCabecalho page (world s)) = Some a ->
  fst (click page LCalPrev (world s)) = Fulfilled tt ->
  navegarParaMes_passo page None i tt s
  = (Val (inl tt),
     mkSt (wait_for_timeout page 120 (snd (click page LCalPrev (world s))))
          (trace s ++ [EvText LPeriodButton; EvClick LCalPrev; EvWait 120])).
Proof.
  intros He Hh Hc. unfold navegarParaMes_passo. unfold bind at 1.
  rewrite getCalendarHeaderDateApprox_run, Hh.
  assert (Es : sameMonthYear a None = false).
  { unfold sameMonthYear, num_eq, getFullYear. simpl.
    destruct (option_map YearFromTime a); reflexivity. }
  rewrite Es.
  assert (Eg : num_gt (monthKey None) (monthKey a) = false) by reflexivity.
  rewrite Eg. unfold bind at 1. rewrite click_run by exact Hc.
  unfold bind at 1. rewrite waitForTimeout_ok by apply He.
  unfold ret. cbn [world trace].
  rewrite <- !app_assoc. reflexivity.
Qed.

Lemma passos_sem_alvo n :
  esperasCumpridas page ->
  (forall w, exists a, headerDateApprox (textoCabecalho page w) = Some a) ->
  (forall w, fst (click page LCalPrev w) = Fulfilled tt) ->
  forall i s,
  exists s',
    for_range n i tt (navegarParaMes_passo page None) s = (Val (inl tt), s')
    /\ trace s' = trace s ++ List.concat
                    (List.repeat [EvText LPeriodButton; EvClick LCalPrev; EvWait 120] n).
Proof.
  intros He Hh Hc. induction n as [|n IH]; intros i s.
  - exists s. split; [reflexivity|]. simpl. rewrite app_nil_r. reflexivity.
  - destruct (Hh (world s)) as [a Ha].
    rewrite for_range_S, (passo_sem_alvo i s a He Ha (Hc _)).
    match goal with |- context [for_range n (i + 1) tt _ ?s1] =>
      destruct (IH (i + 1) s1) as (s' & E & T)
    end.
    exists s'. split; [exact E|]. rewrite T. cbn [trace List.repeat List.concat].
    rewrite <- !app_assoc. reflexivity.
Qed.

(** The same pass, whatever the wait does. *)
Lemma passo_sem_alvo_run i s a :
  headerDateApprox (textoCabecalho page (world s)) = Some a ->
  fst (click page LCalPrev (world s)) = Fulfilled tt ->
  navegarParaMes_passo page None i tt s
  = (match timeout_gate page 120 (snd (click page LCalPrev (world s))) with
     | Fulfilled _ => Val (inl tt)
     | Rejected e => Exc e
     end,
     mkSt (wait_for_timeout page 120 (snd (click page LCalPrev (world s))))
          (trace s ++ [EvText LPeriodButton; EvClick LCalPrev; EvWait 120])).
Proof.
  intros Hh Hc. unfold navegarParaMes_passo. unfold bind at 1.
  rewrite getCalendarHeaderDateApprox_run, Hh.
  assert (Es : sameMonthYear a None = false).
  { unfold sameMonthYear, num_eq, getFullYear. simpl.
    destruct (option_map YearFromTime a); reflexivity. }
  rewrite Es.
  assert (Eg : num_gt (monthKey None) (monthKey a) = false) by reflexivity.
  rewrite Eg. unfold bind at 1. rewrite click_run by exact Hc.
  unfold bind at 1. rewrite waitForTimeout_eq. cbn [world trace].
  rewrite <- !app_assoc. cbn [app].
  destruct (timeout_gate page 120 _) as [[]|e]; reflexivity.
Qed.

(** Passes that all click the control [c] and wait: the loop makes
    them all, or leaves with the rejection of the wait of one of
    them. *)
Lemma passos_sem_bussola alvo c n :
  (forall i s,
     navegarParaMes_passo page alvo i tt s
     = (match timeout_gate page 120 (snd (click page c (world s))) with
        | Fulfilled _ => Val (inl tt)
        | Rejected e => Exc e
        end,
        mkSt (wait_for_timeout page 120 (snd (click page c (world s))))
             (trace s ++ [EvText LPeriodButton; EvClick c; EvWait 120]))) ->
  forall i s,
  exists out s' k,
    for_range n i tt (navegarParaMes_passo page alvo) s = (out, s')
    /\ trace s' = trace s ++ List.concat
                    (List.repeat [EvText LPeriodButton; EvClick c; EvWait 120] k)
    /\ (k <= n)%nat
    /\ (out = Val (inl tt) /\ k = n
        \/ exists e, out = Exc e /\ rejeicaoDeEspera page e /\ (1 <= k)%nat).
Proof.
  intros Hp. induction n as [|n IH]; intros i s.
  - exists (Val (inl tt)), s, O. split; [reflexivity|].
    split; [simpl; rewrite app_nil_r; reflexivity|]. split; [lia|].
    left. split; reflexivity.
  - rewrite for_range_S, Hp.
    destruct (timeout_gate page 120 (snd (click page c (world s)))) as [[]|e] eqn:Eg.
    + match goal with |- context [for_range n (i + 1) tt _ ?s1] =>
        destruct (IH (i + 1) s1) as (out & s' & k & E & T & K & R)
      end.
      exists out, s', (S k). split; [exact E|].
      split; [rewrite T; cbn [trace List.repeat List.concat];
              rewrite <- !app_assoc; reflexivity|].
      split; [lia|].
      destruct R as [[-> ->]|(e & -> & Hr & Hk)].
      * left. split; reflexivity.
      * right. exists e. split; [reflexivity|]. split; [exact Hr|lia].
    + eexists. eexists. exists 1%nat. split; [reflexivity|].
      split; [cbn [trace List.repeat List.concat]; rewrite app_nil_r; reflexivity|].
      split; [lia|].
      right. exists e. split; [reflexivity|].
      split; [exists 120, (snd (click page c (world s))); exact Eg|lia].
Qed.

End Blind.

(** X13.  While the header of the grid cannot be read, the month navigation
    clicks the next control in every pass and ignores a rejection of
    that click.  It makes maxSteps passes and reports failure, or it
    throws the rejection of the wait of a pass, having made no pass
    after that one.  When the waits after the clicks are fulfilled it
    reports failure after maxSteps passes; when the wait of the first
    pass is rejected, as on a closed page, it throws that rejection
    after the one click. *)
Theorem navegarParaMes_blind {W : Type} (page : Session W)
    (alvo : Date) (maxSteps : Z) (s : St W) :
  (forall w, headerDateApprox (textoCabecalho page w) = None) ->
  (esperasCumpridas page ->
   exists s',
     navegarParaMes page alvo maxSteps s = (Val false, s')
     /\ trace s' = trace s ++ List.concat
                     (List.repeat [EvText LPeriodButton; EvClick LCalNext; EvWait 120]
                                  (Z.to_nat maxSteps)))
  /\ (forall e,
        0 < maxSteps ->
        timeout_gate page 120 (snd (click page LCalNext (world s))) = Rejected e ->
        navegarParaMes page alvo maxSteps s
        = (Exc e,
           mkSt (wait_for_timeout page 120 (snd (click page LCalNext (world s))))
                (trace s ++ [EvText LPeriodButton; EvClick LCalNext; EvWait 120])))
  /\ (exists out s' k,
        navegarParaMes page alvo maxSteps s = (out, s')
        /\ trace s' = trace s ++ List.concat
                        (List.repeat [EvText LPeriodButton; EvClick LCalNext; EvWait 120] k)
        /\ (k <= Z.to_nat maxSteps)%nat
        /\ (out = Val false /\ k = Z.to_nat maxSteps
            \/ exists e, out = Exc e /\ rejeicaoDeEspera page e /\ (1 <= k)%nat)).
Proof.
  intros Hh. split; [|split].
  - intros He. rewrite navegarParaMes_unfold.
    destruct (passos_cegos page alvo (Z.to_nat maxSteps) He Hh 0 s) as (s' & E & T).
    rewrite E. exists s'. split; [reflexivity|exact T].
  - intros e Hm Hg. rewrite navegarParaMes_unfold.
    destruct (Z.to_nat maxSteps) as [|n] eqn:En; [lia|].
    rewrite for_range_S, (navegarParaMes_passo_blind_run page alvo 0 s (Hh _)), Hg.
    reflexivity.
  - rewrite navegarParaMes_unfold.
    destruct (passos_sem_bussola page alvo LCalNext (Z.to_nat maxSteps)
                (fun i s0 => navegarParaMes_passo_blind_run page alvo i s0 (Hh _)) 0 s)
      as (out & s' & k & E & T & K & R).
    rewrite E. destruct R as [[-> ->]|(e & -> & Hr & Hk)].
    + exists (Val false), s', (Z.to_nat maxSteps). split; [reflexivity|].
      split; [exact T|]. split; [lia|]. left. split; reflexivity.
    + exists (Exc e), s', k. split; [reflexivity|]. split; [exact T|].
      split; [exact K|]. right. exists e. split; [reflexivity|]. split; assumption.
Qed.

Lemma navegarParaMes_blind_witness :
  (exists s',
     navegarParaMes paginaInerte (Some 0) 2 (mkSt tt []) = (Val false, s')
     /\ trace s' = [EvText LPeriodButton; EvClick LCalNext; EvWait 120;
                    EvText LPeriodButton; EvClick LCalNext; EvWait 120])
  /\ fst (navegarParaMes paginaFechada (Some 0) 36 (mkSt tt [])) = Exc fechada.
Proof.
  split.
  - destruct (navegarParaMes_blind paginaInerte (Some 0) 2 (mkSt tt []))
      as [H _].
    + intros w. reflexivity.
    + destruct H as (s' & E & T); [intros ms w; reflexivity|].
      exists s'. split; [exact E|exact T].
  - destruct (navegarParaMes_blind paginaFechada (Some 0) 36 (mkSt tt []))
      as (_ & H & _).
    + intros w. reflexivity.
    + rewrite (H fechada); [reflexivity|lia|reflexivity].
Defined.

(** X14.  With a target that is not a valid date the month navigation can
    never arrive: on a grid whose header it can read and whose previous
    control takes the clicks, it clicks the previous control in every
    pass.  It makes maxSteps passes and reports failure, or it throws
    the rejection of the wait of a pass, having made no pass after that
    one.  When the timed waits are fulfilled it reports failure after
    maxSteps passes. *)
Theorem navegarParaMes_invalid_target {W : Type} (page : Session W)
    (maxSteps : Z) (s : St W) :
  (forall w, exists a, headerDateApprox (textoCabecalho page w) = Some a) ->
  (forall w, fst (click page LCalPrev w) = Fulfilled tt) ->
  (exists out s' k,
     navegarParaMes page None maxSteps s = (out, s')
     /\ trace s' = trace s ++ List.concat
                     (List.repeat [EvText LPeriodButton; EvClick LCalPrev; EvWait 120] k)
     /\ (k <= Z.to_nat maxSteps)%nat
     /\ (out = Val false /\ k = Z.to_nat maxSteps
         \/ exists e, out = Exc e /\ rejeicaoDeEspera page e /\ (1 <= k)%nat))
  /\ ((forall ms w, timeout_gate page ms w = Fulfilled tt) ->
      exists s',
        navegarParaMes page None maxSteps s = (Val false, s')
        /\ trace s' = trace s ++ List.concat
                        (List.repeat [EvText LPeriodButton; EvClick LCalPrev; EvWait 120]
                                     (Z.to_nat maxSteps))).
Proof.
  intros Hh Hc. split.
  - rewrite navegarParaMes_unfold.
    assert (Hp : forall i s0,
               navegarParaMes_passo page None i tt s0
               = (match timeout_gate page 120 (snd (click page LCalPrev (world s0))) with
                  | Fulfilled _ => Val (inl tt)
                  | Rejected e => Exc e
                  end,
                  mkSt (wait_for_timeout page 120 (snd (click page LCalPrev (world s0))))
                       (trace s0 ++ [EvText LPeriodButton; EvClick LCalPrev; EvWait 120]))).
    { intros i s0. destruct (Hh (world s0)) as [a Ha].
      exact (passo_sem_alvo_run page i s0 a Ha (Hc _)). }
    destruct (passos_sem_bussola page None LCalPrev (Z.to_nat maxSteps) Hp 0 s)
      as (out & s' & k & E & T & K & R).
    rewrite E. destruct R as [[-> ->]|(e & -> & Hr & Hk)].
    + exists (Val false), s', (Z.to_nat maxSteps). split; [reflexivity|].
      split; [exact T|]. split; [lia|]. left. split; reflexivity.
    + exists (Exc e), s', k. split; [reflexivity|]. split; [exact T|].
      split; [exact K|]. right. exists e. split; [reflexivity|]. split; assumption.
  - intros He. rewrite navegarParaMes_unfold.
    destruct (passos_sem_alvo page (Z.to_nat maxSteps) He Hh Hc 0 s) as (s' & E & T).
    rewrite E. exists s'. split; [reflexivity|exact T].
Qed.

Lemma navegarParaMes_invalid_target_witness :
  exists s',
    navegarParaMes paginaCabecalhoFixo None 2 (mkSt tt []) = (Val false, s')
    /\ trace s' = [EvText LPeriodButton; EvClick LCalPrev; EvWait 120;
                   EvText LPeriodButton; EvClick LCalPrev; EvWait 120].
Proof.
  destruct (navegarParaMes_invalid_target paginaCabecalhoFixo 2 (mkSt tt []))
    as (_ & H).
  - intros w. eexists. vm_compute. reflexivity.
  - intros w. reflexivity.
  - destruct H as (s' & E & T); [intros ms w; reflexivity|].
    exists s'. split; [exact E|exact T].
Defined.

(** *** Clicking the day *)

Lemma findIndex_Some {A} (p : A -> bool) l i :
  findIndex p l = Some i -> exists x, l !! i = Some x /\ p x = true.
Proof.
  revert i. induction l as [|a l IH]; intros i H; [discriminate H|].
  simpl in H. destruct (p a) eqn:Ea.
  - injection H as <-. exists a. split; [reflexivity|exact Ea].
  - destruct (findIndex p l) as [j|]; [|discriminate H].
    injection H as <-. destruct (IH j eq_refl) as (x & Hx & Hp).
    exists x. split; assumption.
Qed.

Lemma findIndex_None {A} (p : A -> bool) l :
  findIndex p l = None -> forall x, In x l -> p x = false.
Proof.
  induction l as [|a l IH]; intros H x Hx; [destruct Hx|].
  simpl in H. destruct (p a) eqn:Ea; [discriminate H|].
  destruct (findIndex p l) as [j|] eqn:Ef; [discriminate H|].
  destruct Hx as [<-|Hx]; [exact Ea|]. apply IH; [reflexivity|exact Hx].
Qed.

(** X15.  clicarDiaNoCalendario clicks at most one element of the grid, and
    only one that shows the day of the target: when it answers true it
    has clicked, once, a cell (or the button inside it) whose trimmed
    text, or whose button's trimmed text, is the day number; when it
    answers false it has clicked nothing; it answers true whenever the
    grid has an enabled cell that shows the day; and it throws only
    when page.evaluate rejects. *)
Theorem clicarDiaNoCalendario_clicks {W : Type} (page : Session W)
    (targetDate : Date) (s : St W) :
  let sday := numToString (getDate targetDate) in
  exists out s',
    clicarDiaNoCalendario page targetDate s = (out, s')
    /\ (out = Val false -> world s' = world s /\ trace s' = trace s ++ [EvEvaluate])
    /\ (out = Val true ->
          exists cells i td t,
            dom_calendar page (world s) = Some cells
            /\ cells !! i = Some td
            /\ (trim (cell_text td) = sday
                \/ exists btn, cell_button td = Some btn /\ trim (btn_text btn) = sday)
            /\ (t = DomCalTd i /\ cell_button td = None
                \/ t = DomCalButton i /\ cell_button td <> None)
            /\ world s' = dom_click page t (world s)
            /\ trace s' = trace s ++ [EvEvaluate; EvDomClick t])
    /\ (forall e, out = Exc e ->
          evaluate_gate page (world s) = Rejected e
          /\ world s' = world s /\ trace s' = trace s ++ [EvEvaluate])
    /\ out <> NoFuel
    /\ (evaluate_gate page (world s) = Fulfilled tt ->
        forall cells td,
          dom_calendar page (world s) = Some cells -> In td cells ->
          cell_disabled td = false -> trim (cell_text td) = sday ->
          out = Val true).
Proof.
  intros sday. unfold clicarDiaNoCalendario, evaluate. cbv zeta.
  unfold bind at 1. unfold bind at 1. unfold observe at 1, emit. cbn [world trace].
  destruct (evaluate_gate page (world s)) as [[]|e] eqn:Eg; cbn [settle].
  2:{ eexists. eexists. split; [reflexivity|]. cbn [world trace].
      split; [intros H; discriminate H|]. split; [intros H; discriminate H|].
      split; [intros e' H; injection H as <-; repeat split; reflexivity|].
      split; [discriminate|]. intros H; discriminate H. }
  unfold clicarDia_script. unfold bind at 1. unfold domQuery at 1. cbn [world trace].
  fold sday.
  destruct (dom_calendar page (world s)) as [cells|] eqn:Ec.
  2:{ eexists. eexists. split; [reflexivity|]. cbn [world trace].
      split; [intros _; split; reflexivity|]. split; [intros H; discriminate H|].
      split; [intros e' H; discriminate H|]. split; [discriminate|].
      intros _ cells td H. discriminate H. }
  set (p1 := fun td : Cell =>
               match cell_aria td with
               | Some aria =>
                   includes (trim aria) (numToString (getFullYear targetDate))
                   && eqb (trim (cell_text td)) sday
               | None => false
               end).
  set (p2 := fun td : Cell =>
               match cell_button td with
               | Some btn =>
                   match btn_aria btn with
                   | Some aria =>
                       includes (trim aria) (numToString (getFullYear targetDate))
                       && eqb (trim (btn_text btn)) sday
                   | None => false
                   end
               | None => false
               end).
  set (p3 := fun td : Cell => negb (cell_disabled td) && eqb (trim (cell_text td)) sday).
  assert (Hclick : forall i td,
            cells !! i = Some td ->
            (trim (cell_text td) = sday
             \/ exists btn, cell_button td = Some btn /\ trim (btn_text btn) = sday) ->
            exists out s',
              bind (bind (match cells !! i ≫= cell_button with
                          | Some _ => domClick page (DomCalButton i)
                          | None => domClick page (DomCalTd i)
                          end) (fun _ => ret true)) (fun ok => ret ok)
                   (mkSt (world s) (trace s ++ [EvEvaluate])) = (out, s')
              /\ out = Val true
              /\ exists t,
                   (t = DomCalTd i /\ cell_button td = None
                    \/ t = DomCalButton i /\ cell_button td <> None)
                   /\ world s' = dom_click page t (world s)
                   /\ trace s' = trace s ++ [EvEvaluate; EvDomClick t]).
  { intros i td Hi Ht. rewrite Hi. cbn [mbind option_bind].
    destruct (cell_button td) as [btn|] eqn:Eb.
    - eexists. eexists. split; [reflexivity|]. split; [reflexivity|].
      exists (DomCalButton i). split; [right; split; [reflexivity|discriminate]|].
      cbn [world trace]. split; [reflexivity|]. rewrite <- app_assoc. reflexivity.
    - eexists. eexists. split; [reflexivity|]. split; [reflexivity|].
      exists (DomCalTd i). split; [left; split; reflexivity|].
      cbn [world trace]. split; [reflexivity|]. rewrite <- app_assoc. reflexivity. }
  assert (Hfin : forall i td out s',
            cells !! i = Some td ->
            (trim (cell_text td) = sday
             \/ exists btn, cell_button td = Some btn /\ trim (btn_text btn) = sday) ->
            out = Val true ->
            (exists t,
               (t = DomCalTd i /\ cell_button td = None
                \/ t = DomCalButton i /\ cell_button td <> None)
               /\ world s' = dom_click page t (world s)
               /\ trace s' = trace s ++ [EvEvaluate; EvDomClick t]) ->
            (out = Val false ->
               world s' = world s /\ trace s' = trace s ++ [EvEvaluate])
            /\ (out = Val true ->
                  exists cells0 i0 td0 t,
                    Some cells = Some cells0
                    /\ cells0 !! i0 = Some td0
                    /\ (trim (cell_text td0) = sday
                        \/ exists btn, cell_button td0 = Some btn
                                       /\ trim (btn_text btn) = sday)
                    /\ (t = DomCalTd i0 /\ cell_button td0 = None
                        \/ t = DomCalButton i0 /\ cell_button td0 <> None)
                    /\ world s' = dom_click page t (world s)
                    /\ trace s' = trace s ++ [EvEvaluate; EvDomClick t])
            /\ (forall e, out = Exc e ->
                  Fulfilled tt = Rejected e
                  /\ world s' = world s /\ trace s' = trace s ++ [EvEvaluate])
            /\ out <> NoFuel
            /\ (Fulfilled tt = Fulfilled tt ->
                forall cells0 td0,
                  Some cells = Some cells0 -> In td0 cells0 ->
                  cell_disabled td0 = false -> trim (cell_text td0) = sday ->
                  out = Val true)).
  { intros i td out s' Hi Ht -> (t & Hk & Hw & Htr).
    split; [intros H; discriminate H|].
    split; [intros _; exists cells, i, td, t; repeat split; assumption|].
    split; [intros e H; discriminate H|]. split; [discriminate|].
    intros; reflexivity. }
  destruct (findIndex p1 cells) as [i|] eqn:E1.
  { destruct (findIndex_Some p1 cells i E1) as (td & Hi & Hp).
    assert (Ht : trim (cell_text td) = sday).
    { unfold p1 in Hp. destruct (cell_aria td); [|discriminate Hp].
      apply andb_true_iff in Hp. apply eqb_eq. tauto. }
    destruct (Hclick i td Hi (or_introl Ht)) as (out & s' & E & Ho & Hk).
    exists out, s'. split; [exact E|]. apply (Hfin i td); try assumption.
    left; exact Ht. }
  destruct (findIndex p2 cells) as [i|] eqn:E2.
  { destruct (findIndex_Some p2 cells i E2) as (td & Hi & Hp).
    assert (Ht : exists btn, cell_button td = Some btn /\ trim (btn_text btn) = sday).
    { unfold p2 in Hp. destruct (cell_button td) as [btn|]; [|discriminate Hp].
      exists btn. split; [reflexivity|]. destruct (btn_aria btn); [|discriminate Hp].
      apply andb_true_iff in Hp. apply eqb_eq. tauto. }
    destruct Ht as (btn & Eb & Ht).
    eexists. eexists. split; [reflexivity|].
    apply (Hfin i td); try assumption.
    - right. exists btn. split; assumption.
    - reflexivity.
    - exists (DomCalButton i). split; [right; split; [reflexivity|congruence]|].
      cbn [world trace]. split; [reflexivity|]. rewrite <- app_assoc. reflexivity. }
  destruct (findIndex p3 cells) as [i|] eqn:E3.
  { destruct (findIndex_Some p3 cells i E3) as (td & Hi & Hp).
    assert (Ht : trim (cell_text td) = sday).
    { unfold p3 in Hp. apply andb_true_iff in Hp. apply eqb_eq. tauto. }
    destruct (Hclick i td Hi (or_introl Ht)) as (out & s' & E & Ho & Hk).
    exists out, s'. split; [exact E|]. apply (Hfin i td); try assumption.
    left; exact Ht. }
  eexists. eexists. split; [reflexivity|]. cbn [world trace].
  split; [intros _; split; reflexivity|]. split; [intros H; discriminate H|].
  split; [intros e H; discriminate H|]. split; [discriminate|].
  intros _ cells0 td H Hin Hd Ht. injection H as <-.
  pose proof (findIndex_None p3 cells E3 td Hin) as Hp. unfold p3 in Hp.
  rewrite Hd in Hp. simpl in Hp. apply eqb_neq in Hp. contradiction.
Qed.

End SessionFacts.

(** ** More on the stepper *)

Module StepperFacts.
Import Dates Overlay LinearStepper AsyncFacts JsStringFacts OverlayFacts PautaFacts
  LinearStepperFacts ConfigFacts.

Section WithPage.
Context {W : Type} (page : Session W).

Lemma eventosLeitura_sem_espera w :
  contar (ehEspera 80) (eventosLeitura page w) = O.
Proof. unfold eventosLeitura. destruct (truthy _); reflexivity. Qed.

Lemma textoIon_aparado b w : aparado (textoIon page b w).
Proof.
  unfold aparado, textoIon.
  destruct (evaluate_gate page w); [|reflexivity].
  destruct (dom_ion page b w); [apply trim_idem|reflexivity].
Qed.

Lemma rotulo_aparado w : aparado (rotulo page w).
Proof.
  unfold rotulo. cbv zeta. destruct (truthy (textoIon page IonDateDisplay w)).
  - apply textoIon_aparado.
  - destruct (truthy _ && truthy _); [apply trim_idem|reflexivity].
Qed.

Hypothesis clock :
  forall ms w, date_now page w + ms <= date_now page (wait_for_timeout page ms w).

Lemma esperarTextoMudar_loop_contract fuel :
  forall start timeoutMs anterior s,
    timeoutMs - (date_now page (world s) - start) <= 80 * Z.of_nat fuel ->
    exists out s' evs,
      esperarTextoMudar_loop page (S fuel) start timeoutMs anterior s = (out, s')
      /\ trace s' = trace s ++ evs
      /\ match out with
         | Val (Some a) => a = rotulo page (world s') /\ a <> [] /\ a <> anterior
         | Val None => timeoutMs <= date_now page (world s') - start
         | Exc e => rejeicaoDeEspera page e
         | NoFuel => False
         end
      /\ forallb ehLeituraOuEspera evs = true
      /\ (contar (ehEspera 80) evs = O
          \/ 80 * (Z.of_nat (contar (ehEspera 80) evs) - 1)
             < timeoutMs - (date_now page (world s) - start)).
Proof.
  induction fuel as [|fuel IH]; intros start timeoutMs anterior s Hrem.
  - rewrite esperarTextoMudar_loop_S. cbv zeta.
    destruct (Z.ltb_spec (date_now page (world s) - start) timeoutMs); [lia|].
    exists (Val None). eexists. exists [EvNow]. split; [reflexivity|]. cbn [world trace].
    split; [reflexivity|]. split; [lia|]. split; [reflexivity|]. left. reflexivity.
  - rewrite esperarTextoMudar_loop_S. cbv zeta.
    destruct (Z.ltb_spec (date_now page (world s) - start) timeoutMs) as [Hlt|Hge].
    + destruct (truthy (rotulo page (world s))
                && negb (eqb (rotulo page (world s)) anterior)) eqn:Hch.
      * exists (Val (Some (rotulo page (world s)))). eexists.
        exists ([EvNow] ++ eventosLeitura page (world s)).
        split; [reflexivity|]. cbn [world trace]. split; [reflexivity|].
        apply andb_true_iff in Hch. destruct Hch as [Ht Hn].
        apply negb_true_iff, eqb_neq in Hn.
        split; [split; [reflexivity|split; [|exact Hn]];
                intros E; rewrite E in Ht; discriminate Ht|].
        split; [rewrite List.forallb_app, eventosLeitura_quietos; reflexivity|].
        left. rewrite contar_app_events, eventosLeitura_sem_espera. reflexivity.
      * destruct (timeout_gate page 80 (world s)) as [[]|e] eqn:Eg.
        -- match goal with |- context [esperarTextoMudar_loop page (S fuel) start timeoutMs
                                         anterior ?s1] =>
             destruct (IH start timeoutMs anterior s1)
               as (r & s' & evs & E & T & R & Q & C)
           end.
           { cbn [world]. pose proof (clock 80 (world s)). lia. }
           exists r, s',
             (([EvNow] ++ eventosLeitura page (world s) ++ [EvWait 80]) ++ evs).
           split; [exact E|]. split; [rewrite T; trace_eq|]. split; [exact R|].
           split; [rewrite !List.forallb_app, eventosLeitura_quietos, Q; reflexivity|].
           right. rewrite !contar_app_events, eventosLeitura_sem_espera.
           change (contar (ehEspera 80) [EvNow]) with O.
           change (contar (ehEspera 80) [EvWait 80]) with 1%nat.
           cbn [world] in C. pose proof (clock 80 (world s)). lia.
        -- exists (Exc e). eexists.
           exists ([EvNow] ++ eventosLeitura page (world s) ++ [EvWait 80]).
           split; [reflexivity|]. cbn [world trace]. split; [reflexivity|].
           split; [exists 80, (world s); exact Eg|].
           split; [rewrite !List.forallb_app, eventosLeitura_quietos; reflexivity|].
           right. rewrite !contar_app_events, eventosLeitura_sem_espera.
           change (contar (ehEspera 80) [EvNow]) with O.
           change (contar (ehEspera 80) [EvWait 80]) with 1%nat. lia.
    + exists (Val None). eexists. exists [EvNow]. split; [reflexivity|].
      cbn [world trace].
      split; [reflexivity|]. split; [lia|]. split; [reflexivity|]. left. reflexivity.
Qed.

End WithPage.

(** X16.  With a clock that a wait of [ms] moves on by at least [ms],
    esperarTextoMudar returns the label of the state it ends in, or
    throws the rejection of one of its timed waits; when the timed
    waits are fulfilled it returns.  It returns early only with a label
    that is not empty and differs from the previous one; otherwise it
    returns once the timeout has passed.  In between it only reads the
    clock and the label and waits 80 ms at a time, and the waits it
    makes before the last one add up to less than the timeout. *)
Theorem esperarTextoMudar_contract {W : Type} (page : Session W)
    (fuel : nat) (anterior : jsstring) (timeoutMs : Z) (s : St W) :
  (forall ms w, date_now page w + ms <= date_now page (wait_for_timeout page ms w)) ->
  (1 <= fuel)%nat -> timeoutMs <= 80 * (Z.of_nat fuel - 1) ->
  exists out s' evs,
    esperarTextoMudar page fuel anterior timeoutMs s = (out, s')
    /\ ((exists a,
           out = Val a
           /\ a = rotulo page (world s')
           /\ ((a <> [] /\ a <> anterior)
               \/ timeoutMs <= date_now page (world s') - date_now page (world s)))
        \/ exists e, out = Exc e /\ rejeicaoDeEspera page e)
    /\ ((forall ms w, timeout_gate page ms w = Fulfilled tt) -> exists a, out = Val a)
    /\ trace s' = trace s ++ evs
    /\ forallb ehLeituraOuEspera evs = true
    /\ (contar (ehEspera 80) evs = O
        \/ 80 * (Z.of_nat (contar (ehEspera 80) evs) - 1) < timeoutMs).
Proof.
  intros Hclock Hf Ht.
  assert (H : exists out s' evs,
             esperarTextoMudar page fuel anterior timeoutMs s = (out, s')
             /\ ((exists a,
                    out = Val a
                    /\ a = rotulo page (world s')
                    /\ ((a <> [] /\ a <> anterior)
                        \/ timeoutMs
                           <= date_now page (world s') - date_now page (world s)))
                 \/ exists e, out = Exc e /\ rejeicaoDeEspera page e)
             /\ trace s' = trace s ++ evs
             /\ forallb ehLeituraOuEspera evs = true
             /\ (contar (ehEspera 80) evs = O
                 \/ 80 * (Z.of_nat (contar (ehEspera 80) evs) - 1) < timeoutMs)).
  { rewrite esperarTextoMudar_unfold.
    destruct fuel as [|fuel]; [lia|].
    destruct (esperarTextoMudar_loop_contract page Hclock fuel (date_now page (world s))
                timeoutMs anterior (mkSt (world s) (trace s ++ [EvNow])))
      as (r & s' & evs & E & T & R & Q & C).
    { cbn [world]. lia. }
    rewrite E. cbn [world trace] in T, C.
    replace (timeoutMs - (date_now page (world s) - date_now page (world s)))
      with timeoutMs in C by lia.
    destruct r as [[a|]|e|].
    - destruct R as (Ea & Hne & Hdiff).
      exists (Val a), s', ([EvNow] ++ evs). split; [reflexivity|].
      split; [left; exists a; split; [reflexivity|]; split; [exact Ea|left; tauto]|].
      split; [rewrite T; trace_eq|].
      split; [rewrite List.forallb_app, Q; reflexivity|].
      rewrite contar_app_events. exact C.
    - eexists. eexists. exists (([EvNow] ++ evs) ++ eventosLeitura page (world s')).
      split; [reflexivity|]. cbn [world trace].
      split; [left; eexists; split; [reflexivity|]; split; [reflexivity|right; exact R]|].
      split; [rewrite T; trace_eq|].
      split; [rewrite !List.forallb_app, Q, eventosLeitura_quietos; reflexivity|].
      rewrite !contar_app_events, eventosLeitura_sem_espera.
      change (contar (ehEspera 80) [EvNow]) with O.
      destruct C as [C|C]; [left; rewrite C; reflexivity|right; lia].
    - exists (Exc e), s', ([EvNow] ++ evs). split; [reflexivity|].
      split; [right; exists e; split; [reflexivity|exact R]|].
      split; [rewrite T; trace_eq|].
      split; [rewrite List.forallb_app, Q; reflexivity|].
      rewrite contar_app_events. exact C.
    - destruct R. }
  destruct H as (out & s' & evs & E & R & T & Q & C).
  exists out, s', evs. split; [exact E|]. split; [exact R|].
  split.
  { intros He. destruct R as [(a & -> & _)|(e & _ & ms & w & Hr)].
    - exists a. reflexivity.
    - rewrite He in Hr. discriminate Hr. }
  split; [exact T|]. split; [exact Q|exact C].
Qed.

Lemma esperarTextoMudar_contract_witness :
  exists a s',
    esperarTextoMudar (paginaStepper true true []) 33 (lit "03/03/2026") 2500
      (mkSt (20515, 0) []) = (Val a, s')
    /\ a = lit "03/03/2026"
    /\ 2500 <= snd (world s').
Proof.
  destruct (esperarTextoMudar_contract (paginaStepper true true []) 33
              (lit "03/03/2026") 2500 (mkSt (20515, 0) []))
    as (out & s' & evs & E & _ & G & _).
  - intros ms w. simpl. lia.
  - lia.
  - lia.
  - destruct G as (a0 & ->); [intros ms w; reflexivity|].
    assert (R : esperarTextoMudar (paginaStepper true true []) 33 (lit "03/03/2026") 2500
                  (mkSt (20515, 0) [])
                = (Val (lit "03/03/2026"),
                   snd (esperarTextoMudar (paginaStepper true true []) 33
                          (lit "03/03/2026") 2500 (mkSt (20515, 0) [])))).
    { vm_compute. reflexivity. }
    eexists. eexists. split; [exact R|]. split; [reflexivity|].
    vm_compute. discriminate.
Defined.

(** X17.  Reading the displayed label never throws and leaves the page as it
    is.  The label is the text the script finds in the ion-button, or,
    when that is empty, the trimmed text of the date button, or the
    empty string; it has no white space at either end.  The second call
    is made only when the script finds no text. *)
Theorem lerTextoDataExibida_label {W : Type} (page : Session W) (s : St W) :
  exists a s',
    lerTextoDataExibida page s = (Val a, s')
    /\ world s' = world s
    /\ aparado a
    /\ (textoIon page IonDateDisplay (world s) <> [] ->
          a = textoIon page IonDateDisplay (world s)
          /\ trace s' = trace s ++ [EvEvaluate])
    /\ (textoIon page IonDateDisplay (world s) = [] ->
          a = trim (settledOr (inner_text page LDateButton (world s)) [])
          /\ trace s' = trace s ++ [EvEvaluate; EvText LDateButton]).
Proof.
  rewrite lerTextoDataExibida_run. eexists. eexists. split; [reflexivity|].
  cbn [world trace]. split; [reflexivity|]. split; [apply rotulo_aparado|].
  unfold rotulo, eventosLeitura. cbv zeta.
  destruct (textoIon page IonDateDisplay (world s)) as [|c r] eqn:Et; cbn [truthy].
  - split; [congruence|]. intros _. split; [|reflexivity].
    destruct (settledOr (inner_text page LDateButton (world s)) []) as [|c r] eqn:E;
      [reflexivity|]. cbn [truthy andb].
    destruct (trim (c :: r)); reflexivity.
  - split; [intros _; split; reflexivity|discriminate].
Qed.

(** *** The calls of the navigator *)

Section Alphabet.
Context {W : Type} (page : Session W).

Lemma quietos_da_navegacao evs :
  forallb ehLeituraOuEspera evs = true -> forallb ehDaNavegacao evs = true.
Proof.
  intros H. apply List.forallb_forall. intros e He.
  pose proof (proj1 (List.forallb_forall _ _) H e He) as Hq.
  destruct e as [|ms| | | | |l| | |]; try discriminate Hq; try reflexivity.
  - simpl in Hq. apply Z.eqb_eq in Hq. subst ms. reflexivity.
  - destruct l; try discriminate Hq. reflexivity.
Qed.

Lemma controle_direcional hasPrev alvoDate raw :
  ehDaNavegacao (EvDomClick (DomIon (controle hasPrev alvoDate raw))) = true.
Proof. unfold controle. destruct (_ =? -1); reflexivity. Qed.

Ltac alfabeto :=
  rewrite ?List.forallb_app;
  rewrite ?(quietos_da_navegacao _ (eventosLeitura_quietos _ _));
  repeat match goal with
         | Q : forallb ehDaNavegacao ?evs = true |- _ => rewrite ?Q; clear Q
         end;
  cbn [forallb andb]; rewrite ?controle_direcional; reflexivity.

Lemma irAte_passo_alfabeto fuel alvoBR alvoDate hasPrev step s :
  exists evs,
    trace (snd (irAte_passo page fuel alvoBR alvoDate hasPrev step tt s)) = trace s ++ evs
    /\ forallb ehDaNavegacao evs = true.
Proof.
  rewrite irAte_passo_run. cbv zeta.
  destruct (truthy _ && includes _ alvoBR).
  - eexists. split; [reflexivity|]. alfabeto.
  - destruct (existeIon page _ (world s)).
    + match goal with |- context [esperarTextoMudar page fuel ?a 2500 ?s2] =>
        destruct (esperarTextoMudar_spec page fuel a 2500 s2)
          as (out & s3 & evs & E & T & Q & _)
      end.
      rewrite E. cbn [trace] in T. apply quietos_da_navegacao in Q.
      destruct out as [depois|e|].
      * destruct (truthy depois && includes depois alvoBR).
        -- exists ((eventosLeitura page (world s)
                    ++ [EvEvaluate;
                        EvDomClick (DomIon (controle hasPrev alvoDate
                                              (rotulo page (world s))))]) ++ evs).
           split; [cbn [snd]; rewrite T; trace_eq|]. alfabeto.
        -- cbn [snd].
           exists (((eventosLeitura page (world s)
                     ++ [EvEvaluate;
                         EvDomClick (DomIon (controle hasPrev alvoDate
                                               (rotulo page (world s))))]) ++ evs)
                   ++ [EvWait 120]).
           split; [cbn [snd trace]; rewrite T; trace_eq|]. alfabeto.
      * exists ((eventosLeitura page (world s)
                 ++ [EvEvaluate;
                     EvDomClick (DomIon (controle hasPrev alvoDate
                                           (rotulo page (world s))))]) ++ evs).
        split; [cbn [snd]; rewrite T; trace_eq|]. alfabeto.
      * exists ((eventosLeitura page (world s)
                 ++ [EvEvaluate;
                     EvDomClick (DomIon (controle hasPrev alvoDate
                                           (rotulo page (world s))))]) ++ evs).
        split; [cbn [snd]; rewrite T; trace_eq|]. alfabeto.
    + exists (eventosLeitura page (world s) ++ [EvEvaluate; EvWait 150]).
      split; [cbn [snd trace]; trace_eq|]. alfabeto.
Qed.

Lemma irAte_loop_alfabeto fuel alvoBR alvoDate hasPrev n :
  forall i s,
  exists evs,
    trace (snd (for_range n i tt (irAte_passo page fuel alvoBR alvoDate hasPrev) s))
    = trace s ++ evs
    /\ forallb ehDaNavegacao evs = true.
Proof.
  induction n as [|n IH]; intros i s.
  - exists []. split; [simpl; rewrite app_nil_r; reflexivity|reflexivity].
  - rewrite for_range_S.
    destruct (irAte_passo_alfabeto fuel alvoBR alvoDate hasPrev i s) as (evs1 & T1 & Q1).
    destruct (irAte_passo page fuel alvoBR alvoDate hasPrev i tt s) as [[[[]|r]|e|] s1].
    + destruct (IH (i + 1) s1) as (evs2 & T2 & Q2). cbn [snd] in T1.
      exists (evs1 ++ evs2). split; [rewrite T2, T1; trace_eq|].
      rewrite List.forallb_app, Q1, Q2. reflexivity.
    + exists evs1. split; [exact T1|exact Q1].
    + exists evs1. split; [exact T1|exact Q1].
    + exists evs1. split; [exact T1|exact Q1].
Qed.

Lemma fecharOverlays_alfabeto s :
  exists s1 evs,
    fecharOverlays page s = (Val tt, s1)
    /\ trace s1 = trace s ++ evs
    /\ forallb ehDaNavegacao evs = true.
Proof.
  destruct (fecharOverlays_total page s) as (s1 & evs & E & T & Hm).
  exists s1, evs. split; [exact E|]. split; [exact T|].
  destruct Hm as [-> | [-> | ->]]; reflexivity.
Qed.

Lemma irAteDataPorBotoes_alfabeto fuel alvoBR maxSteps s :
  exists evs,
    trace (snd (irAteDataPorBotoes page fuel alvoBR maxSteps s)) = trace s ++ evs
    /\ forallb ehDaNavegacao evs = true.
Proof.
  destruct (fecharOverlays_alfabeto s) as (s1 & evs1 & E1 & T1 & Q1).
  rewrite (irAteDataPorBotoes_run page fuel alvoBR maxSteps s s1 E1). cbv zeta.
  destruct (negb _ && negb _).
  - exists (evs1 ++ [EvEvaluate; EvEvaluate]).
    split; [cbn [snd trace]; rewrite T1; trace_eq|]. alfabeto.
  - destruct (truthy _ && includes _ alvoBR).
    + exists ((evs1 ++ [EvEvaluate; EvEvaluate]) ++ eventosLeitura page (world s1)).
      split; [cbn [snd trace]; rewrite T1; trace_eq|]. alfabeto.
    + match goal with |- context [for_range ?n 1 tt (irAte_passo _ _ _ ?d ?hp) ?s3] =>
        destruct (irAte_loop_alfabeto fuel alvoBR d hp n 1 s3) as (evs & T & Q);
        destruct (for_range n 1 tt (irAte_passo page fuel alvoBR d hp) s3)
          as [[[[]|r]|e|] s']
      end;
      cbn [snd trace] in T;
      exists (((evs1 ++ [EvEvaluate; EvEvaluate]) ++ eventosLeitura page (world s1))
              ++ evs);
      (split; [cbn [snd]; rewrite T, T1; trace_eq|]); alfabeto.
Qed.

End Alphabet.

(** *** The confirmation loop never throws *)

Section Confirmacao.
Context {W : Type} (page : Session W).

Lemma navegacao_sem_600 evs :
  forallb ehDaNavegacao evs = true -> contar (ehEspera 600) evs = O.
Proof.
  intros H. unfold contar. induction evs as [|e evs IH]; [reflexivity|].
  cbn [forallb] in H. apply andb_true_iff in H. destruct H as [He H].
  assert (He6 : ehEspera 600 e = false).
  { destruct e as [|ms| | | | | | | |]; try reflexivity.
    simpl in He. simpl.
    destruct (Z.eqb_spec ms 600) as [->|_]; [discriminate He|reflexivity]. }
  cbn [List.filter]. rewrite He6. apply IH. exact H.
Qed.

Lemma navegacao_da_confirmacao evs :
  forallb ehDaNavegacao evs = true -> forallb ehDaConfirmacao evs = true.
Proof.
  intros H. apply List.forallb_forall. intros e He.
  unfold ehDaConfirmacao. rewrite (proj1 (List.forallb_forall _ _) H e He). reflexivity.
Qed.

Lemma confirmacao_passo_spec fuel dataBR t s :
  exists out s' evs,
    LinearStepper.confirmacao_passo page fuel dataBR t tt s = (out, s')
    /\ trace s' = trace s ++ evs
    /\ forallb ehDaConfirmacao evs = true
    /\ (contar ehCliqueDirecional evs <= 220)%nat
    /\ (contar (ehEspera 600) evs <= 1)%nat
    /\ (forall u, out = Val (inl u) -> contar (ehEspera 600) evs = 1%nat)
    /\ (forall r, out = Val (inr r) -> r = true /\ contar (ehEspera 600) evs = O)
    /\ (forall e, out = Exc e -> rejeicaoDeEspera page e)
    /\ ((forall ms w, date_now page w + ms <= date_now page (wait_for_timeout page ms w)) ->
        (33 <= fuel)%nat -> out <> NoFuel).
Proof.
  unfold LinearStepper.confirmacao_passo. unfold bind at 1.
  rewrite lerTextoDataExibida_run. unfold bind at 1.
  set (s1 := mkSt (world s) (trace s ++ eventosLeitura page (world s))).
  destruct (irAteDataPorBotoes_spec page fuel dataBR 220 s1)
    as (out & s2 & evs & E & T & _ & _ & C & _ & _ & X & G).
  destruct (irAteDataPorBotoes_alfabeto page fuel dataBR 220 s1) as (evs' & T' & Q).
  rewrite E in *. cbn [snd] in T'. rewrite T in T'. apply app_inv_head in T'. subst evs'.
  pose proof (navegacao_sem_600 evs Q) as N6.
  pose proof (quietos_da_navegacao _ (eventosLeitura_quietos page (world s))) as Q0.
  pose proof (navegacao_sem_600 _ Q0) as N0.
  pose proof (quietos_da_navegacao _ (eventosLeitura_quietos page (world s2))) as Q2.
  pose proof (navegacao_sem_600 _ Q2) as N2.
  change (Z.to_nat 220) with 220%nat in C.
  subst s1. cbn [trace] in T.
  destruct out as [ok|e|].
  - unfold bind at 1. rewrite lerTextoDataExibida_run.
    destruct ok.
    + eexists. eexists.
      exists ((eventosLeitura page (world s) ++ evs) ++ eventosLeitura page (world s2)).
      split; [reflexivity|]. cbn [world trace]. split; [rewrite T; trace_eq|].
      split; [rewrite !List.forallb_app, !navegacao_da_confirmacao by assumption;
              reflexivity|].
      split; [rewrite !contar_app_events, !eventosLeitura_sem_cliques; lia|].
      rewrite !contar_app_events, N0, N6, N2.
      split; [simpl; lia|].
      split; [intros u H; discriminate H|].
      split; [intros r H; injection H as <-; split; reflexivity|].
      split; intros; discriminate.
    + unfold bind at 1.
      match goal with |- context [fecharOverlays page ?s3] =>
        destruct (fecharOverlays_alfabeto page s3) as (s4 & evs4 & E4 & T4 & Q4);
        destruct (fecharOverlays_eventos page s3) as (s4' & evs4' & E4' & T4' & C4 & _)
      end.
      rewrite E4 in E4'. injection E4' as <-. rewrite T4 in T4'.
      apply app_inv_head in T4'. subst evs4'.
      rewrite E4. unfold bind at 1. rewrite waitForTimeout_eq.
      cbn [trace] in T4.
      pose proof (navegacao_sem_600 evs4 Q4) as N4.
      destruct (timeout_gate page 600 (world s4)) as [[]|e] eqn:Eg; cbn [settle];
        (eexists; eexists;
         exists ((((eventosLeitura page (world s) ++ evs)
                   ++ eventosLeitura page (world s2)) ++ evs4) ++ [EvWait 600]);
         split; [reflexivity|]; cbn [world trace]; split; [rewrite T4, T; trace_eq|];
         split; [rewrite !List.forallb_app, !navegacao_da_confirmacao by assumption;
                 reflexivity|];
         split; [rewrite !contar_app_events, !eventosLeitura_sem_cliques, C4;
                 change (contar ehCliqueDirecional [EvWait 600]) with O; lia|];
         rewrite !contar_app_events, N0, N6, N2, N4;
         change (contar (ehEspera 600) [EvWait 600]) with 1%nat;
         split; [simpl; lia|]).
      * split; [intros; reflexivity|]. split; [intros r H; discriminate H|].
        split; intros; discriminate.
      * split; [intros u H; discriminate H|]. split; [intros r H; discriminate H|].
        split; [|intros; discriminate].
        intros e0 H. injection H as <-. exists 600, (world s4). exact Eg.
  - exists (Exc e), s2, (eventosLeitura page (world s) ++ evs).
    split; [reflexivity|]. split; [rewrite T; trace_eq|].
    split; [rewrite !List.forallb_app, !navegacao_da_confirmacao by assumption;
            reflexivity|].
    split; [rewrite !contar_app_events, !eventosLeitura_sem_cliques; lia|].
    rewrite !contar_app_events, N0, N6.
    split; [simpl; lia|].
    split; [intros u H; discriminate H|]. split; [intros r H; discriminate H|].
    split; [|intros; discriminate].
    intros e0 H. injection H as <-. apply X. reflexivity.
  - exists NoFuel, s2, (eventosLeitura page (world s) ++ evs).
    split; [reflexivity|]. split; [rewrite T; trace_eq|].
    split; [rewrite !List.forallb_app, !navegacao_da_confirmacao by assumption;
            reflexivity|].
    split; [rewrite !contar_app_events, !eventosLeitura_sem_cliques; lia|].
    rewrite !contar_app_events, N0, N6.
    split; [simpl; lia|].
    split; [intros u H; discriminate H|].
    split; [intros r H; discriminate H|].
    split; [intros; discriminate|].
    intros Hc Hf _. apply (G Hc Hf). reflexivity.
Qed.

Lemma confirmacao_loop_spec fuel dataBR n :
  forall i s,
  exists out s' evs,
    for_range n i tt (LinearStepper.confirmacao_passo page fuel dataBR) s = (out, s')
    /\ trace s' = trace s ++ evs
    /\ forallb ehDaConfirmacao evs = true
    /\ (contar ehCliqueDirecional evs <= 220 * n)%nat
    /\ (contar (ehEspera 600) evs <= n)%nat
    /\ (forall u, out = Val (inl u) -> contar (ehEspera 600) evs = n)
    /\ (forall r, out = Val (inr r) ->
          r = true /\ (contar (ehEspera 600) evs < n)%nat)
    /\ (forall e, out = Exc e -> rejeicaoDeEspera page e)
    /\ ((forall ms w, date_now page w + ms <= date_now page (wait_for_timeout page ms w)) ->
        (33 <= fuel)%nat -> out <> NoFuel).
Proof.
  induction n as [|n IH]; intros i s.
  - exists (Val (inl tt)), s, []. split; [reflexivity|].
    split; [rewrite app_nil_r; reflexivity|]. split; [reflexivity|].
    split; [unfold contar; simpl; lia|]. split; [unfold contar; simpl; lia|].
    split; [intros; reflexivity|]. split; [intros; discriminate|].
    split; intros; discriminate.
  - rewrite for_range_S.
    destruct (confirmacao_passo_spec fuel dataBR i s)
      as (out & s1 & evs1 & E & T & Q & C & N & I & R & X & G).
    rewrite E. destruct out as [[[]|r]|e|].
    + destruct (IH (i + 1) s1)
        as (out2 & s2 & evs2 & E2 & T2 & Q2 & C2 & N2 & I2 & R2 & X2 & G2).
      exists out2, s2, (evs1 ++ evs2). split; [exact E2|].
      split; [rewrite T2, T; trace_eq|].
      split; [rewrite List.forallb_app, Q, Q2; reflexivity|].
      rewrite !contar_app_events, (I tt eq_refl).
      split; [lia|]. split; [lia|].
      split; [intros u Hu; rewrite (I2 u Hu); reflexivity|].
      split; [intros r Hr; destruct (R2 r Hr); split; [assumption|lia]|].
      split; [exact X2|exact G2].
    + destruct (R r eq_refl) as [Hr H0].
      exists (Val (inr r)), s1, evs1. split; [reflexivity|]. split; [exact T|].
      split; [exact Q|]. rewrite H0. split; [lia|]. split; [lia|].
      split; [intros; discriminate|].
      split; [intros r0 Hr0; injection Hr0 as <-; split; [exact Hr|lia]|].
      split; intros; discriminate.
    + exists (Exc e), s1, evs1. split; [reflexivity|]. split; [exact T|].
      split; [exact Q|]. split; [lia|]. split; [lia|].
      split; [intros; discriminate|]. split; [intros; discriminate|].
      split; [exact X|intros; discriminate].
    + exists NoFuel, s1, evs1. split; [reflexivity|]. split; [exact T|].
      split; [exact Q|]. split; [lia|]. split; [lia|].
      split; [intros; discriminate|]. split; [intros; discriminate|].
      split; [intros; discriminate|exact G].
Qed.

End Confirmacao.

(** X18.  With a clock that a wait of [ms] moves on by at least [ms], the
    confirmation loop of the stepper variant returns a boolean,
    whatever the page rejects other than a timed wait; the one thing it
    throws is the rejection of a timed wait, and with timed waits that
    are fulfilled it always returns.  It only makes the calls of the
    navigator and waits of 600 ms -- it touches neither the month grid
    nor the list --, it clicks the two controls at most 220 times per
    attempt, and it answers false only after maxTentativas attempts,
    each followed by the wait of 600 ms. *)
Theorem selecionarDataComConfirmacao_stepper_returns {W : Type} (page : Session W)
    (fuel : nat) (dataBR : jsstring) (maxTentativas : Z) (s : St W) :
  (forall ms w, date_now page w + ms <= date_now page (wait_for_timeout page ms w)) ->
  (33 <= fuel)%nat ->
  exists out s' evs,
    LinearStepper.selecionarDataComConfirmacao page fuel dataBR maxTentativas s
    = (out, s')
    /\ ((exists b, out = Val b) \/ exists e, out = Exc e /\ rejeicaoDeEspera page e)
    /\ ((forall ms w, timeout_gate page ms w = Fulfilled tt) -> exists b, out = Val b)
    /\ trace s' = trace s ++ evs
    /\ forallb ehDaConfirmacao evs = true
    /\ (contar ehCliqueDirecional evs <= 220 * Z.to_nat maxTentativas)%nat
    /\ (contar (ehEspera 600) evs <= Z.to_nat maxTentativas)%nat
    /\ (out = Val false -> contar (ehEspera 600) evs = Z.to_nat maxTentativas)
    /\ (out = Val true -> (contar (ehEspera 600) evs < Z.to_nat maxTentativas)%nat).
Proof.
  intros Hclock Hf.
  unfold LinearStepper.selecionarDataComConfirmacao, for_le.
  replace (maxTentativas - 1 + 1) with maxTentativas by lia.
  destruct (confirmacao_loop_spec page fuel dataBR (Z.to_nat maxTentativas) 1 s)
    as (out & s' & evs & E & T & Q & C & N & I & R & X & G).
  assert (Hno : (forall ms w, timeout_gate page ms w = Fulfilled tt) ->
                forall e, ~ rejeicaoDeEspera page e).
  { intros He e (ms & w & H). rewrite He in H. discriminate H. }
  unfold bind. rewrite E. destruct out as [[[]|r]|e|].
  - exists (Val false), s', evs. split; [reflexivity|].
    split; [left; exists false; reflexivity|].
    split; [intros _; exists false; reflexivity|].
    split; [exact T|]. split; [exact Q|].
    split; [exact C|]. split; [exact N|].
    split; [intros _; apply (I tt); reflexivity|intros H; discriminate H].
  - destruct (R r eq_refl) as [-> Hlt].
    exists (Val true), s', evs. split; [reflexivity|].
    split; [left; exists true; reflexivity|].
    split; [intros _; exists true; reflexivity|].
    split; [exact T|]. split; [exact Q|].
    split; [exact C|]. split; [exact N|].
    split; [intros H; discriminate H|intros _; exact Hlt].
  - exists (Exc e), s', evs. split; [reflexivity|].
    split; [right; exists e; split; [reflexivity|apply X; reflexivity]|].
    split; [intros He; exfalso; exact (Hno He e (X e eq_refl))|].
    split; [exact T|]. split; [exact Q|].
    split; [exact C|]. split; [exact N|].
    split; intros H; discriminate H.
  - exfalso. apply (G Hclock Hf). reflexivity.
Qed.

Lemma selecionarDataComConfirmacao_stepper_returns_witness :
  exists s' evs,
    LinearStepper.selecionarDataComConfirmacao (paginaStepper false false []) 33
      (lit "05/03/2026") 2 (mkSt (20515, 0) []) = (Val false, s')
    /\ trace s' = evs
    /\ contar (ehEspera 600) evs = 2%nat
    /\ contar ehCliqueDirecional evs = O.
Proof.
  destruct (selecionarDataComConfirmacao_stepper_returns (paginaStepper false false []) 33
              (lit "05/03/2026") 2 (mkSt (20515, 0) []))
    as (out & s' & evs & E & _ & G & _).
  - intros ms w. simpl. lia.
  - lia.
  - destruct G as (b & ->); [intros ms w; reflexivity|].
    assert (R : LinearStepper.selecionarDataComConfirmacao (paginaStepper false false [])
                  33 (lit "05/03/2026") 2 (mkSt (20515, 0) [])
                = (Val false,
                   snd (LinearStepper.selecionarDataComConfirmacao
                          (paginaStepper false false []) 33 (lit "05/03/2026") 2
                          (mkSt (20515, 0) [])))).
    { vm_compute. reflexivity. }
    eexists. eexists. split; [exact R|]. split; [reflexivity|].
    split; vm_compute; reflexivity.
Defined.

End StepperFacts.

(** ** Reading the CSV file back *)

Module CsvReaderFacts.
Import Csv Config JsStringFacts CsvFacts.

Lemma lerCsv_fecha mode campo linha rest :
  mode <> CsvAspas -> fimDeCampo rest ->
  lerCsv mode campo linha rest = fechaCampo campo linha rest.
Proof.
  intros Hm Hr. destruct rest as [|c r]; [reflexivity|].
  simpl in Hr. unfold fechaCampo. cbn [lerCsv].
  destruct Hr as [-> | ->]; destruct mode; try congruence; reflexivity.
Qed.

Lemma lerCsv_simples s :
  Forall (fun c => ~ especial c) s ->
  forall mode campo linha rest,
    mode <> CsvAspas ->
    exists mode',
      mode' <> CsvAspas
      /\ lerCsv mode campo linha (s ++ rest) = lerCsv mode' (campo ++ s) linha rest.
Proof.
  induction 1 as [|c s Hc Hs IH]; intros mode campo linha rest Hm.
  - exists mode. rewrite app_nil_r. split; [exact Hm|reflexivity].
  - destruct (IH CsvSimples (campo ++ [c]) linha rest ltac:(discriminate))
      as (mode' & Hm' & E).
    exists mode'. split; [exact Hm'|].
    rewrite <- app_assoc in E. cbn [app] in E. rewrite <- E.
    change ((c :: s) ++ rest) with (c :: (s ++ rest)). cbn [lerCsv].
    unfold especial in Hc.
    destruct (N.eqb_spec c cQUOTE); [tauto|].
    destruct (N.eqb_spec c cSEMI); [tauto|].
    destruct (N.eqb_spec c cLF); [tauto|].
    destruct mode; try congruence; reflexivity.
Qed.

Lemma lerCsv_aspas s :
  forall campo linha rest,
    lerCsv CsvAspas campo linha (doubleQuotes s ++ cQUOTE :: rest)
    = lerCsv CsvAspaVista (campo ++ s) linha rest.
Proof.
  unfold doubleQuotes.
  induction s as [|c s IH]; intros campo linha rest.
  - simpl. rewrite app_nil_r. reflexivity.
  - cbn [flat_map]. destruct (N.eqb_spec c cQUOTE) as [->|Hc].
    + cbn [app lerCsv]. rewrite !N.eqb_refl.
      rewrite IH, <- app_assoc. reflexivity.
    + cbn [app lerCsv]. destruct (N.eqb_spec c cQUOTE); [contradiction|].
      rewrite IH, <- app_assoc. reflexivity.
Qed.

(** One escaped field, read at the start of a field. *)
Lemma lerCsv_campo v linha rest :
  fimDeCampo rest ->
  lerCsv CsvInicio [] linha (csvEscape v ++ rest)
  = fechaCampo (stringOrEmpty v) linha rest.
Proof.
  intros Hr. destruct v as [| |s]; cbn [csvEscape stringOrEmpty app].
  - apply lerCsv_fecha; [discriminate|exact Hr].
  - apply lerCsv_fecha; [discriminate|exact Hr].
  - destruct (needsQuoting s) eqn:Eq.
    + cbn [app]. rewrite <- app_assoc. cbn [app lerCsv]. rewrite N.eqb_refl.
      rewrite lerCsv_aspas. cbn [app].
      apply lerCsv_fecha; [discriminate|exact Hr].
    + assert (Hs : Forall (fun c => ~ especial c) s).
      { apply List.Forall_forall. intros c Hc He.
        assert (H : needsQuoting s = true) by (apply needsQuoting_spec; eauto).
        congruence. }
      destruct (lerCsv_simples s Hs CsvInicio [] linha rest ltac:(discriminate))
        as (mode' & Hm' & E).
      rewrite E. cbn [app]. apply lerCsv_fecha; assumption.
Qed.

(** One written line, read at the start of a row. *)
Lemma lerCsv_linha cells :
  cells <> [] ->
  forall linha rest,
    (match rest with [] => True | c :: _ => c = cLF end) ->
    lerCsv CsvInicio [] linha (join [cSEMI] (List.map csvEscape cells) ++ rest)
    = match rest with
      | [] => [linha ++ List.map stringOrEmpty cells]
      | _ :: r => (linha ++ List.map stringOrEmpty cells) :: lerCsv CsvInicio [] [] r
      end.
Proof.
  induction cells as [|v cells IH]; intros Hne linha rest Hr; [congruence|].
  destruct cells as [|v' cells'].
  - cbn [List.map join]. rewrite lerCsv_campo.
    + unfold fechaCampo. destruct rest as [|c r]; [reflexivity|].
      simpl in Hr. subst c. reflexivity.
    + destruct rest as [|c r]; [exact I|]. right. exact Hr.
  - change (join [cSEMI] (List.map csvEscape (v :: v' :: cells')))
      with (csvEscape v ++ [cSEMI] ++ join [cSEMI] (List.map csvEscape (v' :: cells'))).
    rewrite <- !app_assoc. cbn [app].
    rewrite lerCsv_campo by (left; reflexivity).
    unfold fechaCampo. rewrite N.eqb_refl.
    rewrite (IH ltac:(discriminate) (linha ++ [stringOrEmpty v]) rest Hr).
    cbn [List.map]. rewrite <- !app_assoc. reflexivity.
Qed.

(** The written lines, read from the start of the file. *)
Lemma lerCsv_linhas (rows : list (list JsVal)) :
  rows <> [] -> Forall (fun cells => cells <> []) rows ->
  lerCsv CsvInicio [] []
    (join [cLF] (List.map (fun cells => join [cSEMI] (List.map csvEscape cells)) rows))
  = List.map (List.map stringOrEmpty) rows.
Proof.
  induction rows as [|cells rows IH]; intros Hne Hall; [congruence|].
  inversion Hall as [|? ? Hc Hrest]; subst.
  destruct rows as [|cells' rows'].
  - cbn [List.map join].
    rewrite <- (app_nil_r (join [cSEMI] (List.map csvEscape cells))).
    rewrite (lerCsv_linha cells Hc [] [] I). reflexivity.
  - change (join [cLF] (List.map (fun cells => join [cSEMI] (List.map csvEscape cells))
                                 (cells :: cells' :: rows')))
      with (join [cSEMI] (List.map csvEscape cells)
            ++ [cLF] ++ join [cLF] (List.map (fun cells => join [cSEMI]
                                                 (List.map csvEscape cells))
                                             (cells' :: rows'))).
    cbn [app].
    rewrite (lerCsv_linha cells Hc []
               (cLF :: join [cLF] (List.map (fun cells => join [cSEMI]
                                               (List.map csvEscape cells))
                                            (cells' :: rows'))) eq_refl).
    rewrite IH by (assumption || discriminate). reflexivity.
Qed.

(** The file written, and how its text reads. *)
Lemma writeCsv_conteudo (filePath : jsstring) (headers : list jsstring)
    (rows : list Row) (fs : FileSystem) :
  headers <> [] ->
  exists conteudo,
    writeCsv filePath headers rows fs = <[filePath := [cBOM] ++ conteudo]> fs
    /\ lerArquivoCsv conteudo = headers :: List.map (celulas headers) rows.
Proof.
  intros Hh. unfold writeCsv. cbv zeta. eexists. split; [reflexivity|].
  unfold lerArquivoCsv.
  set (todas := List.map VStr headers
                :: List.map (fun row => List.map (get row) headers) rows).
  assert (E : [join [cSEMI] (List.map (fun h => csvEscape (VStr h)) headers)]
              ++ List.map (fun row => join [cSEMI]
                                        (List.map (fun h => csvEscape (get row h)) headers))
                          rows
              = List.map (fun cells => join [cSEMI] (List.map csvEscape cells)) todas).
  { unfold todas. cbn [List.map app]. rewrite !List.map_map. f_equal.
    apply List.map_ext. intros row. rewrite List.map_map. reflexivity. }
  rewrite E, lerCsv_linhas.
  - unfold todas. cbn [List.map]. f_equal.
    + rewrite List.map_map. cbn [stringOrEmpty]. apply List.map_id.
    + rewrite List.map_map. apply List.map_ext. intros row. unfold celulas.
      rewrite List.map_map. apply List.map_ext. intros h.
      rewrite get_valorSob. destruct (valorSob row h); reflexivity.
  - discriminate.
  - unfold todas. constructor.
    + destruct headers; [congruence|discriminate].
    + apply List.Forall_forall. intros cells Hc.
      apply List.in_map_iff in Hc. destruct Hc as (row & <- & _).
      destruct headers; [congruence|discriminate].
Qed.

(** X19.  What writeCsv writes is read back without loss: after the
    byte-order mark, the file reads as the row of the headers followed
    by one row per record, each with the cells of the record under the
    headers, in order -- whatever semicolons, quote marks and line
    breaks the values hold.  The cell under a header is the own
    property of the record with that name; where the record has none,
    it is the text of the member of Object.prototype with that name,
    if there is one, and the empty string otherwise; a null cell reads
    as the empty string.  There must be at least one header. *)
Theorem writeCsv_reads_back (filePath : jsstring) (headers : list jsstring)
    (rows : list Row) (fs : FileSystem) :
  headers <> [] ->
  exists conteudo,
    writeCsv filePath headers rows fs !! filePath = Some ([cBOM] ++ conteudo)
    /\ lerArquivoCsv conteudo = headers :: List.map (celulas headers) rows.
Proof.
  intros Hh. destruct (writeCsv_conteudo filePath headers rows fs Hh) as (c & E & R).
  exists c. split; [|exact R]. rewrite E. apply lookup_insert_eq.
Qed.

Lemma writeCsv_reads_back_witness :
  exists conteudo,
    writeCsv (lit "pauta.csv") [lit "vara"; lit "juiz"; lit "constructor"]
      [<[lit "vara" := VStr (lit "1; 2")]> ∅] ∅ !! lit "pauta.csv"
    = Some ([cBOM] ++ conteudo)
    /\ lerArquivoCsv conteudo
       = [[lit "vara"; lit "juiz"; lit "constructor"];
          [lit "1; 2"; []; lit "function Object() { [native code] }"]].
Proof.
  destruct (writeCsv_reads_back (lit "pauta.csv")
              [lit "vara"; lit "juiz"; lit "constructor"]
              [<[lit "vara" := VStr (lit "1; 2")]> ∅] ∅) as (c & E & R).
  - discriminate.
  - exists c. split; [exact E|]. rewrite R. reflexivity.
Defined.

End CsvReaderFacts.

(** ** The MySQL sink *)

Module DbFacts.
Import Csv Config Dates Db AsyncFacts ConfigFacts.

(** *** Batches *)

Lemma lotes_fuel {A} n (Hn : (1 <= n)%nat) :
  forall fuel (l : list A), (length l <= fuel)%nat -> lotes fuel n l = emLotes n l.
Proof.
  unfold emLotes.
  assert (H : forall k fuel (l : list A),
             (length l <= k)%nat -> (length l <= fuel)%nat ->
             lotes fuel n l = lotes (length l) n l).
  { induction k as [|k IH]; intros fuel l Hk Hf.
    - destruct l; [|simpl in Hk; lia]. destruct fuel; reflexivity.
    - destruct l as [|a l]; [destruct fuel; reflexivity|].
      destruct fuel as [|fuel]; [simpl in Hf; lia|].
      cbn [lotes length]. f_equal.
      assert (Hd : (length (drop n (a :: l)) <= length l)%nat).
      { rewrite length_drop. simpl. lia. }
      rewrite (IH fuel (drop n (a :: l))), (IH (length l) (drop n (a :: l)));
        try reflexivity; simpl in *; lia. }
  intros fuel l Hf. apply (H (length l)); [lia|exact Hf].
Qed.

Lemma emLotes_cons {A} n (Hn : (1 <= n)%nat) (a : A) l :
  emLotes n (a :: l) = take n (a :: l) :: emLotes n (drop n (a :: l)).
Proof.
  unfold emLotes at 1. cbn [length lotes]. f_equal.
  apply lotes_fuel; [exact Hn|]. rewrite length_drop. simpl. lia.
Qed.

Lemma emLotes_nil {A} n : emLotes n (@nil A) = [].
Proof. reflexivity. Qed.

(** The batches are the list, cut: in order, none empty, none longer
    than [n], all but the last of [n] elements. *)
Lemma emLotes_spec {A} n (Hn : (1 <= n)%nat) :
  forall k (l : list A), (length l <= k)%nat ->
    List.concat (emLotes n l) = l
    /\ Forall (fun b => (1 <= length b <= n)%nat) (emLotes n l)
    /\ (length (emLotes n l) * n < length l + n)%nat
    /\ (length l <= length (emLotes n l) * n)%nat.
Proof.
  induction k as [|k IH]; intros l Hk.
  - destruct l; [|simpl in Hk; lia]. rewrite emLotes_nil.
    repeat split; simpl; try constructor; lia.
  - destruct l as [|a l]; [rewrite emLotes_nil; repeat split; simpl; try constructor; lia|].
    rewrite (emLotes_cons n Hn).
    assert (Hd : (length (drop n (a :: l)) <= k)%nat).
    { rewrite length_drop. simpl in *. lia. }
    destruct (IH _ Hd) as (Hc & Hf & Hlt & Hge).
    pose proof (length_take (a :: l) n) as Lt.
    pose proof (length_drop (a :: l) n) as Ld.
    split; [cbn [List.concat]; rewrite Hc; apply take_drop|].
    split; [constructor; [simpl in *; lia|exact Hf]|].
    rewrite length_drop in Hlt, Hge. cbn [length] in *.
    set (L := length (emLotes n (drop n (a :: l)))) in *. split; [|lia].
    destruct (Nat.le_gt_cases n (S (length l))); [lia|].
    destruct L as [|L0]; [lia|]. rewrite Nat.mul_succ_l in Hlt. lia.
Qed.

Lemma slice_chunk {A} (rows : list A) (i n : Z) :
  0 <= i < Z.of_nat (length rows) -> 1 <= n ->
  slice rows i (i + n) = take (Z.to_nat n) (drop (Z.to_nat i) rows).
Proof.
  intros Hi Hn. unfold slice. cbv zeta.
  destruct (Z.ltb_spec i 0); [lia|]. destruct (Z.ltb_spec (i + n) 0); [lia|].
  rewrite (Z.min_l i) by lia.
  destruct (Z.le_gt_cases (i + n) (Z.of_nat (length rows))).
  - rewrite Z.min_l by lia. f_equal. lia.
  - rewrite Z.min_r by lia.
    rewrite !take_ge; [reflexivity| |]; rewrite length_drop; lia.
Qed.

(** *** The insert loop *)

Lemma chunkValues_temData chunk :
  Forall temData chunk ->
  exists values,
    chunkValues chunk = inr values /\ length values = (9 * length chunk)%nat.
Proof.
  induction 1 as [|r chunk (d & Hd) Hc (values & E & L)].
  - exists []. split; reflexivity.
  - cbn [chunkValues]. unfold rowValues. rewrite Hd, E.
    eexists. split; [reflexivity|]. rewrite List.length_app, L. simpl. lia.
Qed.

Section WithPool.
Context {D : Type} (pool : Pool D).

Lemma poolQuery_run sql values (s : St (DbState D)) :
  poolQuery pool sql values s
  = (settle (fst (pool_query pool sql values (db (world s)))),
     mkSt (mkDb (snd (pool_query pool sql values (db (world s))))
                (consultas (world s) ++ [DbQuery sql values]))
          (trace s)).
Proof.
  unfold poolQuery. destruct (pool_query pool sql values (db (world s))). reflexivity.
Qed.

Lemma poolEnd_run (s : St (DbState D)) :
  poolEnd pool s
  = (settle (fst (pool_end pool (db (world s)))),
     mkSt (mkDb (snd (pool_end pool (db (world s)))) (consultas (world s) ++ [DbEnd]))
          (trace s)).
Proof. unfold poolEnd. destruct (pool_end pool (db (world s))). reflexivity. Qed.

Lemma insertRows_loop_spec rows n :
  1 <= n -> Forall temData rows ->
  forall fuel i total s,
    0 <= i -> (length (drop (Z.to_nat i) rows) < fuel)%nat ->
    exists out s' k,
      insertRows_loop fuel pool rows n i total s = (out, s')
      /\ consultas (world s')
         = consultas (world s)
           ++ List.map consultaDoLote
                (take k (emLotes (Z.to_nat n) (drop (Z.to_nat i) rows)))
      /\ trace s' = trace s
      /\ (k <= length (emLotes (Z.to_nat n) (drop (Z.to_nat i) rows)))%nat
      /\ (forall t, out = Val t ->
            k = length (emLotes (Z.to_nat n) (drop (Z.to_nat i) rows)))
      /\ (forall e, out = Exc e -> (1 <= k)%nat)
      /\ out <> NoFuel
      /\ remessa pool (emLotes (Z.to_nat n) (drop (Z.to_nat i) rows))
           (db (world s)) total out (db (world s')) k.
Proof.
  intros Hn Hd. induction fuel as [|fuel IH]; intros i total s Hi Hf; [lia|].
  cbn [insertRows_loop].
  destruct (Z.ltb_spec i (Z.of_nat (length rows))) as [Hlt|Hge].
  - rewrite slice_chunk by lia.
    set (l := drop (Z.to_nat i) rows) in *.
    assert (Hl : Forall temData l) by (apply Forall_drop; exact Hd).
    destruct l as [|a l'] eqn:El.
    { exfalso. apply (f_equal (@length Row)) in El. subst l.
      rewrite length_drop in El. simpl in El. lia. }
    rewrite (emLotes_cons (Z.to_nat n) ltac:(lia)).
    set (chunk := take (Z.to_nat n) (a :: l')).
    destruct (chunkValues_temData chunk) as (values & Ev & Lv).
    { apply Forall_take. exact Hl. }
    rewrite Ev. unfold bind at 1. rewrite poolQuery_run.
    assert (Ec : consultaDoLote chunk = DbQuery (sqlInsert (length chunk)) values).
    { unfold consultaDoLote. rewrite Ev. reflexivity. }
    destruct (pool_query pool (sqlInsert (length chunk)) values (db (world s)))
      as [[res|e] d1] eqn:Eq; cbn [fst snd settle].
    + match goal with |- context [insertRows_loop fuel pool rows n (i + n) ?t ?s1] =>
        destruct (IH (i + n) t s1) as (out & s' & k & E & C & T & K & V & X & F & R)
      end.
      { lia. }
      { replace (Z.to_nat (i + n)) with (Z.to_nat i + Z.to_nat n)%nat by lia.
        rewrite <- drop_drop. fold l. rewrite El, length_drop.
        simpl in Hf. simpl. lia. }
      replace (Z.to_nat (i + n)) with (Z.to_nat i + Z.to_nat n)%nat in C, K, V, R by lia.
      rewrite <- drop_drop in C, K, V, R. fold l in C, K, V, R.
      rewrite El in C, K, V, R.
      exists out, s', (S k). split; [exact E|].
      split; [rewrite C; cbn [world consultas take List.map]; rewrite Ec,
                <- app_assoc; reflexivity|].
      split; [exact T|]. split; [cbn [length]; lia|].
      split; [intros t Ht; cbn [length]; rewrite (V t Ht); reflexivity|].
      split; [intros; lia|]. split; [exact F|].
      eapply rem_aceito; [exact Ec|exact Eq|exact R].
    + eexists. eexists. exists 1%nat. split; [reflexivity|].
      cbn [world consultas trace take List.map length db]. rewrite Ec, take_0.
      split; [reflexivity|]. split; [reflexivity|]. split; [lia|].
      split; [intros t H; discriminate H|]. split; [intros; lia|].
      split; [discriminate|].
      eapply rem_rejeitado; [exact Ec|exact Eq].
  - assert (El : drop (Z.to_nat i) rows = []) by (apply drop_ge; lia).
    rewrite El. exists (Val total), s, O. split; [reflexivity|].
    split; [simpl; rewrite app_nil_r; reflexivity|]. split; [reflexivity|].
    split; [simpl; lia|]. split; [intros; reflexivity|].
    split; [intros e H; discriminate H|]. split; [discriminate|].
    apply rem_fim.
Qed.

(** The batches and the state of the database decide what is sent and
    the outcome. *)
Lemma remessa_unica batches d total out1 d1 k1 out2 d2 k2 :
  remessa pool batches d total out1 d1 k1 ->
  remessa pool batches d total out2 d2 k2 ->
  out1 = out2 /\ d1 = d2 /\ k1 = k2.
Proof.
  intros R1. revert out2 d2 k2.
  induction R1 as [d total|b rest d total sql values res d1 out d' k Ec Eq R IH
                  |b rest d total sql values e d1 Ec Eq];
    intros out2 d2 k2 R2; inversion R2; subst.
  - repeat split.
  - match goal with H : consultaDoLote b = _ |- _ => rewrite Ec in H; injection H as <- <- end.
    match goal with H : pool_query pool sql values d = _ |- _ =>
      rewrite Eq in H; injection H as <- <- end.
    destruct (IH _ _ _ ltac:(eassumption)) as (-> & -> & ->). repeat split.
  - match goal with H : consultaDoLote b = _ |- _ => rewrite Ec in H; injection H as <- <- end.
    match goal with H : pool_query pool sql values d = _ |- _ =>
      rewrite Eq in H; discriminate H end.
  - match goal with H : consultaDoLote b = _ |- _ => rewrite Ec in H; injection H as <- <- end.
    match goal with H : pool_query pool sql values d = _ |- _ =>
      rewrite Eq in H; discriminate H end.
  - match goal with H : consultaDoLote b = _ |- _ => rewrite Ec in H; injection H as <- <- end.
    match goal with H : pool_query pool sql values d = _ |- _ =>
      rewrite Eq in H; injection H as <- <- end.
    repeat split.
Qed.

(** A thrown outcome is the rejection of the last query sent, and every
    query before it was accepted. *)
Lemma remessa_rejeitada batches d total e d' k :
  remessa pool batches d total (Exc e) d' k ->
  exists j b sql values d0,
    k = S j /\ batches !! j = Some b
    /\ consultaDoLote b = DbQuery sql values
    /\ pool_query pool sql values d0 = (Rejected e, d').
Proof.
  intros R. remember (Exc e) as out eqn:Eo.
  induction R as [d total|b rest d total sql values res d1 out d' k Ec Eq R IH
                 |b rest d total sql values e' d1 Ec Eq].
  - discriminate Eo.
  - destruct (IH Eo) as (j & b' & sql' & values' & d0 & -> & Hb & Hc & Hq).
    exists (S j), b', sql', values', d0. repeat split; assumption.
  - injection Eo as ->. exists O, b, sql, values, d. repeat split; assumption.
Qed.

(** A pool that rejects the first query makes it the only one. *)
Lemma remessa_primeira b rest d total sql values e out d' k :
  consultaDoLote b = DbQuery sql values ->
  fst (pool_query pool sql values d) = Rejected e ->
  remessa pool (b :: rest) d total out d' k ->
  out = Exc e /\ k = 1%nat.
Proof.
  intros Ec Eq R. inversion R; subst.
  - match goal with H : consultaDoLote b = _ |- _ => rewrite Ec in H; injection H as <- <- end.
    match goal with H : pool_query pool sql values d = _ |- _ =>
      rewrite H in Eq; discriminate Eq end.
  - match goal with H : consultaDoLote b = _ |- _ => rewrite Ec in H; injection H as <- <- end.
    match goal with H : pool_query pool sql values d = _ |- _ =>
      rewrite H in Eq; injection Eq as -> end.
    split; reflexivity.
Qed.

(** A pool that accepts every query lets the call return. *)
Lemma remessa_aceita batches d total out d' k :
  (forall sql values d0, exists res, fst (pool_query pool sql values d0) = Fulfilled res) ->
  remessa pool batches d total out d' k ->
  exists t, out = Val t.
Proof.
  intros Ha R.
  induction R as [d total|b rest d total sql values res d1 out d' k Ec Eq R IH
                 |b rest d total sql values e' d1 Ec Eq].
  - eexists. reflexivity.
  - exact IH.
  - destruct (Ha sql values d) as (res & Hr). rewrite Eq in Hr. discriminate Hr.
Qed.

(** A returned count means that every batch was sent. *)
Lemma remessa_completa batches d total t d' k :
  remessa pool batches d total (Val t) d' k -> k = length batches.
Proof.
  intros R. remember (Val t) as out eqn:Eo.
  induction R as [d total|b rest d total sql values res d1 out d' k Ec Eq R IH
                 |b rest d total sql values e' d1 Ec Eq].
  - reflexivity.
  - cbn [length]. rewrite (IH Eo). reflexivity.
  - discriminate Eo.
Qed.

End WithPool.

(** X20.  insertRowsMySql sends the rows to the pool in batches: the rows in
    order, cut every chunkSize rows, one query per batch with one group
    of placeholders and nine values per row.  The batches are sent one
    after the other, each to the database as the one before left it.
    When the pool accepts them all, the call returns the sum of the
    affected rows the pool reported, a result without such a count
    adding nothing.  When the pool rejects a query, the call throws that
    very rejection, that query is the last one sent, and every query
    before it was accepted: no later batch is sent.  Which of the two
    happens, the value returned or thrown, the number of queries and the
    state the database is left in are decided by the batches and the
    pool alone.  The call adds nothing to the trace of the page.
    Without a pool it does nothing.  The chunk size must be at least one
    and every row must have a date. *)
Theorem insertRowsMySql_batches {D : Type} (pool : Pool D) (rows : list Row)
    (chunkSize : Z) (fuel : nat) (s : St (DbState D)) :
  1 <= chunkSize -> Forall temData rows -> (length rows < fuel)%nat ->
  let batches := emLotes (Z.to_nat chunkSize) rows in
  List.concat batches = rows
  /\ Forall (fun b => (1 <= length b <= Z.to_nat chunkSize)%nat) batches
  /\ (length batches * Z.to_nat chunkSize < length rows + Z.to_nat chunkSize)%nat
  /\ (forall b, In b batches ->
        exists values,
          consultaDoLote b = DbQuery (sqlInsert (length b)) values
          /\ length values = (9 * length b)%nat)
  /\ (exists out s' k,
        insertRowsMySql fuel (Some pool) (Some rows) chunkSize s = (out, s')
        /\ remessa pool batches (db (world s)) 0 out (db (world s')) k
        /\ (forall out2 d2 k2,
              remessa pool batches (db (world s)) 0 out2 d2 k2 ->
              out2 = out /\ d2 = db (world s') /\ k2 = k)
        /\ consultas (world s')
           = consultas (world s) ++ List.map consultaDoLote (take k batches)
        /\ trace s' = trace s
        /\ (k <= length batches)%nat
        /\ (forall t, out = Val t -> k = length batches)
        /\ (forall e, out = Exc e ->
              exists j b sql values d0,
                k = S j /\ batches !! j = Some b
                /\ consultaDoLote b = DbQuery sql values
                /\ pool_query pool sql values d0 = (Rejected e, db (world s')))
        /\ (forall b rest sql values e,
              batches = b :: rest ->
              consultaDoLote b = DbQuery sql values ->
              fst (pool_query pool sql values (db (world s))) = Rejected e ->
              out = Exc e /\ k = 1%nat)
        /\ ((forall sql values d, exists res,
               fst (pool_query pool sql values d) = Fulfilled res) ->
            exists t, out = Val t)
        /\ out <> NoFuel)
  /\ (forall r, insertRowsMySql fuel (@None (Pool D)) r chunkSize s = (Val 0, s)).
Proof.
  intros Hn Hd Hf batches.
  destruct (emLotes_spec (Z.to_nat chunkSize) ltac:(lia) (length rows) rows (le_n _))
    as (Hc & Hb & Hlt & _).
  split; [exact Hc|]. split; [exact Hb|]. split; [exact Hlt|].
  split; [|split; [|reflexivity]].
  - intros b Hin.
    assert (Hbd : Forall temData b).
    { apply List.Forall_forall. intros r Hr.
      apply (proj1 (List.Forall_forall _ _) Hd). rewrite <- Hc.
      apply List.in_concat. exists b. split; assumption. }
    destruct (chunkValues_temData b Hbd) as (values & Ev & Lv).
    exists values. split; [|exact Lv]. unfold consultaDoLote. rewrite Ev. reflexivity.
  - assert (H : exists out s' k,
               insertRowsMySql fuel (Some pool) (Some rows) chunkSize s = (out, s')
               /\ remessa pool batches (db (world s)) 0 out (db (world s')) k
               /\ consultas (world s')
                  = consultas (world s) ++ List.map consultaDoLote (take k batches)
               /\ trace s' = trace s
               /\ (k <= length batches)%nat
               /\ out <> NoFuel).
    { destruct rows as [|r rows'].
      - exists (Val 0), s, O. split; [reflexivity|]. split; [apply rem_fim|].
        split; [simpl; rewrite app_nil_r; reflexivity|]. split; [reflexivity|].
        split; [simpl; lia|discriminate].
      - cbn [insertRowsMySql]. cbv zeta.
        destruct (insertRows_loop_spec pool (r :: rows') chunkSize Hn Hd fuel 0 0 s)
          as (out & s' & k & E & C & T & K & V & X & F & R); [lia|exact Hf|].
        change (drop (Z.to_nat 0) (r :: rows')) with (r :: rows') in *.
        exists out, s', k. repeat split; assumption. }
    destruct H as (out & s' & k & E & R & C & T & K & F).
    exists out, s', k. split; [exact E|]. split; [exact R|].
    split.
    { intros out2 d2 k2 R2.
      destruct (remessa_unica pool _ _ _ _ _ _ _ _ _ R R2) as (-> & -> & ->).
      repeat split. }
    split; [exact C|]. split; [exact T|]. split; [exact K|].
    split; [intros t ->; exact (remessa_completa pool _ _ _ _ _ _ R)|].
    split; [intros e ->; exact (remessa_rejeitada pool _ _ _ _ _ _ R)|].
    split.
    { intros b rest sql values e Eb Ec Eq. fold batches in Eb. rewrite Eb in R.
      exact (remessa_primeira pool _ _ _ _ _ _ _ _ _ _ Ec Eq R). }
    split; [|exact F].
    intros Ha. exact (remessa_aceita pool _ _ _ _ _ _ Ha R).
Qed.

Lemma temData_linhaCom d : temData (linhaCom d).
Proof. exists d. unfold get, linhaCom. rewrite lookup_insert_eq. reflexivity. Qed.

Lemma remessa_poolAceita :
  remessa poolAceita
    [[linhaCom (lit "02/03/2026"); linhaCom (lit "03/03/2026")];
     [linhaCom (lit "04/03/2026")]] tt 0 (Val 2) tt 2.
Proof.
  eapply rem_aceito; [reflexivity|reflexivity|].
  eapply rem_aceito; [reflexivity|reflexivity|].
  apply rem_fim.
Qed.

Lemma remessa_poolQueCai :
  remessa poolQueCai
    [[linhaCom (lit "02/03/2026"); linhaCom (lit "03/03/2026")];
     [linhaCom (lit "04/03/2026"); linhaCom (lit "05/03/2026")];
     [linhaCom (lit "06/03/2026")]] true 0
    (Exc (lit "Connection lost: The server closed the connection.")) false 2.
Proof.
  eapply rem_aceito; [reflexivity|reflexivity|].
  eapply rem_rejeitado; reflexivity.
Qed.

Lemma insertRowsMySql_batches_witness :
  (let rows := [linhaCom (lit "02/03/2026"); linhaCom (lit "03/03/2026");
                linhaCom (lit "04/03/2026")] in
   emLotes 2 rows = [[linhaCom (lit "02/03/2026"); linhaCom (lit "03/03/2026")];
                     [linhaCom (lit "04/03/2026")]]
   /\ exists s',
        insertRowsMySql 4 (Some poolAceita) (Some rows) 2 (mkSt (mkDb tt []) [])
        = (Val 2, s')
        /\ remessa poolAceita (emLotes 2 rows) tt 0 (Val 2) (db (world s')) 2
        /\ consultas (world s') = List.map consultaDoLote (emLotes 2 rows))
  /\ (let rows := [linhaCom (lit "02/03/2026"); linhaCom (lit "03/03/2026");
                   linhaCom (lit "04/03/2026"); linhaCom (lit "05/03/2026");
                   linhaCom (lit "06/03/2026")] in
      let lost := lit "Connection lost: The server closed the connection." in
      length (emLotes 2 rows) = 3%nat
      /\ exists s',
           insertRowsMySql 6 (Some poolQueCai) (Some rows) 2 (mkSt (mkDb true []) [])
           = (Exc lost, s')
           /\ remessa poolQueCai (emLotes 2 rows) true 0 (Exc lost) (db (world s')) 2
           /\ consultas (world s')
              = List.map consultaDoLote
                  [[linhaCom (lit "02/03/2026"); linhaCom (lit "03/03/2026")];
                   [linhaCom (lit "04/03/2026"); linhaCom (lit "05/03/2026")]]).
Proof.
  cbv zeta. split; (split; [reflexivity|]).
  - pose proof (insertRowsMySql_batches poolAceita
                  [linhaCom (lit "02/03/2026"); linhaCom (lit "03/03/2026");
                   linhaCom (lit "04/03/2026")] 2 4 (mkSt (mkDb tt []) [])
                  ltac:(lia)
                  ltac:(repeat constructor; apply temData_linhaCom)
                  ltac:(simpl; lia)) as H.
    cbv zeta in H.
    destruct H as (_ & _ & _ & _ & (out & s' & k & E & R & U & C & _) & _).
    destruct (U _ _ _ remessa_poolAceita) as (<- & _ & <-).
    exists s'. split; [exact E|]. split; [exact R|exact C].
  - pose proof (insertRowsMySql_batches poolQueCai
                  [linhaCom (lit "02/03/2026"); linhaCom (lit "03/03/2026");
                   linhaCom (lit "04/03/2026"); linhaCom (lit "05/03/2026");
                   linhaCom (lit "06/03/2026")] 2 6 (mkSt (mkDb true []) [])
                  ltac:(lia)
                  ltac:(repeat constructor; apply temData_linhaCom)
                  ltac:(simpl; lia)) as H.
    cbv zeta in H.
    destruct H as (_ & _ & _ & _ & (out & s' & k & E & R & U & C & _) & _).
    destruct (U _ _ _ remessa_poolQueCai) as (<- & _ & <-).
    exists s'. split; [exact E|]. split; [exact R|exact C].
Defined.

(** *** Opening the database *)

Lemma enabled_spec (env : Env) (name : jsstring) :
  isTrue (getEnv env name (VStr (lit "false"))) = true <->
  exists v, env !! name = Some v
            /\ (trim v = lit "1" \/ toLowerCase (trim v) = lit "true").
Proof.
  unfold getEnv. destruct (env !! name) as [v|]; [|split].
  - destruct (eqb v []) eqn:Ev.
    + apply JsStringFacts.eqb_eq in Ev. subst v. split; [intros H; discriminate H|].
      intros (v & E & [H|H]); injection E as <-; discriminate H.
    + unfold isTrue. cbn [stringOrEmpty]. rewrite orb_true_iff. unfold eqb.
      rewrite !bool_decide_eq_true. split.
      * intros H. exists v. split; [reflexivity|tauto].
      * intros (v' & E & H). injection E as <-. tauto.
  - intros H. discriminate H.
  - intros (v & E & _). discriminate E.
Qed.

(** X21.  initDbIfEnabled never throws.  Unless DB_ENABLED is set to [1] or to
    the word true (in any case, white space around it allowed) it gives
    no pool and makes no call.  Otherwise it sends [SELECT 1] and then
    the table definition, and gives the pool only when both are
    accepted; when either is rejected it closes the pool, ignores a
    failure of that, and gives no pool. *)
Theorem initDbIfEnabled_outcomes {D : Type} (env : Env)
    (driver : PoolConfig -> Pool D) (s : St (DbState D)) :
  let pool := driver (openDb env) in
  let enabled := isTrue (getEnv env (lit "DB_ENABLED") (VStr (lit "false"))) in
  let q1 := pool_query pool (lit "SELECT 1") [] (db (world s)) in
  let q2 := pool_query pool sqlSchema [] (snd q1) in
  (enabled = true <->
     exists v, env !! lit "DB_ENABLED" = Some v
               /\ (trim v = lit "1" \/ toLowerCase (trim v) = lit "true"))
  /\ exists r s',
       initDbIfEnabled env driver s = (Val r, s')
       /\ trace s' = trace s
       /\ (enabled = false -> r = None /\ s' = s)
       /\ (enabled = true ->
             match fst q1, fst q2 with
             | Fulfilled _, Fulfilled _ =>
                 r = Some pool
                 /\ consultas (world s')
                    = consultas (world s)
                      ++ [DbQuery (lit "SELECT 1") []; DbQuery sqlSchema []]
             | Fulfilled _, Rejected _ =>
                 r = None
                 /\ consultas (world s')
                    = consultas (world s)
                      ++ [DbQuery (lit "SELECT 1") []; DbQuery sqlSchema []; DbEnd]
             | Rejected _, _ =>
                 r = None
                 /\ consultas (world s')
                    = consultas (world s) ++ [DbQuery (lit "SELECT 1") []; DbEnd]
             end).
Proof.
  cbv zeta. split; [apply enabled_spec|].
  unfold initDbIfEnabled. cbv zeta.
  destruct (isTrue (getEnv env (lit "DB_ENABLED") (VStr (lit "false")))); cbn [negb].
  2:{ exists None, s. split; [reflexivity|]. split; [reflexivity|].
      split; [intros _; split; reflexivity|intros H; discriminate H]. }
  set (pool := driver (openDb env)).
  unfold try_catch at 1. unfold bind at 1. rewrite poolQuery_run.
  destruct (fst (pool_query pool (lit "SELECT 1") [] (db (world s)))) as [r1|e1];
    cbn [settle].
  - unfold ensureSchema. unfold bind at 1. unfold bind at 1. rewrite poolQuery_run.
    cbn [world db consultas trace].
    destruct (fst (pool_query pool sqlSchema [] _)) as [r2|e2]; cbn [settle].
    + eexists. eexists. split; [reflexivity|]. cbn [world consultas trace].
      split; [reflexivity|]. split; [intros H; discriminate H|]. intros _.
      split; [reflexivity|]. rewrite <- app_assoc. reflexivity.
    + unfold bind at 1. unfold try_catch at 1. rewrite poolEnd_run.
      cbn [world db consultas trace].
      destruct (fst (pool_end pool _)); cbn [settle]; eexists; eexists;
        (split; [reflexivity|]); cbn [world consultas trace];
        (split; [reflexivity|]); (split; [intros H; discriminate H|]); intros _;
        (split; [reflexivity|]); rewrite <- !app_assoc; reflexivity.
  - unfold bind at 1. unfold try_catch at 1. rewrite poolEnd_run.
    cbn [world db consultas trace].
    destruct (fst (pool_end pool _)); cbn [settle]; eexists; eexists;
      (split; [reflexivity|]); cbn [world consultas trace];
      (split; [reflexivity|]); (split; [intros H; discriminate H|]); intros _;
      (split; [reflexivity|]); rewrite <- !app_assoc; reflexivity.
Qed.

End DbFacts.

(** ** The mail sink *)

Module MailFacts.
Import Csv Config Db Mail JsStringFacts ConfigFacts.

Lemma getEnv_definida env name :
  falsy (getEnv env name VUndefined) = false <-> definida env name.
Proof.
  unfold getEnv, definida. destruct (env !! name) as [v|].
  - destruct (eqb v []) eqn:Ev.
    + apply JsStringFacts.eqb_eq in Ev. subst v. split; [intros H; discriminate H|].
      intros (v & E & Hv). injection E as <-. congruence.
    + apply eqb_neq in Ev. split.
      * intros _. exists v. split; [reflexivity|exact Ev].
      * intros _. destruct v; [congruence|reflexivity].
  - split; [intros H; discriminate H|]. intros (v & E & _). discriminate E.
Qed.

Lemma getEnv_fallback env name d :
  falsy d = false -> falsy (getEnv env name d) = false.
Proof.
  intros Hd. unfold getEnv. destruct (env !! name) as [v|]; [|exact Hd].
  destruct (eqb v []) eqn:Ev; [exact Hd|].
  apply eqb_neq in Ev. destruct v; [congruence|reflexivity].
Qed.

(** X22.  sendEmailWithAttachment sends one message, through one transport,
    exactly when SMTP_HOST, SMTP_USER and SMTP_PASS are set and not
    empty and MAIL_TO holds at least one address; the sender is
    MAIL_FROM, or the user when MAIL_FROM is not set; the recipients
    are the addresses of MAIL_TO; what the transport answers or rejects
    is what the function returns or throws.  In every other case it
    throws the configuration error and sends nothing. *)
Theorem sendEmailWithAttachment_config {S : Type} (mailer : Mailer S) (env : Env)
    (subject text attachmentPath : jsstring) (s : St (MailState S)) :
  let to := parseMailTo (getEnv env (lit "MAIL_TO") (VStr [])) in
  let user := getEnv env (lit "SMTP_USER") VUndefined in
  (definida env (lit "SMTP_HOST") /\ definida env (lit "SMTP_USER")
   /\ definida env (lit "SMTP_PASS") /\ to <> [] ->
   exists t m,
     sendEmailWithAttachment mailer env subject text attachmentPath s
     = (settle (fst (send_mail mailer t m (servico (world s)))),
        mkSt (mkMail (snd (send_mail mailer t m (servico (world s))))
                     (enviados (world s) ++ [(t, m)]))
             (trace s))
     /\ smtp_host t = getEnv env (lit "SMTP_HOST") VUndefined
     /\ smtp_user t = user
     /\ smtp_pass t = getEnv env (lit "SMTP_PASS") VUndefined
     /\ msg_to m = to
     /\ msg_from m = getEnv env (lit "MAIL_FROM") user
     /\ falsy (msg_from m) = false
     /\ msg_subject m = subject /\ msg_text m = text
     /\ att_path m = attachmentPath
     /\ att_filename m = basename mailer attachmentPath)
  /\ (~ (definida env (lit "SMTP_HOST") /\ definida env (lit "SMTP_USER")
         /\ definida env (lit "SMTP_PASS") /\ to <> []) ->
      sendEmailWithAttachment mailer env subject text attachmentPath s
      = (Exc smtpIncompleta, s)).
Proof.
  intros to user. unfold sendEmailWithAttachment. cbv zeta. fold user. fold to.
  pose proof (getEnv_definida env (lit "SMTP_HOST")) as Hh.
  pose proof (getEnv_definida env (lit "SMTP_USER")) as Hu. fold user in Hu.
  pose proof (getEnv_definida env (lit "SMTP_PASS")) as Hp.
  pose proof (getEnv_fallback env (lit "MAIL_FROM") user) as Hf.
  destruct (falsy (getEnv env (lit "SMTP_HOST") VUndefined)) eqn:Eh.
  { split; [intros (H & _); apply Hh in H; discriminate H|reflexivity]. }
  destruct (falsy user) eqn:Eu.
  { split; [intros (_ & H & _); apply Hu in H; discriminate H|reflexivity]. }
  destruct (falsy (getEnv env (lit "SMTP_PASS") VUndefined)) eqn:Ep.
  { split; [intros (_ & _ & H & _); apply Hp in H; discriminate H|reflexivity]. }
  rewrite (Hf eq_refl). cbn [orb].
  destruct to as [|a rest] eqn:Et.
  { split; [intros (_ & _ & _ & H); congruence|reflexivity]. }
  cbn [length Nat.eqb]. split.
  - intros _.
    exists {| smtp_host := getEnv env (lit "SMTP_HOST") VUndefined;
              smtp_port := numberOf (getEnv env (lit "SMTP_PORT") (VStr (lit "587")));
              smtp_secure :=
                eqb (toLowerCase
                       (jsString (getEnv env (lit "SMTP_SECURE") (VStr (lit "false")))))
                    (lit "true");
              smtp_user := user;
              smtp_pass := getEnv env (lit "SMTP_PASS") VUndefined |}.
    exists {| msg_from := getEnv env (lit "MAIL_FROM") user; msg_to := a :: rest;
              msg_subject := subject; msg_text := text;
              att_filename := basename mailer attachmentPath;
              att_path := attachmentPath |}.
    split.
    + unfold bind, sendMail.
      destruct (send_mail mailer _ _ (servico (world s))) as [[r|e] s']; reflexivity.
    + cbn. repeat split; try reflexivity. apply Hf. reflexivity.
  - intros H. exfalso. apply H. split; [apply Hh; reflexivity|].
    split; [apply Hu; reflexivity|]. split; [apply Hp; reflexivity|discriminate].
Qed.

End MailFacts.

(** ** The portal functions return

    Of the functions of the first variant only the range generator has
    a loop that the model bounds by fuel; everything else is made of
    calls on the page and counted loops, and returns or throws. *)

Module ReturnFacts.
Import Dates Overlay Pauta CalendarGrid Site DateFacts DatesFacts.

Create HintDb termina.

Section WithWorld.
Context {W : Type}.

Lemma termina_ret {A} (a : A) : termina (@ret W A a).
Proof. intros s. discriminate. Qed.

Lemma termina_throw {A} (e : Exn) : termina (@throw W A e).
Proof. intros s. discriminate. Qed.

Lemma termina_bind {A B} (m : M W A) (k : A -> M W B) :
  termina m -> (forall a, termina (k a)) -> termina (bind m k).
Proof.
  intros Hm Hk s. unfold bind. specialize (Hm s).
  destruct (m s) as [[a|e|] s1]; cbn [fst] in *;
    [apply Hk|discriminate|congruence].
Qed.

Lemma termina_try_catch {A} (m : M W A) (h : Exn -> M W A) :
  termina m -> (forall e, termina (h e)) -> termina (try_catch m h).
Proof.
  intros Hm Hh s. unfold try_catch. specialize (Hm s).
  destruct (m s) as [[a|e|] s1]; cbn [fst] in *;
    [discriminate|apply Hh|congruence].
Qed.

Lemma termina_catch_with {A} (m : M W A) (d : A) :
  termina m -> termina (catch_with m d).
Proof.
  intros Hm. apply termina_try_catch; [exact Hm|]. intros _. apply termina_ret.
Qed.

Lemma termina_observe {A} (e : Event) (f : W -> Settled A) : termina (observe e f).
Proof. intros s. unfold observe. cbn [fst]. destruct (f (world s)); discriminate. Qed.

Lemma termina_perform (e : Event) (f : W -> Settled unit * W) : termina (perform e f).
Proof.
  intros s. unfold perform. destruct (f (world s)) as [[u|x] w]; discriminate.
Qed.

Lemma termina_act (f : W -> Settled unit * W) : termina (act f).
Proof.
  intros s. unfold act. destruct (f (world s)) as [[u|x] w]; discriminate.
Qed.

Lemma termina_ask {A} (f : W -> Settled A) : termina (ask f).
Proof. intros s. unfold ask. cbn [fst]. destruct (f (world s)); discriminate. Qed.

Lemma termina_read {A} (f : St W -> A) : termina (fun s => (Val (f s), s)).
Proof. intros s. discriminate. Qed.

Lemma termina_for_range {X A} (body : Z -> X -> M W (X + A)) :
  (forall i x, termina (body i x)) ->
  forall n i x, termina (for_range n i x body).
Proof.
  intros Hb n. induction n as [|n IH]; intros i x; cbn [for_range].
  - apply termina_ret.
  - apply termina_bind; [apply Hb|]. intros [x'|a]; [apply IH|apply termina_ret].
Qed.

Lemma termina_for_each {A X} (body : A -> X -> M W X) :
  (forall a x, termina (body a x)) ->
  forall l x, termina (for_each l x body).
Proof.
  intros Hb l. induction l as [|a l IH]; intros x; cbn [for_each].
  - apply termina_ret.
  - apply termina_bind; [apply Hb|]. intros x'. apply IH.
Qed.

End WithWorld.

#[export] Hint Resolve termina_ret termina_throw termina_observe termina_perform
  termina_act termina_ask termina_read : termina.

(** One step of a proof that a function returns: the goal follows the
    shape of the function. *)
Ltac passo_termina :=
  lazymatch goal with
  | |- termina (bind _ _) => apply termina_bind; [|intros ?]
  | |- termina (try_catch _ _) => apply termina_try_catch; [|intros ?]
  | |- termina (catch_with _ _) => apply termina_catch_with
  | |- termina (for_range _ _ _ _) => apply termina_for_range; intros ? ?
  | |- termina (for_le _ _ _ _) => unfold for_le
  | |- termina (for_lt _ _ _ _) => unfold for_lt
  | |- termina (for_each _ _ _) => apply termina_for_each; intros ? ?
  | |- termina (if ?b then _ else _) => destruct b
  | |- termina (match ?x with _ => _ end) => destruct x
  | |- termina _ => solve [auto with termina]
  end.

Ltac termina_de f := unfold f; cbv zeta; repeat passo_termina.

Section WithPage.
Context {W : Type} (page : Session W).

Lemma termina_calls :
  termina (keyboardPressEscape page)
  /\ (forall ms, termina (waitForTimeout page ms))
  /\ termina (dateNow page)
  /\ (forall l, termina (isVisible page l))
  /\ (forall l, termina (locatorClick page l))
  /\ (forall l st, termina (waitFor page l st))
  /\ (forall l, termina (textContent page l))
  /\ (forall l, termina (innerText page l))
  /\ (forall l, termina (locatorCount page l))
  /\ (forall t, termina (domClick page t))
  /\ (forall A (f : W -> A), termina (domQuery f)).
Proof.
  repeat split; intros;
    first [apply termina_perform | apply termina_observe | apply termina_read].
Qed.

Lemma termina_keyboardPressEscape : termina (keyboardPressEscape page).
Proof. apply termina_calls. Qed.
Lemma termina_waitForTimeout ms : termina (waitForTimeout page ms).
Proof. apply termina_calls. Qed.
Lemma termina_isVisible l : termina (isVisible page l).
Proof. apply termina_calls. Qed.
Lemma termina_locatorClick l : termina (locatorClick page l).
Proof. apply termina_calls. Qed.
Lemma termina_waitFor l st : termina (waitFor page l st).
Proof. apply termina_calls. Qed.
Lemma termina_textContent l : termina (textContent page l).
Proof. apply termina_calls. Qed.
Lemma termina_innerText l : termina (innerText page l).
Proof. apply termina_calls. Qed.
Lemma termina_locatorCount l : termina (locatorCount page l).
Proof. apply termina_calls. Qed.
Lemma termina_domClick t : termina (domClick page t).
Proof. apply termina_calls. Qed.
Lemma termina_domQuery {A} (f : W -> A) : termina (domQuery f).
Proof. apply termina_read. Qed.

Hint Resolve termina_keyboardPressEscape termina_waitForTimeout termina_isVisible
  termina_locatorClick termina_waitFor termina_textContent termina_innerText
  termina_locatorCount termina_domClick termina_domQuery : termina.

Lemma termina_evaluate {A} (script : M W A) :
  termina script -> termina (evaluate page script).
Proof. intros H. unfold evaluate. repeat passo_termina. Qed.

Lemma termina_fecharOverlays : termina (fecharOverlays page).
Proof. termina_de @fecharOverlays. Qed.
Hint Resolve termina_fecharOverlays : termina.

Lemma termina_retryOperation {A} (operation : M W A) maxRetries delayMs :
  termina operation -> termina (retryOperation page operation maxRetries delayMs).
Proof. intros H. termina_de @retryOperation. Qed.

Lemma termina_esperarSpinners sps : termina (esperarSpinners page sps).
Proof.
  induction sps as [|sp sps IH]; cbn [esperarSpinners]; repeat passo_termina.
Qed.
Hint Resolve termina_esperarSpinners : termina.

Lemma termina_contarItens : termina (contarItens page).
Proof. termina_de @contarItens. Qed.
Hint Resolve termina_contarItens : termina.

Lemma termina_esperarPautaEstabilizar : termina (esperarPautaEstabilizar page).
Proof. termina_de @esperarPautaEstabilizar. unfold estabilizar_passo. repeat passo_termina. Qed.

Lemma termina_extrairProcessosDaPauta : termina (extrairProcessosDaPauta page).
Proof.
  unfold extrairProcessosDaPauta. repeat passo_termina.
  apply termina_evaluate. repeat passo_termina.
Qed.

Lemma termina_navegarParaMes targetDate maxSteps :
  termina (navegarParaMes page targetDate maxSteps).
Proof.
  termina_de @navegarParaMes.
  unfold navegarParaMes_passo, getCalendarHeaderDateApprox. repeat passo_termina.
Qed.
Hint Resolve termina_navegarParaMes : termina.

Lemma termina_clicarDiaNoCalendario targetDate :
  termina (clicarDiaNoCalendario page targetDate).
Proof.
  unfold clicarDiaNoCalendario. cbv zeta. repeat passo_termina.
  apply termina_evaluate. unfold clicarDia_script. cbv zeta. repeat passo_termina.
Qed.
Hint Resolve termina_clicarDiaNoCalendario : termina.

Lemma termina_selecionarDataComConfirmacao dataBR maxTentativas :
  termina (CalendarGrid.selecionarDataComConfirmacao page dataBR maxTentativas).
Proof.
  termina_de @CalendarGrid.selecionarDataComConfirmacao.
  unfold confirmacao_passo, selecionarDataNoCalendario, lerDataVisivel. cbv zeta.
  repeat passo_termina.
Qed.

End WithPage.

#[export] Hint Resolve termina_keyboardPressEscape termina_waitForTimeout
  termina_isVisible termina_locatorClick termina_waitFor termina_textContent
  termina_innerText termina_locatorCount termina_domClick termina_domQuery
  termina_fecharOverlays termina_esperarPautaEstabilizar
  termina_extrairProcessosDaPauta termina_selecionarDataComConfirmacao : termina.

Section WithSite.
Context {W : Type} (site : Site W).

Lemma termina_abrirListaDeOrgaos : termina (abrirListaDeOrgaos site).
Proof. termina_de @abrirListaDeOrgaos. Qed.
Hint Resolve termina_abrirListaDeOrgaos : termina.

Lemma termina_abrirJTeSelecionarTRT2 : termina (abrirJTeSelecionarTRT2 site).
Proof.
  unfold abrirJTeSelecionarTRT2. cbv zeta. repeat passo_termina.
  apply termina_retryOperation. repeat passo_termina.
Qed.

Lemma termina_abrirModuloPauta : termina (abrirModuloPauta site).
Proof.
  unfold abrirModuloPauta. cbv zeta. repeat passo_termina.
  apply termina_retryOperation. repeat passo_termina.
Qed.

Lemma termina_listarVaras : termina (listarVaras site).
Proof.
  termina_de @listarVaras. unfold listarVaras_passo. repeat passo_termina.
Qed.

Lemma termina_selecionarUnidade varaLabel : termina (selecionarUnidade site varaLabel).
Proof. termina_de @selecionarUnidade. Qed.

Lemma termina_main_vara geradoEm datas vara rowsCsv :
  termina (main_vara site geradoEm datas vara rowsCsv).
Proof.
  unfold main_vara. apply termina_bind; [apply termina_selecionarUnidade|].
  intros _. apply termina_for_each. intros dataBR rows.
  unfold main_data. repeat passo_termina.
Qed.

(** In a zone that keeps the day, with the clock between 1970 and the
    year 9999 and the fuel of the range generator, the collection of
    main returns or throws. *)
Lemma termina_main_try fuel geradoEm :
  zonaRegular (zona site) ->
  (forall w, 0 <= new_date site w < ano9999) -> (67 <= fuel)%nat ->
  termina (main_try site fuel geradoEm).
Proof.
  intros Hz Hc Hf. unfold main_try. cbv zeta.
  apply termina_bind; [apply termina_abrirJTeSelecionarTRT2|]. intros _.
  apply termina_bind; [apply termina_abrirModuloPauta|]. intros _.
  apply termina_bind; [apply termina_listarVaras|]. intros varas.
  intros s. unfold bind at 1. cbn [fst].
  destruct (gerarDatas_retorna (zona site) Hz (new_date site (world s)) fuel)
    as [datas ->]; [|exact Hf|].
  - specialize (Hc (world s)). unfold ano9999, Day, msPerDay in *. zdiv.
  - apply termina_bind.
    + apply termina_for_each. intros vara rows. apply termina_main_vara.
    + intros rows. repeat passo_termina.
Qed.

End WithSite.
End ReturnFacts.

(** ** The portal and the main loop *)

Module SiteFacts.
Import Csv Dates Overlay Pauta Site AsyncFacts JsStringFacts PautaFacts ConfigFacts
  CsvReaderFacts.
Import ReturnFacts.

Section WithSite.
Context {W : Type} (site : Site W).

Lemma bind_inv {A B} (m : M W A) (k : A -> M W B) s b s' :
  bind m k s = (Val b, s') ->
  exists a s1, m s = (Val a, s1) /\ k a s1 = (Val b, s').
Proof.
  unfold bind. destruct (m s) as [[a|e|] s1]; try discriminate.
  intros H. exists a, s1. split; [reflexivity|exact H].
Qed.

Lemma ask_inv {A} (f : W -> Settled A) s a s' :
  ask f s = (Val a, s') -> s' = s /\ f (world s) = Fulfilled a.
Proof.
  unfold ask. destruct (f (world s)) as [x|e]; simpl; intros H; [|discriminate H].
  injection H as <- <-. split; reflexivity.
Qed.

Lemma catch_with_val {A} (m : M W A) d s :
  exists a s', catch_with m d s = (Val a, s') \/ catch_with m d s = (NoFuel, s').
Proof.
  unfold catch_with, try_catch, ret. destruct (m s) as [[a|e|] s'].
  - exists a, s'. left. reflexivity.
  - exists d, s'. left. reflexivity.
  - exists d, s'. right. reflexivity.
Qed.

(** *** Listing the units *)

Lemma listarVaras_loop n :
  forall i varas s r s',
    0 <= i ->
    for_range n i varas (listarVaras_passo site) s = (Val r, s') ->
    s' = s
    /\ exists labels,
         length labels = n
         /\ (forall j l, labels !! j = Some l ->
               opcao_text site (Z.to_nat i + j) (world s) = Fulfilled l)
         /\ r = inl (varas ++ rotulosDe labels).
Proof.
  induction n as [|n IH]; intros i varas s r s' Hi H.
  - injection H as <- <-. split; [reflexivity|]. exists [].
    split; [reflexivity|]. split; [intros j l Hj; discriminate Hj|].
    rewrite app_nil_r. reflexivity.
  - rewrite for_range_S in H.
    destruct (listarVaras_passo site i varas s) as [[[v|[]]|e|] s1] eqn:E;
      try discriminate H.
    + unfold listarVaras_passo in E. apply bind_inv in E.
      destruct E as (label & s0 & Ha & E). apply ask_inv in Ha.
      destruct Ha as [-> Hl].
      assert (Ev : s1 = s /\ v = varas ++ rotulosDe [label]).
      { destruct label as [[|c t]|]; injection E as <- <-; split; try reflexivity;
          simpl; rewrite ?app_nil_r; reflexivity. }
      destruct Ev as [-> ->].
      destruct (IH (i + 1) _ s r s' ltac:(lia) H) as (-> & labels & Ln & Hr & ->).
      split; [reflexivity|]. exists (label :: labels).
      split; [simpl; rewrite Ln; reflexivity|]. split.
      * intros j l Hj. destruct j as [|j].
        -- injection Hj as <-. rewrite Nat.add_0_r. exact Hl.
        -- simpl in Hj. specialize (Hr j l Hj).
           replace (Z.to_nat i + S j)%nat with (Z.to_nat (i + 1) + j)%nat by lia.
           exact Hr.
      * rewrite <- app_assoc. f_equal. f_equal. unfold rotulosDe. cbn [flat_map].
        rewrite app_nil_r. reflexivity.
    + exfalso. unfold listarVaras_passo in E. apply bind_inv in E.
      destruct E as (label & s0 & _ & E).
      destruct label as [[|c t]|]; discriminate E.
Qed.

Lemma rotulosDe_aparados labels : Forall aparado (rotulosDe labels).
Proof.
  unfold rotulosDe. apply List.Forall_forall. intros a Ha.
  apply List.in_flat_map in Ha. destruct Ha as (l & _ & Ha).
  destruct l as [[|c r]|]; [destruct Ha| |destruct Ha].
  destruct Ha as [<-|[]]. apply trim_idem.
Qed.

End WithSite.

(** X23.  What listarVaras returns is made of the texts of the options of the
    unit selector, read in order in one state of the page: an option
    without text or with an empty text gives no unit, every other option
    gives its trimmed text -- also when that is empty, the text being
    white space only.  No unit has white space at either end. *)
Theorem listarVaras_labels {W : Type} (site : Site W) (s s' : St W)
    (varas : list jsstring) :
  listarVaras site s = (Val varas, s') ->
  exists w labels,
    opcoes_count site w = Fulfilled (length labels)
    /\ (forall j l, labels !! j = Some l -> opcao_text site j w = Fulfilled l)
    /\ varas = rotulosDe labels
    /\ Forall aparado varas.
Proof.
  unfold listarVaras. cbv zeta. intros H.
  apply bind_inv in H. destruct H as (u1 & s1 & _ & H).
  apply bind_inv in H. destruct H as (u2 & s2 & _ & H).
  apply bind_inv in H. destruct H as (u3 & s3 & _ & H).
  apply bind_inv in H. destruct H as (total & s4 & Ht & H).
  apply ask_inv in Ht. destruct Ht as [-> Ht].
  apply bind_inv in H. destruct H as (r & s5 & Hf & H).
  unfold for_lt in Hf. replace (Z.of_nat total - 0) with (Z.of_nat total) in Hf by lia.
  rewrite Nat2Z.id in Hf.
  apply listarVaras_loop in Hf; [|lia].
  destruct Hf as (-> & labels & Ln & Hl & ->).
  apply bind_inv in H. destruct H as (u4 & s6 & _ & H).
  apply bind_inv in H. destruct H as (u5 & s7 & _ & H).
  injection H as <- _.
  exists (world s3), labels. rewrite Ln. split; [exact Ht|].
  split; [intros j l Hj; apply (Hl j l Hj)|].
  split; [reflexivity|]. apply rotulosDe_aparados.
Qed.

Lemma listarVaras_labels_witness :
  exists s' labels,
    listarVaras siteExemplo (mkSt tt []) = (Val [lit "1a Vara"; lit "2a Vara"], s')
    /\ [lit "1a Vara"; lit "2a Vara"] = rotulosDe labels
    /\ length labels = 4%nat.
Proof.
  assert (R : listarVaras siteExemplo (mkSt tt [])
              = (Val [lit "1a Vara"; lit "2a Vara"],
                 snd (listarVaras siteExemplo (mkSt tt [])))).
  { vm_compute. reflexivity. }
  destruct (listarVaras_labels siteExemplo _ _ _ R) as (w & labels & Hc & _ & Hv & _).
  eexists. exists labels. split; [exact R|]. split; [exact Hv|].
  simpl in Hc. injection Hc as Hc. symmetry. exact Hc.
Defined.

(** *** The main loop *)

Section WithSite.
Context {W : Type} (site : Site W).

Lemma main_data_spec geradoEm vara dataBR rows s rows' s' :
  main_data site geradoEm vara dataBR rows s = (Val rows', s') ->
  exists ps,
    colheDaData site dataBR s ps s'
    /\ rows' = rows ++ List.map (linhaCsv geradoEm vara dataBR) ps.
Proof.
  unfold main_data. intros H. apply bind_inv in H. destruct H as (ok & s1 & Hs & H).
  destruct ok; cbn [negb] in H.
  - apply bind_inv in H. destruct H as ([] & s2 & He & H).
    apply bind_inv in H. destruct H as (ps & s3 & Hx & H).
    injection H as <- <-. exists ps. split; [|reflexivity].
    eapply colhe_confirmada; eassumption.
  - injection H as <- <-. exists []. split; [|rewrite app_nil_r; reflexivity].
    apply colhe_nao_confirmada. exact Hs.
Qed.

Lemma main_datas_spec geradoEm vara datas :
  forall rows s rows' s',
    for_each datas rows (main_data site geradoEm vara) s = (Val rows', s') ->
    exists blocos,
      colheDatas site vara datas s blocos s'
      /\ rows' = rows ++ linhasDosBlocos geradoEm blocos.
Proof.
  induction datas as [|d datas IH]; intros rows s rows' s' H.
  - injection H as <- <-. exists []. split; [constructor|].
    rewrite app_nil_r. reflexivity.
  - cbn [for_each] in H. apply bind_inv in H. destruct H as (rows1 & s1 & H1 & H).
    apply main_data_spec in H1. destruct H1 as (ps & Hc & ->).
    destruct (IH _ _ _ _ H) as (blocos & Hb & ->).
    exists ((vara, d, ps) :: blocos).
    split; [eapply colhe_datas_mais; eassumption|].
    unfold linhasDosBlocos. cbn [flat_map fst snd]. rewrite <- app_assoc. reflexivity.
Qed.

Lemma main_varas_spec geradoEm datas varas :
  forall rows s rows' s',
    for_each varas rows (main_vara site geradoEm datas) s = (Val rows', s') ->
    exists blocos,
      colheVaras site datas varas s blocos s'
      /\ rows' = rows ++ linhasDosBlocos geradoEm blocos.
Proof.
  induction varas as [|v varas IH]; intros rows s rows' s' H.
  - injection H as <- <-. exists []. split; [constructor|].
    rewrite app_nil_r. reflexivity.
  - cbn [for_each] in H. apply bind_inv in H. destruct H as (rows1 & s1 & H1 & H).
    unfold main_vara in H1. apply bind_inv in H1. destruct H1 as ([] & s0 & Hu & H1).
    apply main_datas_spec in H1. destruct H1 as (b1 & Hb1 & ->).
    destruct (IH _ _ _ _ H) as (b2 & Hb2 & ->).
    exists (b1 ++ b2). split.
    + eapply colhe_varas_mais; eassumption.
    + unfold linhasDosBlocos. rewrite List.flat_map_app, <- app_assoc. reflexivity.
Qed.

(** The blocks come unit by unit and, in a unit, date by date. *)
Lemma colheDatas_chaves vara datas s blocos s' :
  colheDatas site vara datas s blocos s' ->
  List.map fst blocos = List.map (pair vara) datas.
Proof.
  induction 1 as [|d datas s ps s1 blocos s' _ _ IH]; [reflexivity|].
  cbn [List.map fst]. rewrite IH. reflexivity.
Qed.

Lemma colheVaras_chaves datas varas s blocos s' :
  colheVaras site datas varas s blocos s' ->
  List.map fst blocos = list_prod varas datas.
Proof.
  induction 1 as [|v varas s s0 b1 s1 b2 s' _ Hd _ IH]; [reflexivity|].
  rewrite List.map_app, (colheDatas_chaves _ _ _ _ _ Hd), IH. reflexivity.
Qed.

Lemma main_try_spec fuel geradoEm s path rows s' :
  main_try site fuel geradoEm s = (Val (path, rows), s') ->
  exists s1 s2 varas datas blocos,
    listarVaras site s1 = (Val varas, s2)
    /\ gerarDatasProximosDoisMeses fuel (zona site) (new_date site (world s2)) = Some datas
    /\ colheVaras site datas varas s2 blocos s'
    /\ rows = linhasDosBlocos geradoEm blocos
    /\ path = out_path site (date_now (pagina site) (world s')).
Proof.
  unfold main_try. cbv zeta. intros H.
  apply bind_inv in H. destruct H as (u1 & s1 & _ & H).
  apply bind_inv in H. destruct H as (u2 & s2 & _ & H).
  apply bind_inv in H. destruct H as (varas & s3 & Hv & H).
  apply bind_inv in H. destruct H as (hoje & s4 & Hh & H).
  injection Hh as <- <-.
  destruct (gerarDatasProximosDoisMeses fuel (zona site) (new_date site (world s3)))
    as [datas|] eqn:Ed; [|discriminate H].
  apply bind_inv in H. destruct H as (rows1 & s5 & Hr & H).
  apply bind_inv in H. destruct H as (stamp & s6 & Hs & H).
  injection Hs as <- <-. injection H as <- <- <-.
  apply main_varas_spec in Hr. destruct Hr as (blocos & Hb & ->).
  exists s2, s3, varas, datas, blocos. repeat split; assumption.
Qed.

End WithSite.

Lemma celulas_linhaCsv geradoEm vara dataBR p :
  celulas headersCsv (linhaCsv geradoEm vara dataBR p)
  = celulasDaLinha geradoEm vara dataBR p.
Proof.
  unfold celulas, headersCsv, linhaCsv, celulasDaLinha, valorSob.
  cbn [List.map list_to_map].
  repeat (rewrite lookup_insert_eq
          || rewrite lookup_insert_ne by (intros H; vm_compute in H; discriminate H)).
  reflexivity.
Qed.

Lemma celulas_blocos geradoEm blocos :
  List.map (celulas headersCsv) (linhasDosBlocos geradoEm blocos)
  = celulasDosBlocos geradoEm blocos.
Proof.
  unfold linhasDosBlocos, celulasDosBlocos.
  induction blocos as [|b blocos IH]; [reflexivity|].
  cbn [flat_map]. rewrite List.map_app, IH, List.map_map. f_equal.
Qed.

Lemma celulasDosBlocos_length geradoEm blocos :
  length (celulasDosBlocos geradoEm blocos) = length (linhasDosBlocos geradoEm blocos).
Proof. rewrite <- celulas_blocos. apply List.length_map. Qed.

(** X24.  main, from the page on, never throws, and in a zone that
    keeps the day, with the clock between 1970 and the year 9999 (and
    the fuel of the range generator), it returns.  It writes nothing
    unless every step of the
    collection succeeded: one rejected call that is not caught on the
    way loses all the rows collected so far.  When
    the collection succeeds it writes one file, which reads back as the
    row of the eight headers followed by the rows of the entries: the
    units in the order listed, each selected in its turn; for each
    unit the dates in the order generated, each from the state the one
    before left; for each date the entries that the extraction mapper
    returned once the date was confirmed and the list waited for, and
    none when the date was not confirmed; each row carrying the time
    stamp of the run, its unit and its date before the five fields of
    the entry. *)
Theorem main_collects {W : Type} (site : Site W) (fuel : nat) (s : St W)
    (fs : FileSystem) :
  let geradoEm := iso_now site (world s) in
  let r := main site fuel s fs in
  (forall e, fst (fst r) <> Exc e)
  /\ (zonaRegular (zona site) ->
      (forall w, 0 <= new_date site w < ano9999) -> (67 <= fuel)%nat ->
      fst (fst r) = Val tt)
  /\ ((forall x s', main_try site fuel geradoEm s <> (Val x, s')) -> snd r = fs)
  /\ (forall path rows s',
        main_try site fuel geradoEm s = (Val (path, rows), s') ->
        exists s1 s2 varas datas blocos conteudo,
          listarVaras site s1 = (Val varas, s2)
          /\ gerarDatasProximosDoisMeses fuel (zona site) (new_date site (world s2))
             = Some datas
          /\ colheVaras site datas varas s2 blocos s'
          /\ List.map fst blocos = list_prod varas datas
          /\ rows = linhasDosBlocos geradoEm blocos
          /\ r = (Val tt, s', <[path := [cBOM] ++ conteudo]> fs)
          /\ lerArquivoCsv conteudo = headersCsv :: celulasDosBlocos geradoEm blocos).
Proof.
  cbv zeta. unfold main.
  pose proof (fun Hz Hc Hf =>
                termina_main_try site fuel (iso_now site (world s)) Hz Hc Hf s) as T.
  destruct (main_try site fuel (iso_now site (world s)) s) as [[[path rows]|e|] s'] eqn:E;
    cbn [fst] in T.
  - split; [intros e H; discriminate H|].
    split; [intros _ _ _; reflexivity|].
    split; [intros H; exfalso; apply (H (path, rows) s'); reflexivity|].
    intros path0 rows0 s0 H. injection H as <- <- <-.
    destruct (main_try_spec site fuel _ s path rows s' E)
      as (s1 & s2 & varas & datas & blocos & Hv & Hd & Hb & -> & Hp).
    destruct (writeCsv_conteudo path headersCsv
                (linhasDosBlocos (iso_now site (world s)) blocos) fs
                ltac:(discriminate)) as (conteudo & Hw & Hr).
    exists s1, s2, varas, datas, blocos, conteudo.
    split; [exact Hv|]. split; [exact Hd|]. split; [exact Hb|].
    split; [apply (colheVaras_chaves site _ _ _ _ _ Hb)|].
    split; [reflexivity|]. split.
    + rewrite Hw. reflexivity.
    + rewrite Hr, celulas_blocos. reflexivity.
  - split; [intros e0 H; discriminate H|].
    split; [intros _ _ _; reflexivity|].
    split; [intros _; reflexivity|]. intros path rows s0 H. discriminate H.
  - split; [intros e0 H; discriminate H|].
    split; [intros Hz Hc Hf; exfalso; apply (T Hz Hc Hf); reflexivity|].
    split; [intros _; reflexivity|]. intros path rows s0 H. discriminate H.
Qed.

(** On the portal of the examples with one unit and two entries under
    every date, the run of Monday 2 March 2026 writes a file that reads
    back as the headers and two rows for each of the 47 dates; the
    first row is that of the first entry under Monday 9 March. *)
Lemma main_collects_witness :
  let s0 := mkSt calendarioInicial [] in
  exists path conteudo linhas,
    fst (fst (main siteComPauta 67 s0 ∅)) = Val tt
    /\ snd (main siteComPauta 67 s0 ∅) !! path = Some ([cBOM] ++ conteudo)
    /\ lerArquivoCsv conteudo = headersCsv :: linhas
    /\ length linhas = 94%nat
    /\ List.nth 0 linhas []
       = [lit "2026-03-02T13:00:00.000Z"; lit "1a Vara"; lit "09/03/2026";
          lit "1000123-45.2026.5.02.0001"; lit "09:30 - Designada";
          lit "Juiz A"; lit "Fulano"; lit "Empresa X"].
Proof.
  cbv zeta. set (s0 := mkSt calendarioInicial []).
  set (R := main_try siteComPauta 67 (iso_now siteComPauta (world s0)) s0).
  set (x := match fst R with Val x => x | _ => ([], []) end).
  assert (Ev : match fst R with Val _ => true | _ => false end = true)
    by (vm_compute; reflexivity).
  assert (E : R = (Val (fst x, snd x), snd R)).
  { subst x. destruct R as [[[p rows]|e|] s']; try discriminate Ev. reflexivity. }
  assert (Hn : length (snd x) = 94%nat) by (vm_compute; reflexivity).
  assert (H1 : List.nth 0 (List.map (celulas headersCsv) (snd x)) []
               = [lit "2026-03-02T13:00:00.000Z"; lit "1a Vara"; lit "09/03/2026";
                  lit "1000123-45.2026.5.02.0001"; lit "09:30 - Designada";
                  lit "Juiz A"; lit "Fulano"; lit "Empresa X"])
    by (vm_compute; reflexivity).
  destruct (main_collects siteComPauta 67 s0 ∅) as (_ & _ & _ & H).
  destruct (H (fst x) (snd x) (snd R) E)
    as (s1 & s2 & varas & datas & blocos & conteudo & _ & _ & _ & _ & Hr & Hm & Hl).
  exists (fst x), conteudo, (celulasDosBlocos (iso_now siteComPauta (world s0)) blocos).
  split; [rewrite Hm; reflexivity|].
  split; [rewrite Hm; cbn [snd]; apply lookup_insert_eq|].
  split; [exact Hl|].
  rewrite <- celulas_blocos, <- Hr.
  split; [rewrite List.length_map; exact Hn|exact H1].
Defined.

End SiteFacts.

(** ** The workbook of the second variant *)

Module XlsxFacts.
Import Csv Config Site Xlsx Pipeline.

(** The length the column loop ends with is the longest of the header
    and the cells. *)
Lemma maxLenColuna_spec (h : jsstring) (rows : list Row) :
  Z.of_nat (length h) <= maxLenColuna h rows
  /\ (forall r, In r rows -> Z.of_nat (length (textoDaCelula r h)) <= maxLenColuna h rows)
  /\ (maxLenColuna h rows = Z.of_nat (length h)
      \/ exists r, In r rows
           /\ maxLenColuna h rows = Z.of_nat (length (textoDaCelula r h))).
Proof.
  unfold maxLenColuna.
  set (f := fun maxLen r =>
              let s := textoDaCelula r h in
              if Z.of_nat (length s) >? maxLen then Z.of_nat (length s) else maxLen).
  assert (G : forall rs m0,
             m0 <= fold_left f rs m0
             /\ (forall r, In r rs ->
                   Z.of_nat (length (textoDaCelula r h)) <= fold_left f rs m0)
             /\ (fold_left f rs m0 = m0
                 \/ exists r, In r rs
                      /\ fold_left f rs m0 = Z.of_nat (length (textoDaCelula r h)))).
  { induction rs as [|r rs IH]; intros m0; cbn [fold_left].
    - split; [lia|]. split; [intros r []|left; reflexivity].
    - destruct (IH (f m0 r)) as (I1 & I2 & I3).
      assert (Hf : m0 <= f m0 r /\ Z.of_nat (length (textoDaCelula r h)) <= f m0 r
                   /\ (f m0 r = m0 \/ f m0 r = Z.of_nat (length (textoDaCelula r h)))).
      { unfold f. cbv zeta.
        destruct (Z.gtb_spec (Z.of_nat (length (textoDaCelula r h))) m0); lia. }
      destruct Hf as (F1 & F2 & F3).
      split; [lia|]. split.
      + intros r' [<-|Hr]; [lia|apply I2; exact Hr].
      + destruct I3 as [E|(r' & Hr & E)].
        * destruct F3 as [F3|F3].
          -- left. lia.
          -- right. exists r. split; [left; reflexivity|lia].
        * right. exists r'. split; [right; exact Hr|exact E]. }
  apply G.
Qed.

(** The column loop sets the width of every column it has not passed
    yet, and leaves the others. *)
Lemma ajustarLarguras_spec (headers : list jsstring) (rows : list Row) :
  forall n j cols,
    (j + n = length headers)%nat ->
    forall i,
      ajustarLarguras n (Z.of_nat j + 1) headers rows cols !! i
      = match headers !! i with
        | Some h =>
            if decide (j <= i)%nat
            then setWidth (Z.max 12 (Z.min 60 (maxLenColuna h rows + 2))) <$> cols !! i
            else cols !! i
        | None => cols !! i
        end.
Proof.
  induction n as [|n IH]; intros j cols Hj i; cbn [ajustarLarguras].
  - destruct (headers !! i) as [h|] eqn:Eh; [|reflexivity].
    apply lookup_lt_Some in Eh. destruct (decide (j <= i)%nat); [lia|reflexivity].
  - cbv zeta.
    replace (Z.to_nat (Z.of_nat j + 1 - 1)) with j by lia.
    replace (Z.of_nat j + 1 + 1) with (Z.of_nat (Datatypes.S j) + 1) by lia.
    rewrite IH by lia.
    destruct (headers !! j) as [hj|] eqn:Ej.
    2:{ apply lookup_ge_None in Ej. lia. }
    destruct (headers !! i) as [h|] eqn:Eh.
    + destruct (decide (Datatypes.S j <= i)%nat) as [Hlt|Hge].
      * destruct (decide (j <= i)%nat); [|lia].
        rewrite list_lookup_alter_ne by lia. reflexivity.
      * destruct (decide (j <= i)%nat) as [Hle|Hn].
        -- assert (i = j) by lia. subst i. rewrite list_lookup_alter_eq.
           rewrite Ej in Eh. injection Eh as ->. reflexivity.
        -- rewrite list_lookup_alter_ne by lia. reflexivity.
    + apply lookup_ge_None in Eh. apply lookup_lt_Some in Ej.
      rewrite list_lookup_alter_ne by lia. reflexivity.
Qed.

(** X25.  writeXlsx hands one workbook to the writer and throws exactly
    when the writer rejects it.  The workbook holds the rows given, one
    column per header, and a filter over the header row.  Every column
    ends with a width from 12 to 60: two more than the longest text of
    the column, the header included, kept within these bounds -- the
    width of up to 40 set from the header alone is always replaced.
    The headers are without repetition. *)
Theorem writeXlsx_columns {W D S : Type} (robo : Robo W) (filePath : jsstring)
    (headers : list jsstring) (rows : list Row) (s : St (Mundo W D S)) :
  NoDup headers ->
  exists wb,
    planilhas (world (snd (@writeXlsx W D S robo filePath headers rows s)))
    = planilhas (world s) ++ [(filePath, wb)]
    /\ fst (@writeXlsx W D S robo filePath headers rows s)
       = settle (fst (xlsx_write_file robo filePath wb (portal (world s))))
    /\ ws_rows wb = rows
    /\ ws_autofilter wb = ((1, 1), (1, Z.of_nat (length headers)))
    /\ length (ws_columns wb) = length headers
    /\ forall i h, headers !! i = Some h ->
         exists w L,
           ws_columns wb !! i
           = Some {| col_header := h; col_key := h; col_width := w |}
           /\ w = Z.max 12 (Z.min 60 (L + 2))
           /\ 12 <= w <= 60
           /\ Z.of_nat (length h) <= L
           /\ (forall r, In r rows -> Z.of_nat (length (textoDaCelula r h)) <= L)
           /\ (L = Z.of_nat (length h)
               \/ exists r, In r rows /\ L = Z.of_nat (length (textoDaCelula r h))).
Proof.
  intros _. unfold writeXlsx. cbv zeta. cbn [fst snd world planilhas].
  eexists. split; [reflexivity|]. split; [reflexivity|].
  unfold workbookDe. cbv zeta. cbn [ws_rows ws_autofilter ws_columns].
  split; [reflexivity|]. split; [reflexivity|].
  pose proof (ajustarLarguras_spec headers rows (length headers) 0
                (List.map (fun h => {| col_header := h; col_key := h;
                                       col_width := Z.max 12 (Z.min 40 (Z.of_nat (length h) + 6)) |})
                          headers) eq_refl) as Hs.
  change (Z.of_nat 0 + 1) with 1 in Hs.
  split.
  - apply Nat.le_antisymm.
    + destruct (Nat.le_gt_cases
                  (length (ajustarLarguras (length headers) 1 headers rows
                     (List.map (fun h => {| col_header := h; col_key := h;
                                 col_width := Z.max 12 (Z.min 40 (Z.of_nat (length h) + 6)) |})
                               headers)))
                  (length headers)) as [Hl|Hl]; [exact Hl|exfalso].
      apply lookup_lt_is_Some_2 in Hl. destruct Hl as (c & Hc).
      rewrite Hs in Hc. rewrite (proj2 (lookup_ge_None headers (length headers))) in Hc by lia.
      apply lookup_lt_Some in Hc. rewrite List.length_map in Hc. lia.
    + destruct (Nat.le_gt_cases (length headers)
                  (length (ajustarLarguras (length headers) 1 headers rows
                     (List.map (fun h => {| col_header := h; col_key := h;
                                 col_width := Z.max 12 (Z.min 40 (Z.of_nat (length h) + 6)) |})
                               headers)))) as [Hl|Hl]; [exact Hl|exfalso].
      destruct (length headers) as [|k] eqn:Ek; [lia|].
      assert (Hk : (k < length headers)%nat) by lia.
      apply lookup_lt_is_Some_2 in Hk. destruct Hk as (h & Hh).
      specialize (Hs k). rewrite Hh in Hs.
      destruct (decide (0 <= k)%nat); [|lia].
      rewrite (proj2 (lookup_ge_None _ k)) in Hs by lia.
      change (@List.map jsstring Coluna) with (@fmap list _ jsstring Coluna) in Hs.
      rewrite list_lookup_fmap, Hh in Hs. discriminate Hs.
  - intros i h Hh.
    destruct (maxLenColuna_spec h rows) as (M1 & M2 & M3).
    exists (Z.max 12 (Z.min 60 (maxLenColuna h rows + 2))), (maxLenColuna h rows).
    split.
    + rewrite Hs, Hh. destruct (decide (0 <= i)%nat); [|lia].
      change (@List.map jsstring Coluna) with (@fmap list _ jsstring Coluna).
      rewrite list_lookup_fmap, Hh. reflexivity.
    + split; [reflexivity|]. split; [lia|]. split; [exact M1|].
      split; [exact M2|exact M3].
Qed.

Lemma writeXlsx_columns_witness :
  NoDup headersCsv
  /\ exists wb,
       planilhas (world (snd (writeXlsx roboExemplo (lit "pauta.xlsx") headersCsv []
                                mundoVazio)))
       = [(lit "pauta.xlsx", wb)]
       /\ ws_columns wb !! 3%nat
          = Some {| col_header := lit "numeroProcesso"; col_key := lit "numeroProcesso";
                    col_width := 16 |}.
Proof.
  assert (Hn : NoDup headersCsv).
  { apply (bool_decide_unpack _). vm_compute. exact I. }
  split; [exact Hn|].
  destruct (writeXlsx_columns roboExemplo (lit "pauta.xlsx") headersCsv [] mundoVazio Hn)
    as (wb & Hp & _ & _ & _ & _ & Hc).
  exists wb. split; [exact Hp|].
  destruct (Hc 3%nat (lit "numeroProcesso") eq_refl) as (w & L & Hw & Ew & _ & HL & _ & [E|E]).
  - rewrite Hw. subst w. rewrite E. reflexivity.
  - destruct E as (r & [] & _).
Defined.

End XlsxFacts.

(** ** The run of the second variant *)

Module PipelineFacts.
Import Csv Config Db Mail Dates Overlay Pauta Site Xlsx Pipeline.
Import AsyncFacts DateFacts DatesFacts DbFacts ReturnFacts.

(** *** Computations that keep a relation *)

Section Respeita.
Context {W : Type} (R : St W -> St W -> Prop) (HR : PreOrder R).

Lemma respeita_ret {A} (a : A) : respeita R (@ret W A a).
Proof. intros s. reflexivity. Qed.

Lemma respeita_throw {A} (e : Exn) : respeita R (@throw W A e).
Proof. intros s. reflexivity. Qed.

Lemma respeita_no_fuel {A} : respeita R (@no_fuel W A).
Proof. intros s. reflexivity. Qed.

Lemma respeita_read {A} (f : St W -> A) : respeita R (fun s => (Val (f s), s)).
Proof. intros s. reflexivity. Qed.

Lemma respeita_bind {A B} (m : M W A) (k : A -> M W B) :
  respeita R m -> (forall a, respeita R (k a)) -> respeita R (bind m k).
Proof.
  intros Hm Hk s. unfold bind. specialize (Hm s).
  destruct (m s) as [[a|e|] s1]; cbn [snd] in *; [|exact Hm|exact Hm].
  etransitivity; [exact Hm|apply Hk].
Qed.

Lemma respeita_try_catch {A} (m : M W A) (h : Exn -> M W A) :
  respeita R m -> (forall e, respeita R (h e)) -> respeita R (try_catch m h).
Proof.
  intros Hm Hh s. unfold try_catch. specialize (Hm s).
  destruct (m s) as [[a|e|] s1]; cbn [snd] in *; [exact Hm| |exact Hm].
  etransitivity; [exact Hm|apply Hh].
Qed.

Lemma respeita_for_each {A X} (body : A -> X -> M W X) :
  (forall a x, respeita R (body a x)) ->
  forall l x, respeita R (for_each l x body).
Proof.
  intros Hb l. induction l as [|a l IH]; intros x; cbn [for_each].
  - apply respeita_ret.
  - apply respeita_bind; [apply Hb|]. intros x'. apply IH.
Qed.

End Respeita.

(** *** The parts of the state *)

Section WithRobo.
Context {W D S : Type} (robo : Robo W).

Lemma soInsere_preorder (temPool : bool) (geradoEm : jsstring) :
  PreOrder (@soInsere W D S temPool geradoEm).
Proof.
  split.
  - intros s. unfold soInsere. repeat split. exists []. rewrite app_nil_r.
    split; [reflexivity|]. split; [constructor|reflexivity].
  - intros a b c (C1 & F1 & P1 & qs1 & Q1 & I1 & N1) (C2 & F2 & P2 & qs2 & Q2 & I2 & N2).
    unfold soInsere. rewrite C2, F2, P2. repeat split; try assumption.
    exists (qs1 ++ qs2). rewrite Q2, Q1, <- app_assoc. split; [reflexivity|].
    split; [apply Forall_app; split; assumption|].
    intros Hp. rewrite N1, N2 by exact Hp. reflexivity.
Qed.

Lemma noPortal_soInsere (temPool : bool) (geradoEm : jsstring) {A} (m : M W A) :
  respeita (@soInsere W D S temPool geradoEm) (noPortal m).
Proof.
  intros s. unfold noPortal, soInsere. cbv zeta. cbn [snd world].
  unfold comPortal. cbn [correio arquivos planilhas banco].
  repeat split. exists []. rewrite app_nil_r.
  split; [reflexivity|]. split; [constructor|reflexivity].
Qed.

Lemma noPortal_fst {A} (m : M W A) (s : St (Mundo W D S)) :
  fst (noPortal m s) = fst (m (mkSt (portal (world s)) (trace s))).
Proof. reflexivity. Qed.

Lemma termina_noPortal {A} (m : M W A) :
  termina m -> termina (@noPortal W D S A m).
Proof. intros H s. rewrite noPortal_fst. apply H. Qed.

Lemma termina_noBanco {A} (m : M (DbState D) A) :
  termina m -> termina (@noBanco W D S A m).
Proof. intros H s. unfold noBanco. cbv zeta. cbn [fst]. apply H. Qed.

Lemma termina_noCorreio {A} (m : M (MailState S) A) :
  termina m -> termina (@noCorreio W D S A m).
Proof. intros H s. unfold noCorreio. cbv zeta. cbn [fst]. apply H. Qed.

End WithRobo.

(** *** The inserts *)

Lemma temData_linhaCsv geradoEm vara dataBR p :
  temData (linhaCsv geradoEm vara dataBR p).
Proof.
  exists dataBR. unfold linhaCsv, get. cbn [list_to_map].
  repeat (rewrite lookup_insert_eq
          || rewrite lookup_insert_ne by (intros H; vm_compute in H; discriminate H)).
  reflexivity.
Qed.

Lemma parte_de_map {A B} (f : A -> B) :
  forall (bs : list (list B)) (l : list A) b,
    List.concat bs = List.map f l -> In b bs -> exists l', b = List.map f l'.
Proof.
  induction bs as [|b0 bs IH]; intros l b Hc Hin; [destruct Hin|].
  cbn [List.concat] in Hc. symmetry in Hc. apply List.map_eq_app in Hc.
  destruct Hc as (l1 & l2 & _ & E1 & E2). destruct Hin as [<-|Hin].
  - exists l1. symmetry. exact E1.
  - apply (IH l2 b); [symmetry; exact E2|exact Hin].
Qed.

Lemma lotes_insercao geradoEm vara dataBR ps :
  Forall (fun b => ehInsercao geradoEm (consultaDoLote b))
         (emLotes 800 (List.map (linhaCsv geradoEm vara dataBR) ps)).
Proof.
  destruct (emLotes_spec 800 ltac:(lia) _ (List.map (linhaCsv geradoEm vara dataBR) ps)
              (le_n _)) as (Hc & Hb & _).
  apply List.Forall_forall. intros b Hin.
  destruct (parte_de_map _ _ _ b Hc Hin) as (ps' & ->).
  exists vara, dataBR, ps'. split; [|reflexivity].
  pose proof (proj1 (List.Forall_forall _ _) Hb _ Hin) as Hl.
  cbv beta in Hl. rewrite List.length_map in Hl. exact Hl.
Qed.

Section Inserts.
Context {W D S : Type} (pool : Pool D).

Lemma insert_efeito geradoEm vara dataBR ps (s : St (Mundo W D S)) :
  let rows := List.map (linhaCsv geradoEm vara dataBR) ps in
  let r := @noBanco W D S _
             (insertRowsMySql (Datatypes.S (length rows)) (Some pool) (Some rows) 800) s in
  soInsere true geradoEm s (snd r) /\ fst r <> NoFuel.
Proof.
  cbv zeta. unfold noBanco. cbv zeta. cbn [fst snd].
  destruct ps as [|p ps].
  - cbn [List.map insertRowsMySql ret fst snd world trace].
    split; [|discriminate]. unfold soInsere, comBanco. cbn [world correio arquivos planilhas banco].
    repeat split. exists []. rewrite app_nil_r.
    split; [reflexivity|]. split; [constructor|reflexivity].
  - set (rows := List.map (linhaCsv geradoEm vara dataBR) (p :: ps)).
    assert (Hd : Forall temData rows).
    { apply List.Forall_forall. intros r Hr. apply List.in_map_iff in Hr.
      destruct Hr as (q & <- & _). apply temData_linhaCsv. }
    destruct (insertRows_loop_spec pool rows 800 ltac:(lia) Hd
                (Datatypes.S (length rows)) 0 0
                (mkSt (banco (world s)) (trace s)) ltac:(lia))
      as (out & s' & k & E & C & T & _ & _ & _ & F & _).
    { change (drop (Z.to_nat 0) rows) with rows. lia. }
    change (drop (Z.to_nat 0) rows) with rows in C.
    assert (E' : insertRowsMySql (Datatypes.S (length rows)) (Some pool) (Some rows) 800
                   (mkSt (banco (world s)) (trace s)) = (out, s')).
    { rewrite <- E. reflexivity. }
    rewrite E'. cbn [fst snd]. split; [|exact F].
    unfold soInsere, comBanco. cbn [world correio arquivos planilhas banco].
    repeat split. eexists. split; [exact C|]. split; [|intros H; discriminate H].
    apply List.Forall_map. apply Forall_take. apply lotes_insercao.
Qed.

End Inserts.

(** *** The date stepper and the choice of the unit return *)

Section Stepper.
Context {W : Type} (robo : Robo W).

Hypothesis clock :
  forall ms w,
    date_now (pagina (portal_site robo)) w + ms
    <= date_now (pagina (portal_site robo))
         (wait_for_timeout (pagina (portal_site robo)) ms w).

Lemma termina_lerTextoDataExibida :
  termina (LinearStepper.lerTextoDataExibida (pagina (portal_site robo))).
Proof.
  intros s. rewrite LinearStepperFacts.lerTextoDataExibida_run. discriminate.
Qed.

Lemma termina_irAteDataPorBotoes fuel dataBR maxSteps :
  (33 <= fuel)%nat ->
  termina (LinearStepper.irAteDataPorBotoes (pagina (portal_site robo))
             fuel dataBR maxSteps).
Proof.
  intros Hf s.
  destruct (LinearStepperFacts.irAteDataPorBotoes_spec (pagina (portal_site robo))
              fuel dataBR maxSteps s)
    as (out & s' & evs & E & _ & _ & _ & _ & _ & _ & _ & G).
  rewrite E. cbn [fst]. apply (G clock Hf).
Qed.

Lemma termina_stepper fuel dataBR maxTentativas :
  (33 <= fuel)%nat ->
  termina (LinearStepper.selecionarDataComConfirmacao (pagina (portal_site robo))
             fuel dataBR maxTentativas).
Proof.
  intros Hf. unfold LinearStepper.selecionarDataComConfirmacao,
    LinearStepper.confirmacao_passo.
  repeat first [apply termina_lerTextoDataExibida
               |apply termina_irAteDataPorBotoes; exact Hf
               |apply termina_fecharOverlays
               |apply termina_waitForTimeout
               |passo_termina].
Qed.

Lemma termina_matSelectChoose sel texto opts :
  termina (matSelectChoose robo sel texto opts).
Proof.
  unfold matSelectChoose, openMatSelect, clickMatOptionByText. cbv zeta.
  repeat passo_termina.
Qed.

Lemma termina_selecionarUnidade2 fuel varaLabel :
  (33 <= fuel)%nat -> termina (Pipeline.selecionarUnidade robo fuel varaLabel).
Proof.
  intros Hf. unfold Pipeline.selecionarUnidade, waitMatSelectEnabled. cbv zeta.
  repeat first [apply termina_matSelectChoose
               |apply termina_stepper; exact Hf
               |passo_termina].
Qed.

End Stepper.

(** *** The collection *)

Section Coleta.
Context {W D S : Type} (robo : Robo W) (mailer : Mailer S) (env : Env).

Lemma main_data_soInsere fuel (pool : option (Pool D)) geradoEm vara dataBR rowsCsv :
  respeita (@soInsere W D S (temPool pool) geradoEm)
           (Pipeline.main_data robo fuel pool geradoEm vara dataBR rowsCsv).
Proof.
  pose proof (@soInsere_preorder W D S (temPool pool) geradoEm) as HR.
  unfold Pipeline.main_data.
  apply (respeita_bind _ HR); [apply noPortal_soInsere|]. intros ok.
  destruct ok; cbn [negb]; [|apply (respeita_ret _ HR)].
  apply (respeita_bind _ HR); [apply noPortal_soInsere|]. intros _.
  apply (respeita_bind _ HR); [apply noPortal_soInsere|]. intros ps. cbv zeta.
  destruct pool as [p|]; [|apply (respeita_ret _ HR)].
  destruct (negb (Nat.eqb (length ps) 0)); [|apply (respeita_ret _ HR)].
  apply (respeita_bind _ HR); [|intros r; apply (respeita_ret _ HR)].
  intros s. apply (insert_efeito p geradoEm vara dataBR ps s).
Qed.

Lemma main_vara_soInsere fuel (pool : option (Pool D)) geradoEm datas vara rowsCsv :
  respeita (@soInsere W D S (temPool pool) geradoEm)
           (Pipeline.main_vara robo fuel pool geradoEm datas vara rowsCsv).
Proof.
  pose proof (@soInsere_preorder W D S (temPool pool) geradoEm) as HR.
  unfold Pipeline.main_vara.
  apply (respeita_bind _ HR); [apply noPortal_soInsere|]. intros _.
  apply (respeita_for_each _ HR). intros d rows. apply main_data_soInsere.
Qed.

Hypothesis clock :
  forall ms w,
    date_now (pagina (portal_site robo)) w + ms
    <= date_now (pagina (portal_site robo))
         (wait_for_timeout (pagina (portal_site robo)) ms w).

Lemma termina_main_data fuel (pool : option (Pool D)) geradoEm vara dataBR rowsCsv :
  (33 <= fuel)%nat ->
  termina (@Pipeline.main_data W D S robo fuel pool geradoEm vara dataBR rowsCsv).
Proof.
  intros Hf. unfold Pipeline.main_data.
  apply termina_bind; [apply termina_noPortal, termina_stepper; assumption|]. intros ok.
  destruct ok; cbn [negb]; [|apply termina_ret].
  apply termina_bind; [apply termina_noPortal, termina_esperarPautaEstabilizar|]. intros _.
  apply termina_bind; [apply termina_noPortal, termina_extrairProcessosDaPauta|].
  intros ps. cbv zeta.
  destruct pool as [p|]; [|apply termina_ret].
  destruct (negb (Nat.eqb (length ps) 0)); [|apply termina_ret].
  apply termina_bind; [|intros r; apply termina_ret].
  intros s. apply (insert_efeito p geradoEm vara dataBR ps s).
Qed.

Lemma termina_main_vara2 fuel (pool : option (Pool D)) geradoEm datas vara rowsCsv :
  (33 <= fuel)%nat ->
  termina (@Pipeline.main_vara W D S robo fuel pool geradoEm datas vara rowsCsv).
Proof.
  intros Hf. unfold Pipeline.main_vara.
  apply termina_bind;
    [apply termina_noPortal, termina_selecionarUnidade2; assumption|]. intros _.
  apply termina_for_each. intros d rows. apply termina_main_data. exact Hf.
Qed.

End Coleta.

(** *** The mail *)

Section Email.
Context {W D S : Type} (mailer : Mailer S) (env : Env).

Lemma email_efeito subject text attachmentPath (s : St (Mundo W D S)) :
  let r := @noCorreio W D S _
             (sendEmailWithAttachment mailer env subject text attachmentPath) s in
  banco (world (snd r)) = banco (world s)
  /\ arquivos (world (snd r)) = arquivos (world s)
  /\ planilhas (world (snd r)) = planilhas (world s)
  /\ fst r <> NoFuel
  /\ (enviados (correio (world (snd r))) = enviados (correio (world s))
      \/ exists t m,
           enviados (correio (world (snd r))) = enviados (correio (world s)) ++ [(t, m)]
           /\ att_path m = attachmentPath /\ msg_text m = text).
Proof.
  cbv zeta. unfold noCorreio. cbv zeta. cbn [fst snd world].
  unfold comCorreio. cbn [banco arquivos planilhas correio].
  split; [reflexivity|]. split; [reflexivity|]. split; [reflexivity|].
  unfold sendEmailWithAttachment. cbv zeta.
  match goal with |- context [if ?c then _ else _] => destruct c end.
  - cbn [throw fst snd world]. split; [discriminate|left; reflexivity].
  - unfold bind, sendMail. cbn [world trace].
    match goal with |- context [send_mail mailer ?t ?m ?x] =>
      destruct (send_mail mailer t m x) as [[i|e] x'] end;
      cbn [settle ret fst snd world enviados]; (split; [discriminate|]);
      right; eexists; eexists; (split; [reflexivity|]); split; reflexivity.
Qed.

End Email.

(** *** The [try] block *)

Section Tentativa.
Context {W D S : Type} (robo : Robo W) (mailer : Mailer S) (env : Env).

Lemma efeito_de_soInsere (pool : option (Pool D)) geradoEm (s s' : St (Mundo W D S)) :
  soInsere (temPool pool) geradoEm s s' -> efeitoDaTentativa robo pool geradoEm s s'.
Proof.
  intros (C & F & P & qs & Q & I & N). split.
  - exists qs. split; [exact Q|]. split; [exact I|]. intros ->. apply N. reflexivity.
  - left. rewrite C. split; [exact F|]. split; [exact P|reflexivity].
Qed.

Lemma passo_prefixo {A B} (pool : option (Pool D)) geradoEm
    (m : M (Mundo W D S) A) (k : A -> M (Mundo W D S) B) s0 s :
  soInsere (temPool pool) geradoEm s0 s ->
  respeita (soInsere (temPool pool) geradoEm) m ->
  (forall a s1, soInsere (temPool pool) geradoEm s0 s1 ->
                efeitoDaTentativa robo pool geradoEm s0 (snd (k a s1))) ->
  efeitoDaTentativa robo pool geradoEm s0 (snd (bind m k s)).
Proof.
  intros H0 Hm Hk. pose proof (@soInsere_preorder W D S (temPool pool) geradoEm) as HR.
  unfold bind. specialize (Hm s). destruct (m s) as [[a|e|] s1]; cbn [snd] in *.
  - apply Hk. etransitivity; eassumption.
  - apply efeito_de_soInsere. etransitivity; eassumption.
  - apply efeito_de_soInsere. etransitivity; eassumption.
Qed.

Lemma main_try_efeito fuel (pool : option (Pool D)) geradoEm (s : St (Mundo W D S)) :
  efeitoDaTentativa robo pool geradoEm s
    (snd (main_try robo mailer env fuel pool geradoEm s)).
Proof.
  pose proof (@soInsere_preorder W D S (temPool pool) geradoEm) as HR.
  unfold main_try. cbv zeta.
  apply passo_prefixo; [reflexivity|apply noPortal_soInsere|]. intros _ s1 H1.
  apply passo_prefixo; [exact H1|apply noPortal_soInsere|]. intros _ s2 H2.
  apply passo_prefixo; [exact H2|apply noPortal_soInsere|]. intros varas s3 H3.
  apply passo_prefixo; [exact H3|apply (respeita_read _ HR)|]. intros hoje s4 H4.
  destruct (gerarDatasProximosDoisMeses fuel _ hoje) as [datas|];
    [|apply efeito_de_soInsere; exact H4].
  apply passo_prefixo;
    [exact H4
    |apply (respeita_for_each _ HR); intros v rows; apply main_vara_soInsere|].
  intros rows s5 (C & F & P & qs & Q & I & N).
  unfold bind at 1. cbv beta iota.
  unfold bind at 1. unfold gravarCsv at 1. cbv beta iota.
  unfold bind at 1. unfold writeXlsx at 1. cbv beta iota zeta. cbn [world trace portal banco correio arquivos planilhas].
  set (stamp := date_now (pagina (portal_site robo)) (portal (world s5))).
  set (wb := workbookDe (new_date (portal_site robo) (portal (world s5))) headersCsv rows).
  destruct (xlsx_write_file robo (out_path_xlsx robo stamp) wb (portal (world s5)))
    as [[u|e] w'] eqn:Ex; cbn [settle fst snd].
  - unfold bind at 1. cbv beta iota.
    unfold bind at 1.
    match goal with
    |- context [noCorreio (sendEmailWithAttachment _ _ ?sub ?txt ?pth) ?st] =>
      pose proof (email_efeito mailer env sub txt pth st) as Hm;
      cbv zeta in Hm;
      destruct (noCorreio (sendEmailWithAttachment mailer env sub txt pth) st)
        as [[i|e|] s6]
    end; cbn [fst snd world banco correio arquivos planilhas ret] in *;
      destruct Hm as (Mb & Mf & Mp & _ & Me); (split;
        [exists qs; rewrite Mb; split; [exact Q|]; split; [exact I|];
         intros ->; apply N; reflexivity|]);
      right; exists stamp, rows, wb; rewrite Mf, Mp, F, P;
      (split; [reflexivity|]); (split; [reflexivity|]); (split; [reflexivity|]);
      (destruct Me as [Me|(t & m & Me & Ma & Mt)];
         [left; rewrite Me, C; reflexivity
         |right; exists (portal (world s5)), t, m; rewrite Ex, Me, C; destruct u;
          repeat split; first [reflexivity|assumption]]).
  - cbn [world banco correio arquivos planilhas]. split.
    + exists qs. split; [exact Q|]. split; [exact I|]. intros ->. apply N. reflexivity.
    + right. exists stamp, rows, wb. rewrite F, P, C.
      split; [reflexivity|]. split; [reflexivity|]. split; [reflexivity|].
      left. reflexivity.
Qed.

End Tentativa.

(** *** The run returns *)

Section Retorno.
Context {W D S : Type} (robo : Robo W) (mailer : Mailer S) (env : Env).

Hypothesis clock :
  forall ms w,
    date_now (pagina (portal_site robo)) w + ms
    <= date_now (pagina (portal_site robo))
         (wait_for_timeout (pagina (portal_site robo)) ms w).

Hypothesis range : forall w, 0 <= new_date (portal_site robo) w < ano9999.

Hypothesis regular : zonaRegular (zona (portal_site robo)).

Lemma termina_main_try2 fuel (pool : option (Pool D)) geradoEm :
  (67 <= fuel)%nat ->
  termina (@main_try W D S robo mailer env fuel pool geradoEm).
Proof.
  intros Hf. unfold main_try. cbv zeta.
  apply termina_bind; [apply termina_noPortal, termina_abrirJTeSelecionarTRT2|]. intros _.
  apply termina_bind; [apply termina_noPortal, termina_abrirModuloPauta|]. intros _.
  apply termina_bind; [apply termina_noPortal, termina_listarVaras|]. intros varas.
  intros s. unfold bind at 1. cbn [fst].
  destruct (gerarDatas_retorna (zona (portal_site robo)) regular
              (new_date (portal_site robo) (portal (world s))) fuel)
    as [datas ->]; [|exact Hf|].
  2:{ apply termina_bind.
    + apply termina_for_each. intros vara rows.
      apply termina_main_vara2; [exact clock|lia].
    + intros rows. apply termina_bind; [apply termina_read|]. intros stamp.
      apply termina_bind; [intros s'; discriminate|]. intros _.
      apply termina_bind.
      { intros s'. unfold writeXlsx. cbv zeta. cbn [fst].
        destruct (fst (xlsx_write_file robo _ _ _)); discriminate. }
      intros _. apply termina_bind; [apply termina_read|]. intros agora.
      apply termina_bind; [|intros info; apply termina_ret].
      intros s'. apply email_efeito. }
  specialize (range (portal (world s))). unfold ano9999, Day, msPerDay in *. zdiv.
Qed.

End Retorno.

(** *** Opening the pool *)

Lemma initDbIfEnabled_val {D : Type} (env : Env) (driver : PoolConfig -> Pool D)
    (s : St (DbState D)) :
  exists pool, fst (initDbIfEnabled env driver s) = Val pool.
Proof.
  unfold initDbIfEnabled. cbv zeta.
  destruct (isTrue (getEnv env (lit "DB_ENABLED") (VStr (lit "false")))); cbn [negb].
  2:{ exists None. reflexivity. }
  set (pool := driver (openDb env)).
  unfold try_catch at 1. unfold bind at 1. rewrite poolQuery_run.
  destruct (fst (pool_query pool (lit "SELECT 1") [] (db (world s)))) as [r1|e1];
    cbn [settle].
  - unfold ensureSchema. unfold bind at 1. unfold bind at 1. rewrite poolQuery_run.
    cbn [world db consultas trace].
    destruct (fst (pool_query pool sqlSchema [] _)) as [r2|e2]; cbn [settle].
    + eexists. reflexivity.
    + unfold bind at 1. unfold try_catch at 1. rewrite poolEnd_run.
      destruct (fst (pool_end pool _)); cbn [settle]; eexists; reflexivity.
  - unfold bind at 1. unfold try_catch at 1. rewrite poolEnd_run.
    destruct (fst (pool_end pool _)); cbn [settle]; eexists; reflexivity.
Qed.

(** *** The end of the run *)

Lemma engole {W : Type} (m : M W unit) (s : St W) :
  try_catch m (fun _ => ret tt) s
  = (match fst (m s) with NoFuel => NoFuel | _ => Val tt end, snd (m s)).
Proof. unfold try_catch, ret. destruct (m s) as [[[]|e|] s']; reflexivity. Qed.

Lemma bind_engole {W B : Type} (m : M W unit) (k : M W B) (s : St W) :
  bind (try_catch m (fun _ => ret tt)) (fun _ => k) s
  = match fst (m s) with
    | NoFuel => (NoFuel, snd (m s))
    | _ => k (snd (m s))
    end.
Proof. unfold bind. rewrite engole. destruct (fst (m s)); reflexivity. Qed.

Lemma bind_read {W A B : Type} (f : St W -> A) (k : A -> M W B) (s : St W) :
  bind (fun s => (Val (f s), s)) k s = k (f s) s.
Proof. reflexivity. Qed.

Lemma fecho_efeito {W D S : Type} (pool : option (Pool D)) (s : St (Mundo W D S)) :
  let r := try_catch
             (match pool with
              | Some p => noBanco (poolEnd p)
              | None => ret tt
              end)
             (fun _ => ret tt) s in
  fst r = Val tt
  /\ consultas (banco (world (snd r)))
     = consultas (banco (world s))
       ++ (match pool with Some _ => [DbEnd] | None => [] end)
  /\ arquivos (world (snd r)) = arquivos (world s)
  /\ planilhas (world (snd r)) = planilhas (world s)
  /\ correio (world (snd r)) = correio (world s).
Proof.
  cbv zeta. rewrite engole. destruct pool as [p|].
  - unfold noBanco. cbv zeta. rewrite poolEnd_run. cbn [fst snd world trace].
    unfold comBanco. cbn [banco arquivos planilhas correio consultas].
    split; [destruct (fst (pool_end p _)); reflexivity|]. repeat split; reflexivity.
  - cbn [ret fst snd]. rewrite app_nil_r. repeat split; reflexivity.
Qed.

(** X26.  The run of the second variant.  Opening the pool never
    throws.  When the browser cannot be launched main throws, and a
    pool that was opened is left open.  Once the browser is launched
    main never throws; with a clock that a wait moves on, between 1970
    and the year 9999, in a time zone that keeps the day, it returns.
    When it returns, the database has
    received, after the queries of the opening, only inserts -- each of
    the rows of at most 800 entries of one unit and one date, none
    without a pool -- and then the closing of the pool, which is the
    last call made on it.  Either no file was written and no message
    sent, or the CSV file and the workbook were written with the same
    rows; at most one message is sent, and only after the workbook was
    accepted, with the workbook attached and the number of rows in its
    text.  Rows already inserted stay in the database when a later step
    fails. *)
Theorem main_lifecycle {W D S : Type} (robo : Robo W) (mailer : Mailer S) (env : Env)
    (driver : PoolConfig -> Pool D) (fuel : nat) (s : St (Mundo W D S)) :
  let r := Pipeline.main robo mailer env fuel driver s in
  let fim := world (snd r) in
  exists pool s1,
    noBanco (initDbIfEnabled env driver) s = (Val pool, s1)
    /\ let lz := launch robo (portal (world s1)) in
       let geradoEm := iso_now (portal_site robo) (snd lz) in
       (forall e, fst lz = Rejected e ->
          fst r = Exc e
          /\ banco fim = banco (world s1)
          /\ correio fim = correio (world s)
          /\ arquivos fim = arquivos (world s)
          /\ planilhas fim = planilhas (world s))
       /\ (fst lz = Fulfilled tt ->
           (forall e, fst r <> Exc e)
           /\ ((forall ms w,
                  date_now (pagina (portal_site robo)) w + ms
                  <= date_now (pagina (portal_site robo))
                       (wait_for_timeout (pagina (portal_site robo)) ms w)) ->
               (forall w, 0 <= new_date (portal_site robo) w < ano9999) ->
               zonaRegular (zona (portal_site robo)) ->
               (67 <= fuel)%nat ->
               fst r = Val tt)
           /\ (fst r = Val tt ->
               (exists qs,
                  consultas (banco fim)
                  = consultas (banco (world s1)) ++ qs
                    ++ (match pool with Some _ => [DbEnd] | None => [] end)
                  /\ Forall (ehInsercao geradoEm) qs
                  /\ (pool = None -> qs = []))
               /\ ((arquivos fim = arquivos (world s)
                    /\ planilhas fim = planilhas (world s)
                    /\ enviados (correio fim) = enviados (correio (world s)))
                   \/ exists stamp rows wb,
                        arquivos fim
                        = writeCsv (out_path (portal_site robo) stamp) headersCsv rows
                            (arquivos (world s))
                        /\ planilhas fim
                           = planilhas (world s) ++ [(out_path_xlsx robo stamp, wb)]
                        /\ ws_rows wb = rows
                        /\ (enviados (correio fim) = enviados (correio (world s))
                            \/ exists w t m,
                                 fst (xlsx_write_file robo (out_path_xlsx robo stamp) wb w)
                                 = Fulfilled tt
                                 /\ enviados (correio fim)
                                    = enviados (correio (world s)) ++ [(t, m)]
                                 /\ att_path m = out_path_xlsx robo stamp
                                 /\ msg_text m = textoDoEmail (length rows) geradoEm)))).
Proof.
  cbv zeta. unfold Pipeline.main.
  destruct (initDbIfEnabled_val env driver (mkSt (banco (world s)) (trace s)))
    as (pool & Ei).
  set (r0 := initDbIfEnabled env driver (mkSt (banco (world s)) (trace s))) in *.
  set (s1 := mkSt (comBanco (world (snd r0)) (world s)) (trace (snd r0))).
  assert (E0 : noBanco (initDbIfEnabled env driver) s = (Val pool, s1)).
  { unfold noBanco. cbv zeta. fold r0. rewrite Ei. reflexivity. }
  exists pool, s1. split; [exact E0|].
  rewrite (bind_val _ _ _ _ _ E0).
  change (portal (world s1)) with (portal (world s)).
  destruct (launch robo (portal (world s))) as [[u|e] w'] eqn:El; cbn [fst snd].
  - split; [intros e H; discriminate H|]. intros _.
    set (s2 := mkSt (comPortal w' (world s1)) (trace s1)).
    assert (E1 : @noPortal W D S _ (act (launch robo)) s1 = (Val u, s2)).
    { unfold noPortal, act. cbv zeta. unfold s1. cbn [world trace].
      change (portal (comBanco (world (snd r0)) (world s))) with (portal (world s)).
      rewrite El. reflexivity. }
    rewrite (bind_val _ _ _ _ _ E1).
    rewrite (bind_read (fun s => iso_now (portal_site robo) (portal (world s)))).
    change (portal (world s2)) with w'.
    set (geradoEm := iso_now (portal_site robo) w').
    pose proof (main_try_efeito robo mailer env fuel pool geradoEm s2) as He.
    pose proof (fun c rg zr f =>
                  termina_main_try2 robo mailer env c rg zr fuel pool geradoEm f s2) as Ht.
    pose proof (@fecho_efeito W D S pool) as Hf.
    rewrite bind_engole.
    destruct (main_try robo mailer env fuel pool geradoEm s2) as [[u2|e2|] s3];
      cbn [fst snd] in *.
    + specialize (Hf s3). cbv zeta in Hf.
      destruct Hf as (F1 & F2 & F3 & F4 & F5).
      split; [intros e H; rewrite F1 in H; discriminate H|].
      split; [intros _ _ _ _; exact F1|]. intros _.
      destruct He as ((qs & Q & I & N) & Hfiles).
      split.
      * exists qs. rewrite F2, Q, <- app_assoc. repeat split; assumption.
      * rewrite F3, F4, F5. exact Hfiles.
    + specialize (Hf s3). cbv zeta in Hf.
      destruct Hf as (F1 & F2 & F3 & F4 & F5).
      split; [intros e H; rewrite F1 in H; discriminate H|].
      split; [intros _ _ _ _; exact F1|]. intros _.
      destruct He as ((qs & Q & I & N) & Hfiles).
      split.
      * exists qs. rewrite F2, Q, <- app_assoc. repeat split; assumption.
      * rewrite F3, F4, F5. exact Hfiles.
    + split; [intros e H; discriminate H|].
      split; [intros c rg zr f; exfalso; apply (Ht c rg zr f); reflexivity|].
      intros H. discriminate H.
  - split; [|intros H; discriminate H]. intros e0 H. injection H as <-.
    assert (E1 : @noPortal W D S _ (act (launch robo)) s1
                 = (Exc e, mkSt (comPortal w' (world s1)) (trace s1))).
    { unfold noPortal, act. cbv zeta. unfold s1. cbn [world trace].
      change (portal (comBanco (world (snd r0)) (world s))) with (portal (world s)).
      rewrite El. reflexivity. }
    rewrite (bind_exc _ _ _ _ _ E1). cbn [fst snd world].
    unfold comPortal. cbn [banco correio arquivos planilhas].
    repeat split; reflexivity.
Qed.

Lemma main_lifecycle_witness :
  let r := Pipeline.main roboSemNavegador mailerExemplo envComBanco 67
             (fun _ => poolAceita) mundoVazio in
  fst r = Exc (lit "browserType.launch: Executable doesn't exist")
  /\ consultas (banco (world (snd r)))
     = [DbQuery (lit "SELECT 1") []; DbQuery sqlSchema []].
Proof.
  cbv zeta.
  destruct (main_lifecycle roboSemNavegador mailerExemplo envComBanco
              (fun _ => poolAceita) 67 mundoVazio) as (pool & s1 & E0 & Hrej & _).
  cbv zeta in Hrej.
  destruct (Hrej _ eq_refl) as (Hx & Hb & _).
  split; [exact Hx|]. rewrite Hb.
  assert (E1 : consultas (banco (world (snd
                 (@noBanco unit unit unit _
                    (initDbIfEnabled envComBanco (fun _ => poolAceita)) mundoVazio))))
               = [DbQuery (lit "SELECT 1") []; DbQuery sqlSchema []]).
  { vm_compute. reflexivity. }
  rewrite E0 in E1. exact E1.
Defined.

End PipelineFacts.

(** ** The effort of the calendar variant *)

Module GridEffortFacts.
Import Dates Overlay CalendarGrid AsyncFacts.

Section Gasta.
Context {W : Type} (p : Event -> bool).

Lemma gasta_mono {A} (n n' : nat) (m : M W A) :
  (n <= n')%nat -> gasta p n m -> gasta p n' m.
Proof.
  intros Hn Hm s. destruct (Hm s) as (evs & E & C). exists evs. split; [exact E|lia].
Qed.

Lemma gasta_ret {A} (a : A) : gasta p 0 (@ret W A a).
Proof. intros s. exists []. rewrite app_nil_r. split; [reflexivity|apply le_n]. Qed.

Lemma gasta_throw {A} (e : Exn) : gasta p 0 (@throw W A e).
Proof. intros s. exists []. rewrite app_nil_r. split; [reflexivity|apply le_n]. Qed.

Lemma gasta_read {A} (f : St W -> A) : gasta p 0 (fun s => (Val (f s), s)).
Proof. intros s. exists []. rewrite app_nil_r. split; [reflexivity|apply le_n]. Qed.

Lemma gasta_bind {A B} (n1 n2 : nat) (m : M W A) (k : A -> M W B) :
  gasta p n1 m -> (forall a, gasta p n2 (k a)) -> gasta p (n1 + n2) (bind m k).
Proof.
  intros Hm Hk s. unfold bind. destruct (Hm s) as (evs1 & E1 & C1).
  destruct (m s) as [[a|e|] s1]; cbn [snd] in *.
  - destruct (Hk a s1) as (evs2 & E2 & C2). exists (evs1 ++ evs2).
    rewrite E2, E1, <- app_assoc, contar_app_events. split; [reflexivity|lia].
  - exists evs1. split; [exact E1|lia].
  - exists evs1. split; [exact E1|lia].
Qed.

Lemma gasta_try_catch {A} (n1 n2 : nat) (m : M W A) (h : Exn -> M W A) :
  gasta p n1 m -> (forall e, gasta p n2 (h e)) -> gasta p (n1 + n2) (try_catch m h).
Proof.
  intros Hm Hh s. unfold try_catch. destruct (Hm s) as (evs1 & E1 & C1).
  destruct (m s) as [[a|e|] s1]; cbn [snd] in *.
  - exists evs1. split; [exact E1|lia].
  - destruct (Hh e s1) as (evs2 & E2 & C2). exists (evs1 ++ evs2).
    rewrite E2, E1, <- app_assoc, contar_app_events. split; [reflexivity|lia].
  - exists evs1. split; [exact E1|lia].
Qed.

Lemma gasta_catch_with {A} (n : nat) (m : M W A) (d : A) :
  gasta p n m -> gasta p n (catch_with m d).
Proof.
  intros Hm. unfold catch_with. apply (gasta_mono (n + 0)); [lia|].
  apply gasta_try_catch; [exact Hm|]. intros _. apply gasta_ret.
Qed.

Lemma gasta_observe {A} (e : Event) (f : W -> Settled A) :
  gasta p (if p e then 1 else 0) (observe e f).
Proof.
  intros s. exists [e]. split; [reflexivity|]. unfold contar. cbn [List.filter].
  destruct (p e); apply le_n.
Qed.

Lemma gasta_perform (e : Event) (f : W -> Settled unit * W) :
  gasta p (if p e then 1 else 0) (perform e f).
Proof.
  intros s. exists [e]. unfold perform. destruct (f (world s)) as [r w'].
  split; [reflexivity|]. unfold contar. cbn [List.filter].
  destruct (p e); apply le_n.
Qed.

Lemma gasta_observe0 {A} (e : Event) (f : W -> Settled A) :
  p e = false -> gasta p 0 (observe e f).
Proof. intros H. pose proof (gasta_observe e f) as G. rewrite H in G. exact G. Qed.

Lemma gasta_observe1 {A} (e : Event) (f : W -> Settled A) : gasta p 1 (observe e f).
Proof.
  apply (gasta_mono (if p e then 1 else 0)%nat); [destruct (p e); lia|].
  apply gasta_observe.
Qed.

Lemma gasta_perform0 (e : Event) (f : W -> Settled unit * W) :
  p e = false -> gasta p 0 (perform e f).
Proof. intros H. pose proof (gasta_perform e f) as G. rewrite H in G. exact G. Qed.

Lemma gasta_perform1 (e : Event) (f : W -> Settled unit * W) : gasta p 1 (perform e f).
Proof.
  apply (gasta_mono (if p e then 1 else 0)%nat); [destruct (p e); lia|].
  apply gasta_perform.
Qed.

Lemma gasta_for_range {X A} (c : nat) (body : Z -> X -> M W (X + A)) :
  (forall i x, gasta p c (body i x)) ->
  forall n i x, gasta p (n * c) (for_range n i x body).
Proof.
  intros Hb n. induction n as [|n IH]; intros i x; cbn [for_range].
  - apply gasta_ret.
  - change (Datatypes.S n * c)%nat with (c + n * c)%nat.
    apply gasta_bind; [apply Hb|]. intros [x'|a]; [apply IH|].
    apply (gasta_mono 0); [lia|apply gasta_ret].
Qed.

Lemma gasta_if {A} (n1 n2 : nat) (c : bool) (a b : M W A) :
  gasta p n1 a -> gasta p n2 b -> gasta p (Nat.max n1 n2) (if c then a else b).
Proof.
  intros Ha Hb. destruct c; [apply (gasta_mono n1)|apply (gasta_mono n2)];
    try assumption; lia.
Qed.

Lemma gasta_option {A B} (n1 n2 : nat) (x : option B) (f : B -> M W A) (b : M W A) :
  (forall y, gasta p n1 (f y)) -> gasta p n2 b ->
  gasta p (Nat.max n1 n2) (match x with Some y => f y | None => b end).
Proof.
  intros Ha Hb. destruct x as [y|]; [apply (gasta_mono n1)|apply (gasta_mono n2)];
    try apply Ha; try assumption; lia.
Qed.

Lemma gasta_sum {A B C} (n1 n2 : nat) (x : B + C) (f : B -> M W A) (g : C -> M W A) :
  (forall y, gasta p n1 (f y)) -> (forall z, gasta p n2 (g z)) ->
  gasta p (Nat.max n1 n2) (match x with inl y => f y | inr z => g z end).
Proof.
  intros Ha Hb. destruct x as [y|z]; [apply (gasta_mono n1)|apply (gasta_mono n2)];
    try apply Ha; try apply Hb; lia.
Qed.

End Gasta.

(** One step of a proof of a bound: the goal follows the shape of the
    function, the bound is the sum of the bounds of the parts, and at a
    branching the greater of the bounds of the branches. *)
Ltac passo_gasta :=
  lazymatch goal with
  | |- gasta _ _ (bind _ _) => eapply gasta_bind; [|intros ?]
  | |- gasta _ _ (try_catch _ _) => eapply gasta_try_catch; [|intros ?]
  | |- gasta _ _ (catch_with _ _) => eapply gasta_catch_with
  | |- gasta _ _ (ret _) => eapply gasta_ret
  | |- gasta _ _ (throw _) => eapply gasta_throw
  | |- gasta _ _ (observe _ _) =>
      first [eapply gasta_observe0; reflexivity|eapply gasta_observe1]
  | |- gasta _ _ (perform _ _) =>
      first [eapply gasta_perform0; reflexivity|eapply gasta_perform1]
  | |- gasta _ _ (domQuery _) => eapply gasta_read
  | |- gasta _ _ (for_range _ _ _ _) => eapply gasta_for_range; intros ? ?
  | |- gasta _ _ (match _ with Some _ => _ | None => _ end) =>
      eapply gasta_option; [intros ?|]
  | |- gasta _ _ (match _ with inl _ => _ | inr _ => _ end) =>
      eapply gasta_sum; intros ?
  | |- gasta _ _ (match _ with true => _ | false => _ end) => eapply gasta_if
  end.

Section WithPage.
Context {W : Type} (page : Session W).

(** The bound a proof has built, against the bound to prove. *)
Ltac fecha_limite :=
  repeat match goal with
         | |- context [Z.to_nat ?z] =>
             lazymatch z with
             | Zpos _ => fail
             | _ => let k := fresh "k" in
                    let Ek := fresh "Ek" in
                    remember (Z.to_nat z) as k eqn:Ek
             end
         end;
  cbn; lia.

Ltac limite :=
  eapply gasta_mono; cycle 1;
  [unfold CalendarGrid.selecionarDataComConfirmacao, for_le, confirmacao_passo,
     selecionarDataNoCalendario, lerDataVisivel, clicarDiaNoCalendario, evaluate,
     clicarDia_script, navegarParaMes, for_lt, navegarParaMes_passo,
     getCalendarHeaderDateApprox, fecharOverlays, keyboardPressEscape,
     waitForTimeout, isVisible, locatorClick, waitFor, textContent, innerText,
     domClick;
   cbv zeta; repeat passo_gasta
  |fecha_limite].

Lemma gasta_navegarParaMes targetDate maxSteps :
  gasta ehPassoDeMes (Z.to_nat maxSteps) (navegarParaMes page targetDate maxSteps).
Proof. limite. Qed.

Lemma gasta_confirmacao_meses dataBR maxTentativas :
  gasta ehPassoDeMes (36 * Z.to_nat maxTentativas)
        (CalendarGrid.selecionarDataComConfirmacao page dataBR maxTentativas).
Proof. limite. Qed.

Lemma gasta_confirmacao_dias dataBR maxTentativas :
  gasta ehCliqueDeDia (Z.to_nat maxTentativas)
        (CalendarGrid.selecionarDataComConfirmacao page dataBR maxTentativas).
Proof. limite. Qed.

Lemma gasta_confirmacao_aberturas dataBR maxTentativas :
  gasta ehAbertura (Z.to_nat maxTentativas)
        (CalendarGrid.selecionarDataComConfirmacao page dataBR maxTentativas).
Proof. limite. Qed.

End WithPage.

(** X28.  The confirmation loop of the calendar variant always returns
    or throws, and however it ends its effort is bounded by the number
    of attempts: it has opened the calendar at most maxTentativas
    times, clicked at most maxTentativas days of the grid -- one per
    attempt --, and clicked the two month controls at most 36 times per
    attempt. *)
Theorem selecionarDataComConfirmacao_grid_effort {W : Type} (page : Session W)
    (dataBR : jsstring) (maxTentativas : Z) (s : St W) :
  let r := CalendarGrid.selecionarDataComConfirmacao page dataBR maxTentativas s in
  fst r <> NoFuel
  /\ exists evs,
       trace (snd r) = trace s ++ evs
       /\ (contar ehAbertura evs <= Z.to_nat maxTentativas)%nat
       /\ (contar ehCliqueDeDia evs <= Z.to_nat maxTentativas)%nat
       /\ (contar ehPassoDeMes evs <= 36 * Z.to_nat maxTentativas)%nat.
Proof.
  cbv zeta. split.
  - apply ReturnFacts.termina_selecionarDataComConfirmacao.
  - destruct (gasta_confirmacao_aberturas page dataBR maxTentativas s) as (e1 & E1 & C1).
    destruct (gasta_confirmacao_dias page dataBR maxTentativas s) as (e2 & E2 & C2).
    destruct (gasta_confirmacao_meses page dataBR maxTentativas s) as (e3 & E3 & C3).
    assert (e2 = e1) by (apply (app_inv_head (trace s)); congruence).
    assert (e3 = e1) by (apply (app_inv_head (trace s)); congruence).
    subst e2 e3. exists e1. repeat split; assumption.
Qed.

End GridEffortFacts.
